(** * CookieVault: the encrypted backup / restore pipeline

    A shallow embedding of the backup and restore code of the extension
    (popup.js, backup-core.js, the enhanced-features module and the settings
    module) together with the properties of the pipeline.

    Conventions of the embedding:
    - a JavaScript string is a [string], read as a sequence of code units
      below 256 ([charCodes]); the hash loops themselves are stated over
      arbitrary lists of code units;
    - a JavaScript number is held as the decimal that it is written as
      ([Num.t]): an integral number, or a number with a fraction such as the
      expiration date of a cookie; the rounding of a decimal to the nearest
      double is not modelled; counters and lengths are a [Z] or a [nat];
    - a 32-bit integer is a [Z] with the wrap-around of [ToInt32] written out;
    - a value produced by [JSON.parse] is a [json]; the members of an
      object are in the order in which the language lists its keys;
    - calls to the browser and to the user interface are recorded as events
      of a trace, in the order in which the code issues them. *)

From Stdlib Require Import ZArith List String Ascii Bool Lia Arith.
Import ListNotations.

Local Open Scope string_scope.
Local Open Scope Z_scope.

(* ===================================================================== *)
(** * 32-bit integers and number rendering *)
(* ===================================================================== *)

Module Int32.

(** [ToInt32] of ECMAScript on an integral number. *)
Definition toInt32 (x : Z) : Z := (x + 2 ^ 31) mod 2 ^ 32 - 2 ^ 31.

(** [x << n] : the left operand is converted with [ToInt32], shifted, and
    the result is wrapped again. *)
Definition shl (x n : Z) : Z := toInt32 (Z.shiftl (toInt32 x) n).

(** [x & y] on numbers. *)
Definition and (x y : Z) : Z := Z.land (toInt32 x) (toInt32 y).

Definition in_range (x : Z) : Prop := - 2 ^ 31 <= x < 2 ^ 31.

End Int32.

Module Radix16.

Definition digit (d : Z) : ascii :=
  match d with
  | 0 => "0" | 1 => "1" | 2 => "2" | 3 => "3" | 4 => "4" | 5 => "5"
  | 6 => "6" | 7 => "7" | 8 => "8" | 9 => "9" | 10 => "a" | 11 => "b"
  | 12 => "c" | 13 => "d" | 14 => "e" | _ => "f"
  end%char.

(** Most significant digit first; [fuel] bounds the number of digits. *)
Fixpoint digits (fuel : nat) (n : Z) (acc : string) : string :=
  match fuel with
  | O => String (digit (n mod 16)) acc
  | S f =>
      if n <? 16 then String (digit n) acc
      else digits f (n / 16) (String (digit (n mod 16)) acc)
  end.

Definition of_nonneg (n : Z) : string :=
  digits (Z.to_nat (Z.log2 n)) n EmptyString.

(** [Number.prototype.toString(16)] on an integral number: lower-case
    digits, no padding, and a leading minus sign for a negative value. *)
Definition toString16 (n : Z) : string :=
  if n <? 0 then String "-"%char (of_nonneg (- n)) else of_nonneg n.

End Radix16.

(* ===================================================================== *)
(** * Checksums *)
(* ===================================================================== *)

Definition charCodes (s : string) : list Z :=
  map (fun c => Z.of_nat (nat_of_ascii c)) (list_ascii_of_string s).

Module EnhancedFeatures.

(** The body of the [for] loop of [calculateChecksum]:
    [hash = (hash << 5) - hash + char; hash = hash & hash]. *)
Definition step (hash char : Z) : Z :=
  let hash := Int32.shl hash 5 - hash + char in
  Int32.and hash hash.

Fixpoint loop (units : list Z) (hash : Z) : Z :=
  match units with
  | [] => hash
  | char :: rest => loop rest (step hash char)
  end.

Definition calculateChecksum_units (units : list Z) : string :=
  Radix16.toString16 (loop units 0).

Definition calculateChecksum (data : string) : string :=
  calculateChecksum_units (charCodes data).

Definition verifyChecksum (data checksum : string) : bool :=
  String.eqb (calculateChecksum data) checksum.

(** [compressData] and [decompressData] return their argument. *)
Definition compressData (data : string) : string := data.
Definition decompressData (data : string) : string := data.

End EnhancedFeatures.

Module Settings.

(** The body of the [for] loop of [generateChecksum]:
    [hash = ((hash << 5) - hash) + char; hash = hash & hash]. *)
Definition step (hash char : Z) : Z :=
  let hash := (Int32.shl hash 5 - hash) + char in
  Int32.and hash hash.

Fixpoint loop (units : list Z) (hash : Z) : Z :=
  match units with
  | [] => hash
  | char :: rest => loop rest (step hash char)
  end.

Definition generateChecksum_units (units : list Z) : string :=
  Radix16.toString16 (loop units 0).

Definition generateChecksum (data : string) : string :=
  generateChecksum_units (charCodes data).

End Settings.

(** The checksum as the specification words it: the rolling hash
    [h := (h << 5) - h + c], that is [31 * h + c], over the code units,
    folded into a 32-bit signed integer and rendered in base 16. *)
Module ChecksumSpec.

Definition rolling (units : list Z) : Z :=
  fold_left (fun h c => Int32.toInt32 (31 * h + c)) units 0.

Definition checksum (units : list Z) : string :=
  Radix16.toString16 (rolling units).

End ChecksumSpec.


(* ===================================================================== *)
(** * Numbers *)
(* ===================================================================== *)

(** A number of the language, held as the decimal that it is written as.
    [Int z] is an integral number.  [Dec front last before] is the number
    [(10 * front + last) / 10 ^ (before + 1)], where [last] is one of the
    digits 1 to 9: the digits behind the point do not end in a zero, so that
    every number with a fraction has exactly one form.  The rounding of a
    decimal to the nearest double is not modelled: the model agrees with
    the language on the numbers that the language itself writes, each of
    which is read back as it was written. *)
Module Num.

Inductive digit : Type := D1 | D2 | D3 | D4 | D5 | D6 | D7 | D8 | D9.

Definition digit_value (d : digit) : Z :=
  match d with
  | D1 => 1 | D2 => 2 | D3 => 3 | D4 => 4 | D5 => 5
  | D6 => 6 | D7 => 7 | D8 => 8 | D9 => 9
  end.

Definition digit_of (n : Z) : digit :=
  match n with
  | 1 => D1 | 2 => D2 | 3 => D3 | 4 => D4 | 5 => D5
  | 6 => D6 | 7 => D7 | 8 => D8 | _ => D9
  end.

Inductive t : Type :=
| Int (z : Z)
| Dec (front : Z) (last : digit) (before : nat).

(** The number is [mantissa / 10 ^ places]. *)
Definition mantissa (x : t) : Z :=
  match x with
  | Int z => z
  | Dec front last _ => 10 * front + digit_value last
  end.

Definition places (x : t) : nat :=
  match x with
  | Int _ => 0%nat
  | Dec _ _ before => S before
  end.

(** The number [m / 10 ^ p]. *)
Fixpoint make (p : nat) (m : Z) : t :=
  match p with
  | O => Int m
  | S p' =>
      if m mod 10 =? 0 then make p' (m / 10)
      else Dec (m / 10) (digit_of (m mod 10)) p'
  end.

(** The number [m * 10 ^ e]. *)
Definition scaled (m e : Z) : t :=
  if 0 <=? e then Int (m * 10 ^ e) else make (Z.to_nat (- e)) m.

Definition opp (x : t) : t := make (places x) (- mantissa x).

Definition is_zero (x : t) : bool := mantissa x =? 0.

(** [x < y] and [x === y]. *)
Definition ltb (x y : t) : bool :=
  mantissa x * 10 ^ Z.of_nat (places y)
  <? mantissa y * 10 ^ Z.of_nat (places x).

Definition eqb (x y : t) : bool :=
  (mantissa x =? mantissa y) && (places x =? places y)%nat.

End Num.

Coercion Num.Int : Z >-> Num.t.

(** [s.slice(0, n)] and [s.slice(n)] for [n] within the string. *)
Fixpoint takeUnits (n : nat) (s : string) : string :=
  match n, s with
  | S n', String c rest => String c (takeUnits n' rest)
  | _, _ => EmptyString
  end.

Fixpoint dropUnits (n : nat) (s : string) : string :=
  match n, s with
  | O, _ => s
  | S n', String _ rest => dropUnits n' rest
  | S _, EmptyString => EmptyString
  end.


(* ===================================================================== *)
(** * JSON values, [JSON.stringify] and [JSON.parse] *)
(* ===================================================================== *)

(** A value that [JSON.parse] can produce.  An object keeps its members in
    insertion order. *)
#[warnings="-register-all"]
Inductive json : Type :=
| JNull
| JBool (b : bool)
| JNum (n : Num.t)
| JStr (s : string)
| JArr (items : list json)
| JObj (members : list (string * json)).

Module Json.

(** ** Property access and the dynamic tests of the language *)

Fixpoint lookup (k : string) (members : list (string * json)) : option json :=
  match members with
  | [] => None
  | (k', v) :: rest => if String.eqb k k' then Some v else lookup k rest
  end.

(** [o.k] : [None] when reading a property of [null] throws, [Some None]
    when the result is [undefined]. *)
Definition prop (o : json) (k : string) : option (option json) :=
  match o with
  | JNull => None
  | JObj members => Some (lookup k members)
  | _ => Some None
  end.

(** [o.hasOwnProperty(k)], for one of the cookie field names. *)
Definition hasOwnProperty (o : json) (k : string) : option bool :=
  match o with
  | JNull => None
  | JObj members =>
      Some (match lookup k members with Some _ => true | None => false end)
  | _ => Some false
  end.

(** [ToBoolean]; [None] stands for [undefined]. *)
Definition truthy (v : option json) : bool :=
  match v with
  | None => false
  | Some JNull => false
  | Some (JBool b) => b
  | Some (JNum n) => negb (Num.is_zero n)
  | Some (JStr s) => negb (String.eqb s EmptyString)
  | Some (JArr _) => true
  | Some (JObj _) => true
  end.

(** [v === n] for a number [n]. *)
Definition strict_eq_num (v : option json) (n : Z) : bool :=
  match v with
  | Some (JNum m) => Num.eqb m (Num.Int n)
  | _ => false
  end.

(** [s !== v] for a string [s]. *)
Definition strict_neq_str (s : string) (v : option json) : bool :=
  match v with
  | Some (JStr t) => negb (String.eqb s t)
  | _ => true
  end.

Definition isArray (v : json) : option (list json) :=
  match v with
  | JArr items => Some items
  | _ => None
  end.

(** ** [JSON.stringify] *)

Definition hex4 (n : Z) : string :=
  String (Radix16.digit (n / 4096 mod 16))
    (String (Radix16.digit (n / 256 mod 16))
       (String (Radix16.digit (n / 16 mod 16))
          (String (Radix16.digit (n mod 16)) EmptyString))).

Definition code (c : ascii) : Z := Z.of_nat (nat_of_ascii c).

Definition dquote : ascii := ascii_of_nat 34.
Definition backslash : ascii := ascii_of_nat 92.

(** [QuoteJSONString], one code unit at a time. *)
Definition escape_char (c : ascii) : string :=
  match code c with
  | 34 => String backslash (String dquote EmptyString)
  | 92 => "\\"
  | 8 => "\b"
  | 12 => "\f"
  | 10 => "\n"
  | 13 => "\r"
  | 9 => "\t"
  | n => if n <? 32 then "\u" ++ hex4 n else String c EmptyString
  end.

Fixpoint escape (s : string) : string :=
  match s with
  | EmptyString => EmptyString
  | String c rest => escape_char c ++ escape rest
  end.

Definition quote (s : string) : string :=
  String dquote (escape s ++ String dquote EmptyString).

Definition dec_digit (d : Z) : ascii := ascii_of_nat (48 + Z.to_nat d).

Fixpoint dec_digits (fuel : nat) (n : Z) (acc : string) : string :=
  match fuel with
  | O => String (dec_digit (n mod 10)) acc
  | S f =>
      if n <? 10 then String (dec_digit n) acc
      else dec_digits f (n / 10) (String (dec_digit (n mod 10)) acc)
  end.

Definition dec_nonneg (n : Z) : string :=
  dec_digits (Z.to_nat (Z.log2 n)) n EmptyString.

(** [Number::toString] on an integral number of at most 21 digits. *)
Definition number_to_string (n : Z) : string :=
  if n <? 0 then String "-"%char (dec_nonneg (- n)) else dec_nonneg n.

(** [Number::toString] on any number.  With [s] the digits of the number
    without the zeros at their end, [k] their count and [n] the place of
    the point behind the first of them: the digits followed by zeros for an
    integral number of at most 21 digits; the digits with the point among
    them, or behind [0.] and zeros, down to a number with five zeros behind
    the point; the exponent notation in every other case. *)
Fixpoint zeros (n : nat) : string :=
  match n with
  | O => EmptyString
  | S n' => String "0"%char (zeros n')
  end.

Fixpoint strip (fuel : nat) (m : Z) (count : nat) : Z * nat :=
  match fuel with
  | O => (m, count)
  | S f => if m mod 10 =? 0 then strip f (m / 10) (S count) else (m, count)
  end.

(** The text of [m / 10 ^ p] for a positive [m]. *)
Definition unsigned_text (m : Z) (p : nat) : string :=
  let '(s, z) := strip (Z.to_nat (Z.log2 m)) m 0 in
  let digits := dec_nonneg s in
  let k := Z.of_nat (String.length digits) in
  let n := k + Z.of_nat z - Z.of_nat p in
  if (k <=? n) && (n <=? 21) then digits ++ zeros (Z.to_nat (n - k))
  else if (0 <? n) && (n <=? 21) then
    takeUnits (Z.to_nat n) digits ++ "." ++ dropUnits (Z.to_nat n) digits
  else if (-6 <? n) && (n <=? 0) then
    "0." ++ zeros (Z.to_nat (- n)) ++ digits
  else
    takeUnits 1 digits
    ++ (if k =? 1 then EmptyString else "." ++ dropUnits 1 digits)
    ++ "e" ++ (if n - 1 <? 0 then "-" else "+") ++ dec_nonneg (Z.abs (n - 1)).

Definition number_text (x : Num.t) : string :=
  let m := Num.mantissa x in
  if m =? 0 then "0"
  else if m <? 0 then String "-"%char (unsigned_text (- m) (Num.places x))
  else unsigned_text m (Num.places x).

(** The elements or members of a literal, separated by commas. *)
Fixpoint join_comma (texts : list string) : string :=
match texts with
| [] => EmptyString
| [text] => text
| text :: rest => text ++ "," ++ join_comma rest
end.

(** [JSON.stringify(v)] without the indentation argument. *)
Fixpoint stringify (v : json) : string :=
match v with
| JNull => "null"
| JBool true => "true"
| JBool false => "false"
| JNum n => number_text n
| JStr s => quote s
| JArr items => "[" ++ join_comma (map stringify items) ++ "]"
| JObj members =>
    "{"
    ++ join_comma
         (map (fun kv => quote (fst kv) ++ ":" ++ stringify (snd kv)) members)
    ++ "}"
end.

(** The fuel that [parse_value] needs on the text of a value. *)
Fixpoint cost (v : json) : nat :=
match v with
| JArr items => S (fold_right (fun x n => S (cost x + n)) 0%nat items)
| JObj members =>
    S (fold_right (fun kv n => S (cost (snd kv) + n)) 0%nat members)
| _ => 1%nat
end.

(** ** [JSON.parse] *)

Definition is_ws (c : ascii) : bool :=
  match code c with
  | 32 | 9 | 10 | 13 => true
  | _ => false
  end.

Fixpoint skip_ws (s : string) : string :=
  match s with
  | String c rest => if is_ws c then skip_ws rest else s
  | EmptyString => s
  end.

Definition hex_value (c : ascii) : option Z :=
  let n := code c in
  if (48 <=? n) && (n <=? 57) then Some (n - 48)
  else if (97 <=? n) && (n <=? 102) then Some (n - 87)
  else if (65 <=? n) && (n <=? 70) then Some (n - 55)
  else None.

(** The code unit written [\uXXXX]; one above 255 has no [ascii]. *)
Definition unit_of_hex (a b c d : ascii) : option ascii :=
  match hex_value a, hex_value b, hex_value c, hex_value d with
  | Some x, Some y, Some z, Some w =>
      let n := ((x * 16 + y) * 16 + z) * 16 + w in
      if n <? 256 then Some (ascii_of_nat (Z.to_nat n)) else None
  | _, _, _, _ => None
  end.

Definition simple_escape (e : ascii) : option ascii :=
  match code e with
  | 34 => Some dquote
  | 92 => Some backslash
  | 47 => Some "/"%char
  | 98 => Some (ascii_of_nat 8)
  | 102 => Some (ascii_of_nat 12)
  | 110 => Some (ascii_of_nat 10)
  | 114 => Some (ascii_of_nat 13)
  | 116 => Some (ascii_of_nat 9)
  | _ => None
  end.

(** The characters of a string literal, after its opening quote, up to and
    including the closing quote. *)
Fixpoint parse_chars (s : string) : option (string * string) :=
  match s with
  | EmptyString => None
  | String c rest =>
      if code c =? 34 then Some (EmptyString, rest)
      else if code c =? 92 then
        match rest with
        | String e rest' =>
            if code e =? 117 then
              match rest' with
              | String h1 (String h2 (String h3 (String h4 rest''))) =>
                  match unit_of_hex h1 h2 h3 h4, parse_chars rest'' with
                  | Some u, Some (str, r) => Some (String u str, r)
                  | _, _ => None
                  end
              | _ => None
              end
            else
              match simple_escape e, parse_chars rest' with
              | Some u, Some (str, r) => Some (String u str, r)
              | _, _ => None
              end
        | EmptyString => None
        end
      else if code c <? 32 then None
      else
        match parse_chars rest with
        | Some (str, r) => Some (String c str, r)
        | None => None
        end
  end.

Definition digit_value (c : ascii) : option Z :=
  let n := code c in
  if (48 <=? n) && (n <=? 57) then Some (n - 48) else None.

Fixpoint read_digits (s : string) (acc : Z) : Z * string :=
  match s with
  | String c rest =>
      match digit_value c with
      | Some d => read_digits rest (acc * 10 + d)
      | None => (acc, s)
      end
  | EmptyString => (acc, s)
  end.

Definition starts_fraction (s : string) : bool :=
  match s with
  | String c _ => (code c =? 46) || (code c =? 101) || (code c =? 69)
  | EmptyString => false
  end.

(** The integral part of a number literal: a single zero, or digits that
    do not start with a zero. *)
Definition parse_int (s : string) : option (Z * string) :=
  match s with
  | String c rest =>
      match digit_value c with
      | Some 0 =>
          match rest with
          | String c' _ =>
              match digit_value c' with
              | Some _ => None
              | None => Some (0, rest)
              end
          | EmptyString => Some (0, rest)
          end
      | Some d => Some (read_digits rest d)
      | None => None
      end
  | EmptyString => None
  end.

(** The fraction, if there is one: a point and at least one digit.  The
    digits go on from the integral part [whole]; the answer carries their
    count. *)
Definition parse_frac (whole : Z) (s : string) : option (Z * nat * string) :=
  match s with
  | String c rest =>
      if code c =? 46 then
        match rest with
        | String c' _ =>
            match digit_value c' with
            | Some _ =>
                let '(m, r) := read_digits rest whole in
                Some (m, (String.length rest - String.length r)%nat, r)
            | None => None
            end
        | EmptyString => None
        end
      else Some (whole, 0%nat, s)
  | EmptyString => Some (whole, 0%nat, s)
  end.

(** The exponent, if there is one: [e] or [E], a sign or none, and at
    least one digit. *)
Definition parse_exp (s : string) : option (Z * string) :=
  match s with
  | String c rest =>
      if (code c =? 101) || (code c =? 69) then
        let '(negative, digits) :=
          match rest with
          | String sign rest' =>
              if code sign =? 45 then (true, rest')
              else if code sign =? 43 then (false, rest')
              else (false, rest)
          | EmptyString => (false, rest)
          end in
        match digits with
        | String c' _ =>
            match digit_value c' with
            | Some _ =>
                let '(e, r) := read_digits digits 0 in
                Some (if negative then - e else e, r)
            | None => None
            end
        | EmptyString => None
        end
      else Some (0, s)
  | EmptyString => Some (0, s)
  end.

Definition parse_unsigned (s : string) : option (Num.t * string) :=
  match parse_int s with
  | Some (whole, r1) =>
      match parse_frac whole r1 with
      | Some (m, q, r2) =>
          match parse_exp r2 with
          | Some (e, r3) => Some (Num.scaled m (e - Z.of_nat q), r3)
          | None => None
          end
      | None => None
      end
  | None => None
  end.

Definition parse_number (s : string) : option (Num.t * string) :=
  match s with
  | String c rest =>
      if code c =? 45 then
        match parse_unsigned rest with
        | Some (x, r) => Some (Num.opp x, r)
        | None => None
        end
      else parse_unsigned s
  | EmptyString => None
  end.

Fixpoint expect (word s : string) : option string :=
  match word, s with
  | EmptyString, _ => Some s
  | String w word', String c rest =>
      if Ascii.eqb w c then expect word' rest else None
  | String _ _, EmptyString => None
  end.

(** The update of a list of keys and values: a key that is there keeps its
    place and takes the new value, a new key goes to the end. *)
Fixpoint assign (k : string) (v : json) (members : list (string * json))
  : list (string * json) :=
  match members with
  | [] => [(k, v)]
  | (k', v') :: rest =>
      if String.eqb k k' then (k', v) :: rest
      else (k', v') :: assign k v rest
  end.

(** The place of a key among the keys of an object.  The language lists
    the keys that are array indices first, in ascending order, and the other
    keys behind them in the order of their creation. *)
Definition arrayIndex (k : string) : option Z :=
  match parse_int k with
  | Some (n, EmptyString) => if n <? 2 ^ 32 - 1 then Some n else None
  | _ => None
  end.

Definition precedes (k k' : string) : bool :=
  match arrayIndex k, arrayIndex k' with
  | Some i, Some j => i <? j
  | Some _, None => true
  | None, _ => false
  end.

(** The creation of a property of an object, or its update. *)
Fixpoint define (k : string) (v : json) (members : list (string * json))
  : list (string * json) :=
  match members with
  | [] => [(k, v)]
  | (k', v') :: rest =>
      if String.eqb k k' then (k', v) :: rest
      else if precedes k k' then (k, v) :: members
      else (k', v') :: define k v rest
  end.

Definition object_of (members : list (string * json)) : list (string * json) :=
  fold_left (fun acc kv => define (fst kv) (snd kv) acc) members [].

Fixpoint parse_value (fuel : nat) (s : string) : option (json * string) :=
  match fuel with
  | O => None
  | S f =>
      match skip_ws s with
      | EmptyString => None
      | String c rest as s' =>
          match code c with
          | 110 => option_map (pair JNull) (expect "ull" rest)
          | 116 => option_map (pair (JBool true)) (expect "rue" rest)
          | 102 => option_map (pair (JBool false)) (expect "alse" rest)
          | 34 =>
              match parse_chars rest with
              | Some (str, r) => Some (JStr str, r)
              | None => None
              end
          | 91 =>
              match skip_ws rest with
              | String c' r =>
                  if code c' =? 93 then Some (JArr [], r)
                  else
                    match parse_items f rest with
                    | Some (items, r') => Some (JArr items, r')
                    | None => None
                    end
              | EmptyString => None
              end
          | 123 =>
              match skip_ws rest with
              | String c' r =>
                  if code c' =? 125 then Some (JObj [], r)
                  else
                    match parse_members f rest with
                    | Some (members, r') => Some (JObj (object_of members), r')
                    | None => None
                    end
              | EmptyString => None
              end
          | _ =>
              match parse_number s' with
              | Some (n, r) => Some (JNum n, r)
              | None => None
              end
          end
      end
  end

with parse_items (fuel : nat) (s : string) : option (list json * string) :=
  match fuel with
  | O => None
  | S f =>
      match parse_value f s with
      | Some (v, r) =>
          match skip_ws r with
          | String c r' =>
              if code c =? 44 then
                match parse_items f r' with
                | Some (vs, r'') => Some (v :: vs, r'')
                | None => None
                end
              else if code c =? 93 then Some ([v], r')
              else None
          | EmptyString => None
          end
      | None => None
      end
  end

with parse_members (fuel : nat) (s : string)
  : option (list (string * json) * string) :=
  match fuel with
  | O => None
  | S f =>
      match skip_ws s with
      | String q r =>
          if code q =? 34 then
            match parse_chars r with
            | Some (k, r1) =>
                match skip_ws r1 with
                | String colon r2 =>
                    if code colon =? 58 then
                      match parse_value f r2 with
                      | Some (v, r3) =>
                          match skip_ws r3 with
                          | String c r4 =>
                              if code c =? 44 then
                                match parse_members f r4 with
                                | Some (ms, r5) => Some ((k, v) :: ms, r5)
                                | None => None
                                end
                              else if code c =? 125 then Some ([(k, v)], r4)
                              else None
                          | EmptyString => None
                          end
                      | None => None
                      end
                    else None
                | EmptyString => None
                end
            | None => None
            end
          else None
      | EmptyString => None
      end
  end.

(** [JSON.parse(text)]; [None] stands for the [SyntaxError]. *)
Definition parse (text : string) : option json :=
  match parse_value (S (String.length text)) text with
  | Some (v, rest) =>
      match skip_ws rest with
      | EmptyString => Some v
      | String _ _ => None
      end
  | None => None
  end.

(** ** Notions used to state that a text parses back *)

(** The keys of an object in the order in which the language lists
    them. *)
Definition ordered (members : list (string * json)) : Prop :=
  ForallOrdPairs (fun a b => precedes (fst b) (fst a) = false) members.

(** A value as the language builds it: no object has two members with the
    same key, and the members are in the order of the language. *)
#[warnings="-register-all"]
Inductive WellFormed : json -> Prop :=
| wf_null : WellFormed JNull
| wf_bool b : WellFormed (JBool b)
| wf_num n : WellFormed (JNum n)
| wf_str s : WellFormed (JStr s)
| wf_arr items : Forall WellFormed items -> WellFormed (JArr items)
| wf_obj members :
    NoDup (map fst members) ->
    ordered members ->
    Forall (fun kv => WellFormed (snd kv)) members ->
    WellFormed (JObj members).


(** What follows a number in a text: not a digit, and not the start of a
    fraction or of an exponent. *)
Definition ends_number (rest : string) : Prop :=
  match rest with
  | EmptyString => True
  | String c _ => digit_value c = None /\ starts_fraction rest = false
  end.

(** A text made of digits, and the number that the digits add to [acc]. *)
Fixpoint digits_only (s : string) : Prop :=
  match s with
  | EmptyString => True
  | String c rest => digit_value c <> None /\ digits_only rest
  end.

Definition digits_value (s : string) (acc : Z) : Z := fst (read_digits s acc).

Definition not_digit_head (rest : string) : Prop :=
  match rest with
  | EmptyString => True
  | String c _ => digit_value c = None
  end.

Definition items_cost (items : list json) : nat :=
  fold_right (fun x n => S (cost x + n)) 0%nat items.

Definition members_cost (members : list (string * json)) : nat :=
  fold_right (fun kv n => S (cost (snd kv) + n)) 0%nat members.

Definition member_text (kv : string * json) : string :=
  quote (fst kv) ++ ":" ++ stringify (snd kv).

(** The text of a value parses back to the value, whatever follows it. *)
Definition parses_back (v : json) : Prop :=
  forall fuel rest,
    (cost v <= fuel)%nat -> ends_number rest ->
    parse_value fuel (stringify v ++ rest) = Some (v, rest).

End Json.

Definition JSON_stringify : json -> string := Json.stringify.
Definition JSON_parse : string -> option json := Json.parse.

(* ===================================================================== *)
(** * Conversions of parsed values *)
(* ===================================================================== *)

(** The white space that [trim] removes, among the code units below 256. *)
Definition isSpace (c : ascii) : bool :=
  match Json.code c with
  | 9 | 10 | 11 | 12 | 13 | 32 | 160 => true
  | _ => false
  end.

Fixpoint trimStart (s : string) : string :=
  match s with
  | String c rest => if isSpace c then trimStart rest else s
  | EmptyString => EmptyString
  end.

Fixpoint trimEnd (s : string) : string :=
  match s with
  | EmptyString => EmptyString
  | String c rest =>
      match trimEnd rest with
      | EmptyString => if isSpace c then EmptyString else String c EmptyString
      | kept => String c kept
      end
  end.

Definition trim (s : string) : string := trimEnd (trimStart s).

(** [String(v)] for a parsed value: the text of a primitive value, the
    elements of an array joined by commas ([null] giving the empty text),
    and [[object Object]] for an object.  [None] stands for the [TypeError]
    of an object with a member named [toString], which hides the method of
    the prototype and is no function. *)
Fixpoint toText (v : json) : option string :=
  match v with
  | JNull => Some "null"
  | JBool true => Some "true"
  | JBool false => Some "false"
  | JNum n => Some (Json.number_text n)
  | JStr text => Some text
  | JArr items =>
      (fix join (items : list json) : option string :=
         match items with
         | [] => Some EmptyString
         | item :: rest =>
             match
               match item with
               | JNull => Some EmptyString
               | _ => toText item
               end,
               join rest
             with
             | Some text, Some texts =>
                 Some (match rest with
                       | [] => text
                       | _ :: _ => text ++ "," ++ texts
                       end)
             | _, _ => None
             end
         end) items
  | JObj members =>
      match Json.lookup "toString" members with
      | Some _ => None
      | None => Some "[object Object]"
      end
  end.

(** Digits of a radix up to 16, and whether one of them is not zero. *)
Fixpoint digitsBelow (radix : Z) (s : string) : bool :=
  match s with
  | EmptyString => true
  | String c rest =>
      match Json.hex_value c with
      | Some d => (d <? radix) && digitsBelow radix rest
      | None => false
      end
  end.

Fixpoint someNotZero (s : string) : bool :=
  match s with
  | EmptyString => false
  | String c rest => negb (Json.code c =? 48) || someNotZero rest
  end.

(** [0 < Number(s)] for a literal in base 16, 8 or 2. *)
Definition nonDecimalPositive (s : string) : bool :=
  match s with
  | String z (String x digits) =>
      (Json.code z =? 48)
      && negb (String.eqb digits EmptyString)
      && (let k := Json.code x in
          if (k =? 120) || (k =? 88) then digitsBelow 16 digits
          else if (k =? 111) || (k =? 79) then digitsBelow 8 digits
          else if (k =? 98) || (k =? 66) then digitsBelow 2 digits
          else false)
      && someNotZero digits
  | _ => false
  end.

(** [0 < Number(s)] for a decimal literal without a sign: digits with a
    point among them, before them or behind them, or without one, at least
    one digit in all, and an exponent or none. *)
Definition decimalPositive (s : string) : bool :=
  let '(whole, r1) := Json.read_digits s 0 in
  let '(m, r2) :=
    match r1 with
    | String c r => if Json.code c =? 46 then Json.read_digits r whole
                    else (whole, r1)
    | EmptyString => (whole, r1)
    end in
  let point :=
    match r1 with
    | String c _ => if Json.code c =? 46 then 1%nat else 0%nat
    | EmptyString => 0%nat
    end in
  if (String.length s - String.length r2 <=? point)%nat then false
  else
    match Json.parse_exp r2 with
    | Some (_, EmptyString) => 0 <? m
    | _ => false
    end.

Definition unsignedPositive (s : string) : bool :=
  String.eqb s "Infinity" || decimalPositive s.

(** [0 < Number(s)]: the white space around the literal does not count,
    the empty text is zero, and a text that is no literal is [NaN]. *)
Definition positiveText (s : string) : bool :=
  match trim s with
  | EmptyString => false
  | String c rest as literal =>
      if Json.code c =? 45 then false
      else if Json.code c =? 43 then unsignedPositive rest
      else unsignedPositive literal || nonDecimalPositive literal
  end.

(** [0 < v] for a parsed value or [undefined]; [None] when the conversion
    of an object throws. *)
Definition zeroLessThan (v : option json) : option bool :=
  match v with
  | None | Some JNull => Some false
  | Some (JBool b) => Some b
  | Some (JNum n) => Some (Num.ltb (Num.Int 0) n)
  | Some (JStr text) => Some (positiveText text)
  | Some (JArr items) => option_map positiveText (toText (JArr items))
  | Some (JObj members) => option_map positiveText (toText (JObj members))
  end.


(* ===================================================================== *)
(** * Cookie records *)
(* ===================================================================== *)

Module Cookie.

(** One cookie object.  A field that the object does not carry is [None];
    [url] is the property that the replay adds before the cookie-set call. *)
Record t : Type := mk {
  domain : option string;
  expirationDate : option Num.t;
  hostOnly : option bool;
  httpOnly : option bool;
  name : option string;
  path : option string;
  sameSite : option string;
  secure : option bool;
  session : option bool;
  storeId : option string;
  url : option string;
  value : option string
}.

Definition empty : t :=
  mk None None None None None None None None None None None None.

Definition opt_member {A} (k : string) (inj : A -> json) (o : option A)
  : list (string * json) :=
  match o with
  | Some a => [(k, inj a)]
  | None => []
  end.

(** The object as [JSON.stringify] sees it. *)
Definition toJson (c : t) : json :=
  JObj (opt_member "domain" JStr (domain c)
        ++ opt_member "expirationDate" JNum (expirationDate c)
        ++ opt_member "hostOnly" JBool (hostOnly c)
        ++ opt_member "httpOnly" JBool (httpOnly c)
        ++ opt_member "name" JStr (name c)
        ++ opt_member "path" JStr (path c)
        ++ opt_member "sameSite" JStr (sameSite c)
        ++ opt_member "secure" JBool (secure c)
        ++ opt_member "session" JBool (session c)
        ++ opt_member "storeId" JStr (storeId c)
        ++ opt_member "url" JStr (url c)
        ++ opt_member "value" JStr (value c)).

Definition as_string (v : json) : option string :=
  match v with JStr s => Some s | _ => None end.
Definition as_bool (v : json) : option bool :=
  match v with JBool b => Some b | _ => None end.
Definition as_number (v : json) : option Num.t :=
  match v with JNum n => Some n | _ => None end.

(** Reads one member into the record; [None] when the member is not one of
    the cookie fields or does not have the type of that field. *)
Definition set_member (c : t) (kv : string * json) : option t :=
  let '(k, v) := kv in
  let str f := option_map f (as_string v) in
  let boo f := option_map f (as_bool v) in
  let num f := option_map f (as_number v) in
  if String.eqb k "domain" then
    str (fun x => mk (Some x) (expirationDate c) (hostOnly c) (httpOnly c) (name c) (path c) (sameSite c) (secure c) (session c) (storeId c) (url c) (value c))
  else if String.eqb k "expirationDate" then
    num (fun x => mk (domain c) (Some x) (hostOnly c) (httpOnly c) (name c) (path c) (sameSite c) (secure c) (session c) (storeId c) (url c) (value c))
  else if String.eqb k "hostOnly" then
    boo (fun x => mk (domain c) (expirationDate c) (Some x) (httpOnly c) (name c) (path c) (sameSite c) (secure c) (session c) (storeId c) (url c) (value c))
  else if String.eqb k "httpOnly" then
    boo (fun x => mk (domain c) (expirationDate c) (hostOnly c) (Some x) (name c) (path c) (sameSite c) (secure c) (session c) (storeId c) (url c) (value c))
  else if String.eqb k "name" then
    str (fun x => mk (domain c) (expirationDate c) (hostOnly c) (httpOnly c) (Some x) (path c) (sameSite c) (secure c) (session c) (storeId c) (url c) (value c))
  else if String.eqb k "path" then
    str (fun x => mk (domain c) (expirationDate c) (hostOnly c) (httpOnly c) (name c) (Some x) (sameSite c) (secure c) (session c) (storeId c) (url c) (value c))
  else if String.eqb k "sameSite" then
    str (fun x => mk (domain c) (expirationDate c) (hostOnly c) (httpOnly c) (name c) (path c) (Some x) (secure c) (session c) (storeId c) (url c) (value c))
  else if String.eqb k "secure" then
    boo (fun x => mk (domain c) (expirationDate c) (hostOnly c) (httpOnly c) (name c) (path c) (sameSite c) (Some x) (session c) (storeId c) (url c) (value c))
  else if String.eqb k "session" then
    boo (fun x => mk (domain c) (expirationDate c) (hostOnly c) (httpOnly c) (name c) (path c) (sameSite c) (secure c) (Some x) (storeId c) (url c) (value c))
  else if String.eqb k "storeId" then
    str (fun x => mk (domain c) (expirationDate c) (hostOnly c) (httpOnly c) (name c) (path c) (sameSite c) (secure c) (session c) (Some x) (url c) (value c))
  else if String.eqb k "url" then
    str (fun x => mk (domain c) (expirationDate c) (hostOnly c) (httpOnly c) (name c) (path c) (sameSite c) (secure c) (session c) (storeId c) (Some x) (value c))
  else if String.eqb k "value" then
    str (fun x => mk (domain c) (expirationDate c) (hostOnly c) (httpOnly c) (name c) (path c) (sameSite c) (secure c) (session c) (storeId c) (url c) (Some x))
  else None.

Fixpoint set_members (c : t) (members : list (string * json)) : option t :=
  match members with
  | [] => Some c
  | kv :: rest =>
      match set_member c kv with
      | Some c' => set_members c' rest
      | None => None
      end
  end.

(** The typed view of a parsed value; [None] when the value is not an
    object made of typed cookie fields. *)
Definition ofJson (v : json) : option t :=
  match v with
  | JObj members => set_members empty members
  | _ => None
  end.

Fixpoint listOfJson (l : list json) : option (list t) :=
  match l with
  | [] => Some []
  | v :: rest =>
      match ofJson v, listOfJson rest with
      | Some c, Some cs => Some (c :: cs)
      | _, _ => None
      end
  end.

(** ** Notions used to state properties of the records *)

Fixpoint present_keys (fields : list (string * bool)) : list string :=
  match fields with
  | [] => []
  | (k, true) :: rest => k :: present_keys rest
  | (_, false) :: rest => present_keys rest
  end.

Definition is_some {A} (o : option A) : bool :=
  match o with Some _ => true | None => false end.

Definition fields_of (c : t) : list (string * bool) :=
  [("domain", is_some (domain c));
   ("expirationDate", is_some (expirationDate c));
   ("hostOnly", is_some (hostOnly c));
   ("httpOnly", is_some (httpOnly c));
   ("name", is_some (name c));
   ("path", is_some (path c));
   ("sameSite", is_some (sameSite c));
   ("secure", is_some (secure c));
   ("session", is_some (session c));
   ("storeId", is_some (storeId c));
   ("url", is_some (url c));
   ("value", is_some (value c))].

Definition members_of (c : t) : list (string * json) :=
  match toJson c with
  | JObj members => members
  | _ => []
  end.

(** The fields that the validation of the first record asks for. *)
Definition hasRequired (c : t) : Prop :=
  name c <> None /\ value c <> None /\ domain c <> None.

End Cookie.

(* ===================================================================== *)
(** * Exceptions, events and the history ledgers *)
(* ===================================================================== *)

(** What a [throw] carries in the code under study. *)
Inductive exn : Type :=
| SjclCorrupt                  (* sjcl.exception.corrupt *)
| SjclInvalid                  (* sjcl.exception.invalid *)
| SyntaxError                  (* raised by JSON.parse *)
| TypeError                    (* a property read or a call on a wrong value *)
| JsError (message : string)   (* new Error(message) *)
| DOMException (name : string). (* thrown by a call of the document *)

Inductive completion (A : Type) : Type :=
| Normal (a : A)
| Throw (e : exn).
Arguments Normal {A} a.
Arguments Throw {A} e.

Definition bind {A B} (c : completion A) (k : A -> completion B) : completion B :=
  match c with
  | Normal a => k a
  | Throw e => Throw e
  end.

Notation "x <- c ;; k" := (bind c (fun x => k))
  (at level 61, c at next level, right associativity).

Definition of_option {A} (e : exn) (o : option A) : completion A :=
  match o with
  | Some a => Normal a
  | None => Throw e
  end.

(** [a || b] where [a] is a string or [undefined]. *)
Definition or_string (a : option string) (b : string) : string :=
  match a with
  | Some s => if String.eqb s EmptyString then b else s
  | None => b
  end.

(** [a || b] where [a] is a boolean or [undefined]. *)
Definition or_bool (a : option bool) (b : bool) : bool :=
  match a with
  | Some true => true
  | _ => b
  end.

Definition or_number (a : option Z) (b : Z) : Z :=
  match a with
  | Some n => if n =? 0 then b else n
  | None => b
  end.

(** A string or [undefined] inside a template literal or a concatenation. *)
Definition to_text (a : option string) : string :=
  match a with
  | Some s => s
  | None => "undefined"
  end.

Definition truthy_bool (a : option bool) : bool := or_bool a false.

Definition truthy_string (a : option string) : bool :=
  match a with
  | Some s => negb (String.eqb s EmptyString)
  | None => false
  end.

Definition truthy_number (a : option Z) : bool :=
  match a with
  | Some n => negb (n =? 0)
  | None => false
  end.

Definition startsWith (s prefix : string) : bool := String.prefix prefix s.

(** [s.slice(1)]. *)
Definition slice1 (s : string) : string :=
  match s with
  | String _ rest => rest
  | EmptyString => EmptyString
  end.

(** The argument object of [enhancedFeatures.addToBackupHistory]. *)
Record HistoryArg : Type := {
  arg_type : option string;
  arg_cookieCount : option Z;
  arg_size : option Z;
  arg_filename : option string;
  arg_encrypted : option bool
}.

(** Calls to the collaborators, in the order in which the code issues
    them.  Progress display of the backup side and the saving of the profile
    name are not recorded.  An alert or a warning is recorded with the
    arguments of the helper that shows it; [restoreSuccessAlert] shows its
    alert when it is given both the restored count and the total. *)
Inductive Event : Type :=
| Alert (message : string)
| ShowUpgradeModal
| DownloadJson (data filename : string)
| DownloadBlob (data filename : string)
| SendBackupToTelegram (data filename : string)
| BackupSuccessAlert (cookieCount : nat)
| AddToBackupHistory (entry : HistoryArg)
| CoreAddToBackupHistory (type filename : string) (cookieCount : nat)
| InitRestoreProgressBar (total : nat)
| ExpirationWarning (name : option string) (url : string)
| CookiesSet (details : Cookie.t)
| CookiesRemove (url : string) (name : option string)
| UnknownErrWarning (name : option string) (details : string)
| UpdateRestoreProgressBar (total : nat)
| RestoreSuccessAlert (restored : nat) (total : option nat)
| HideRestoreProgressBar
| ConsoleError (context : string)
| BackupSavedMessage (filename : string)
| RestoreSummary (successCount failCount : nat)
| WarningMessage (text : string)
| RestoreFailedWarning (error : exn).

Module History.

(** An entry of the ledger of the enhanced-features module. *)
Record Entry : Type := {
  id : Z;
  date : string;
  type : string;
  cookieCount : Z;
  size : Z;
  filename : string;
  encrypted : bool
}.

(** The object [historyEntry] built from the argument. *)
Definition newEntry (now : Z) (iso : string) (entry : HistoryArg) : Entry :=
  {| id := now;
     date := iso;
     type := or_string (arg_type entry) "manual";
     cookieCount := or_number (arg_cookieCount entry) 0;
     size := or_number (arg_size entry) 0;
     filename := or_string (arg_filename entry) "unknown";
     encrypted := or_bool (arg_encrypted entry) false |}.

(** [addToBackupHistory(entry)] of the enhanced-features module, on the
    module variable [backupHistory]; [now] and [iso] are [Date.now()] and
    [new Date().toISOString()].  The resulting list is what the function
    then writes to storage and displays. *)
Definition addToBackupHistory (now : Z) (iso : string) (entry : HistoryArg)
    (backupHistory : list Entry) : list Entry :=
  let historyEntry := newEntry now iso entry in
  let backupHistory := historyEntry :: backupHistory in
  if (50 <? List.length backupHistory)%nat then firstn 50 backupHistory
  else backupHistory.

End History.

Module CoreHistory.

(** An entry of the ledger of backup-core.js. *)
Record Entry : Type := {
  timestamp : string;
  type : string;
  filename : string;
  cookieCount : nat
}.

(** [chrome.storage.local] as far as the ledger goes: the value stored
    under the key [backupHistory], if any. *)
Definition Storage : Type := option (list Entry).

(** [history.backupHistory || []]. *)
Definition stored (storage : Storage) : list Entry :=
  match storage with
  | Some l => l
  | None => []
  end.

(** The object put at the front of the list. *)
Definition newEntry (iso type filename : string) (cookieCount : nat) : Entry :=
  {| timestamp := iso; type := type; filename := filename;
     cookieCount := cookieCount |}.

(** [addToBackupHistory(type, filename, cookieCount)] of backup-core.js.
    [available] tells whether the storage calls succeed; when one of them
    throws, the [catch] logs the error and the stored list is unchanged. *)
Definition addToBackupHistory (available : bool) (iso : string)
    (type filename : string) (cookieCount : nat) (storage : Storage)
  : Storage :=
  if available then
    let backupHistory := stored storage in
    let backupHistory :=
      newEntry iso type filename cookieCount :: backupHistory in
    let backupHistory :=
      if (50 <? List.length backupHistory)%nat then firstn 50 backupHistory
      else backupHistory in
    Some backupHistory
  else storage.

End CoreHistory.

(* ===================================================================== *)
(** * The backup producer and the restore consumer *)
(* ===================================================================== *)

(** [calculateChecksum(data)] when [data] is whatever value the envelope
    carries as its payload.  On a string it is the hash of the string.  A
    number or a boolean has no [length], so that the loop does not run; an
    array with elements makes the first [data.charCodeAt] throw, and so does
    [null] at [data.length].  For an object the loop runs when [0] is less
    than its member [length], and then throws in the same way. *)
Definition calculateChecksum_value (data : json) : completion string :=
  match data with
  | JStr s => Normal (EnhancedFeatures.calculateChecksum s)
  | JNull => Throw TypeError
  | JNum _ | JBool _ | JArr [] => Normal "0"
  | JArr (_ :: _) => Throw TypeError
  | JObj members =>
      match zeroLessThan (Json.lookup "length" members) with
      | Some false => Normal "0"
      | Some true | None => Throw TypeError
      end
  end.

(** The parameter object of [sjcl.encrypt]: the key size, when given. *)
Definition SjclParams : Type := option Z.

Section Pipeline.

(** The cipher library.  [Rand] is the randomness (salt and
    initialisation vector) that one call of [sjcl.encrypt] draws. *)
Context {Rand : Type}.
Variable sjcl_encrypt : Rand -> string -> string -> SjclParams -> string.
Variable sjcl_decrypt : string -> json -> completion string.

(** The cookie store of the browser: [chrome.cookies.set] answers with
    the message of [chrome.runtime.lastError], if any. *)
Context {Browser : Type}.
Variable cookies_set : Browser -> Cookie.t -> Browser * option string.
Variable cookies_getAll : Browser -> list Cookie.t.
Variable cookies_remove :
  Browser -> string -> option string -> Browser * option string.

(** [getEncPasswd()] and [getDecPasswd()].  popup.js declares each of them
    twice; the later declarations, which are the ones in force, give the
    value of the field without the white space around it, and the empty
    text when the field is missing. *)
Definition getEncPasswd (input : option string) : string :=
  match input with
  | Some value => trim value
  | None => EmptyString
  end.

Definition getDecPasswd (input : option string) : string :=
  match input with
  | Some value => trim value
  | None => EmptyString
  end.

(** ** popup.js : [handleEncPasswdSubmit] *)

Record BackupRequest : Type := {
  alsoSendTelegram : bool;        (* #also-send-telegram is checked *)
  telegramAvailable : bool;       (* isFeatureAvailable('telegram_backup') *)
  encPasswd : string;             (* getEncPasswd() *)
  chromeCookies : bool;           (* chrome.cookies exists *)
  enhancedFeatures : bool;        (* window.enhancedFeatures exists *)
  selectedDomainsForBackup : option (list string);
  allCookies : list Cookie.t;     (* answer of chrome.cookies.getAll({}) *)
  profileInput : string;          (* trimmed value of #profile-name-input *)
  localeDate : string;            (* date part of the file name *)
  localeTime : string;            (* time part of the file name *)
  sendToTelegram : bool;          (* #send-to-telegram-checkbox is usable *)
  salt : Rand
}.

Definition cookieFilter (selected : option (list string)) (cookie : Cookie.t)
  : bool :=
  match selected with
  | Some (d :: ds) =>
      match Cookie.domain cookie with
      | Some dom => existsb (String.eqb dom) (d :: ds)
      | None => false
      end
  | _ => true
  end.

Definition forbidden_in_profile (c : ascii) : bool :=
  match Json.code c with
  | 60 | 62 | 34 | 39 | 38 => true
  | _ => false
  end.

Fixpoint remove_chars (s : string) : string :=
  match s with
  | EmptyString => EmptyString
  | String c rest =>
      if forbidden_in_profile c then remove_chars rest
      else String c (remove_chars rest)
  end.

Definition sanitizeProfileName (s : string) : string :=
  String.substring 0 30 (remove_chars s).

Definition ckzFilename (profileName date time : string) : string :=
  if String.eqb profileName EmptyString
  then "cookies-" ++ date ++ "-" ++ time ++ ".ckz"
  else "cookies-" ++ profileName ++ "-" ++ date ++ "-" ++ time ++ ".ckz".

Definition serialize (cookies : list Cookie.t) : string :=
  JSON_stringify (JArr (map Cookie.toJson cookies)).

(** The object [data] built around the cipher text. *)
Definition wrap (enhanced : bool) (cipherText : string) : json :=
  JObj [("v", JNum 1);
        ("payload", JStr cipherText);
        ("checksum",
          if enhanced
          then JStr (EnhancedFeatures.calculateChecksum cipherText)
          else JNull)].

Definition encryptedBackup (req : BackupRequest) (cookies : list Cookie.t)
  : string :=
  let cookieData := serialize cookies in
  let compressedData :=
    if enhancedFeatures req then EnhancedFeatures.compressData cookieData
    else cookieData in
  let cipherText :=
    sjcl_encrypt (salt req) (encPasswd req) compressedData (Some 256) in
  JSON_stringify (wrap (enhancedFeatures req) cipherText).

Definition handleEncPasswdSubmit (req : BackupRequest) : list Event :=
  if alsoSendTelegram req && negb (telegramAvailable req) then
    [ShowUpgradeModal]
  else if (String.length (encPasswd req) <? 4)%nat then
    [Alert "Please enter a password of at least 4 characters to encrypt your backup."]
  else if negb (chromeCookies req) then
    [Alert "Cookie backup is only available when running as a Chrome extension. This is a preview mode showing the interface."]
  else
    let cookies :=
      filter (cookieFilter (selectedDomainsForBackup req)) (allCookies req) in
    match cookies with
    | [] => [Alert "No cookies to backup!"]
    | _ :: _ =>
        let data := encryptedBackup req cookies in
        let profileName := sanitizeProfileName (profileInput req) in
        let filename :=
          ckzFilename profileName (localeDate req) (localeTime req) in
        ([DownloadJson data filename]
        ++ (if sendToTelegram req
            then [SendBackupToTelegram data filename] else [])
        ++ [BackupSuccessAlert (List.length cookies)]
        ++ (if enhancedFeatures req then
              [AddToBackupHistory
                 {| arg_type :=
                      Some (match selectedDomainsForBackup req with
                            | Some _ => "selective"
                            | None => "all"
                            end);
                    arg_cookieCount := Some (Z.of_nat (List.length cookies));
                    arg_size := Some (Z.of_nat (String.length data));
                    arg_filename := Some filename;
                    arg_encrypted := Some true |}]
            else []))%list
    end.

(** ** backup-core.js : [manualCookieBackup] *)

Record ManualBackupRequest : Type := {
  m_profileName : string;         (* trimmed value of #profile-name-input *)
  m_password : option string;     (* value of #password *)
  m_cookies : list Cookie.t;      (* answer of chrome.cookies.getAll({}) *)
  m_timestamp : string;           (* formatDate(new Date()) *)
  m_downloadError : option string;(* chrome.runtime.lastError of the download *)
  m_alsoSendTelegram : bool;      (* #also-send-telegram is checked *)
  m_salt : Rand
}.

Definition manualBackupData (req : ManualBackupRequest) (password : string)
  : string :=
  sjcl_encrypt (m_salt req) password (serialize (m_cookies req)) None.

Definition manualCookieBackup (req : ManualBackupRequest) : list Event :=
  if negb (truthy_string (m_password req)) then
    [WarningMessage "Please enter a password for encryption"]
  else
    match m_cookies req with
    | [] => [WarningMessage "No cookies found to backup"]
    | _ :: _ =>
        let filename :=
          if String.eqb (m_profileName req) EmptyString
          then "cookies-" ++ m_timestamp req ++ ".ckz"
          else "cookies-" ++ m_profileName req ++ "-" ++ m_timestamp req
               ++ ".ckz" in
        let encryptedData := manualBackupData req (to_text (m_password req)) in
        DownloadBlob encryptedData filename
        :: match m_downloadError req with
           | Some message => [WarningMessage ("Download failed: " ++ message)]
           | None =>
               ([BackupSavedMessage filename]
                ++ (if m_alsoSendTelegram req
                    then [SendBackupToTelegram encryptedData filename]
                    else [])
                ++ [CoreAddToBackupHistory "manual" filename
                      (List.length (m_cookies req))])%list
           end
    end.

(** ** popup.js : [handleDecPasswdSubmit] *)

(** The inner [try] block: the value left in [encryptedData] when the
    block runs to its end.  The model reads [wrapper.payload] before it
    tests [wrapper.v]; the order makes no difference, since [wrapper] is not
    [null] once [wrapper.v] has been read. *)
Definition unwrapTry (enhanced : bool) (data : string) : completion json :=
  wrapper <- of_option SyntaxError (JSON_parse data) ;;
  v <- of_option TypeError (Json.prop wrapper "v") ;;
  payload <- of_option TypeError (Json.prop wrapper "payload") ;;
  if Json.strict_eq_num v 1 && Json.truthy payload then
    match payload with
    | Some encryptedData =>
        expectedChecksum <- of_option TypeError (Json.prop wrapper "checksum") ;;
        if Json.truthy expectedChecksum && enhanced then
          actualChecksum <- calculateChecksum_value encryptedData ;;
          if Json.strict_neq_str actualChecksum expectedChecksum
          then Throw (JsError "Checksum verification failed")
          else Normal encryptedData
        else Normal encryptedData
    | None => Normal (JStr data)
    end
  else Normal (JStr data).

(** The inner [try] with its [catch]: the value handed to [sjcl.decrypt]. *)
Definition unwrap (enhanced : bool) (data : string) : json :=
  match unwrapTry enhanced data with
  | Normal encryptedData => encryptedData
  | Throw _ => JStr data
  end.

Definition requiredFields : list string := ["name"; "value"; "domain"].

Fixpoint checkRequired (firstCookie : json) (fields : list string)
  : completion unit :=
  match fields with
  | [] => Normal tt
  | field :: rest =>
      has <- of_option TypeError (Json.hasOwnProperty firstCookie field) ;;
      if has then checkRequired firstCookie rest
      else Throw (JsError ("Invalid cookie data structure - missing required field: " ++ field))
  end.

(** The outer [try] block from the call of [sjcl.decrypt] on: the array
    left in [cookies]. *)
Definition decodeCiphertext (enhanced : bool) (pass : string)
    (encryptedData : json) : completion (list json) :=
  decrypted <- sjcl_decrypt pass encryptedData ;;
  let decompressed :=
    if enhanced then EnhancedFeatures.decompressData decrypted
    else decrypted in
  cookies <- of_option SyntaxError (JSON_parse decompressed) ;;
  match Json.isArray cookies with
  | None => Throw (JsError "Invalid cookie data structure - not an array")
  | Some items =>
      match items with
      | [] => Normal items
      | firstCookie :: _ =>
          _ <- checkRequired firstCookie requiredFields ;;
          Normal items
      end
  end.

(** The outer [try] block as a whole. *)
Definition decodeBackup (enhanced : bool) (pass data : string)
  : completion (list json) :=
  decodeCiphertext enhanced pass (unwrap enhanced data).

(** The outer [catch]: the text of the [alert]. *)
Definition decryptionAlert (error : exn) : string :=
  match error with
  | SjclCorrupt => "Password incorrect!"
  | SjclInvalid => "File is not a valid .ckz file!"
  | JsError message =>
      if String.eqb message "Invalid cookie data structure"
      then "The decrypted data doesn't contain valid cookies!"
      else if String.eqb message "Checksum verification failed"
      then "File integrity check failed. The backup may be corrupted."
      else "Unknown error during decryption!"
  | _ => "Unknown error during decryption!"
  end.

(** The address of the cookie; [None] when [cookie.domain.startsWith]
    throws because the record has no domain. *)
Definition replayUrl (cookie : Cookie.t) : option string :=
  match Cookie.domain cookie with
  | None => None
  | Some domain =>
      Some ("http"
            ++ (if truthy_bool (Cookie.secure cookie) then "s" else EmptyString)
            ++ "://"
            ++ (if startsWith domain "." then slice1 domain else domain)
            ++ to_text (Cookie.path cookie))
  end.

Definition hasDomain (cookie : Cookie.t) : Prop :=
  Cookie.domain cookie <> None.

(** [cookie.expirationDate && epoch > cookie.expirationDate], where
    [epoch] is [new Date().getTime() / 1000]. *)
Definition isExpired (epoch : Num.t) (cookie : Cookie.t) : bool :=
  match Cookie.expirationDate cookie with
  | Some expirationDate =>
      negb (Num.is_zero expirationDate) && Num.ltb expirationDate epoch
  | None => false
  end.

(** The object passed to [chrome.cookies.set]: the record after the
    deletions, the assignment of [url] and the defaults. *)
Definition prepare (cookie : Cookie.t) (url : string) : Cookie.t :=
  {| Cookie.domain :=
       match Cookie.hostOnly cookie with
       | Some true => None
       | _ => Cookie.domain cookie
       end;
     Cookie.expirationDate :=
       match Cookie.session cookie with
       | Some true => None
       | _ => Cookie.expirationDate cookie
       end;
     Cookie.hostOnly := None;
     Cookie.httpOnly :=
       match Cookie.httpOnly cookie with
       | None => Some false
       | some => some
       end;
     Cookie.name := Cookie.name cookie;
     Cookie.path :=
       match Cookie.path cookie with
       | None => Some "/"
       | some => some
       end;
     Cookie.sameSite :=
       if truthy_string (Cookie.sameSite cookie) then Cookie.sameSite cookie
       else Some "no_restriction";
     Cookie.secure :=
       match Cookie.secure cookie with
       | None => Some (startsWith url "https")
       | some => some
       end;
     Cookie.session := None;
     Cookie.storeId := Cookie.storeId cookie;
     Cookie.url := Some url;
     Cookie.value := Cookie.value cookie |}.

(** The object that the loop passes to [chrome.cookies.set] for a record,
    when it gets that far. *)
Definition setDetails (cookie : Cookie.t) : option Cookie.t :=
  option_map (prepare cookie) (replayUrl cookie).

(** How the [for] loop ends. *)
Inductive LoopEnd : Type :=
| Finished (browser : Browser) (total : nat)
| Aborted (browser : Browser) (error : exn).

(** The [for ... of] loop, with the running [total]. *)
Fixpoint replayLoop (epoch : Num.t) (cookies : list Cookie.t)
    (browser : Browser) (total : nat) : list Event * LoopEnd :=
  match cookies with
  | [] => ([], Finished browser total)
  | cookie :: rest =>
      match replayUrl cookie with
      | None => ([], Aborted browser TypeError)
      | Some url =>
          if isExpired epoch cookie then
            let '(events, ending) := replayLoop epoch rest browser total in
            (ExpirationWarning (Cookie.name cookie) url :: events, ending)
          else
            let details := prepare cookie url in
            match cookies_set browser details with
            | (browser', Some message) =>
                let '(events, ending) :=
                  replayLoop epoch rest browser' total in
                (CookiesSet details
                 :: UnknownErrWarning (Cookie.name cookie)
                      (url ++ " - " ++ message)
                 :: events, ending)
            | (browser', None) =>
                let total := S total in
                let '(events, ending) :=
                  replayLoop epoch rest browser' total in
                (CookiesSet details :: UpdateRestoreProgressBar total
                 :: events, ending)
            end
      end
  end.

(** The part of the callback that follows the outer [try]. *)
Definition replay (epoch : Num.t) (cookies : list Cookie.t) (browser : Browser)
  : list Event * LoopEnd :=
  let '(events, ending) := replayLoop epoch cookies browser 0%nat in
  match ending with
  | Finished _ total =>
      (InitRestoreProgressBar (List.length cookies)
       :: (events
           ++ [RestoreSuccessAlert total (Some (List.length cookies));
               HideRestoreProgressBar])%list,
       ending)
  | Aborted _ _ =>
      (InitRestoreProgressBar (List.length cookies) :: events, ending)
  end.

(** The whole handler on the text [data] that [getCkzFileDataAsText]
    delivers.  The answer is [None] when a decrypted record is not made of
    typed cookie fields, which the replay of the model does not cover. *)
Definition handleDecPasswdSubmit (enhanced : bool) (pass data : string)
    (epoch : Num.t) (browser : Browser) : option (list Event * Browser) :=
  if (String.length pass <? 1)%nat then
    Some ([Alert "Please enter a password to decrypt the backup."], browser)
  else
    match decodeBackup enhanced pass data with
    | Throw error => Some ([Alert (decryptionAlert error)], browser)
    | Normal items =>
        match Cookie.listOfJson items with
        | None => None
        | Some cookies =>
            let '(events, ending) := replay epoch cookies browser in
            Some (events,
                  match ending with
                  | Finished b _ => b
                  | Aborted b _ => b
                  end)
        end
    end.

(** ** popup.js : [restoreUnencryptedCookies] *)

Definition unencryptedDetails (cookie : Cookie.t) : Cookie.t :=
  {| Cookie.domain := Cookie.domain cookie;
     Cookie.expirationDate := None;
     Cookie.hostOnly := None;
     Cookie.httpOnly := Some (or_bool (Cookie.httpOnly cookie) false);
     Cookie.name := Cookie.name cookie;
     Cookie.path := Some (or_string (Cookie.path cookie) "/");
     Cookie.sameSite :=
       Some (or_string (Cookie.sameSite cookie) "no_restriction");
     Cookie.secure := Some (or_bool (Cookie.secure cookie) false);
     Cookie.session := None;
     Cookie.storeId := None;
     Cookie.url :=
       Some ("http"
             ++ (if truthy_bool (Cookie.secure cookie) then "s" else EmptyString)
             ++ "://" ++ to_text (Cookie.domain cookie)
             ++ or_string (Cookie.path cookie) "/");
     Cookie.value := Cookie.value cookie |}.

(** The [forEach]: one cookie-set call per record; the answers come back
    later, through the callbacks. *)
Fixpoint issueAll (cookies : list Cookie.t) (browser : Browser)
  : list Event * list (option string) * Browser :=
  match cookies with
  | [] => ([], [], browser)
  | cookie :: rest =>
      let details := unencryptedDetails cookie in
      let '(browser', lastError) := cookies_set browser details in
      let '(events, answers, browser'') := issueAll rest browser' in
      (CookiesSet details :: events, lastError :: answers, browser'')
  end.

(** [restoreSuccessAlert(restoredCookies, totalCookies)].  popup.js
    declares the function twice; the later declaration, with two
    parameters, is the one in force.  Its text calls [toLocaleString] on
    both arguments, so that the call throws when the second argument is
    missing, before any alert is built. *)
Definition restoreSuccessAlert (restoredCookies : nat)
    (totalCookies : option nat) : completion (list Event) :=
  match totalCookies with
  | Some _ => Normal [RestoreSuccessAlert restoredCookies totalCookies]
  | None => Throw TypeError
  end.

(** One run of the callback [() => { imported++; ... }]; the callback
    takes no argument and does not read [chrome.runtime.lastError].  The
    answer is the counter and what the callback shows or throws. *)
Definition setCallback (length : nat) (imported : nat)
    (lastError : option string) : nat * completion (list Event) :=
  let imported := S imported in
  (imported,
   if (imported =? length)%nat then restoreSuccessAlert imported None
   else Normal []).

(** The callbacks, one per cookie-set call: the counter, the alerts shown
    and the errors that the callbacks throw, which nothing catches. *)
Fixpoint runCallbacks (length : nat) (answers : list (option string))
    (imported : nat) : nat * list Event * list exn :=
  match answers with
  | [] => (imported, [], [])
  | lastError :: rest =>
      let '(imported', outcome) := setCallback length imported lastError in
      let '(imported'', events', errors') :=
        runCallbacks length rest imported' in
      match outcome with
      | Normal events => (imported'', (events ++ events')%list, errors')
      | Throw error => (imported'', events', error :: errors')
      end
  end.

(** The answer is the trace, the browser, the final value of [imported]
    and the errors left uncaught. *)
Definition restoreUnencryptedCookies (chromeCookies : bool)
    (cookies : list Cookie.t) (browser : Browser)
  : list Event * Browser * nat * list exn :=
  if chromeCookies then
    let '(calls, answers, browser') := issueAll cookies browser in
    let '(imported, alerts, uncaught) :=
      runCallbacks (List.length cookies) answers 0%nat in
    ((calls ++ alerts)%list, browser', imported, uncaught)
  else
    ([Alert "Cookie restoration is only available when running as a Chrome extension."],
     browser, 0%nat, []).

(** ** backup-core.js : [restoreCookies] *)

Definition newCookie (cookie : Cookie.t) : Cookie.t :=
  {| Cookie.domain := Cookie.domain cookie;
     Cookie.expirationDate := Cookie.expirationDate cookie;
     Cookie.hostOnly := None;
     Cookie.httpOnly := Cookie.httpOnly cookie;
     Cookie.name := Cookie.name cookie;
     Cookie.path := Cookie.path cookie;
     Cookie.sameSite := Some (or_string (Cookie.sameSite cookie) "lax");
     Cookie.secure := Cookie.secure cookie;
     Cookie.session := None;
     Cookie.storeId := None;
     Cookie.url :=
       Some ("http"
             ++ (if truthy_bool (Cookie.secure cookie) then "s" else EmptyString)
             ++ "://" ++ to_text (Cookie.domain cookie)
             ++ to_text (Cookie.path cookie));
     Cookie.value := Cookie.value cookie |}.

(** The restoring [for] loop with its counters; a rejected cookie-set call
    lands in the [catch] of its own iteration. *)
Fixpoint restoreLoop (cookies : list Cookie.t) (browser : Browser)
    (successCount failCount : nat) : list Event * Browser * nat * nat :=
  match cookies with
  | [] => ([], browser, successCount, failCount)
  | cookie :: rest =>
      let details := newCookie cookie in
      match cookies_set browser details with
      | (browser', None) =>
          let '(events, b, sc, fc) :=
            restoreLoop rest browser' (S successCount) failCount in
          (CookiesSet details :: events, b, sc, fc)
      | (browser', Some _) =>
          let '(events, b, sc, fc) :=
            restoreLoop rest browser' successCount (S failCount) in
          (CookiesSet details :: ConsoleError "Failed to restore cookie:"
           :: events, b, sc, fc)
      end
  end.

(** The loop that clears the store first; a rejected removal is thrown to
    the outer [catch]. *)
Fixpoint clearLoop (existing : list Cookie.t) (browser : Browser)
  : list Event * Browser * completion unit :=
  match existing with
  | [] => ([], browser, Normal tt)
  | cookie :: rest =>
      let url :=
        "http"
        ++ (if truthy_bool (Cookie.secure cookie) then "s" else EmptyString)
        ++ "://" ++ to_text (Cookie.domain cookie)
        ++ to_text (Cookie.path cookie) in
      match cookies_remove browser url (Cookie.name cookie) with
      | (browser', None) =>
          let '(events, b, c) := clearLoop rest browser' in
          (CookiesRemove url (Cookie.name cookie) :: events, b, c)
      | (browser', Some message) =>
          ([CookiesRemove url (Cookie.name cookie)], browser',
           Throw (JsError message))
      end
  end.

Definition parseBackup (cookieData : string) (password : option string)
  : completion (list json) :=
  cookies <-
    (if truthy_string password then
       match
         (decryptedData <- sjcl_decrypt (to_text password) (JStr cookieData) ;;
          of_option SyntaxError (JSON_parse decryptedData))
       with
       | Normal cookies => Normal cookies
       | Throw _ => Throw (JsError "Invalid password or corrupted backup file")
       end
     else of_option SyntaxError (JSON_parse cookieData)) ;;
  match Json.isArray cookies with
  | Some items => Normal items
  | None => Throw (JsError "Invalid backup format")
  end.

Definition restoreFailed (events : list Event) (browser : Browser)
    (error : exn) : list Event * Browser * completion (nat * nat) :=
  ((events ++ [ConsoleError "Restore failed:";
               RestoreFailedWarning error])%list,
   browser, Throw error).

(** The answer is the trace, the browser and either the returned pair
    [(success, failed)] or the error thrown again by the outer [catch];
    it is [None] when a record is not made of typed cookie fields. *)
Definition restoreCookies (cookieData : string) (password : option string)
    (clearExisting : bool) (browser : Browser)
  : option (list Event * Browser * completion (nat * nat)) :=
  match parseBackup cookieData password with
  | Throw error => Some (restoreFailed [] browser error)
  | Normal items =>
      match Cookie.listOfJson items with
      | None => None
      | Some cookies =>
          let '(cleared, browser1, status) :=
            if clearExisting then clearLoop (cookies_getAll browser) browser
            else ([], browser, Normal tt) in
          match status with
          | Throw error => Some (restoreFailed cleared browser1 error)
          | Normal _ =>
              let '(events, browser2, successCount, failCount) :=
                restoreLoop cookies browser1 0%nat 0%nat in
              Some ((cleared ++ events
                     ++ [RestoreSummary successCount failCount])%list,
                    browser2, Normal (successCount, failCount))
          end
      end
  end.

End Pipeline.

(* ===================================================================== *)
(** * Observations on traces *)
(* ===================================================================== *)

(** The cookie-set calls of a trace, in order. *)
Fixpoint setCalls (events : list Event) : list Cookie.t :=
  match events with
  | [] => []
  | CookiesSet details :: rest => details :: setCalls rest
  | _ :: rest => setCalls rest
  end.

(** The failure warnings of a trace, in order. *)
Fixpoint unknownWarnings (events : list Event) : list (option string * string) :=
  match events with
  | [] => []
  | UnknownErrWarning name details :: rest =>
      (name, details) :: unknownWarnings rest
  | _ :: rest => unknownWarnings rest
  end.

(** The expiry warnings of a trace, in order. *)
Fixpoint expiryWarnings (events : list Event) : list (option string * string) :=
  match events with
  | [] => []
  | ExpirationWarning name url :: rest => (name, url) :: expiryWarnings rest
  | _ :: rest => expiryWarnings rest
  end.

(** The texts written to a file or pushed to the messaging collaborator. *)
Fixpoint emitted (events : list Event) : list string :=
  match events with
  | [] => []
  | DownloadJson data _ :: rest => data :: emitted rest
  | DownloadBlob data _ :: rest => data :: emitted rest
  | SendBackupToTelegram data _ :: rest => data :: emitted rest
  | _ :: rest => emitted rest
  end.

(** The success alerts of a trace, in order. *)
Fixpoint successAlerts (events : list Event) : list (nat * option nat) :=
  match events with
  | [] => []
  | RestoreSuccessAlert restored total :: rest =>
      (restored, total) :: successAlerts rest
  | _ :: rest => successAlerts rest
  end.

(* ===================================================================== *)
(** * Sample collaborators *)
(* ===================================================================== *)

Module Samples.

(** A cookie store that accepts every cookie except those named in
    [rejected], for which it answers with the message ["rejected"]. *)
Definition store (rejected : list string) (calls : nat) (details : Cookie.t)
  : nat * option string :=
  (S calls,
   match Cookie.name details with
   | Some n =>
       if existsb (String.eqb n) rejected then Some "rejected" else None
   | None => None
   end).

(** A stand-in for the cipher library with the shape of its output: the
    cipher text is the text of an object that carries the parameters, and
    whose member [ct] conceals the plain text behind the password. *)
Definition sjcl_like_encrypt (r : string) (password plaintext : string)
    (params : SjclParams) : string :=
  JSON_stringify
    (JObj [("iv", JStr r); ("v", JNum 1); ("iter", JNum 10000);
           ("ks", JNum (match params with Some ks => ks | None => 128 end));
           ("ts", JNum 64); ("mode", JStr "ccm"); ("adata", JStr EmptyString);
           ("cipher", JStr "aes"); ("salt", JStr r);
           ("ct", JStr (password ++ plaintext))]).

Fixpoint strip (prefix s : string) : option string :=
  match prefix, s with
  | EmptyString, _ => Some s
  | String a prefix', String b s' =>
      if Ascii.eqb a b then strip prefix' s' else None
  | String _ _, EmptyString => None
  end.

Definition sjcl_like_decrypt (password : string) (ciphertext : json)
  : completion string :=
  match ciphertext with
  | JStr text =>
      match JSON_parse text with
      | Some (JObj members) =>
          match Json.lookup "ct" members with
          | Some (JStr ct) =>
              match strip password ct with
              | Some plaintext => Normal plaintext
              | None => Throw SjclCorrupt
              end
          | _ => Throw SjclInvalid
          end
      | _ => Throw SjclInvalid
      end
  | _ => Throw TypeError
  end.

Definition session_cookie (n d : string) : Cookie.t :=
  {| Cookie.domain := Some d; Cookie.expirationDate := None;
     Cookie.hostOnly := Some false; Cookie.httpOnly := Some false;
     Cookie.name := Some n; Cookie.path := Some "/";
     Cookie.sameSite := Some "lax"; Cookie.secure := Some true;
     Cookie.session := Some true; Cookie.storeId := Some "0";
     Cookie.url := None; Cookie.value := Some "1" |}.

Definition dated_cookie (n d : string) (expires : Num.t) : Cookie.t :=
  {| Cookie.domain := Some d; Cookie.expirationDate := Some expires;
     Cookie.hostOnly := Some true; Cookie.httpOnly := None;
     Cookie.name := Some n; Cookie.path := Some "/";
     Cookie.sameSite := None; Cookie.secure := None;
     Cookie.session := Some false; Cookie.storeId := Some "0";
     Cookie.url := None; Cookie.value := Some "x" |}.

End Samples.

(** The hash without the folding into 32 bits: Horner's rule in base 31. *)
Definition horner (units : list Z) (hash : Z) : Z :=
  fold_left (fun h c => 31 * h + c) units hash.

(** Reads hexadecimal digits back, most significant first. *)
Fixpoint read_hex (s : string) (acc : Z) : option Z :=
  match s with
  | EmptyString => Some acc
  | String c rest =>
      match Json.hex_value c with
      | Some d => read_hex rest (acc * 16 + d)
      | None => None
      end
  end.


(** The removals of a trace, in order. *)
Fixpoint removeCalls (events : list Event) : list (string * option string) :=
  match events with
  | [] => []
  | CookiesRemove url name :: rest => (url, name) :: removeCalls rest
  | _ :: rest => removeCalls rest
  end.

(** The arguments of [enhancedFeatures.addToBackupHistory] in a trace. *)
Fixpoint historyArgs (events : list Event) : list HistoryArg :=
  match events with
  | [] => []
  | AddToBackupHistory entry :: rest => entry :: historyArgs rest
  | _ :: rest => historyArgs rest
  end.

(** The counts announced by [backupSuccessAlert] in a trace. *)
Fixpoint backupAlerts (events : list Event) : list nat :=
  match events with
  | [] => []
  | BackupSuccessAlert n :: rest => n :: backupAlerts rest
  | _ :: rest => backupAlerts rest
  end.

(** The texts of the [alert] calls of a trace. *)
Fixpoint alerts (events : list Event) : list string :=
  match events with
  | [] => []
  | Alert message :: rest => message :: alerts rest
  | _ :: rest => alerts rest
  end.

(** The condition under which [handleEncPasswdSubmit] goes through to the
    encryption. *)
Definition backupProceeds {Rand : Type} (req : @BackupRequest Rand) : bool :=
  negb (alsoSendTelegram req && negb (telegramAvailable req))
  && (4 <=? String.length (encPasswd req))%nat
  && chromeCookies req
  && match filter (cookieFilter (selectedDomainsForBackup req))
             (allCookies req) with
     | [] => false
     | _ :: _ => true
     end.

(** The notices that the outer [catch] of [handleDecPasswdSubmit] can show
    when the cipher library raises only its own exceptions. *)
Definition decryptionNotices : list string :=
  ["Password incorrect!"; "File is not a valid .ckz file!";
   "Unknown error during decryption!"].

(* ===================================================================== *)
(** * The error logs *)
(* ===================================================================== *)

(** [reportError] of popup.js and [reportFeatureError] of the additional
    features keep the reports in two arrays of [window]. *)
Module ErrorReports.

(** What the functions read of the value they are given: [error.message],
    [error.stack] and [String(error)]. *)
Record ErrorValue : Type := {
  error_message : option string;
  error_stack : option string;
  error_text : string
}.

Record ErrorReport : Type := {
  timestamp : Z;
  context : string;
  message : string;
  stack : string;
  severity : string;
  userAgent : string;
  url : string
}.

Record FeatureReport : Type := {
  f_timestamp : Z;
  f_context : string;
  f_message : string;
  f_stack : string;
  f_severity : string;
  f_module : string
}.

Inductive Effect : Type :=
| ConsoleError (label : string)
| ConsoleWarn (label : string)
| ShowCriticalErrorToUser (context : string)
| ShowFeatureErrorToUser (context : string).

(** [array.slice(-n)]: the last [n] elements; the whole array when [n] is
    0, since -0 is 0. *)
Definition slice_last {A} (n : nat) (l : list A) : list A :=
  match n with
  | O => l
  | S _ => skipn (List.length l - n) l
  end.

Definition maxErrorReports : nat := 50.
Definition MAX_FEATURE_ERROR_REPORTS : nat := 25.

(** The array after [push] and the test of its length. *)
Definition store {A} (limit : nat) (reports : list A) (report : A) : list A :=
  let pushed := (reports ++ [report])%list in
  if (limit <? List.length pushed)%nat then slice_last limit pushed
  else pushed.

Definition logBySeverity (critical error warn : string) (context severity : string)
  : Effect :=
  if String.eqb severity "critical" then
    ConsoleError (critical ++ context ++ ":")
  else if String.eqb severity "error" then
    ConsoleError (error ++ context ++ ":")
  else ConsoleWarn (warn ++ context ++ ":").

(** [reportError(context, error, severity)], with the clock, the user agent
    and the address of the page as they are when it runs.  Reading
    [error.message] of [null] or [undefined] throws. *)
Definition reportError (now : Z) (agent href : string)
    (errorReports : list ErrorReport) (context : string)
    (error : option ErrorValue) (severity : string)
  : completion (list ErrorReport * list Effect) :=
  match error with
  | None => Throw TypeError
  | Some e =>
      let errorReport :=
        {| timestamp := now;
           context := context;
           message := or_string (error_message e) (error_text e);
           stack := or_string (error_stack e) "No stack available";
           severity := severity;
           userAgent := agent;
           url := href |} in
      Normal
        (store maxErrorReports errorReports errorReport,
         (logBySeverity "[CRITICAL] " "[ERROR] " "[WARN] " context severity
          :: (if String.eqb severity "critical"
              then [ShowCriticalErrorToUser context] else []))%list)
  end.

(** [reportFeatureError(context, error, severity)]; [mainDefined] says
    whether [reportError] is a function where it runs, and [now'] is the
    clock at the time of that second call. *)
Definition reportFeatureError (now now' : Z) (agent href : string)
    (mainDefined : bool)
    (additionalFeaturesErrors : list FeatureReport)
    (errorReports : list ErrorReport) (context : string)
    (error : option ErrorValue) (severity : string)
  : completion (list FeatureReport * list ErrorReport * list Effect) :=
  match error with
  | None => Throw TypeError
  | Some e =>
      let errorReport :=
        {| f_timestamp := now;
           f_context := context;
           f_message := or_string (error_message e) (error_text e);
           f_stack := or_string (error_stack e) "No stack available";
           f_severity := severity;
           f_module := "additional-features" |} in
      let features :=
        store MAX_FEATURE_ERROR_REPORTS additionalFeaturesErrors errorReport in
      let logged :=
        logBySeverity "[FEATURES-CRITICAL] " "[FEATURES-ERROR] "
          "[FEATURES-WARN] " context severity in
      forwarded <-
        (if mainDefined then
           reportError now' agent href errorReports
             ("additional_features_" ++ context) error severity
         else Normal (errorReports, [])) ;;
      let '(main, effects) := forwarded in
      Normal
        (features, main,
         (logged :: effects
          ++ (if String.eqb severity "critical"
              then [ShowFeatureErrorToUser context] else []))%list)
  end.

End ErrorReports.

(* ===================================================================== *)
(** * The trial and the feature gate *)
(* ===================================================================== *)

Module Trial.

(** The value of [daysLeft]: [null], a number, or not a number. *)
Inductive Days : Type :=
| DaysNull
| DaysNaN
| DaysNumber (n : Z).

Record TrialStatus : Type := {
  status : string;
  daysLeft : Days
}.

Definition millisecondsPerDay : Z := 1000 * 60 * 60 * 24.

Section SecureStorage.

(** The secure storage: [get] and [set] may reject. *)
Context {Storage : Type}.
Variable get : Storage -> string -> completion (option json).
Variable set : Storage -> string -> json -> completion Storage.

(** [new Date(value).getTime()]; [None] for an invalid date. *)
Variable Date_getTime : option json -> option Z.

Definition defaultStatus : TrialStatus :=
  {| status := "trial"; daysLeft := DaysNumber 7 |}.

(** The end of [getTrialStatus], for a trial that has not started yet. *)
Definition startTrial (storage : Storage) (nowISO : string)
  : Storage * TrialStatus :=
  match set storage "trialStartDate" (JStr nowISO) with
  | Throw _ => (storage, defaultStatus)
  | Normal storage1 =>
      match set storage1 "subscriptionStatus" (JStr "trial") with
      | Throw _ => (storage1, defaultStatus)
      | Normal storage2 => (storage2, defaultStatus)
      end
  end.

(** [secureStorage.getTrialStatus()] at the time [now], whose ISO text is
    [nowISO]. *)
Definition getTrialStatus (storage : Storage) (now : Z) (nowISO : string)
  : Storage * TrialStatus :=
  match get storage "trialStartDate" with
  | Throw _ => (storage, defaultStatus)
  | Normal trialStartDate =>
      match get storage "subscriptionStatus" with
      | Throw _ => (storage, defaultStatus)
      | Normal subscriptionStatus =>
          if negb (Json.strict_neq_str "premium" subscriptionStatus) then
            (storage, {| status := "premium"; daysLeft := DaysNull |})
          else if Json.truthy trialStartDate then
            match Date_getTime trialStartDate with
            | Some start =>
                let daysDiff := (now - start) / millisecondsPerDay in
                let daysLeft := Z.max 0 (7 - daysDiff) in
                (storage,
                 {| status := if 0 <? daysLeft then "trial" else "expired";
                    daysLeft := DaysNumber daysLeft |})
            | None =>
                (storage, {| status := "expired"; daysLeft := DaysNaN |})
            end
          else startTrial storage nowISO
      end
  end.

Definition restrictedFeatures : list string :=
  ["telegram_backup"; "auto_backup_15min"; "auto_backup_30min"; "encryption";
   "cloud_storage"].

(** [isFeatureAvailable(feature)] of popup.js; [secureStorage] is [None]
    when [window.secureStorage] is missing. *)
Definition isFeatureAvailable (secureStorage : option Storage) (now : Z)
    (nowISO : string) (feature : string) : option Storage * bool :=
  match secureStorage with
  | Some storage =>
      let '(storage', trialStatus) := getTrialStatus storage now nowISO in
      if String.eqb (status trialStatus) "premium"
         || String.eqb (status trialStatus) "trial"
      then (Some storage', true)
      else (Some storage',
            negb (existsb (String.eqb feature) restrictedFeatures))
  | None => (None, true)
  end.

End SecureStorage.

End Trial.

(** A storage that keeps its values in a list and never rejects, and a clock
    that reads a stored number as a time in milliseconds. *)
Module TrialSamples.

Definition get (storage : list (string * json)) (key : string)
  : completion (option json) :=
  Normal (Json.lookup key storage).

Definition set (storage : list (string * json)) (key : string) (value : json)
  : completion (list (string * json)) :=
  Normal (Json.assign key value storage).

Definition Date_getTime (value : option json) : option Z :=
  match value with
  | Some (JNum milliseconds) =>
      Some (Z.quot (Num.mantissa milliseconds)
              (10 ^ Z.of_nat (Num.places milliseconds)))
  | _ => None
  end.

End TrialSamples.

(* ===================================================================== *)
(** * Choosing a file to restore *)
(* ===================================================================== *)

(** ** Functions of strings *)

(** [s.split(sep)] for a separator of one character. *)
Fixpoint split (sep : ascii) (s : string) : list string :=
  match s with
  | EmptyString => [EmptyString]
  | String c rest =>
      if Ascii.eqb c sep then EmptyString :: split sep rest
      else
        match split sep rest with
        | first :: others => String c first :: others
        | [] => [String c EmptyString]
        end
  end.

(** [array.pop()] on a fresh array: its last element. *)
Definition pop (segments : list string) : option string :=
  match segments with
  | [] => None
  | first :: others => Some (last others first)
  end.

(** [toLowerCase] on one code unit below 256. *)
Definition lowerUnit (c : ascii) : ascii :=
  let n := nat_of_ascii c in
  if (65 <=? n)%nat && (n <=? 90)%nat then ascii_of_nat (n + 32)
  else if (192 <=? n)%nat && (n <=? 222)%nat && negb (n =? 215)%nat
  then ascii_of_nat (n + 32)
  else c.

Fixpoint toLowerCase (s : string) : string :=
  match s with
  | EmptyString => EmptyString
  | String c rest => String (lowerUnit c) (toLowerCase rest)
  end.

(** [s.indexOf(c) !== -1] for one character. *)
Fixpoint includesUnit (c : ascii) (s : string) : bool :=
  match s with
  | EmptyString => false
  | String a rest => Ascii.eqb a c || includesUnit c rest
  end.

Module FileImport.

(** A file of the file input: its name, its size in bytes and the text that
    the file reader delivers for it. *)
Record File : Type := {
  name : string;
  size : Z;
  result : string
}.

(** The two places that remember the chosen file: [window.cookieFile] and
    the variable [cookieFile] of backup-core.js.  For the variable, [None]
    stands for a value whose [typeof] is [undefined] and [Some None] for
    [null]. *)
Record Selection : Type := {
  window_cookieFile : option File;
  cookieFile : option (option File)
}.

(** What a handler ends in: a call of [restoreUnencryptedCookies], a call
    of [handleEncryptedFile], or an alert. *)
Inductive Dispatch : Type :=
| RestoreUnencrypted (cookies : list Cookie.t)
| HandleEncrypted (content : string)
| ImportAlert (message : string).

Definition invalidJson : string :=
  "Invalid JSON file format. Please check your file and try again.".

(** [handleJsonFile(content)]; [None] when the array holds a record that is
    not made of typed cookie fields. *)
Definition handleJsonFile (content : string) : option Dispatch :=
  if String.eqb content EmptyString
     || (String.length (trim content) =? 0)%nat
  then Some (ImportAlert invalidJson)
  else
    match JSON_parse content with
    | None => Some (ImportAlert invalidJson)
    | Some jsonData =>
        if negb (Json.truthy (Some jsonData)) then
          Some (ImportAlert invalidJson)
        else
          match Json.isArray jsonData with
          | Some (first :: others) =>
              match Json.prop first "name", Json.prop first "domain" with
              | Some name, Some domain =>
                  if Json.truthy name && Json.truthy domain then
                    option_map RestoreUnencrypted
                      (Cookie.listOfJson (first :: others))
                  else Some (HandleEncrypted content)
              | _, _ => Some (ImportAlert invalidJson)
              end
          | _ => Some (HandleEncrypted content)
          end
    end.

(** [handleTextFile(content)]; [None] as for [handleJsonFile]. *)
Definition handleTextFile (content : string) : option Dispatch :=
  if includesUnit "{" content then
    match JSON_parse content with
    | Some jsonData =>
        match Json.isArray jsonData with
        | Some items =>
            option_map RestoreUnencrypted (Cookie.listOfJson items)
        | None => Some (HandleEncrypted content)
        end
    | None => Some (HandleEncrypted content)
    end
  else
    Some (ImportAlert "This doesn't appear to be a valid backup file format.").

Definition handleCkzFile (content : string) : Dispatch :=
  HandleEncrypted content.

(** ** [handleCsvFile] *)

(** [values[index] ? values[index].trim() : ''] *)
Definition cellValue (cell : option string) : string :=
  match cell with
  | Some text => if String.eqb text EmptyString then EmptyString else trim text
  | None => EmptyString
  end.

(** The assignment made for one header and the value of its column. *)
Definition assignColumn (cookie : Cookie.t) (header : string)
    (cell : option string) : Cookie.t :=
  let value := cellValue cell in
  if String.eqb header "domain" then
    Cookie.mk (Some value) (Cookie.expirationDate cookie)
      (Cookie.hostOnly cookie) (Cookie.httpOnly cookie) (Cookie.name cookie)
      (Cookie.path cookie) (Cookie.sameSite cookie) (Cookie.secure cookie)
      (Cookie.session cookie) (Cookie.storeId cookie) (Cookie.url cookie)
      (Cookie.value cookie)
  else if String.eqb header "name" then
    Cookie.mk (Cookie.domain cookie) (Cookie.expirationDate cookie)
      (Cookie.hostOnly cookie) (Cookie.httpOnly cookie) (Some value)
      (Cookie.path cookie) (Cookie.sameSite cookie) (Cookie.secure cookie)
      (Cookie.session cookie) (Cookie.storeId cookie) (Cookie.url cookie)
      (Cookie.value cookie)
  else if String.eqb header "value" then
    Cookie.mk (Cookie.domain cookie) (Cookie.expirationDate cookie)
      (Cookie.hostOnly cookie) (Cookie.httpOnly cookie) (Cookie.name cookie)
      (Cookie.path cookie) (Cookie.sameSite cookie) (Cookie.secure cookie)
      (Cookie.session cookie) (Cookie.storeId cookie) (Cookie.url cookie)
      (Some value)
  else if String.eqb header "path" then
    Cookie.mk (Cookie.domain cookie) (Cookie.expirationDate cookie)
      (Cookie.hostOnly cookie) (Cookie.httpOnly cookie) (Cookie.name cookie)
      (Some (if String.eqb value EmptyString then "/" else value))
      (Cookie.sameSite cookie) (Cookie.secure cookie)
      (Cookie.session cookie) (Cookie.storeId cookie) (Cookie.url cookie)
      (Cookie.value cookie)
  else cookie.

(** [headers.forEach((header, index) => ...)], from the column [index]
    on. *)
Fixpoint assignColumns (cookie : Cookie.t) (headers : list string)
    (values : list string) (index : nat) : Cookie.t :=
  match headers with
  | [] => cookie
  | header :: rest =>
      assignColumns (assignColumn cookie header (nth_error values index))
        rest values (S index)
  end.

Definition rowCookie (headers : list string) (line : string) : Cookie.t :=
  assignColumns Cookie.empty headers (split "," line) 0.

(** The loop over the lines that follow the header line. *)
Fixpoint csvRows (headers : list string) (lines : list string)
  : list Cookie.t :=
  match lines with
  | [] => []
  | line :: rest =>
      if String.eqb (trim line) EmptyString then csvRows headers rest
      else
        let cookie := rowCookie headers line in
        if truthy_string (Cookie.domain cookie)
           && truthy_string (Cookie.name cookie)
        then cookie :: csvRows headers rest
        else csvRows headers rest
  end.

Definition newline : ascii := ascii_of_nat 10.

Definition handleCsvFile (content : string) : Dispatch :=
  match split newline content with
  | [] | [_] => ImportAlert "CSV file appears to be empty or invalid."
  | first :: lines =>
      let headers := map (fun h => toLowerCase (trim h)) (split "," first) in
      match csvRows headers lines with
      | [] => ImportAlert "No valid cookies found in CSV file."
      | cookies => RestoreUnencrypted cookies
      end
  end.

(** ** [handleFileSelect] *)

Definition maxSize : Z := 10 * 1024 * 1024.

Definition allowedTypes : list string :=
  [".ckz"; ".json"; ".csv"; ".txt"; ".xml"].

Definition fileExtension (name : string) : string :=
  "." ++ toLowerCase (match pop (split "." name) with
                      | Some segment => segment
                      | None => EmptyString
                      end).

(** The first statement: the file is remembered, by the hook of
    [window.backupCore] when there is one, which then reads [file.name], or
    in one of the two variables. *)
Definition remember (backupCore : bool) (selection : Selection)
    (file : option File) : Selection * completion unit :=
  let held :=
    match file with
    | Some f => Some (Some f)
    | None => None
    end in
  if backupCore then
    ({| window_cookieFile := window_cookieFile selection;
        cookieFile := held |},
     match file with
     | Some _ => Normal tt
     | None => Throw TypeError
     end)
  else
    match cookieFile selection with
    | None =>
        ({| window_cookieFile := file; cookieFile := cookieFile selection |},
         Normal tt)
    | Some _ =>
        ({| window_cookieFile := window_cookieFile selection;
            cookieFile := held |},
         Normal tt)
    end.

(** What the handler of the reader does with the text of the file. *)
Definition dispatch (extension content : string) : option (option Dispatch) :=
  if String.eqb extension ".json" then option_map Some (handleJsonFile content)
  else if String.eqb extension ".csv" then Some (Some (handleCsvFile content))
  else if String.eqb extension ".txt" || String.eqb extension ".xml" then
    option_map Some (handleTextFile content)
  else if String.eqb extension ".ckz" then Some (Some (handleCkzFile content))
  else Some None.

(** The outcome of [handleFileSelect]: the selection afterwards, whether the
    file input was reset, and what was done about the file, or the error
    that the handler let out. *)
Record Outcome : Type := {
  selection : Selection;
  inputReset : bool;
  done : completion (option Dispatch)
}.

(** [handleFileSelect(e)] for [e.target.files[0]] equal to [file], the
    reader having delivered the text; [None] as for [handleJsonFile]. *)
Definition handleFileSelect (backupCore : bool) (before : Selection)
    (file : option File) : option Outcome :=
  let '(remembered, status) := remember backupCore before file in
  match status with
  | Throw error =>
      Some {| selection := remembered; inputReset := false;
              done := Throw error |}
  | Normal _ =>
      match file with
      | None =>
          Some {| selection := remembered; inputReset := false;
                  done := Normal None |}
      | Some selectedFile =>
          if maxSize <? size selectedFile then
            Some {| selection := remembered; inputReset := true;
                    done :=
                      Normal (Some (ImportAlert "File size exceeds 10MB limit. Please select a smaller backup file.")) |}
          else
            let extension := fileExtension (name selectedFile) in
            if negb (existsb (String.eqb extension) allowedTypes) then
              Some {| selection := remembered; inputReset := true;
                      done :=
                        Normal (Some (ImportAlert "Please select a valid backup file (.ckz, .json, .csv, .txt, .xml)")) |}
            else
              match dispatch extension (result selectedFile) with
              | None => None
              | Some action =>
                  Some {| selection :=
                            {| window_cookieFile := Some selectedFile;
                               cookieFile := cookieFile remembered |};
                          inputReset := false;
                          done := Normal action |}
              end
      end
  end.

(** [getCkzFileDataAsText(cb)]: the text passed to the callback, the reader
    having succeeded; the file comes before the text area. *)
Definition getCkzFileDataAsText (selection : Selection) (textarea : string)
  : string :=
  match window_cookieFile selection with
  | Some file => result file
  | None =>
      match cookieFile selection with
      | Some (Some file) => result file
      | _ => trim textarea
      end
  end.

(** ** Notions used to state the properties of the CSV import *)

(** A field that the CSV reader gives back as it is: no comma, no line
    feed, no white space at either end. *)
Definition plainField (s : string) : Prop :=
  includesUnit "," s = false /\ includesUnit newline s = false /\ trim s = s.

Record Row : Type := {
  row_domain : string;
  row_name : string;
  row_value : string;
  row_path : string
}.

Definition plainRow (row : Row) : Prop :=
  plainField (row_domain row) /\ plainField (row_name row)
  /\ plainField (row_value row) /\ plainField (row_path row)
  /\ row_domain row <> EmptyString /\ row_name row <> EmptyString.

Definition csvLine (row : Row) : string :=
  row_domain row ++ "," ++ row_name row ++ "," ++ row_value row ++ ","
  ++ row_path row.

Fixpoint csvLines (rows : list Row) : string :=
  match rows with
  | [] => EmptyString
  | row :: rest => String newline (csvLine row ++ csvLines rest)
  end.

(** The text of a table with the four columns that the reader knows. *)
Definition csvText (rows : list Row) : string :=
  "domain,name,value,path" ++ csvLines rows.

(** A record that carries nothing beyond a domain, a name, a value and a
    path. *)
Definition fourFieldsOnly (cookie : Cookie.t) : Prop :=
  Cookie.expirationDate cookie = None /\ Cookie.hostOnly cookie = None
  /\ Cookie.httpOnly cookie = None /\ Cookie.sameSite cookie = None
  /\ Cookie.secure cookie = None /\ Cookie.session cookie = None
  /\ Cookie.storeId cookie = None /\ Cookie.url cookie = None.

Definition csvCookie (row : Row) : Cookie.t :=
  Cookie.mk (Some (row_domain row)) None None None (Some (row_name row))
    (Some (if String.eqb (row_path row) EmptyString then "/"
           else row_path row))
    None None None None None (Some (row_value row)).

End FileImport.

(* ===================================================================== *)
(** * The selection dialog of the enhanced features *)
(* ===================================================================== *)

Module SelectiveBackup.

(** The object [grouped]: its own keys with their arrays.  The order in
    which [Object.entries] lists the keys is not modelled. *)
Definition Groups : Type := list (string * list Cookie.t).

Fixpoint groupOf (domain : string) (grouped : Groups)
  : option (list Cookie.t) :=
  match grouped with
  | [] => None
  | (key, cookies) :: rest =>
      if String.eqb domain key then Some cookies else groupOf domain rest
  end.

(** The names that every object inherits: [grouped[name]] is not empty for
    them although [grouped] has no such key of its own. *)
Definition inheritedKeys : list string :=
  ["constructor"; "__defineGetter__"; "__defineSetter__"; "hasOwnProperty";
   "__lookupGetter__"; "__lookupSetter__"; "isPrototypeOf";
   "propertyIsEnumerable"; "toString"; "valueOf"; "__proto__";
   "toLocaleString"].

(** [grouped[domain].push(cookie)] on a key that [grouped] has. *)
Fixpoint push (domain : string) (cookie : Cookie.t) (grouped : Groups)
  : Groups :=
  match grouped with
  | [] => []
  | (key, cookies) :: rest =>
      if String.eqb domain key then (key, (cookies ++ [cookie])%list) :: rest
      else (key, cookies) :: push domain cookie rest
  end.

(** [cookie.domain || "unknown"] *)
Definition groupKey (cookie : Cookie.t) : string :=
  or_string (Cookie.domain cookie) "unknown".

(** The cookies that belong under a key. *)
Definition members (d : string) (cookies : list Cookie.t) : list Cookie.t :=
  filter (fun c => String.eqb (groupKey c) d) cookies.

(** One run of the callback of [cookies.forEach]. *)
Definition groupStep (grouped : Groups) (cookie : Cookie.t)
  : completion Groups :=
  let domain := groupKey cookie in
  match groupOf domain grouped with
  | Some _ => Normal (push domain cookie grouped)
  | None =>
      if existsb (String.eqb domain) inheritedKeys then Throw TypeError
      else Normal (grouped ++ [(domain, [cookie])])%list
  end.

Fixpoint groupLoop (cookies : list Cookie.t) (grouped : Groups)
  : completion Groups :=
  match cookies with
  | [] => Normal grouped
  | cookie :: rest =>
      grouped' <- groupStep grouped cookie ;;
      groupLoop rest grouped'
  end.

Definition groupCookiesByDomain (cookies : list Cookie.t)
  : completion Groups :=
  groupLoop cookies [].

(** [backupSelectedCookies()] of the enhanced features: the alert, if any,
    and [window.selectedDomainsForBackup] afterwards. *)
Definition backupSelectedCookies (selectedCookies : list string)
    (selectedDomainsForBackup : option (list string))
  : option string * option (list string) :=
  match selectedCookies with
  | [] =>
      (Some "Please select at least one domain to backup",
       selectedDomainsForBackup)
  | _ :: _ => (None, Some selectedCookies)
  end.

End SelectiveBackup.

(* ===================================================================== *)
(** * Backups made through a profile *)
(* ===================================================================== *)

(** [s.includes(sub)] *)
Fixpoint includes (sub s : string) : bool :=
  String.prefix sub s
  || match s with
     | EmptyString => false
     | String _ rest => includes sub rest
     end.

(** [s.replace(/\s+/g, '-')]: every run of white space becomes one dash. *)
Fixpoint dashSpaces (s : string) : string :=
  match s with
  | EmptyString => EmptyString
  | String c rest =>
      if isSpace c then
        match rest with
        | String c' _ =>
            if isSpace c' then dashSpaces rest else String "-" (dashSpaces rest)
        | EmptyString => "-"
        end
      else String c (dashSpaces rest)
  end.

(** [iso.split('T')[0]]: the part of an ISO date before the [T]. *)
Definition datePart (iso : string) : string :=
  match split "T" iso with
  | first :: _ => first
  | [] => EmptyString
  end.

(** [JSON.stringify(value, null, 2)] *)
Module Indented.

Fixpoint spaces (n : nat) : string :=
  match n with
  | O => EmptyString
  | S n' => String " " (spaces n')
  end.

Definition lineFeed : string := String (ascii_of_nat 10) EmptyString.

(** The lines of a bracketed value, one per text, at the depth [level]. *)
Definition bracket (open close : string) (level : nat) (texts : list string)
  : string :=
  match texts with
  | [] => open ++ close
  | first :: others =>
      open ++ lineFeed ++ spaces (2 * S level) ++ first
      ++ fold_right
           (fun text rest =>
              "," ++ lineFeed ++ spaces (2 * S level) ++ text ++ rest)
           EmptyString others
      ++ lineFeed ++ spaces (2 * level) ++ close
  end.

Fixpoint stringify (level : nat) (v : json) : string :=
  match v with
  | JArr items => bracket "[" "]" level (map (stringify (S level)) items)
  | JObj members =>
      bracket "{" "}" level
        (map (fun kv =>
                Json.quote (fst kv) ++ ": " ++ stringify (S level) (snd kv))
           members)
  | _ => Json.stringify v
  end.

End Indented.

Module ProfileBackup.

(** What [backupWithProfile] reads of a stored profile. *)
Record Profile : Type := {
  id : option string;
  name : string;
  domains : list string;
  encryption : string;          (* profile.settings.encryption *)
  lastUsed : option string;
  backupCount : option Z
}.

Inductive Effect : Type :=
| ConsoleError (label : string)
| Download (finalData filename : string)
| SaveBackupProfile (profile : Profile).

Record Summary : Type := {
  success : bool;
  filename : string;
  cookieCount : nat
}.

(** The callback of [allCookies.filter]; reading [includes] of a missing
    domain throws, once there is a domain of the profile to compare with. *)
Definition matches (profile : Profile) (cookie : Cookie.t) : completion bool :=
  match domains profile with
  | [] => Normal false
  | _ :: _ =>
      match Cookie.domain cookie with
      | None => Throw TypeError
      | Some cookieDomain =>
          Normal
            (existsb
               (fun domain =>
                  includes domain cookieDomain || includes cookieDomain domain)
               (domains profile))
      end
  end.

Fixpoint filterCookies (profile : Profile) (allCookies : list Cookie.t)
  : completion (list Cookie.t) :=
  match allCookies with
  | [] => Normal []
  | cookie :: rest =>
      keep <- matches profile cookie ;;
      kept <- filterCookies profile rest ;;
      Normal (if keep then cookie :: kept else kept)
  end.

Definition backupData (profile : Profile) (timestamp : string)
    (filteredCookies : list Cookie.t) : json :=
  JObj [("profile",
          JObj (Cookie.opt_member "id" JStr (id profile)
                ++ [("name", JStr (name profile))]));
        ("timestamp", JStr timestamp);
        ("cookieCount", JNum (Z.of_nat (List.length filteredCookies)));
        ("domains", JArr (map JStr (domains profile)));
        ("cookies", JArr (map Cookie.toJson filteredCookies))].

Section Cipher.

Context {Rand : Type}.
Variable sjcl_encrypt : Rand -> string -> string -> SjclParams -> string.
Variable encryptWithMaximumSecurity : Rand -> string -> string -> string.

(** The text written to the file; [password] is the answer of
    [promptForPassword]. *)
Definition finalData (profile : Profile) (data : json)
    (password : option string) (salt : Rand) : completion string :=
  if String.eqb (encryption profile) "maximum" then
    if truthy_string password then
      Normal (encryptWithMaximumSecurity salt (JSON_stringify data)
                (to_text password))
    else Throw (JsError "Password required for maximum encryption")
  else if String.eqb (encryption profile) "standard" then
    if truthy_string password then
      Normal (sjcl_encrypt salt (to_text password) (JSON_stringify data) None)
    else Throw (JsError "Password required")
  else Normal (Indented.stringify 0 data).

(** [backupWithProfile(profileId)] for [profiles[profileId]] equal to
    [profile], at the times [timestamp] and [later] in ISO form. *)
Definition backupWithProfile (profile : option Profile)
    (allCookies : list Cookie.t) (timestamp later : string)
    (password : option string) (salt : Rand)
  : list Effect * completion Summary :=
  match profile with
  | None => ([], Throw (JsError "Profile not found"))
  | Some profile =>
      let attempt :=
        filteredCookies <- filterCookies profile allCookies ;;
        match filteredCookies with
        | [] => Throw (JsError "No cookies found for profile domains")
        | _ :: _ =>
            text <-
              finalData profile (backupData profile timestamp filteredCookies)
                password salt ;;
            Normal (filteredCookies, text)
        end in
      match attempt with
      | Throw error => ([ConsoleError "Profile backup failed:"], Throw error)
      | Normal (filteredCookies, text) =>
          let filename :=
            "cookies-" ++ dashSpaces (name profile) ++ "-" ++ datePart later
            ++ ".ckz" in
          ([Download text filename;
            SaveBackupProfile
              {| id := id profile; name := name profile;
                 domains := domains profile;
                 encryption := encryption profile;
                 lastUsed := Some timestamp;
                 backupCount := Some (or_number (backupCount profile) 0 + 1) |}],
           Normal {| success := true; filename := filename;
                     cookieCount := List.length filteredCookies |})
      end
  end.

End Cipher.

End ProfileBackup.

(* ===================================================================== *)
(** * The automatic backup *)
(* ===================================================================== *)

(** [s.replace(pattern, replacement)] for a pattern that is a string: the
    first occurrence is replaced. *)
Fixpoint replaceFirst (pattern replacement s : string) : string :=
  if String.prefix pattern s then
    replacement ++ dropUnits (String.length pattern) s
  else
    match s with
    | EmptyString => EmptyString
    | String c rest => String c (replaceFirst pattern replacement rest)
    end.

Module AutomaticBackup.

(** The local fields of a date that [formatDate] reads. *)
Record DateParts : Type := {
  getDate : Z;
  getMonth : Z;
  getFullYear : Z;
  getHours : Z;
  getMinutes : Z;
  getSeconds : Z
}.

(** [n.toString().padStart(2, '0')] *)
Definition pad (n : Z) : string :=
  let text := Json.number_to_string n in
  if (String.length text <? 2)%nat then "0" ++ text else text.

Definition formatDate (date : DateParts) : string :=
  pad (getDate date) ++ "-" ++ pad (getMonth date + 1) ++ "-"
  ++ Json.number_to_string (getFullYear date) ++ "-" ++ pad (getHours date)
  ++ "-" ++ pad (getMinutes date) ++ "-" ++ pad (getSeconds date).

Inductive Effect : Type :=
| ConsoleLog (message : string)
| ConsoleError (label : string)
| StorageSet (key : string) (value : json)
| SendBackupToTelegram (encryptedData filename : string)
| AddToBackupHistory (type filename : string) (cookieCount : nat).

Section Run.

Context {Rand : Type}.
Variable sjcl_encrypt : Rand -> string -> string -> SjclParams -> string.

(** What one run meets: the cookie store, the two values read from the
    secure storage, the date in its local fields and in ISO form, the clock,
    and the answer of the storage to the write. *)
Record Request : Type := {
  cookies : completion (list Cookie.t);
  savedProfileName : completion (option string);
  date : DateParts;
  toISOString : string;
  now : Z;
  setError : option exn;
  autoTelegramBackup : completion bool;
  salt : Rand
}.

Definition failed (effects : list Effect) : list Effect :=
  (effects ++ [ConsoleError "Automatic backup failed:"])%list.

Definition simplePassword (req : Request) : string :=
  "auto_backup_" ++ datePart (toISOString req).

Definition automaticCookieBackup (req : Request) : list Effect :=
  match cookies req with
  | Throw _ => failed []
  | Normal [] => [ConsoleLog "No cookies to backup"]
  | Normal all =>
      match savedProfileName req with
      | Throw _ => failed []
      | Normal saved =>
          let profileName := or_string saved EmptyString in
          let timestamp := formatDate (date req) in
          let filename :=
            if String.eqb profileName EmptyString
            then "cookies-auto-" ++ timestamp ++ ".json"
            else "cookies-auto-" ++ profileName ++ "-" ++ timestamp ++ ".json"
          in
          let backupData :=
            JObj [("timestamp", JStr (toISOString req));
                  ("profileName", JStr profileName);
                  ("cookieCount", JNum (Z.of_nat (List.length all)));
                  ("cookies", JArr (map Cookie.toJson all))] in
          let stored :=
            StorageSet ("backup_" ++ Json.number_to_string (now req))
              backupData in
          match setError req with
          | Some _ => failed [stored]
          | None =>
              match autoTelegramBackup req with
              | Throw _ => failed [stored]
              | Normal autoTelegramEnabled =>
                  (stored
                   :: (if autoTelegramEnabled then
                         [SendBackupToTelegram
                            (sjcl_encrypt (salt req) (simplePassword req)
                               (serialize all) None)
                            (replaceFirst ".json" ".ckz" filename)]
                       else [])
                   ++ [AddToBackupHistory "automatic" filename
                         (List.length all);
                       ConsoleLog "Automatic backup completed:"])%list
              end
          end
      end
  end.

End Run.

End AutomaticBackup.

(* ===================================================================== *)
(** * The settings manager *)
(* ===================================================================== *)

Module SettingsManager.

(** The options of [importSettings]; [None] for a key that the caller
    leaves out, which then takes its default: the options are spread over
    the defaults, so that a [false] of the caller stays. *)
Record ImportOptions : Type := {
  overwriteExisting : option bool;
  importProfiles : option bool;
  importHistory : option bool;
  importTelegram : option bool
}.

Inductive Effect : Type :=
| ConsoleWarn (message : string)
| ConsoleError (label : string)
| StorageGet (key : string)
| StorageSet (items : list (string * option json))
| StorageRemove (keys : list string)
| ApplyTheme (theme : json)
| SuccessMessage
| ImportFailed (error : exn).

(** The value of a key in [{ key: default, ...options }]. *)
Definition givenOr (given : option bool) (default : bool) : bool :=
  match given with
  | Some value => value
  | None => default
  end.

(** The white space that a token of a class list may not hold. *)
Fixpoint hasTokenSpace (s : string) : bool :=
  match s with
  | EmptyString => false
  | String c rest =>
      match Json.code c with
      | 9 | 10 | 12 | 13 | 32 => true
      | _ => hasTokenSpace rest
      end
  end.

(** [applyTheme(theme)]: the class [theme + '-mode'] is added to the body.
    The conversion of [theme] to a text throws for an object that hides
    [toString], and [classList.add] refuses a token with white space in
    it. *)
Definition applyTheme (theme : json) : completion Effect :=
  match toText theme with
  | None => Throw TypeError
  | Some text =>
      if hasTokenSpace (text ++ "-mode")
      then Throw (DOMException "InvalidCharacterError")
      else Normal (ApplyTheme theme)
  end.

(** [items.key] for the object handed to the storage; [None] for a key
    that is missing or whose value is [undefined]. *)
Fixpoint item (key : string) (items : list (string * option json))
  : option json :=
  match items with
  | [] => None
  | (k, v) :: rest => if String.eqb key k then v else item key rest
  end.

(** The own members that a spread copies: those of an object, the indices
    of an array or of a string with their elements, nothing for any other
    value. *)
Fixpoint indexed (items : list json) (index : Z) : list (string * json) :=
  match items with
  | [] => []
  | item :: rest =>
      (Json.number_to_string index, item) :: indexed rest (index + 1)
  end.

Definition spread (v : option json) : list (string * json) :=
  match v with
  | Some (JObj members) => members
  | Some (JArr items) => indexed items 0
  | Some (JStr text) =>
      indexed (map (fun c => JStr (String c EmptyString))
                 (list_ascii_of_string text)) 0
  | _ => []
  end.

(** [{ ...a, ...b }] *)
Definition merge (a b : option json) : json :=
  JObj (fold_left (fun members kv => Json.define (fst kv) (snd kv) members)
          (spread b) (Json.object_of (spread a))).

(** [delete settings.metadata] on the copy of the import data. *)
Definition withoutMetadata (members : list (string * json))
  : list (string * json) :=
  filter (fun kv => negb (String.eqb (fst kv) "metadata")) members.

(** The names under which the basic settings are stored, each with the
    name under which the file carries it. *)
Definition basicSettings : list (string * string) :=
  [("theme", "theme"); ("compactMode", "compactMode");
   ("autoBackupEnabled", "autoBackupEnabled");
   ("autoBackupSchedule", "autoBackupSchedule");
   ("savedProfileName", "defaultProfileName");
   ("encryptionMethod", "encryptionMethod");
   ("keyDerivationIterations", "keyDerivationIterations");
   ("autoDeleteOldBackups", "autoDeleteOldBackups");
   ("maxBackupAge", "maxBackupAge");
   ("includedDomains", "includedDomains");
   ("excludedDomains", "excludedDomains")].

(** [o.key] for a value [o] that is not [null]. *)
Definition member (o : json) (key : string) : option json :=
  match Json.prop o key with
  | Some value => value
  | None => None
  end.

(** [importData.metadata.key], once [importData.metadata] has been read. *)
Definition metadataMember (metadata : option json) (key : string)
  : option json :=
  match metadata with
  | Some m => member m key
  | None => None
  end.

(** The verification of the checksum: a warning on the console at most. *)
Definition checksumWarning (importData : json) (metadata : option json)
  : list Effect :=
  if Json.truthy (metadataMember metadata "checksum")
     && Json.strict_neq_str
          (Settings.generateChecksum
             (JSON_stringify
                (JObj (withoutMetadata (spread (Some importData))))))
          (metadataMember metadata "checksum")
  then [ConsoleWarn "Checksum mismatch - file may have been modified"]
  else [].

Definition basicItems (options : ImportOptions) (importData : json)
  : list (string * option json) :=
  if givenOr (overwriteExisting options) true then
    map (fun names => (fst names, member importData (snd names))) basicSettings
  else [].

Definition profilesItem (options : ImportOptions) (importData : json)
    (existingProfiles : option json) : string * option json :=
  ("backupProfiles",
   if givenOr (overwriteExisting options) true
   then member importData "backupProfiles"
   else Some (merge existingProfiles (member importData "backupProfiles"))).

Definition withHistory (options : ImportOptions) (importData : json)
    (items : list (string * option json)) : list (string * option json) :=
  if givenOr (importHistory options) false
     && Json.truthy (member importData "backupHistory")
  then (items ++ [("backupHistory", member importData "backupHistory")])%list
  else items.

(** The [try] block of [importSettings] up to the write: the object
    [settingsToImport] and the effects so far.  [existing] is the answer of
    the storage to the read of the stored profiles. *)
Definition prepareImport (fileContent : string) (options : ImportOptions)
    (existing : completion (option json))
  : list Effect * completion (list (string * option json)) :=
  match JSON_parse fileContent with
  | None => ([], Throw SyntaxError)
  | Some importData =>
      match Json.prop importData "metadata" with
      | None => ([], Throw TypeError)
      | Some metadata =>
          if negb (Json.truthy metadata)
             || Json.strict_neq_str "1.0"
                  (metadataMember metadata "exportFormat")
          then ([], Throw (JsError "Invalid settings file format"))
          else
            let warned := checksumWarning importData metadata in
            if givenOr (importProfiles options) true
               && Json.truthy (member importData "backupProfiles")
            then
              match existing with
              | Throw error =>
                  ((warned ++ [StorageGet "backupProfiles"])%list, Throw error)
              | Normal existingProfiles =>
                  ((warned ++ [StorageGet "backupProfiles"])%list,
                   Normal
                     (withHistory options importData
                        (basicItems options importData
                         ++ [profilesItem options importData
                               existingProfiles])%list))
              end
            else
              (warned,
               Normal (withHistory options importData
                         (basicItems options importData)))
      end
  end.

(** [settingsToImport.theme] when it counts as true. *)
Definition themeToApply (settingsToImport : list (string * option json))
  : option json :=
  if Json.truthy (item "theme" settingsToImport)
  then item "theme" settingsToImport
  else None.

(** [importSettings(fileContent, options)]: the effects and the value
    returned.  [setError] is the rejection of the write, if any.  An error
    of [applyTheme] comes after the write and is caught like the others. *)
Definition importSettings (fileContent : string) (options : ImportOptions)
    (existing : completion (option json)) (setError : option exn)
  : list Effect * bool :=
  let failed (effects : list Effect) (error : exn) :=
    ((effects ++ [ConsoleError "Error importing settings:";
                  ImportFailed error])%list, false) in
  match prepareImport fileContent options existing with
  | (effects, Throw error) => failed effects error
  | (effects, Normal settingsToImport) =>
      let written := (effects ++ [StorageSet settingsToImport])%list in
      match setError with
      | Some error => failed written error
      | None =>
          match themeToApply settingsToImport with
          | None => ((written ++ [SuccessMessage])%list, true)
          | Some theme =>
              match applyTheme theme with
              | Normal applied =>
                  ((written ++ [applied; SuccessMessage])%list, true)
              | Throw error => failed written error
              end
          end
      end
  end.

(** ** Notions used to state the properties of the import *)

(** The names that [importSettings] may hand to the storage. *)
Definition knownKeys : list string :=
  (map fst basicSettings ++ ["backupProfiles"; "backupHistory"])%list.

(** A settings file in the format that [importSettings] asks for. *)
Definition validFormat (fileContent : string) : Prop :=
  exists members metadata,
    JSON_parse fileContent = Some (JObj members)
    /\ Json.lookup "metadata" members = Some (JObj metadata)
    /\ Json.lookup "exportFormat" metadata = Some (JStr "1.0").

(** A settings file whose theme, if it has one that counts as true, can be
    applied. *)
Definition themeApplies (fileContent : string) : Prop :=
  forall importData theme,
    JSON_parse fileContent = Some importData ->
    member importData "theme" = Some theme ->
    Json.truthy (Some theme) = true ->
    exists applied, applyTheme theme = Normal applied.

(** ** [resetSettings] *)

Definition protectedKeys : list string :=
  ["trialStartDate"; "subscriptionStatus"; "subscriptionExpiry";
   "paymentHistory"].

Definition defaults : list (string * json) :=
  [("theme", JStr "light"); ("autoBackupEnabled", JBool false);
   ("autoBackupSchedule", JStr "daily"); ("encryptionMethod", JStr "standard");
   ("keyDerivationIterations", JNum 1000)].

(** [chrome.storage.local] as the list of its items. *)
Definition Storage : Type := list (string * json).

Definition remove (keys : list string) (storage : Storage) : Storage :=
  filter (fun kv => negb (existsb (String.eqb (fst kv)) keys)) storage.

Definition set (items : list (string * json)) (storage : Storage) : Storage :=
  fold_left (fun s kv => Json.assign (fst kv) (snd kv) s) items storage.

(** [resetSettings()]: the storage afterwards and the value returned.
    [confirmed] is the answer to the question; the three errors are the
    rejections of the read, of the removal and of the write, if any. *)
Definition resetSettings (confirmed : bool)
    (getError removeError setError : option exn) (storage : Storage)
  : Storage * bool :=
  if negb confirmed then (storage, false)
  else
    match getError with
    | Some _ => (storage, false)
    | None =>
        let keysToRemove :=
          filter (fun key => negb (existsb (String.eqb key) protectedKeys))
            (map fst storage) in
        match removeError with
        | Some _ => (storage, false)
        | None =>
            let cleared := remove keysToRemove storage in
            match setError with
            | Some _ => (cleared, false)
            | None => (set defaults cleared, true)
            end
        end
    end.

End SettingsManager.

(* ===================================================================== *)
(** * The Telegram credentials *)
(* ===================================================================== *)

Module Telegram.

(** ** The patterns *)

Definition isDigit (c : ascii) : bool :=
  let n := nat_of_ascii c in (48 <=? n)%nat && (n <=? 57)%nat.

(** [[A-Za-z0-9_-]] *)
Definition isTokenUnit (c : ascii) : bool :=
  let n := nat_of_ascii c in
  ((65 <=? n)%nat && (n <=? 90)%nat)
  || ((97 <=? n)%nat && (n <=? 122)%nat)
  || isDigit c || (n =? 95)%nat || (n =? 45)%nat.

Fixpoint all (test : ascii -> bool) (s : string) : bool :=
  match s with
  | EmptyString => true
  | String c rest => test c && all test rest
  end.

(** The rest of the text after its leading digits. *)
Fixpoint afterDigits (s : string) : string :=
  match s with
  | String c rest => if isDigit c then afterDigits rest else s
  | EmptyString => EmptyString
  end.

(** [\d+] followed by [tail], for a test [tail] of the rest. *)
Definition digitsThen (tail : string -> bool) (s : string) : bool :=
  match s with
  | String c rest => isDigit c && tail (afterDigits rest)
  | EmptyString => false
  end.

Definition atEnd (s : string) : bool := String.eqb s EmptyString.

(** [/^\d+:[A-Za-z0-9_-]+$/], the pattern of [saveTelegramCredentials]. *)
Definition botTokenRegex (s : string) : bool :=
  digitsThen
    (fun rest =>
       match rest with
       | String ":" hash =>
           negb (String.eqb hash EmptyString) && all isTokenUnit hash
       | _ => false
       end) s.

(** [/^\d+:[A-Za-z0-9_-]{35}$/], the pattern of
    [secureStorage.validateBotToken]. *)
Definition validateBotToken (token : string) : bool :=
  digitsThen
    (fun rest =>
       match rest with
       | String ":" hash =>
           (String.length hash =? 35)%nat && all isTokenUnit hash
       | _ => false
       end) token.

(** [/^-?\d+$/], the pattern of both checks of the chat id. *)
Definition validateChatId (chatId : string) : bool :=
  match chatId with
  | String "-" rest => digitsThen atEnd rest
  | _ => digitsThen atEnd chatId
  end.

(** ** The two stores *)

(** [chrome.storage.local], when the interface exists, and
    [localStorage]. *)
Record Stores : Type := {
  chromeStorage : option (list (string * json));
  localStorage : list (string * string)
}.

Fixpoint getItem (key : string) (items : list (string * string))
  : option string :=
  match items with
  | [] => None
  | (k, v) :: rest => if String.eqb key k then Some v else getItem key rest
  end.

Fixpoint setItem (key value : string) (items : list (string * string))
  : list (string * string) :=
  match items with
  | [] => [(key, value)]
  | (k, v) :: rest =>
      if String.eqb key k then (k, value) :: rest
      else (k, v) :: setItem key value rest
  end.

Inductive Notice : Type :=
| TokenFormatWarning
| ChatIdWarning
| TokenLengthWarning
| CredentialsSaved
| SaveError
| CredentialsNotFound
| CredentialsNotConfigured
| CredentialsError
| WouldBeSent
| SendMessage (data : string) (botToken chatId : json) (filename : string).

Definition BOT_TOKEN : string := "telegramBotToken".

Definition credentialsObject (botToken chatId : string) (now : Z) : json :=
  JObj [("botToken", JStr botToken); ("chatId", JStr chatId);
        ("timestamp", JNum now)].

(** [saveTelegramCredentials(botToken, chatId)] at the time [now];
    [quota] says that [localStorage.setItem] throws. *)
Definition saveTelegramCredentials (botToken chatId : string) (now : Z)
    (quota : bool) (stores : Stores) : Stores * list Notice * bool :=
  if String.eqb botToken EmptyString || negb (botTokenRegex botToken) then
    (stores, [TokenFormatWarning], false)
  else if String.eqb chatId EmptyString || negb (validateChatId chatId) then
    (stores, [ChatIdWarning], false)
  else
    let unusual :=
      if (String.length botToken <? 35)%nat
         || (70 <? String.length botToken)%nat
      then [TokenLengthWarning] else [] in
    let credentials := credentialsObject botToken chatId now in
    match chromeStorage stores with
    | Some items =>
        ({| chromeStorage := Some (Json.assign BOT_TOKEN credentials items);
            localStorage := localStorage stores |},
         (unusual ++ [CredentialsSaved])%list, true)
    | None =>
        if quota then (stores, (unusual ++ [SaveError])%list, false)
        else
          ({| chromeStorage := None;
              localStorage :=
                setItem BOT_TOKEN (JSON_stringify credentials)
                  (localStorage stores) |},
           (unusual ++ [CredentialsSaved])%list, true)
    end.

(** [credentials && credentials.botToken && credentials.chatId], with the
    two values when the test passes. *)
Definition usable (credentials : option json) : option (json * json) :=
  match credentials with
  | Some value =>
      if Json.truthy credentials then
        match Json.prop value "botToken", Json.prop value "chatId" with
        | Some (Some botToken), Some (Some chatId) =>
            if Json.truthy (Some botToken) && Json.truthy (Some chatId)
            then Some (botToken, chatId) else None
        | _, _ => None
        end
      else None
  | None => None
  end.

(** [loadTelegramCredentials(callback)]: the two arguments of the
    callback, [None] standing for the two [null]s. *)
Definition loadTelegramCredentials (stores : Stores) : option (json * json) :=
  match chromeStorage stores with
  | Some items => usable (Json.lookup BOT_TOKEN items)
  | None =>
      match getItem BOT_TOKEN (localStorage stores) with
      | Some stored =>
          if String.eqb stored EmptyString then None
          else
            match JSON_parse stored with
            | Some credentials => usable (Some credentials)
            | None => None
            end
      | None => None
      end
  end.

(** [sendBackupToTelegram(backupData, filename)] of popup.js, up to the
    message handed to the background script. *)
Definition sendBackupToTelegram (backupData filename : string)
    (stores : Stores) : list Notice :=
  match chromeStorage stores with
  | Some items =>
      match usable (Json.lookup BOT_TOKEN items) with
      | Some (botToken, chatId) =>
          [SendMessage backupData botToken chatId filename]
      | None => [CredentialsNotFound]
      end
  | None =>
      let text :=
        match getItem BOT_TOKEN (localStorage stores) with
        | Some stored =>
            if String.eqb stored EmptyString then "{}" else stored
        | None => "{}"
        end in
      match JSON_parse text with
      | None => [CredentialsError]
      | Some credentials =>
          match Json.prop credentials "botToken" with
          | None => [CredentialsError]
          | Some botToken =>
              if Json.truthy botToken
                 && Json.truthy
                      (match Json.prop credentials "chatId" with
                       | Some chatId => chatId
                       | None => None
                       end)
              then [WouldBeSent] else [CredentialsNotConfigured]
          end
      end
  end.

(** [maskBotToken(token)] *)
Definition maskBotToken (token : string) : string :=
  if String.eqb token EmptyString || (String.length token <? 8)%nat then token
  else
    substring 0 4 token ++ "..."
    ++ substring (String.length token - 4) 4 token.

End Telegram.

(* ===================================================================== *)
(** * Properties *)
(* ===================================================================== *)

(** ** Arithmetic on 32-bit integers *)

Module Int32Facts.

Lemma toInt32_range x : Int32.in_range (Int32.toInt32 x).
Proof.
  unfold Int32.in_range, Int32.toInt32.
  pose proof (Z.mod_pos_bound (x + 2 ^ 31) (2 ^ 32) ltac:(lia)). lia.
Qed.

Lemma toInt32_small x : Int32.in_range x -> Int32.toInt32 x = x.
Proof.
  unfold Int32.in_range, Int32.toInt32. intros H.
  rewrite Z.mod_small by lia. lia.
Qed.

Lemma toInt32_idem x : Int32.toInt32 (Int32.toInt32 x) = Int32.toInt32 x.
Proof. apply toInt32_small, toInt32_range. Qed.

Lemma toInt32_eqm x y :
  x mod 2 ^ 32 = y mod 2 ^ 32 -> Int32.toInt32 x = Int32.toInt32 y.
Proof.
  unfold Int32.toInt32. intros H.
  rewrite (Z.add_mod x), (Z.add_mod y), H by lia. reflexivity.
Qed.

Lemma toInt32_mod x : (Int32.toInt32 x) mod 2 ^ 32 = x mod 2 ^ 32.
Proof.
  unfold Int32.toInt32.
  rewrite Zminus_mod, Z.mod_mod by lia.
  rewrite <- Zminus_mod. f_equal. lia.
Qed.

Lemma and_diag x : Int32.and x x = Int32.toInt32 x.
Proof. unfold Int32.and. apply Z.land_diag. Qed.

Lemma shl_mul x n : 0 <= n -> Int32.shl x n = Int32.toInt32 (x * 2 ^ n).
Proof.
  intros Hn. unfold Int32.shl. rewrite Z.shiftl_mul_pow2 by assumption.
  apply toInt32_eqm.
  rewrite Z.mul_mod, toInt32_mod, <- Z.mul_mod by lia. reflexivity.
Qed.


End Int32Facts.

(** ** Numbers *)

Module NumFacts.
Import Num.

Lemma digit_value_range d : 1 <= digit_value d <= 9.
Proof. destruct d; simpl; lia. Qed.

Lemma digit_of_value d : digit_of (digit_value d) = d.
Proof. now destruct d. Qed.

(** Every number is [make] of its mantissa and places. *)
Lemma make_self x : make (places x) (mantissa x) = x.
Proof.
  destruct x as [z|front last before]; [reflexivity|].
  cbn [places mantissa make].
  pose proof (digit_value_range last) as Hd.
  assert (Hmod : (10 * front + digit_value last) mod 10 = digit_value last).
  { rewrite Z.add_comm, Z.mul_comm, Z.mod_add by lia.
    apply Z.mod_small. lia. }
  assert (Hdiv : (10 * front + digit_value last) / 10 = front).
  { rewrite Z.add_comm, Z.mul_comm, Z.div_add by lia.
    rewrite Z.div_small by lia. lia. }
  rewrite Hmod, Hdiv.
  replace (digit_value last =? 0) with false
    by (symmetry; apply Z.eqb_neq; lia).
  now rewrite digit_of_value.
Qed.

Lemma make_shift z : forall j a, make (j + z) (a * 10 ^ Z.of_nat z) = make j a.
Proof.
  induction z as [|z IH]; intros j a.
  - rewrite Nat.add_0_r. simpl. now rewrite Z.mul_1_r.
  - rewrite Nat.add_succ_r. cbn [make].
    rewrite Nat2Z.inj_succ, Z.pow_succ_r by lia.
    replace (a * (10 * 10 ^ Z.of_nat z)) with (a * 10 ^ Z.of_nat z * 10) by lia.
    rewrite Z.mod_mul, Z.div_mul by lia.
    cbn [Z.eqb]. apply IH.
Qed.

(** [scaled] gives the number whatever the way its value is split. *)
Lemma scaled_make s e (z p : nat) :
  e = Z.of_nat z - Z.of_nat p ->
  scaled s e = make p (s * 10 ^ Z.of_nat z).
Proof.
  intros ->. unfold scaled.
  destruct (Z.leb_spec 0 (Z.of_nat z - Z.of_nat p)) as [Hle|Hlt].
  - replace (Z.of_nat z) with (Z.of_nat z - Z.of_nat p + Z.of_nat p) at 2 by lia.
    rewrite Z.pow_add_r by lia. rewrite Z.mul_assoc.
    symmetry.
    exact (make_shift p 0%nat (s * 10 ^ (Z.of_nat z - Z.of_nat p))).
  - replace (Z.to_nat (- (Z.of_nat z - Z.of_nat p))) with (p - z)%nat by lia.
    replace p with ((p - z) + z)%nat at 2 by lia.
    now rewrite make_shift.
Qed.

Lemma make_step p m :
  make (S p) m
  = if m mod 10 =? 0 then make p (m / 10)
    else Dec (m / 10) (digit_of (m mod 10)) p.
Proof. reflexivity. Qed.

Lemma opp_make p m : opp (make p m) = make p (- m).
Proof.
  revert m. induction p as [|p IH]; intros m; [reflexivity|].
  rewrite (make_step p m). destruct (Z.eqb_spec (m mod 10) 0) as [Hz|Hnz].
  - rewrite IH, (make_step p (- m)).
    assert (Hm : m = 10 * (m / 10)).
    { pose proof (Z.div_mod m 10 ltac:(lia)). lia. }
    assert (Hneg : (- m) mod 10 = 0).
    { rewrite Hm. replace (- (10 * (m / 10))) with (- (m / 10) * 10) by lia.
      apply Z.mod_mul. lia. }
    assert (Hq : - m / 10 = - (m / 10)).
    { rewrite Hm at 1.
      replace (- (10 * (m / 10))) with (- (m / 10) * 10) by lia.
      now rewrite Z.div_mul by lia. }
    rewrite Hneg, Hq. reflexivity.
  - unfold opp. cbn [places mantissa].
    pose proof (Z.mod_pos_bound m 10 ltac:(lia)) as Hb.
    assert (Hd : digit_value (digit_of (m mod 10)) = m mod 10).
    { assert (Hc : m mod 10 = 1 \/ m mod 10 = 2 \/ m mod 10 = 3
                   \/ m mod 10 = 4 \/ m mod 10 = 5 \/ m mod 10 = 6
                   \/ m mod 10 = 7 \/ m mod 10 = 8 \/ m mod 10 = 9) by lia.
      repeat (destruct Hc as [->|Hc]; [reflexivity|]). now rewrite Hc. }
    rewrite Hd. f_equal.
    pose proof (Z.div_mod m 10 ltac:(lia)). lia.
Qed.

Lemma eqb_eq x y : eqb x y = true <-> x = y.
Proof.
  split.
  - unfold eqb. intros H. apply andb_prop in H. destruct H as [Hm Hp].
    apply Z.eqb_eq in Hm. apply Nat.eqb_eq in Hp.
    rewrite <- (make_self x), <- (make_self y). congruence.
  - intros ->. unfold eqb. now rewrite Z.eqb_refl, Nat.eqb_refl.
Qed.

End NumFacts.

(** ** [JSON.parse] after [JSON.stringify] *)

Module JsonFacts.
Import Json.

(** *** Strings *)

Lemma append_assoc (a b c : string) : (a ++ b) ++ c = a ++ (b ++ c).
Proof. induction a as [|x a IH]; simpl; [reflexivity | now rewrite IH]. Qed.

Lemma append_empty (a : string) : a ++ EmptyString = a.
Proof. induction a as [|x a IH]; simpl; [reflexivity | now rewrite IH]. Qed.

Lemma length_append (a b : string) :
  String.length (a ++ b) = (String.length a + String.length b)%nat.
Proof. induction a as [|x a IH]; simpl; [reflexivity | now rewrite IH]. Qed.

(** *** Numbers *)

Lemma digit_value_dec_digit d :
  0 <= d <= 9 -> digit_value (dec_digit d) = Some d.
Proof.
  intros H.
  assert (Hc : d = 0 \/ d = 1 \/ d = 2 \/ d = 3 \/ d = 4 \/ d = 5 \/ d = 6
               \/ d = 7 \/ d = 8 \/ d = 9) by lia.
  repeat (destruct Hc as [->|Hc]; [reflexivity|]). now subst.
Qed.

Lemma read_digits_stop rest acc :
  ends_number rest -> read_digits rest acc = (acc, rest).
Proof.
  destruct rest as [|c rest]; simpl; [reflexivity|].
  intros [H _]. now rewrite H.
Qed.

Lemma dec_digits_read fuel :
  forall n acc,
    0 < n < 10 ^ Z.of_nat (S fuel) ->
    exists d tail,
      1 <= d <= 9
      /\ dec_digits fuel n acc = String (dec_digit d) tail
      /\ forall rest,
          read_digits (tail ++ rest) d = read_digits (acc ++ rest) n.
Proof.
  induction fuel as [|fuel IH]; intros n acc Hn.
  - change (10 ^ Z.of_nat 1) with 10 in Hn.
    exists n, acc. simpl. rewrite Z.mod_small by lia. repeat split; lia.
  - cbn [dec_digits]. destruct (Z.ltb_spec n 10) as [Hlt|Hge].
    + exists n, acc. repeat split; lia.
    + assert (Hpow : 10 ^ Z.of_nat (S (S fuel)) = 10 * 10 ^ Z.of_nat (S fuel)).
      { rewrite (Nat2Z.inj_succ (S fuel)), Z.pow_succ_r by lia. reflexivity. }
      assert (Hq : 0 < n / 10 < 10 ^ Z.of_nat (S fuel)).
      { split.
        - apply Z.div_str_pos. lia.
        - apply Z.div_lt_upper_bound; lia. }
      destruct (IH (n / 10) (String (dec_digit (n mod 10)) acc) Hq)
        as (d & tail & Hd & Heq & Hread).
      exists d, tail. repeat split; try lia; try assumption.
      intros rest. rewrite Hread. cbn [append read_digits].
      rewrite digit_value_dec_digit
        by (pose proof (Z.mod_pos_bound n 10 ltac:(lia)); lia).
      f_equal. pose proof (Z.div_mod n 10 ltac:(lia)). lia.
Qed.

Lemma log2_bound n : 0 < n -> n < 10 ^ Z.of_nat (S (Z.to_nat (Z.log2 n))).
Proof.
  intros Hn.
  pose proof (Z.log2_nonneg n) as Hl.
  rewrite Nat2Z.inj_succ, Z2Nat.id by assumption.
  pose proof (Z.log2_spec n Hn) as [_ Hup].
  eapply Z.lt_le_trans; [exact Hup|].
  apply Z.pow_le_mono_l. lia.
Qed.

(** Texts made of digits. *)

Lemma read_digits_all a :
  digits_only a ->
  forall rest acc,
    not_digit_head rest ->
    read_digits (a ++ rest) acc = (digits_value a acc, rest).
Proof.
  induction a as [|c a IH]; intros Ha rest acc Hrest.
  - cbn [append]. unfold digits_value. cbn [read_digits fst].
    destruct rest as [|c rest]; [reflexivity|].
    cbn [read_digits]. cbn [not_digit_head] in Hrest. now rewrite Hrest.
  - destruct Ha as [Hc Ha]. cbn [append read_digits].
    unfold digits_value. cbn [read_digits].
    destruct (digit_value c) as [d|]; [|now elim Hc].
    now apply IH.
Qed.

Lemma digits_value_step c a acc d :
  digit_value c = Some d ->
  digits_value (String c a) acc = digits_value a (acc * 10 + d).
Proof. intros H. unfold digits_value. cbn [read_digits]. now rewrite H. Qed.

Lemma digits_value_acc a :
  digits_only a ->
  forall acc,
    digits_value a acc
    = acc * 10 ^ Z.of_nat (String.length a) + digits_value a 0.
Proof.
  induction a as [|c a IH]; intros Ha acc.
  - unfold digits_value. cbn. lia.
  - destruct Ha as [Hc Ha].
    destruct (digit_value c) as [d|] eqn:Hd; [|now elim Hc].
    rewrite !(digits_value_step c a _ d Hd).
    rewrite (IH Ha (acc * 10 + d)), (IH Ha (0 * 10 + d)).
    cbn [String.length]. rewrite Nat2Z.inj_succ, Z.pow_succ_r by lia. lia.
Qed.

Lemma digits_value_app a b :
  digits_only a ->
  forall acc, digits_value (a ++ b) acc = digits_value b (digits_value a acc).
Proof.
  induction a as [|c a IH]; intros Ha acc.
  - reflexivity.
  - destruct Ha as [Hc Ha].
    destruct (digit_value c) as [d|] eqn:Hd; [|now elim Hc].
    cbn [append]. rewrite !(digits_value_step c _ _ d Hd). now apply IH.
Qed.

Lemma digits_only_app a b :
  digits_only a -> digits_only b -> digits_only (a ++ b).
Proof.
  induction a as [|c a IH]; intros Ha Hb; [exact Hb|].
  destruct Ha as [Hc Ha]. split; [exact Hc|now apply IH].
Qed.

Lemma digit_is_digit d : 0 <= d <= 9 -> digit_value (dec_digit d) <> None.
Proof. intros H. now rewrite digit_value_dec_digit. Qed.

Lemma dec_digits_only fuel :
  forall n acc,
    0 <= n -> digits_only acc -> digits_only (dec_digits fuel n acc).
Proof.
  induction fuel as [|fuel IH]; intros n acc Hn Hacc.
  - split; [|exact Hacc].
    apply digit_is_digit. pose proof (Z.mod_pos_bound n 10 ltac:(lia)). lia.
  - cbn [dec_digits]. destruct (Z.ltb_spec n 10) as [Hlt|Hge].
    + split; [|exact Hacc]. apply digit_is_digit. lia.
    + apply IH.
      * apply Z.div_pos; lia.
      * split; [|exact Hacc].
        apply digit_is_digit.
        pose proof (Z.mod_pos_bound n 10 ltac:(lia)). lia.
Qed.

(** The digits of a positive number: they start with a digit that is not
    zero and add up to the number. *)
Lemma dec_nonneg_digits s :
  0 < s ->
  exists d tail,
    1 <= d <= 9
    /\ dec_nonneg s = String (dec_digit d) tail
    /\ digits_only tail
    /\ digits_value (dec_nonneg s) 0 = s.
Proof.
  intros Hs. unfold dec_nonneg.
  destruct (dec_digits_read (Z.to_nat (Z.log2 s)) s EmptyString)
    as (d & tail & Hd & Heq & Hread).
  { split; [lia | apply log2_bound; lia]. }
  pose proof (dec_digits_only (Z.to_nat (Z.log2 s)) s EmptyString
                ltac:(lia) I) as Honly.
  rewrite Heq in *. destruct Honly as [_ Htail].
  exists d, tail. repeat split; try lia; try assumption.
  rewrite (digits_value_step _ _ _ d) by (apply digit_value_dec_digit; lia).
  unfold digits_value. change (0 * 10 + d) with d.
  specialize (Hread EmptyString). rewrite append_empty in Hread.
  now rewrite Hread.
Qed.

Lemma dec_nonneg_value a :
  0 <= a ->
  digits_only (dec_nonneg a)
  /\ digits_value (dec_nonneg a) 0 = a
  /\ exists c tail, dec_nonneg a = String c tail /\ digit_value c <> None.
Proof.
  intros Ha. destruct (Z.eq_dec a 0) as [->|Hnz].
  - repeat split; try discriminate. now exists "0"%char, EmptyString.
  - destruct (dec_nonneg_digits a ltac:(lia)) as (d & tail & Hd & Heq & Ht & Hv).
    split; [|split; [exact Hv|]].
    + rewrite Heq. split; [apply digit_is_digit; lia|exact Ht].
    + exists (dec_digit d), tail. split; [exact Heq|apply digit_is_digit; lia].
Qed.

Lemma zeros_digits n : digits_only (zeros n).
Proof. induction n; [exact I|split; [discriminate|assumption]]. Qed.

Lemma zeros_length n : String.length (zeros n) = n.
Proof. induction n; simpl; congruence. Qed.

Lemma zeros_value n acc :
  digits_value (zeros n) acc = acc * 10 ^ Z.of_nat n.
Proof.
  rewrite (digits_value_acc _ (zeros_digits n)), zeros_length.
  assert (H : digits_value (zeros n) 0 = 0).
  { induction n as [|n IH]; [reflexivity|].
    cbn [zeros].
    now rewrite (digits_value_step "0"%char (zeros n) 0 0 eq_refl). }
  lia.
Qed.

Lemma take_drop n : forall s, takeUnits n s ++ dropUnits n s = s.
Proof.
  induction n as [|n IH]; intros [|c s]; try reflexivity.
  cbn [takeUnits dropUnits append]. now rewrite IH.
Qed.

Lemma digits_only_take n : forall s, digits_only s -> digits_only (takeUnits n s).
Proof.
  induction n as [|n IH]; intros [|c s] H; try exact I.
  destruct H as [Hc H]. split; [exact Hc|now apply IH].
Qed.

Lemma digits_only_drop n : forall s, digits_only s -> digits_only (dropUnits n s).
Proof.
  induction n as [|n IH]; intros [|c s] H; try exact H.
  destruct H as [_ H]. now apply IH.
Qed.

Lemma length_drop n :
  forall s, String.length (dropUnits n s) = (String.length s - n)%nat.
Proof.
  induction n as [|n IH]; intros [|c s]; try reflexivity.
  cbn [dropUnits String.length]. now rewrite IH.
Qed.

(** The digits without the zeros at the end, and the count of these. *)
Lemma strip_spec fuel :
  forall m count s z,
    0 < m ->
    strip fuel m count = (s, z) ->
    0 < s /\ (count <= z)%nat
    /\ s * 10 ^ (Z.of_nat z - Z.of_nat count) = m.
Proof.
  induction fuel as [|fuel IH]; intros m count s z Hm Heq.
  - injection Heq as <- <-. rewrite Z.sub_diag. repeat split; lia.
  - cbn [strip] in Heq. destruct (Z.eqb_spec (m mod 10) 0) as [Hz|Hnz].
    + assert (Hdiv : m = 10 * (m / 10)).
      { pose proof (Z.div_mod m 10 ltac:(lia)). lia. }
      destruct (IH (m / 10) (S count) s z ltac:(lia) Heq) as (Hs & Hc & Hv).
      repeat split; [exact Hs|lia|].
      replace (Z.of_nat z - Z.of_nat count)
        with (Z.succ (Z.of_nat z - Z.of_nat (S count))) by lia.
      rewrite Z.pow_succ_r by lia. lia.
    + injection Heq as <- <-. rewrite Z.sub_diag. repeat split; lia.
Qed.

(** The parts of a number literal. *)

Lemma parse_int_digits d tail r :
  1 <= d <= 9 -> digits_only tail -> not_digit_head r ->
  parse_int (String (dec_digit d) tail ++ r)
  = Some (digits_value (String (dec_digit d) tail) 0, r).
Proof.
  intros Hd Htail Hr. cbn [append]. unfold parse_int.
  rewrite (digits_value_step _ _ _ d) by (apply digit_value_dec_digit; lia).
  rewrite digit_value_dec_digit by lia.
  destruct d as [|p|p]; try lia.
  now rewrite (read_digits_all tail Htail r _ Hr).
Qed.

Lemma parse_int_zero r :
  not_digit_head r -> parse_int (String "0" r) = Some (0, r).
Proof.
  intros Hr. unfold parse_int. change (digit_value "0"%char) with (Some 0).
  cbv iota beta. destruct r as [|c r]; [reflexivity|].
  cbn [not_digit_head] in Hr. now rewrite Hr.
Qed.

Lemma parse_frac_point whole c b r :
  digits_only (String c b) -> not_digit_head r ->
  parse_frac whole (String "." (String c b ++ r))
  = Some (digits_value (String c b) whole, String.length (String c b), r).
Proof.
  intros Hb Hr. unfold parse_frac. change (code "." =? 46) with true.
  cbv iota. cbn [append].
  destruct Hb as [Hc Hb'].
  destruct (digit_value c) as [d|] eqn:Hd; [|now elim Hc].
  change (String c (b ++ r)) with (String c b ++ r).
  rewrite (read_digits_all (String c b)) by (assumption || (split; [congruence|assumption])).
  rewrite length_append. do 2 f_equal. f_equal. lia.
Qed.

Lemma parse_frac_none whole r :
  starts_fraction r = false -> parse_frac whole r = Some (whole, 0%nat, r).
Proof.
  destruct r as [|c r]; [reflexivity|].
  cbn [starts_fraction]. intros H. unfold parse_frac.
  destruct (code c =? 46); [discriminate|reflexivity].
Qed.

Lemma parse_frac_exp whole r :
  parse_frac whole (String "e" r) = Some (whole, 0%nat, String "e" r).
Proof. reflexivity. Qed.

Lemma parse_exp_none r :
  starts_fraction r = false -> parse_exp r = Some (0, r).
Proof.
  destruct r as [|c r]; [reflexivity|].
  cbn [starts_fraction]. intros H. unfold parse_exp.
  destruct (code c =? 46); [discriminate|].
  cbn [orb] in H. now rewrite H.
Qed.

Lemma parse_exp_signed (negative : bool) a r :
  0 <= a -> not_digit_head r ->
  parse_exp (String "e" ((if negative then "-" else "+") ++ dec_nonneg a ++ r))
  = Some (if negative then - a else a, r).
Proof.
  intros Ha Hr.
  destruct (dec_nonneg_value a Ha) as (Honly & Hval & c & tail & Heq & Hc).
  unfold parse_exp. change (code "e" =? 101) with true. cbv iota beta.
  cbn [orb].
  assert (Hread : read_digits (dec_nonneg a ++ r) 0 = (a, r)).
  { rewrite (read_digits_all _ Honly r 0 Hr). now rewrite Hval. }
  destruct negative; cbn [append].
  - change (code "-" =? 45) with true. cbv iota beta.
    rewrite Hread. rewrite Heq. cbn [append].
    destruct (digit_value c); [reflexivity|now elim Hc].
  - change (code "+" =? 45) with false. change (code "+" =? 43) with true.
    cbv iota beta.
    rewrite Hread. rewrite Heq. cbn [append].
    destruct (digit_value c); [reflexivity|now elim Hc].
Qed.

Lemma ends_not_digit rest : ends_number rest -> not_digit_head rest.
Proof. destruct rest as [|c rest]; [trivial|]. now intros [H _]. Qed.

Lemma ends_no_fraction rest : ends_number rest -> starts_fraction rest = false.
Proof. destruct rest as [|c rest]; [trivial|]. now intros [_ H]. Qed.

(** The text of a positive number starts with a digit and reads back as
    the number. *)
Lemma parse_unsigned_text m p rest :
  0 < m -> ends_number rest ->
  parse_unsigned (unsigned_text m p ++ rest) = Some (Num.make p m, rest)
  /\ exists d tail,
      0 <= d <= 9 /\ unsigned_text m p = String (dec_digit d) tail.
Proof.
  intros Hm Hrest.
  pose proof (ends_not_digit _ Hrest) as Hnd.
  pose proof (ends_no_fraction _ Hrest) as Hnf.
  unfold unsigned_text.
  destruct (strip (Z.to_nat (Z.log2 m)) m 0) as [s z] eqn:Hstrip.
  destruct (strip_spec _ _ _ _ _ Hm Hstrip) as (Hs & _ & Hval).
  change (Z.of_nat 0) with 0 in Hval. rewrite Z.sub_0_r in Hval.
  destruct (dec_nonneg_digits s Hs) as (d & tail & Hd & Heq & Htail & Hdv).
  assert (Hdigits : digits_only (dec_nonneg s)).
  { rewrite Heq. split; [apply digit_is_digit; lia|assumption]. }
  assert (Hk : Z.of_nat (String.length (dec_nonneg s))
               = Z.succ (Z.of_nat (String.length tail))).
  { rewrite Heq. cbn [String.length]. lia. }
  set (digits := dec_nonneg s) in *.
  set (k := Z.of_nat (String.length digits)) in *.
  set (n := k + Z.of_nat z - Z.of_nat p).
  assert (Hscaled : forall e, e = n - k -> Num.scaled s e = Num.make p m).
  { intros e ->. rewrite <- Hval. apply NumFacts.scaled_make. subst n. lia. }
  cbv zeta.
  destruct ((k <=? n) && (n <=? 21)) eqn:C1.
  { (* an integral number of at most 21 digits *)
    apply andb_prop in C1. destruct C1 as [C1 _]. apply Z.leb_le in C1.
    split; [|exists d, (tail ++ zeros (Z.to_nat (n - k)));
                split; [lia|now rewrite Heq]].
    replace ((digits ++ zeros (Z.to_nat (n - k))) ++ rest)
      with (String (dec_digit d) (tail ++ zeros (Z.to_nat (n - k))) ++ rest)
      by now rewrite Heq.
    unfold parse_unsigned.
    rewrite parse_int_digits
      by first [lia | assumption
               | apply digits_only_app; [assumption|apply zeros_digits]].
    rewrite (parse_frac_none _ _ Hnf), (parse_exp_none _ Hnf).
    do 2 f_equal.
    change (String (dec_digit d) (tail ++ zeros (Z.to_nat (n - k))))
      with (String (dec_digit d) tail ++ zeros (Z.to_nat (n - k))).
    rewrite <- Heq, (digits_value_app _ _ Hdigits), Hdv, zeros_value.
    rewrite <- (Hscaled (n - k) eq_refl). unfold Num.scaled.
    change (0 - Z.of_nat 0) with 0. cbn [Z.leb Z.compare].
    replace (0 <=? n - k) with true by (symmetry; apply Z.leb_le; lia).
    rewrite Z2Nat.id by lia. f_equal. lia. }
  destruct ((0 <? n) && (n <=? 21)) eqn:C2.
  { (* the point among the digits *)
    apply andb_prop in C2. destruct C2 as [C2 C2'].
    apply Z.ltb_lt in C2. apply Z.leb_le in C2'.
    apply andb_false_iff in C1.
    assert (Hnk : n < k).
    { destruct C1 as [C1|C1]; [apply Z.leb_gt in C1|apply Z.leb_gt in C1]; lia. }
    destruct (Z.to_nat n) as [|n'] eqn:Hn; [lia|].
    rewrite Heq. cbn [takeUnits dropUnits].
    split; [|exists d, (takeUnits n' tail ++ "." ++ dropUnits n' tail);
                split; [lia|reflexivity]].
    assert (Hlen : String.length (dropUnits n' tail)
                   = (String.length tail - n')%nat) by apply length_drop.
    destruct (dropUnits n' tail) as [|c b] eqn:Hdrop;
      [cbn [String.length] in Hlen; lia|].
    assert (Hb : digits_only (String c b)).
    { rewrite <- Hdrop. now apply digits_only_drop. }
    replace ((String (dec_digit d) (takeUnits n' tail) ++ "." ++ String c b)
             ++ rest)
      with (String (dec_digit d) (takeUnits n' tail)
            ++ String "." (String c b ++ rest))
      by (rewrite append_assoc; reflexivity).
    unfold parse_unsigned.
    rewrite parse_int_digits
      by first [lia | reflexivity | now apply digits_only_take].
    rewrite (parse_frac_point _ _ _ _ Hb Hnd), (parse_exp_none _ Hnf).
    do 2 f_equal.
    rewrite <- (digits_value_app (String (dec_digit d) (takeUnits n' tail)))
      by (split; [apply digit_is_digit; lia|now apply digits_only_take]).
    cbn [append]. rewrite <- Hdrop, take_drop, <- Heq. fold digits.
    rewrite Hdv. apply Hscaled. rewrite length_drop.
    cbn [String.length] in Hlen. lia. }
  destruct ((-6 <? n) && (n <=? 0)) eqn:C3.
  { (* zeros behind the point *)
    apply andb_prop in C3. destruct C3 as [_ C3]. apply Z.leb_le in C3.
    split; [|exists 0, ("." ++ zeros (Z.to_nat (- n)) ++ digits);
                split; [lia|reflexivity]].
    assert (Hlen : String.length (zeros (Z.to_nat (- n)) ++ digits)
                   = (Z.to_nat (- n) + String.length digits)%nat)
      by now rewrite length_append, zeros_length.
    assert (Hb : digits_only (zeros (Z.to_nat (- n)) ++ digits))
      by (apply digits_only_app; [apply zeros_digits|assumption]).
    assert (Hv : digits_value (zeros (Z.to_nat (- n)) ++ digits) 0 = s).
    { rewrite (digits_value_app _ _ (zeros_digits _)), zeros_value.
      now rewrite Z.mul_0_l. }
    destruct (zeros (Z.to_nat (- n)) ++ digits) as [|c b] eqn:Hzd;
      [cbn [String.length] in Hlen; lia|].
    replace (("0." ++ String c b) ++ rest)
      with (String "0" (String "." (String c b ++ rest))) by reflexivity.
    unfold parse_unsigned.
    rewrite parse_int_zero by reflexivity.
    rewrite (parse_frac_point _ _ _ _ Hb Hnd), (parse_exp_none _ Hnf).
    do 2 f_equal. rewrite Hv. apply Hscaled. rewrite Hlen. lia. }
  (* the exponent notation *)
  rewrite Heq. cbn [takeUnits dropUnits].
  split; [|eexists d, _; split; [lia|reflexivity]].
  set (negative := n - 1 <? 0).
  assert (Hexp : (if negative then - Z.abs (n - 1) else Z.abs (n - 1)) = n - 1).
  { subst negative. destruct (Z.ltb_spec (n - 1) 0); lia. }
  destruct tail as [|c b].
  - replace (k =? 1) with true by (symmetry; apply Z.eqb_eq; cbn in Hk; lia).
    replace ((String (dec_digit d) EmptyString
              ++ EmptyString
              ++ "e" ++ (if negative then "-" else "+")
              ++ dec_nonneg (Z.abs (n - 1))) ++ rest)
      with (String (dec_digit d) EmptyString
            ++ String "e" ((if negative then "-" else "+")
                           ++ dec_nonneg (Z.abs (n - 1)) ++ rest))
      by (rewrite !append_assoc; cbn [append]; rewrite ?append_assoc; reflexivity).
    unfold parse_unsigned.
    rewrite parse_int_digits by first [lia | reflexivity | exact I].
    rewrite parse_frac_exp, parse_exp_signed by (lia || assumption).
    do 2 f_equal. rewrite <- Heq. fold digits. rewrite Hdv, Hexp.
    apply Hscaled. cbn in Hk. lia.
  - replace (k =? 1) with false
      by (symmetry; apply Z.eqb_neq; cbn [String.length] in Hk; lia).
    replace ((String (dec_digit d) EmptyString
              ++ ("." ++ String c b)
              ++ "e" ++ (if negative then "-" else "+")
              ++ dec_nonneg (Z.abs (n - 1))) ++ rest)
      with (String (dec_digit d) EmptyString
            ++ String "."
                 (String c b
                  ++ String "e" ((if negative then "-" else "+")
                                 ++ dec_nonneg (Z.abs (n - 1)) ++ rest)))
      by (rewrite !append_assoc; cbn [append]; rewrite ?append_assoc; reflexivity).
    unfold parse_unsigned.
    rewrite parse_int_digits by first [lia | reflexivity | exact I].
    rewrite (parse_frac_point _ _ _ _ Htail) by reflexivity.
    rewrite parse_exp_signed by (lia || assumption).
    do 2 f_equal.
    rewrite <- (digits_value_app (String (dec_digit d) EmptyString))
      by (split; [apply digit_is_digit; lia|exact I]).
    cbn [append]. rewrite <- Heq. fold digits. rewrite Hdv, Hexp.
    apply Hscaled. cbn [String.length] in Hk |- *. lia.
Qed.

Lemma mantissa_zero x : Num.mantissa x = 0 -> x = Num.Int 0.
Proof.
  destruct x as [z|front last before]; cbn [Num.mantissa].
  - now intros ->.
  - pose proof (NumFacts.digit_value_range last). lia.
Qed.

Lemma digit_not_minus d : 0 <= d <= 9 -> (code (dec_digit d) =? 45) = false.
Proof.
  intros H.
  assert (Hc : d = 0 \/ d = 1 \/ d = 2 \/ d = 3 \/ d = 4 \/ d = 5 \/ d = 6
               \/ d = 7 \/ d = 8 \/ d = 9) by lia.
  repeat (destruct Hc as [->|Hc]; [reflexivity|]). now subst.
Qed.

Lemma parse_number_text x rest :
  ends_number rest ->
  parse_number (number_text x ++ rest) = Some (x, rest).
Proof.
  intros Hrest. unfold number_text.
  destruct (Z.eqb_spec (Num.mantissa x) 0) as [Hz|Hnz].
  - rewrite (mantissa_zero x Hz). cbn [append]. unfold parse_number.
    change (code "0" =? 45) with false. cbv iota. unfold parse_unsigned.
    rewrite parse_int_zero by now apply ends_not_digit.
    rewrite parse_frac_none, parse_exp_none by now apply ends_no_fraction.
    reflexivity.
  - destruct (Z.ltb_spec (Num.mantissa x) 0) as [Hneg|Hpos].
    + cbn [append]. unfold parse_number.
      change (code "-" =? 45) with true. cbv iota.
      destruct (parse_unsigned_text (- Num.mantissa x) (Num.places x) rest
                  ltac:(lia) Hrest) as [-> _].
      rewrite NumFacts.opp_make, Z.opp_involutive, NumFacts.make_self.
      reflexivity.
    + destruct (parse_unsigned_text (Num.mantissa x) (Num.places x) rest
                  ltac:(lia) Hrest) as [Hparse (d & tail & Hd & Heq)].
      rewrite Heq in *. cbn [append] in *. unfold parse_number.
      rewrite (digit_not_minus d Hd), Hparse, NumFacts.make_self.
      reflexivity.
Qed.

(** The text of a number starts with a minus sign or with a digit. *)
Lemma number_text_head x :
  exists c tail,
    number_text x = String c tail
    /\ (c = "-"%char \/ exists d, 0 <= d <= 9 /\ c = dec_digit d).
Proof.
  unfold number_text.
  destruct (Z.eqb_spec (Num.mantissa x) 0) as [Hz|Hnz].
  - exists "0"%char, EmptyString. split; [reflexivity|].
    right. exists 0. split; [lia|reflexivity].
  - destruct (Z.ltb_spec (Num.mantissa x) 0) as [Hneg|Hpos].
    + eexists _, _. split; [reflexivity|now left].
    + destruct (parse_unsigned_text (Num.mantissa x) (Num.places x)
                  EmptyString ltac:(lia) I) as [_ (d & tail & Hd & Heq)].
      exists (dec_digit d), tail. split; [exact Heq|]. right. now exists d.
Qed.

(** *** String literals *)

Lemma parse_chars_escape_char c tail :
  parse_chars (escape_char c ++ tail)
  = match parse_chars tail with
    | Some (str, r) => Some (String c str, r)
    | None => None
    end.
Proof.
  destruct c as [[|] [|] [|] [|] [|] [|] [|] [|]]; reflexivity.
Qed.

Lemma parse_chars_escape s :
  forall rest,
    parse_chars (escape s ++ String dquote rest) = Some (s, rest).
Proof.
  induction s as [|c s IH]; intros rest.
  - reflexivity.
  - cbn [escape]. rewrite append_assoc, parse_chars_escape_char, IH.
    reflexivity.
Qed.

Lemma parse_chars_quote s rest :
  parse_chars (escape s ++ String dquote EmptyString ++ rest) = Some (s, rest).
Proof. apply parse_chars_escape. Qed.

(** *** Values *)

Lemma json_nested_ind (P : json -> Prop) :
  P JNull ->
  (forall b, P (JBool b)) ->
  (forall n, P (JNum n)) ->
  (forall s, P (JStr s)) ->
  (forall items, Forall P items -> P (JArr items)) ->
  (forall members, Forall (fun kv => P (snd kv)) members -> P (JObj members)) ->
  forall v, P v.
Proof.
  intros Hnull Hbool Hnum Hstr Harr Hobj.
  fix go 1. intros [| b | n | s | items | members].
  - exact Hnull.
  - apply Hbool.
  - apply Hnum.
  - apply Hstr.
  - apply Harr. induction items as [|x items IH]; constructor.
    + apply go.
    + exact IH.
  - apply Hobj. induction members as [|[k x] members IH]; constructor.
    + apply go.
    + exact IH.
Qed.

Lemma skip_ws_head c tail :
  is_ws c = false -> skip_ws (String c tail) = String c tail.
Proof. intros H. cbn [skip_ws]. now rewrite H. Qed.

Lemma parse_value_number fuel c tail :
  (c = "-"%char \/ exists d, 0 <= d <= 9 /\ c = dec_digit d) ->
  parse_value (S fuel) (String c tail)
  = match parse_number (String c tail) with
    | Some (n, r) => Some (JNum n, r)
    | None => None
    end.
Proof.
  intros [->|(d & Hd & ->)]; [reflexivity|].
  assert (Hc : d = 0 \/ d = 1 \/ d = 2 \/ d = 3 \/ d = 4 \/ d = 5 \/ d = 6
               \/ d = 7 \/ d = 8 \/ d = 9) by lia.
  repeat (destruct Hc as [->|Hc]; [reflexivity|]). now subst.
Qed.

Lemma parse_value_string fuel tail :
  parse_value (S fuel) (String dquote tail)
  = match parse_chars tail with
    | Some (str, r) => Some (JStr str, r)
    | None => None
    end.
Proof. reflexivity. Qed.

Lemma parse_value_array fuel tail :
  parse_value (S fuel) (String "[" tail)
  = match skip_ws tail with
    | String c r =>
        if code c =? 93 then Some (JArr [], r)
        else match parse_items fuel tail with
             | Some (items, r') => Some (JArr items, r')
             | None => None
             end
    | EmptyString => None
    end.
Proof. reflexivity. Qed.

Lemma parse_value_object fuel tail :
  parse_value (S fuel) (String "{" tail)
  = match skip_ws tail with
    | String c r =>
        if code c =? 125 then Some (JObj [], r)
        else match parse_members fuel tail with
             | Some (members, r') => Some (JObj (object_of members), r')
             | None => None
             end
    | EmptyString => None
    end.
Proof. reflexivity. Qed.

Lemma parse_items_comma fuel s x tail :
  parse_value fuel s = Some (x, String "," tail) ->
  parse_items (S fuel) s
  = match parse_items fuel tail with
    | Some (vs, r) => Some (x :: vs, r)
    | None => None
    end.
Proof. intros H. cbn [parse_items]. now rewrite H. Qed.

Lemma parse_items_close fuel s x tail :
  parse_value fuel s = Some (x, String "]" tail) ->
  parse_items (S fuel) s = Some ([x], tail).
Proof. intros H. cbn [parse_items]. now rewrite H. Qed.

Lemma parse_members_comma fuel k s x tail :
  parse_value fuel s = Some (x, String "," tail) ->
  parse_members (S fuel) (quote k ++ ":" ++ s)
  = match parse_members fuel tail with
    | Some (ms, r) => Some ((k, x) :: ms, r)
    | None => None
    end.
Proof.
  intros H. unfold quote. cbn [append parse_members].
  rewrite skip_ws_head by reflexivity.
  change (code dquote =? 34) with true. cbv iota.
  rewrite append_assoc. cbn [append].
  rewrite parse_chars_escape.
  rewrite skip_ws_head by reflexivity.
  change (code ":" =? 58) with true. cbv iota.
  now rewrite H.
Qed.

Lemma parse_members_close fuel k s x tail :
  parse_value fuel s = Some (x, String "}" tail) ->
  parse_members (S fuel) (quote k ++ ":" ++ s) = Some ([(k, x)], tail).
Proof.
  intros H. unfold quote. cbn [append parse_members].
  rewrite skip_ws_head by reflexivity.
  change (code dquote =? 34) with true. cbv iota.
  rewrite append_assoc. cbn [append].
  rewrite parse_chars_escape.
  rewrite skip_ws_head by reflexivity.
  change (code ":" =? 58) with true. cbv iota.
  now rewrite H.
Qed.

Lemma stringify_head v :
  exists c tail,
    stringify v = String c tail
    /\ is_ws c = false /\ (code c =? 93) = false /\ (code c =? 125) = false.
Proof.
  destruct v as [| [|] | n | s | items | members];
    try (eexists _, _; split; [reflexivity|repeat split; reflexivity]).
  destruct (number_text_head n) as (c & tail & Heq & [->|(d & Hd & ->)]).
  - exists "-"%char, tail. cbn [stringify]. rewrite Heq.
    repeat split; reflexivity.
  - exists (dec_digit d), tail. cbn [stringify]. rewrite Heq.
    assert (Hc : d = 0 \/ d = 1 \/ d = 2 \/ d = 3 \/ d = 4 \/ d = 5 \/ d = 6
                 \/ d = 7 \/ d = 8 \/ d = 9) by lia.
    repeat (destruct Hc as [->|Hc]; [repeat split; reflexivity|]).
    subst. repeat split; reflexivity.
Qed.

Lemma items_parse_back items :
  Forall parses_back items ->
  forall x fuel rest,
    parses_back x ->
    (items_cost (x :: items) <= fuel)%nat ->
    parse_items fuel (join_comma (map stringify (x :: items)) ++ "]" ++ rest)
    = Some (x :: items, rest).
Proof.
  induction 1 as [|y items Hy _ IH]; intros x fuel rest Hx Hfuel.
  - cbn [map join_comma]. cbn [items_cost fold_right] in Hfuel.
    destruct fuel as [|fuel]; [lia|].
    apply parse_items_close. apply Hx; [lia|]. now split.
  - change (join_comma (map stringify (x :: y :: items)))
      with (stringify x ++ "," ++ join_comma (map stringify (y :: items))).
    cbn [items_cost fold_right] in Hfuel.
    destruct fuel as [|fuel]; [lia|].
    rewrite !append_assoc. cbn [append].
    etransitivity.
    { apply parse_items_comma. apply Hx; [lia|]. now split. }
    change (String "]" rest) with ("]" ++ rest).
    rewrite IH; [reflexivity | exact Hy |].
    cbn [items_cost fold_right]. lia.
Qed.

Lemma members_parse_back members :
  Forall (fun kv => parses_back (snd kv)) members ->
  forall kv fuel rest,
    parses_back (snd kv) ->
    (members_cost (kv :: members) <= fuel)%nat ->
    parse_members fuel
      (join_comma (map member_text (kv :: members)) ++ "}" ++ rest)
    = Some (kv :: members, rest).
Proof.
  induction 1 as [|kv' members Hy _ IH]; intros [k x] fuel rest Hx Hfuel;
    cbn [snd] in Hx.
  - cbn [map join_comma]. cbn [members_cost fold_right snd] in Hfuel.
    destruct fuel as [|fuel]; [lia|].
    unfold member_text. cbn [fst snd]. rewrite !append_assoc.
    apply parse_members_close. apply Hx; [lia|]. now split.
  - change (join_comma (map member_text ((k, x) :: kv' :: members)))
      with (member_text (k, x) ++ ","
            ++ join_comma (map member_text (kv' :: members))).
    cbn [members_cost fold_right snd] in Hfuel.
    destruct fuel as [|fuel]; [lia|].
    unfold member_text at 1. cbn [fst snd].
    rewrite !append_assoc. cbn [append].
    etransitivity.
    { apply parse_members_comma. apply Hx; [lia|]. now split. }
    change (String "}" rest) with ("}" ++ rest).
    rewrite IH; [reflexivity | exact Hy |].
    cbn [members_cost fold_right]. lia.
Qed.

(** Keys that are no array indices are in the order of the language
    whatever their order. *)
Lemma ordered_plain members :
  Forall (fun kv => arrayIndex (fst kv) = None) members -> ordered members.
Proof.
  unfold ordered. induction 1 as [|kv members Hkv Hall IH]; constructor.
  - clear - Hall. induction Hall as [|b members Hb _ IH]; constructor.
    + unfold precedes. now rewrite Hb.
    + exact IH.
  - exact IH.
Qed.

Ltac plain_keys :=
  apply ordered_plain; repeat (constructor; [reflexivity|]); constructor.

Lemma define_last k x acc :
  ~ In k (map fst acc) ->
  Forall (fun a => precedes k (fst a) = false) acc ->
  define k x acc = (acc ++ [(k, x)])%list.
Proof.
  induction acc as [|[k' x'] acc IH]; intros Hk Hord; [reflexivity|].
  cbn [define fst snd]. destruct (String.eqb_spec k k') as [->|Hne].
  - elim Hk. now left.
  - inversion Hord as [|? ? Hhead Htail]; subst. cbn [fst] in Hhead.
    rewrite Hhead. cbn [app]. f_equal. apply IH; [|exact Htail].
    intros Hin. apply Hk. now right.
Qed.

Lemma ordered_app_inv acc k x members :
  ordered (acc ++ (k, x) :: members) ->
  Forall (fun a => precedes k (fst a) = false) acc.
Proof.
  unfold ordered. induction acc as [|a acc IH]; intros H; [constructor|].
  cbn [app] in H. inversion H as [|? ? Hhead Htail]; subst.
  constructor.
  - rewrite Forall_forall in Hhead. apply (Hhead (k, x)).
    apply in_or_app. right. now left.
  - now apply IH.
Qed.

Lemma object_of_distinct members :
  NoDup (map fst members) -> ordered members -> object_of members = members.
Proof.
  unfold object_of.
  assert (H : forall acc,
             NoDup (map fst (acc ++ members)) ->
             ordered (acc ++ members) ->
             fold_left (fun acc kv => define (fst kv) (snd kv) acc) members acc
             = (acc ++ members)%list).
  { induction members as [|[k x] members IH]; intros acc Hnd Hord;
      cbn [fold_left].
    - now rewrite app_nil_r.
    - assert (Hdefine : define k x acc = (acc ++ [(k, x)])%list).
      { apply define_last.
        - rewrite map_app in Hnd. apply NoDup_remove_2 in Hnd.
          intros Hin. apply Hnd. apply in_or_app. now left.
        - now apply (ordered_app_inv acc k x members). }
      cbn [fst snd]. rewrite Hdefine, IH.
      + now rewrite <- app_assoc.
      + now rewrite <- app_assoc.
      + now rewrite <- app_assoc. }
  intros Hnd Hord. now apply (H []).
Qed.

Theorem parse_value_stringify v :
  WellFormed v -> parses_back v.
Proof.
  induction v as [| b | n | s | items IH | members IH] using json_nested_ind;
    intros Hwf fuel rest Hfuel Hrest;
    (destruct fuel as [|fuel]; [cbn [cost] in Hfuel; lia|]).
  - reflexivity.
  - destruct b; reflexivity.
  - cbn [stringify].
    destruct (number_text_head n) as (c & tail & Heq & Hc).
    pose proof (parse_number_text n rest Hrest) as Hparse.
    rewrite Heq in *. cbn [append] in *.
    rewrite parse_value_number by exact Hc. now rewrite Hparse.
  - cbn [stringify]. unfold quote. cbn [append].
    rewrite parse_value_string, append_assoc. cbn [append].
    now rewrite parse_chars_escape.
  - inversion Hwf as [| | | | items' Hall |]; subst.
    cbn [stringify]. cbn [append]. rewrite parse_value_array.
    destruct items as [|x items].
    + reflexivity.
    + destruct (stringify_head x) as (c & tail & Heq & Hws & Hclose & _).
      assert (Hhead : exists tail',
                 join_comma (map stringify (x :: items)) ++ "]" ++ rest
                 = String c tail').
      { destruct items; cbn [map join_comma]; rewrite Heq; cbn [append];
          eexists; reflexivity. }
      destruct Hhead as [tail' Hhead].
      rewrite append_assoc.
      rewrite Hhead at 1. rewrite skip_ws_head by exact Hws.
      rewrite Hclose.
      inversion IH as [|? ? IHx IHitems]; subst.
      inversion Hall as [|? ? Hx Hitems]; subst.
      rewrite items_parse_back.
      * reflexivity.
      * clear - IHitems Hitems. induction IHitems; constructor.
        -- inversion Hitems; subst. auto.
        -- inversion Hitems; subst. auto.
      * auto.
      * cbn [cost] in Hfuel. unfold items_cost. lia.
  - inversion Hwf as [| | | | | members' Hnd Hord Hall]; subst.
    cbn [stringify]. cbn [append]. rewrite parse_value_object.
    destruct members as [|[k x] members].
    + reflexivity.
    + assert (Hhead : exists tail',
                 join_comma (map member_text ((k, x) :: members)) ++ "}" ++ rest
                 = String dquote tail').
      { destruct members; cbn [map join_comma]; unfold member_text, quote;
          cbn [append fst]; eexists; reflexivity. }
      destruct Hhead as [tail' Hhead].
      change (map (fun kv => quote (fst kv) ++ ":" ++ stringify (snd kv)))
        with (map member_text).
      rewrite append_assoc.
      rewrite Hhead at 1. rewrite skip_ws_head by reflexivity.
      change (code dquote =? 125) with false. cbv iota.
      inversion IH as [|? ? IHx IHmembers]; subst.
      inversion Hall as [|? ? Hx Hmembers]; subst.
      rewrite members_parse_back.
      * now rewrite object_of_distinct by assumption.
      * clear - IHmembers Hmembers. induction IHmembers; constructor.
        -- inversion Hmembers; subst. auto.
        -- inversion Hmembers; subst. auto.
      * cbn [snd] in *. auto.
      * cbn [cost] in Hfuel. unfold members_cost. lia.
Qed.

Lemma join_cost {A} (text : A -> string) (weight : A -> nat) (l : list A) :
  Forall (fun a => (weight a <= String.length (text a))%nat) l ->
  (fold_right (fun a n => S (weight a + n)) 0%nat l
   <= String.length (join_comma (map text l)) + 1)%nat.
Proof.
  induction 1 as [|a l Ha Hl IH]; [cbn; lia|].
  destruct l as [|b l].
  - cbn [map join_comma fold_right]. lia.
  - change (join_comma (map text (a :: b :: l)))
      with (text a ++ "," ++ join_comma (map text (b :: l))).
    rewrite !length_append.
    change (fold_right (fun a0 n => S (weight a0 + n)) 0%nat (a :: b :: l))
      with (S (weight a
               + fold_right (fun a0 n => S (weight a0 + n)) 0%nat (b :: l))).
    cbn [String.length] in *. lia.
Qed.

Lemma cost_le_length v : (cost v <= String.length (stringify v))%nat.
Proof.
  induction v as [| b | n | s | items IH | members IH] using json_nested_ind.
  - cbn. lia.
  - destruct b; cbn; lia.
  - cbn [cost stringify]. destruct (number_text_head n) as (c & tail & -> & _).
    cbn [String.length]. lia.
  - cbn [cost stringify]. unfold quote. cbn [String.length]. lia.
  - cbn [cost stringify]. rewrite !length_append. cbn [String.length].
    pose proof (join_cost stringify cost items IH). lia.
  - cbn [cost stringify]. rewrite !length_append. cbn [String.length].
    pose proof (join_cost
                  (fun kv => quote (fst kv) ++ ":" ++ stringify (snd kv))
                  (fun kv => cost (snd kv)) members) as H.
    assert (Hall : Forall
              (fun kv : string * json =>
                 (cost (snd kv)
                  <= String.length
                       (quote (fst kv) ++ ":" ++ stringify (snd kv)))%nat)
              members).
    { clear - IH. induction IH as [|kv l Hkv _ IHl]; constructor; [|exact IHl].
      rewrite !length_append. cbn [String.length]. lia. }
    specialize (H Hall). lia.
Qed.

(** Numbers as the language reads and writes them. *)
Example number_with_fraction :
  JSON_parse "1800000000.123456"
  = Some (JNum (Num.Dec 180000000012345 Num.D6 5))
  /\ JSON_stringify (JNum (Num.Dec 180000000012345 Num.D6 5))
     = "1800000000.123456".
Proof. split; vm_compute; reflexivity. Qed.

Example number_with_exponent :
  JSON_parse "1.5e3" = Some (JNum (Num.Int 1500))
  /\ JSON_parse "25E-1" = Some (JNum (Num.Dec 2 Num.D5 0))
  /\ JSON_stringify (JNum (Num.Int (10 ^ 21))) = "1e+21"
  /\ JSON_stringify (JNum (Num.Dec 0 Num.D1 6)) = "1e-7"
  /\ JSON_parse "01" = None
  /\ JSON_parse "1." = None.
Proof. repeat split; vm_compute; reflexivity. Qed.

(** Keys that are array indices come first, in ascending order. *)
Example keys_in_the_order_of_the_language :
  object_of [("b", JNull); ("10", JNull); ("a", JNull); ("9", JNull);
             ("01", JNull); ("b", JBool true)]
  = [("9", JNull); ("10", JNull); ("b", JBool true); ("a", JNull);
     ("01", JNull)].
Proof. vm_compute. reflexivity. Qed.

(** [JSON.parse(JSON.stringify(v))] is [v]. *)
Theorem parse_stringify v :
  WellFormed v -> JSON_parse (JSON_stringify v) = Some v.
Proof.
  intros Hwf. unfold JSON_parse, JSON_stringify, parse.
  rewrite <- (append_empty (stringify v)) at 2.
  rewrite (parse_value_stringify v Hwf).
  - reflexivity.
  - pose proof (cost_le_length v). lia.
  - exact I.
Qed.

End JsonFacts.

(** ** The checksum *)

Module ChecksumFacts.
Import Int32Facts.

Lemma steps_agree hash char :
  EnhancedFeatures.step hash char = Settings.step hash char.
Proof. reflexivity. Qed.

Lemma loops_agree units :
  forall hash, EnhancedFeatures.loop units hash = Settings.loop units hash.
Proof.
  induction units as [|char rest IH]; intros hash; simpl.
  - reflexivity.
  - rewrite steps_agree. apply IH.
Qed.

(** One turn of the loop is [31 * hash + char] folded into 32 bits. *)
Lemma step_rolling hash char :
  EnhancedFeatures.step hash char = Int32.toInt32 (31 * hash + char).
Proof.
  unfold EnhancedFeatures.step. cbv zeta.
  rewrite and_diag, shl_mul by lia.
  apply toInt32_eqm.
  rewrite <- Z.add_sub_swap.
  rewrite Zminus_mod, Zplus_mod, toInt32_mod, <- Zplus_mod, <- Zminus_mod.
  f_equal. change (2 ^ 5) with 32. lia.
Qed.

Lemma loop_rolling units :
  forall hash,
    EnhancedFeatures.loop units hash
    = fold_left (fun h c => Int32.toInt32 (31 * h + c)) units hash.
Proof.
  induction units as [|char rest IH]; intros hash; simpl.
  - reflexivity.
  - rewrite step_rolling. apply IH.
Qed.

Lemma loop_range units :
  forall hash, Int32.in_range hash ->
               Int32.in_range (EnhancedFeatures.loop units hash).
Proof.
  induction units as [|char rest IH]; intros hash Hh; simpl.
  - exact Hh.
  - apply IH. rewrite step_rolling. apply toInt32_range.
Qed.

End ChecksumFacts.

(** C9. The checksum of the enhanced-features module and the checksum of the
    settings module are the same function of the code units of the input:
    the rolling hash [31 * h + c] folded into a signed 32-bit integer at
    every step and rendered in base 16 with a minus sign when negative. *)
Theorem checksum_single_algorithm :
  (forall units : list Z,
      EnhancedFeatures.calculateChecksum_units units
      = Settings.generateChecksum_units units
      /\ EnhancedFeatures.calculateChecksum_units units
         = ChecksumSpec.checksum units
      /\ Int32.in_range (EnhancedFeatures.loop units 0))
  /\ (forall data : string,
         EnhancedFeatures.calculateChecksum data
         = Settings.generateChecksum data)
  /\ (forall hash : Z,
         Radix16.toString16 hash
         = if hash <? 0 then String "-"%char (Radix16.of_nonneg (- hash))
           else Radix16.of_nonneg hash).
Proof.
  split; [|split].
  - intros units. split; [|split].
    + unfold EnhancedFeatures.calculateChecksum_units,
        Settings.generateChecksum_units.
      now rewrite ChecksumFacts.loops_agree.
    + unfold EnhancedFeatures.calculateChecksum_units, ChecksumSpec.checksum,
        ChecksumSpec.rolling.
      now rewrite ChecksumFacts.loop_rolling.
    + apply ChecksumFacts.loop_range. unfold Int32.in_range. lia.
  - intros data.
    unfold EnhancedFeatures.calculateChecksum, Settings.generateChecksum,
      EnhancedFeatures.calculateChecksum_units,
      Settings.generateChecksum_units.
    now rewrite ChecksumFacts.loops_agree.
  - reflexivity.
Qed.

Example checksum_hello :
  EnhancedFeatures.calculateChecksum "hello" = "5e918d2"
  /\ Settings.generateChecksum "hello" = "5e918d2".
Proof. split; reflexivity. Qed.

Example checksum_negative :
  EnhancedFeatures.calculateChecksum "zzzzzzzzzz" = "-5e3bd3c0".
Proof. reflexivity. Qed.

(** ** The history ledgers *)

Module HistoryFacts.

(** Truncation after the insertion at the front, for any ledger. *)
Lemma capped {A} (e : A) (l : list A) :
  (if (50 <? List.length (e :: l))%nat then firstn 50 (e :: l) else e :: l)
  = firstn 50 (e :: l).
Proof.
  destruct (Nat.ltb_spec 50 (List.length (e :: l))) as [H|H].
  - reflexivity.
  - symmetry. apply firstn_all2. exact H.
Qed.

Lemma capped_length {A} (e : A) (l : list A) :
  List.length (firstn 50 (e :: l)) = Nat.min 50 (S (List.length l)).
Proof. now rewrite length_firstn. Qed.

Lemma full_drops_oldest {A} (e : A) (l : list A) :
  List.length l = 50%nat -> firstn 50 (e :: l) = e :: removelast l.
Proof.
  intros H. change (firstn 50 (e :: l)) with (e :: firstn 49 l).
  f_equal.
  destruct (exists_last (l := l)) as [l' [a Hl]].
  { intros ->. discriminate. }
  subst l. rewrite removelast_last.
  rewrite length_app in H. simpl in H.
  rewrite firstn_app. replace (49 - List.length l')%nat with 0%nat by lia.
  rewrite firstn_all2 by lia. simpl. apply app_nil_r.
Qed.

End HistoryFacts.

(** C8. Both ledgers are most-recent-first and bounded at 50 entries: an
    append puts the new entry at the front and keeps the first 50 entries of
    the result, whatever the ledger was before; a ledger that held exactly 50
    entries holds exactly 50 afterwards, the new one first and the oldest one
    gone. *)
Theorem history_bounded_most_recent_first :
  (forall now iso entry (backupHistory : list History.Entry),
      let after := History.addToBackupHistory now iso entry backupHistory in
      let e := History.newEntry now iso entry in
      after = firstn 50 (e :: backupHistory)
      /\ hd_error after = Some e
      /\ List.length after = Nat.min 50 (S (List.length backupHistory))
      /\ (List.length after <= 50)%nat
      /\ (List.length backupHistory = 50%nat ->
          after = e :: removelast backupHistory
          /\ List.length after = 50%nat))
  /\ (forall iso type filename cookieCount (storage : CoreHistory.Storage),
         let after :=
           CoreHistory.stored
             (CoreHistory.addToBackupHistory true iso type filename
                cookieCount storage) in
         let e := CoreHistory.newEntry iso type filename cookieCount in
         after = firstn 50 (e :: CoreHistory.stored storage)
         /\ hd_error after = Some e
         /\ List.length after
            = Nat.min 50 (S (List.length (CoreHistory.stored storage)))
         /\ (List.length after <= 50)%nat
         /\ (List.length (CoreHistory.stored storage) = 50%nat ->
             after = e :: removelast (CoreHistory.stored storage)
             /\ List.length after = 50%nat)).
Proof.
  split.
  - intros now iso entry backupHistory after e.
    assert (Hafter : after = firstn 50 (e :: backupHistory)).
    { subst after e. unfold History.addToBackupHistory. cbv zeta.
      apply HistoryFacts.capped. }
    rewrite Hafter. repeat split.
    + rewrite HistoryFacts.capped_length. lia.
    + rewrite HistoryFacts.capped_length. lia.
    + now apply HistoryFacts.full_drops_oldest.
    + rewrite HistoryFacts.capped_length. lia.
  - intros iso type filename cookieCount storage after e.
    assert (Hafter : after = firstn 50 (e :: CoreHistory.stored storage)).
    { subst after e. unfold CoreHistory.addToBackupHistory. cbv zeta.
      unfold CoreHistory.stored at 1.
      rewrite HistoryFacts.capped. reflexivity. }
    rewrite Hafter. repeat split.
    + rewrite HistoryFacts.capped_length. lia.
    + rewrite HistoryFacts.capped_length. lia.
    + now apply HistoryFacts.full_drops_oldest.
    + rewrite HistoryFacts.capped_length. lia.
Qed.

Lemma history_bounded_witness :
  let full :=
    repeat (History.newEntry 0 "2025-09-10T11:45:22.000Z"
              {| arg_type := None; arg_cookieCount := Some 52;
                 arg_size := Some 2341; arg_filename := None;
                 arg_encrypted := Some true |}) 50 in
  let arg :=
    {| arg_type := Some "all"; arg_cookieCount := Some 7;
       arg_size := Some 911; arg_filename := Some "cookies.ckz";
       arg_encrypted := Some true |} in
  List.length full = 50%nat
  /\ History.addToBackupHistory 1 "2025-09-11T08:00:00.000Z" arg full
     = History.newEntry 1 "2025-09-11T08:00:00.000Z" arg :: removelast full
  /\ List.length
       (History.addToBackupHistory 1 "2025-09-11T08:00:00.000Z" arg full)
     = 50%nat.
Proof.
  intros full arg.
  assert (Hfull : List.length full = 50%nat) by reflexivity.
  split; [exact Hfull|].
  exact (proj2 (proj2 (proj2 (proj2
           (proj1 history_bounded_most_recent_first
              1 "2025-09-11T08:00:00.000Z" arg full)))) Hfull).
Defined.

(** ** The replay loop of [handleDecPasswdSubmit] *)

Lemma setCalls_app (l1 l2 : list Event) :
  setCalls (l1 ++ l2) = (setCalls l1 ++ setCalls l2)%list.
Proof.
  induction l1 as [|e l1 IH]; [reflexivity|].
  destruct e; simpl; now rewrite ?IH.
Qed.

Lemma replayUrl_defined cookie :
  hasDomain cookie -> exists url, replayUrl cookie = Some url.
Proof.
  unfold hasDomain, replayUrl. destruct (Cookie.domain cookie).
  - intros _. eexists. reflexivity.
  - intros H. now elim H.
Qed.

Section ReplayFacts.

Context {Browser : Type}.
Variable cookies_set : Browser -> Cookie.t -> Browser * option string.

Lemma loop_skips epoch cookie url rest browser total :
  replayUrl cookie = Some url ->
  isExpired epoch cookie = true ->
  replayLoop cookies_set epoch (cookie :: rest) browser total
  = (ExpirationWarning (Cookie.name cookie) url
       :: fst (replayLoop cookies_set epoch rest browser total),
     snd (replayLoop cookies_set epoch rest browser total)).
Proof.
  intros Hurl Hexp. simpl. rewrite Hurl, Hexp.
  now destruct (replayLoop cookies_set epoch rest browser total).
Qed.

Lemma loop_reports_failure epoch cookie url rest browser browser' total message :
  replayUrl cookie = Some url ->
  isExpired epoch cookie = false ->
  cookies_set browser (prepare cookie url) = (browser', Some message) ->
  replayLoop cookies_set epoch (cookie :: rest) browser total
  = (CookiesSet (prepare cookie url)
       :: UnknownErrWarning (Cookie.name cookie) (url ++ " - " ++ message)
       :: fst (replayLoop cookies_set epoch rest browser' total),
     snd (replayLoop cookies_set epoch rest browser' total)).
Proof.
  intros Hurl Hexp Hset. simpl. rewrite Hurl, Hexp, Hset.
  now destruct (replayLoop cookies_set epoch rest browser' total).
Qed.

Lemma loop_counts_success epoch cookie url rest browser browser' total :
  replayUrl cookie = Some url ->
  isExpired epoch cookie = false ->
  cookies_set browser (prepare cookie url) = (browser', None) ->
  replayLoop cookies_set epoch (cookie :: rest) browser total
  = (CookiesSet (prepare cookie url)
       :: UpdateRestoreProgressBar (S total)
       :: fst (replayLoop cookies_set epoch rest browser' (S total)),
     snd (replayLoop cookies_set epoch rest browser' (S total))).
Proof.
  intros Hurl Hexp Hset. simpl. rewrite Hurl, Hexp, Hset.
  now destruct (replayLoop cookies_set epoch rest browser' (S total)).
Qed.

(** With a domain on every record the loop reaches its end, whatever the
    cookie store answers: every record that is not expired gets its
    cookie-set call, and every such call is either counted or reported. *)
Lemma loop_runs_to_the_end epoch cookies :
  Forall hasDomain cookies ->
  forall browser total,
  exists browser' total',
    snd (replayLoop cookies_set epoch cookies browser total) = Finished browser' total'
    /\ map Some (setCalls (fst (replayLoop cookies_set epoch cookies browser total)))
       = map setDetails
           (filter (fun c => negb (isExpired epoch c)) cookies)
    /\ (total' + List.length
                   (unknownWarnings
                      (fst (replayLoop cookies_set epoch cookies browser total)))
        = total + List.length
                    (setCalls (fst (replayLoop cookies_set epoch cookies browser total))))%nat
    /\ List.length
         (expiryWarnings (fst (replayLoop cookies_set epoch cookies browser total)))
       = List.length (filter (isExpired epoch) cookies).
Proof.
  induction 1 as [|cookie rest Hdom _ IH]; intros browser total.
  - exists browser, total. simpl. repeat split; lia.
  - destruct (replayUrl_defined cookie Hdom) as [url Hurl].
    destruct (isExpired epoch cookie) eqn:Hexp.
    + rewrite (loop_skips _ _ _ _ _ _ Hurl Hexp).
      destruct (IH browser total) as (b' & t' & Hend & Hcalls & Hcount & Hskip).
      exists b', t'. simpl. rewrite Hexp. simpl.
      repeat split; auto.
    + destruct (cookies_set browser (prepare cookie url))
        as [browser1 [message|]] eqn:Hset.
      * rewrite (loop_reports_failure _ _ _ _ _ _ _ _ Hurl Hexp Hset).
        destruct (IH browser1 total)
          as (b' & t' & Hend & Hcalls & Hcount & Hskip).
        exists b', t'. simpl. rewrite Hexp. simpl.
        repeat split; auto.
        -- rewrite Hcalls. unfold setDetails at 2. now rewrite Hurl.
        -- lia.
      * rewrite (loop_counts_success _ _ _ _ _ _ _ Hurl Hexp Hset).
        destruct (IH browser1 (S total))
          as (b' & t' & Hend & Hcalls & Hcount & Hskip).
        exists b', t'. simpl. rewrite Hexp. simpl.
        repeat split; auto.
        -- rewrite Hcalls. unfold setDetails at 2. now rewrite Hurl.
        -- lia.
Qed.

(** Every cookie-set call of the loop carries a prepared record. *)
Lemma loop_sends_prepared epoch cookies :
  forall browser total details,
    In details (setCalls (fst (replayLoop cookies_set epoch cookies browser total))) ->
    exists cookie url,
      In cookie cookies /\ replayUrl cookie = Some url
      /\ details = prepare cookie url.
Proof.
  induction cookies as [|cookie rest IH]; intros browser total details Hin.
  - destruct Hin.
  - simpl in Hin. destruct (replayUrl cookie) as [url|] eqn:Hurl.
    2: { destruct Hin. }
    destruct (isExpired epoch cookie).
    + destruct (replayLoop cookies_set epoch rest browser total) as [ev en] eqn:Hrest.
      simpl in Hin.
      specialize (IH browser total details). rewrite Hrest in IH.
      destruct (IH Hin) as (c & u & Hc & Hu & Hd).
      exists c, u. auto using in_cons.
    + destruct (cookies_set browser (prepare cookie url))
        as [browser1 [message|]].
      * destruct (replayLoop cookies_set epoch rest browser1 total) as [ev en] eqn:Hrest.
        simpl in Hin. destruct Hin as [<-|Hin].
        -- exists cookie, url. auto using in_eq.
        -- specialize (IH browser1 total details). rewrite Hrest in IH.
           destruct (IH Hin) as (c & u & Hc & Hu & Hd).
           exists c, u. auto using in_cons.
      * destruct (replayLoop cookies_set epoch rest browser1 (S total))
          as [ev en] eqn:Hrest.
        simpl in Hin. destruct Hin as [<-|Hin].
        -- exists cookie, url. auto using in_eq.
        -- specialize (IH browser1 (S total) details). rewrite Hrest in IH.
           destruct (IH Hin) as (c & u & Hc & Hu & Hd).
           exists c, u. auto using in_cons.
Qed.

(** The counters of [restoreCookies]: every record gets its call and is
    counted once, as a success or as a failure. *)
Lemma restoreLoop_counts cookies :
  forall browser successCount failCount,
    let '(events, _, sc, fc) :=
      restoreLoop cookies_set cookies browser successCount failCount in
    setCalls events = map newCookie cookies
    /\ (sc + fc = successCount + failCount + List.length cookies)%nat.
Proof.
  induction cookies as [|cookie rest IH];
    intros browser successCount failCount; simpl.
  - split; [reflexivity|lia].
  - destruct (cookies_set browser (newCookie cookie)) as [browser1 [m|]].
    + specialize (IH browser1 successCount (S failCount)).
      destruct (restoreLoop cookies_set rest browser1 successCount
                  (S failCount)) as [[[ev b] sc] fc].
      destruct IH as [IH1 IH2]. simpl. split; [now rewrite IH1 | lia].
    + specialize (IH browser1 (S successCount) failCount).
      destruct (restoreLoop cookies_set rest browser1 (S successCount)
                  failCount) as [[[ev b] sc] fc].
      destruct IH as [IH1 IH2]. simpl. split; [now rewrite IH1 | lia].
Qed.

End ReplayFacts.

(** During replay a record with a domain whose [expirationDate] is
    present, is not zero and is earlier than the current time in epoch
    seconds is skipped: the loop emits the expiry warning for it, issues no
    cookie-set call for it, reports no failure for it and leaves the counter
    of restored cookies as it was.  In particular a snapshot of one such
    record followed by a record without [expirationDate] whose cookie-set
    call succeeds ends with the report of 1 restored out of 2. *)
Lemma expired_records_are_skipped :
  forall (Browser : Type)
         (cookies_set : Browser -> Cookie.t -> Browser * option string)
         (epoch : Num.t) (cookie : Cookie.t) (url : string) (expires : Num.t),
    replayUrl cookie = Some url ->
    Cookie.expirationDate cookie = Some expires ->
    Num.is_zero expires = false ->
    Num.ltb expires epoch = true ->
    (forall rest browser total,
        replayLoop cookies_set epoch (cookie :: rest) browser total
        = (ExpirationWarning (Cookie.name cookie) url
             :: fst (replayLoop cookies_set epoch rest browser total),
           snd (replayLoop cookies_set epoch rest browser total)))
    /\ (forall other url' browser browser',
           replayUrl other = Some url' ->
           Cookie.expirationDate other = None ->
           cookies_set browser (prepare other url') = (browser', None) ->
           replay cookies_set epoch [cookie; other] browser
           = ([InitRestoreProgressBar 2;
               ExpirationWarning (Cookie.name cookie) url;
               CookiesSet (prepare other url');
               UpdateRestoreProgressBar 1;
               RestoreSuccessAlert 1 (Some 2%nat);
               HideRestoreProgressBar],
              Finished browser' 1)).
Proof.
  intros Browser cookies_set epoch cookie url expires Hurl Hdate Hnz Hlt.
  assert (Hexp : isExpired epoch cookie = true).
  { unfold isExpired. now rewrite Hdate, Hnz, Hlt. }
  split.
  - intros rest browser total. now apply loop_skips.
  - intros other url' browser browser' Hurl' Hnone Hset.
    assert (Hother : isExpired epoch other = false).
    { unfold isExpired. now rewrite Hnone. }
    unfold replay.
    rewrite (loop_skips _ _ _ _ _ _ _ Hurl Hexp).
    rewrite (loop_counts_success _ _ _ _ _ _ _ _ Hurl' Hother Hset).
    reflexivity.
Qed.

Lemma expired_records_are_skipped_witness :
  let epoch := Num.Dec 170000000012 Num.D3 2 in
  let expired :=
    Samples.dated_cookie "old" "shop.example" (Num.Dec 1600000000 Num.D5 0) in
  let other := Samples.session_cookie "sid" ".example.org" in
  replay (Samples.store []) epoch [expired; other] 0%nat
  = ([InitRestoreProgressBar 2;
      ExpirationWarning (Some "old") "http://shop.example/";
      CookiesSet (prepare other "https://example.org/");
      UpdateRestoreProgressBar 1;
      RestoreSuccessAlert 1 (Some 2%nat);
      HideRestoreProgressBar],
     Finished 1%nat 1).
Proof.
  intros epoch expired other.
  exact (proj2 (expired_records_are_skipped nat (Samples.store [])
                  epoch expired "http://shop.example/"
                  (Num.Dec 1600000000 Num.D5 0)
                  eq_refl eq_refl eq_refl eq_refl)
           other "https://example.org/" 0%nat 1%nat eq_refl eq_refl eq_refl).
Defined.

(** C4 (the defect).  The guard of the skip is
    [cookie.expirationDate && epoch > cookie.expirationDate], read after
    [cookie.domain.startsWith].  A record whose [expirationDate] is the
    number 0 is present in the snapshot and earlier than the current time,
    yet the guard counts the date as absent: the record is not skipped, its
    cookie-set call is issued and it is counted as restored.  And an expired
    record without a domain, behind a first record that has one, is not
    skipped either: the loop throws before it reaches the guard, so that no
    expiry warning is given and the batch is aborted. *)
Theorem replay_does_not_skip_date_zero :
  let epoch := Num.Dec 170000000012 Num.D3 2 in
  let stale := Samples.dated_cookie "stale" "d.org" 0 in
  let first := Samples.session_cookie "a" "a.example" in
  let lost :=
    {| Cookie.domain := None;
       Cookie.expirationDate := Some (Num.Dec 1600000000 Num.D5 0);
       Cookie.hostOnly := None; Cookie.httpOnly := None;
       Cookie.name := Some "b"; Cookie.path := Some "/";
       Cookie.sameSite := None; Cookie.secure := None;
       Cookie.session := None; Cookie.storeId := None;
       Cookie.url := None; Cookie.value := Some "2" |} in
  Cookie.expirationDate stale = Some (Num.Int 0)
  /\ Num.ltb 0 epoch = true
  /\ handleDecPasswdSubmit Samples.sjcl_like_decrypt (Samples.store []) true
       "hunter2"
       (JSON_stringify
          (wrap true
             (Samples.sjcl_like_encrypt "c2FsdA==" "hunter2"
                (serialize [stale]) (Some 256))))
       epoch 0%nat
     = Some ([InitRestoreProgressBar 1;
              CookiesSet (prepare stale "http://d.org/");
              UpdateRestoreProgressBar 1;
              RestoreSuccessAlert 1 (Some 1%nat);
              HideRestoreProgressBar],
             1%nat)
  /\ expiryWarnings
       (fst (replay (Samples.store []) epoch [stale] 0%nat)) = []
  /\ Num.ltb (Num.Dec 1600000000 Num.D5 0) epoch = true
  /\ replay (Samples.store []) epoch [first; lost] 0%nat
     = ([InitRestoreProgressBar 2;
         CookiesSet (prepare first "https://a.example/");
         UpdateRestoreProgressBar 1],
        Aborted 1%nat TypeError).
Proof. vm_compute. repeat split. Qed.

(** Failures of the cookie-set call are isolated.  A call that reports an
    error leads to the failure warning for that record, with the message of
    the browser, and the loop goes on with the next record.  Whatever the
    cookie store answers, the replay of records that all carry a domain runs
    to its end: every record that is not expired gets its cookie-set call,
    each call is either counted as restored or reported as failed, and the
    final report gives the restored count out of the number of records.  The
    loop of [restoreCookies] likewise issues one call per record and counts
    each as a success or as a failure. *)
Theorem replay_isolates_failures :
  forall (Browser : Type)
         (cookies_set : Browser -> Cookie.t -> Browser * option string)
         (epoch : Num.t) (cookies : list Cookie.t),
    Forall hasDomain cookies ->
    (forall browser,
        exists events browser' total,
          replay cookies_set epoch cookies browser
          = (InitRestoreProgressBar (List.length cookies)
               :: (events
                   ++ [RestoreSuccessAlert total (Some (List.length cookies));
                       HideRestoreProgressBar])%list,
             Finished browser' total)
          /\ map Some (setCalls events)
             = map setDetails
                 (filter (fun c => negb (isExpired epoch c)) cookies)
          /\ (total + List.length (unknownWarnings events)
              = List.length (setCalls events))%nat)
    /\ (forall cookie url rest browser browser' total message,
           replayUrl cookie = Some url ->
           isExpired epoch cookie = false ->
           cookies_set browser (prepare cookie url) = (browser', Some message) ->
           replayLoop cookies_set epoch (cookie :: rest) browser total
           = (CookiesSet (prepare cookie url)
                :: UnknownErrWarning (Cookie.name cookie)
                     (url ++ " - " ++ message)
                :: fst (replayLoop cookies_set epoch rest browser' total),
              snd (replayLoop cookies_set epoch rest browser' total)))
    /\ (forall browser,
           let '(events, _, successCount, failCount) :=
             restoreLoop cookies_set cookies browser 0 0 in
           setCalls events = map newCookie cookies
           /\ (successCount + failCount = List.length cookies)%nat).
Proof.
  intros Browser cookies_set epoch cookies Hdom.
  split; [|split].
  - intros browser.
    destruct (loop_runs_to_the_end cookies_set epoch cookies Hdom browser 0%nat)
      as (browser' & total & Hend & Hcalls & Hcount & _).
    unfold replay.
    destruct (replayLoop cookies_set epoch cookies browser 0)
      as [events ending] eqn:Hloop.
    simpl in Hend, Hcalls, Hcount. subst ending.
    exists events, browser', total. repeat split; assumption.
  - intros cookie url rest browser browser' total message.
    apply loop_reports_failure.
  - intros browser.
    pose proof (restoreLoop_counts cookies_set cookies browser 0%nat 0%nat) as H.
    destruct (restoreLoop cookies_set cookies browser 0 0) as [[[ev b] sc] fc].
    exact H.
Qed.

Example replay_isolates_failures_on_three :
  let three :=
    [Samples.session_cookie "first" ".example.org";
     Samples.session_cookie "middle" "example.net";
     Samples.dated_cookie "last" "example.com" 1800000000] in
  Forall hasDomain three
  /\ exists events browser' total,
      replay (Samples.store ["middle"]) 1700000000 three 0%nat
      = (InitRestoreProgressBar 3
           :: (events
               ++ [RestoreSuccessAlert total (Some 3%nat);
                   HideRestoreProgressBar])%list,
         Finished browser' total)
      /\ map Some (setCalls events)
         = map setDetails
             (filter (fun c => negb (isExpired 1700000000 c)) three)
      /\ (total + List.length (unknownWarnings events)
          = List.length (setCalls events))%nat.
Proof.
  intros three.
  assert (Hdom : Forall hasDomain three).
  { repeat constructor; discriminate. }
  split; [exact Hdom|].
  exact (proj1 (replay_isolates_failures nat (Samples.store ["middle"])
                  1700000000 three Hdom) 0%nat).
Defined.

(** Three records, the cookie-set call of the middle one failing: two are
    restored out of three, the first and the last are written, and the
    warning for the middle one carries the message of the browser. *)
Example middle_record_fails :
  let three :=
    [Samples.session_cookie "first" ".example.org";
     Samples.session_cookie "middle" "example.net";
     Samples.dated_cookie "last" "example.com" 1800000000] in
  let trace := fst (replay (Samples.store ["middle"]) 1700000000 three 0%nat) in
  successAlerts trace = [(2%nat, Some 3%nat)]
  /\ unknownWarnings trace = [(Some "middle", "https://example.net/ - rejected")]
  /\ map Cookie.name (setCalls trace)
     = [Some "first"; Some "middle"; Some "last"]
  /\ fst (fst (fst (restoreLoop (Samples.store ["middle"]) three 0 0 0)%nat))
     = [CookiesSet (newCookie (Samples.session_cookie "first" ".example.org"));
        CookiesSet (newCookie (Samples.session_cookie "middle" "example.net"));
        ConsoleError "Failed to restore cookie:";
        CookiesSet
          (newCookie (Samples.dated_cookie "last" "example.com" 1800000000))].
Proof. repeat split. Qed.

(** C5 (the defect).  The loop of [handleDecPasswdSubmit] reads
    [cookie.domain.startsWith] outside of any [try]: a record without a
    domain, which the validation lets through whenever it is not the first
    record, makes the loop throw.  The batch is aborted: the records that
    follow are never written and no final report is given.  The loop of
    [restoreCookies], which wraps every iteration in a [try], counts such a
    record and goes on. *)
Theorem replay_aborts_on_record_without_domain :
  let first := Samples.session_cookie "a" "a.example" in
  let bad :=
    {| Cookie.domain := None; Cookie.expirationDate := None;
       Cookie.hostOnly := None; Cookie.httpOnly := None;
       Cookie.name := Some "b"; Cookie.path := Some "/";
       Cookie.sameSite := None; Cookie.secure := None;
       Cookie.session := None; Cookie.storeId := None;
       Cookie.url := None; Cookie.value := Some "2" |} in
  let last := Samples.session_cookie "c" "c.example" in
  handleDecPasswdSubmit Samples.sjcl_like_decrypt (Samples.store []) true
    "hunter2"
    (JSON_stringify
       (wrap true
          (Samples.sjcl_like_encrypt "c2FsdA==" "hunter2"
             (serialize [first; bad; last]) (Some 256))))
    1700000000 0%nat
  = Some ([InitRestoreProgressBar 3;
           CookiesSet (prepare first "https://a.example/");
           UpdateRestoreProgressBar 1],
          1%nat)
  /\ replay (Samples.store []) 1700000000 [first; bad; last] 0%nat
     = ([InitRestoreProgressBar 3;
         CookiesSet (prepare first "https://a.example/");
         UpdateRestoreProgressBar 1],
        Aborted 1%nat TypeError)
  /\ successAlerts
       (fst (replay (Samples.store []) 1700000000 [first; bad; last] 0%nat))
     = []
  /\ (let '(events, _, successCount, failCount) :=
        restoreLoop (Samples.store []) [first; bad; last] 0%nat 0%nat 0%nat in
      List.length (setCalls events) = 3%nat
      /\ successCount = 3%nat /\ failCount = 0%nat).
Proof. vm_compute. repeat split. Qed.

(** ** The preparation of a record before the cookie-set call *)

(** ** The unencrypted import *)

Section UnencryptedFacts.

Context {Browser : Type}.
Variable cookies_set : Browser -> Cookie.t -> Browser * option string.

Lemma issueAll_trace cookies :
  forall browser,
    let '(events, answers, _) := issueAll cookies_set cookies browser in
    events = map (fun c => CookiesSet (unencryptedDetails c)) cookies
    /\ List.length answers = List.length cookies.
Proof.
  induction cookies as [|cookie rest IH]; intros browser; simpl.
  - split; reflexivity.
  - destruct (cookies_set browser (unencryptedDetails cookie))
      as [browser1 lastError].
    specialize (IH browser1).
    destruct (issueAll cookies_set rest browser1) as [[events answers] b].
    destruct IH as [IH1 IH2]. split; simpl; congruence.
Qed.

(** The callbacks do not look at the answers: after one callback per call
    the counter has reached the number of calls.  The last callback is the
    one that calls [restoreSuccessAlert], with the counter alone, and the
    call throws: no alert is shown. *)
Lemma runCallbacks_all answers :
  forall length imported,
    (imported + List.length answers = length)%nat ->
    runCallbacks length answers imported
    = (length, [],
       match answers with
       | [] => []
       | _ :: _ => [TypeError]
       end).
Proof.
  induction answers as [|lastError rest IH]; intros length imported Hlen.
  - simpl in *. do 2 f_equal. lia.
  - cbn [runCallbacks]. unfold setCallback, restoreSuccessAlert.
    cbn [List.length] in Hlen.
    rewrite (IH length (S imported)) by lia.
    destruct rest as [|a rest']; cbn [List.length] in Hlen.
    + assert (Heq : S imported = length) by lia.
      rewrite Heq, Nat.eqb_refl. reflexivity.
    + replace (S imported =? length)%nat with false
        by (symmetry; apply Nat.eqb_neq; lia).
      reflexivity.
Qed.

Lemma setCalls_of_calls (details : list Cookie.t) :
  setCalls (map CookiesSet details) = details.
Proof. induction details as [|d l IH]; [reflexivity|]. simpl. now rewrite IH. Qed.

Lemma unencrypted_trace cookies browser :
  let '(events, _, imported, uncaught) :=
    restoreUnencryptedCookies cookies_set true cookies browser in
  imported = List.length cookies
  /\ events = map (fun c => CookiesSet (unencryptedDetails c)) cookies
  /\ uncaught = match cookies with
                | [] => []
                | _ :: _ => [TypeError]
                end.
Proof.
  unfold restoreUnencryptedCookies.
  pose proof (issueAll_trace cookies browser) as Hissue.
  destruct (issueAll cookies_set cookies browser) as [[calls answers] browser'].
  destruct Hissue as [Hcalls Hlen].
  rewrite (runCallbacks_all answers (List.length cookies) 0%nat) by lia.
  subst calls. rewrite app_nil_r.
  split; [reflexivity|split; [reflexivity|]].
  destruct answers, cookies; simpl in Hlen; try discriminate; reflexivity.
Qed.

Lemma unencrypted_calls cookies browser :
  setCalls
    (fst (fst (fst (restoreUnencryptedCookies cookies_set true cookies
                      browser))))
  = map unencryptedDetails cookies.
Proof.
  pose proof (unencrypted_trace cookies browser) as H.
  destruct (restoreUnencryptedCookies cookies_set true cookies browser)
    as [[[events b] imported] uncaught].
  destruct H as (_ & -> & _). cbn [fst].
  rewrite <- (map_map unencryptedDetails CookiesSet).
  apply setCalls_of_calls.
Qed.

End UnencryptedFacts.

(** C6 (as amended).  In the replay of [handleDecPasswdSubmit] every
    cookie-set call carries the record prepared as follows: [hostOnly] and
    [session] are never sent; the domain is not sent when [hostOnly] is true;
    the expiration date is not sent when [session] is true; a missing or
    empty [sameSite] becomes [no_restriction]; a missing [secure] is taken
    from the scheme of the address; a missing [httpOnly] becomes false; a
    missing [path] becomes the root path.  The two other restore paths build
    the call differently, for every record: [restoreCookies] and
    [restoreUnencryptedCookies] send the domain of the record as it is,
    whatever [hostOnly] says; [restoreCookies] sends the expiration date as
    it is, whatever [session] says, puts [lax] in place of a missing or
    empty [sameSite] and passes [secure], [httpOnly] and [path] on as they
    are, missing or not. *)
Theorem replay_prepares_every_record :
  (forall (cookie : Cookie.t) (url : string),
      let sent := prepare cookie url in
      Cookie.hostOnly sent = None
      /\ Cookie.session sent = None
      /\ Cookie.url sent = Some url
      /\ Cookie.domain sent
         = (if truthy_bool (Cookie.hostOnly cookie) then None
            else Cookie.domain cookie)
      /\ Cookie.expirationDate sent
         = (if truthy_bool (Cookie.session cookie) then None
            else Cookie.expirationDate cookie)
      /\ Cookie.sameSite sent
         = (if truthy_string (Cookie.sameSite cookie)
            then Cookie.sameSite cookie else Some "no_restriction")
      /\ Cookie.secure sent
         = match Cookie.secure cookie with
           | None => Some (startsWith url "https")
           | some => some
           end
      /\ Cookie.httpOnly sent
         = match Cookie.httpOnly cookie with
           | None => Some false
           | some => some
           end
      /\ Cookie.path sent
         = match Cookie.path cookie with
           | None => Some "/"
           | some => some
           end
      /\ Cookie.name sent = Cookie.name cookie
      /\ Cookie.value sent = Cookie.value cookie)
  /\ (forall (Browser : Type)
             (cookies_set : Browser -> Cookie.t -> Browser * option string)
             (epoch : Num.t) (cookies : list Cookie.t) (browser : Browser)
             (details : Cookie.t),
         In details (setCalls (fst (replay cookies_set epoch cookies browser))) ->
         exists cookie url,
           In cookie cookies /\ replayUrl cookie = Some url
           /\ details = prepare cookie url)
  /\ (forall cookie : Cookie.t,
         Cookie.domain (newCookie cookie) = Cookie.domain cookie
         /\ Cookie.expirationDate (newCookie cookie)
            = Cookie.expirationDate cookie
         /\ Cookie.sameSite (newCookie cookie)
            = (if truthy_string (Cookie.sameSite cookie)
               then Cookie.sameSite cookie else Some "lax")
         /\ Cookie.secure (newCookie cookie) = Cookie.secure cookie
         /\ Cookie.httpOnly (newCookie cookie) = Cookie.httpOnly cookie
         /\ Cookie.path (newCookie cookie) = Cookie.path cookie
         /\ Cookie.domain (unencryptedDetails cookie) = Cookie.domain cookie)
  /\ (forall (Browser : Type)
             (cookies_set : Browser -> Cookie.t -> Browser * option string)
             (cookies : list Cookie.t) (browser : Browser),
         setCalls
           (fst (fst (fst (restoreLoop cookies_set cookies browser 0 0)%nat)))
         = map newCookie cookies
         /\ setCalls
              (fst (fst (fst (restoreUnencryptedCookies cookies_set true
                                cookies browser))))
            = map unencryptedDetails cookies).
Proof.
  split; [|split; [|split]].
  - intros cookie url sent. subst sent. unfold prepare. simpl.
    repeat split.
    + now destruct (Cookie.hostOnly cookie) as [[|]|].
    + now destruct (Cookie.session cookie) as [[|]|].
  - intros Browser cookies_set epoch cookies browser details Hin.
    apply (loop_sends_prepared cookies_set epoch cookies browser 0%nat).
    unfold replay in Hin.
    destruct (replayLoop cookies_set epoch cookies browser 0)
      as [events ending].
    destruct ending; simpl in Hin.
    + rewrite setCalls_app in Hin. simpl in Hin.
      now rewrite app_nil_r in Hin.
    + exact Hin.
  - intros cookie. unfold newCookie, unencryptedDetails. simpl.
    repeat split.
    unfold truthy_string, or_string.
    destruct (Cookie.sameSite cookie) as [text|]; [|reflexivity].
    now destruct (String.eqb text EmptyString).
  - intros Browser cookies_set cookies browser. split.
    + pose proof (restoreLoop_counts cookies_set cookies browser 0%nat 0%nat)
        as H.
      destruct (restoreLoop cookies_set cookies browser 0 0)
        as [[[ev b] sc] fc].
      exact (proj1 H).
    + apply unencrypted_calls.
Qed.

Lemma replay_prepares_every_record_witness :
  let cookie := Samples.dated_cookie "theme" "shop.example"
       (Num.Dec 180000000012345 Num.D6 5) in
  exists record url,
    In record [cookie] /\ replayUrl record = Some url
    /\ prepare cookie "http://shop.example/" = prepare record url.
Proof.
  intros cookie.
  apply (proj1 (proj2 replay_prepares_every_record) nat (Samples.store [])
           (Num.Int 1700000000) [cookie] 0%nat).
  left. reflexivity.
Defined.

(** The claim C6 as it is worded fails on the two other restore paths.  For
    a host-only record without [sameSite], [restoreCookies] sends the domain
    and the default [lax], and [restoreUnencryptedCookies] sends the domain
    too; for a session record [restoreCookies] sends the expiration date. *)
Lemma preparation_counterexample :
  let cookie :=
    {| Cookie.domain := Some "example.com";
       Cookie.expirationDate := Some (Num.Dec 1800000000 Num.D5 0);
       Cookie.hostOnly := Some true; Cookie.httpOnly := None;
       Cookie.name := Some "sid"; Cookie.path := None;
       Cookie.sameSite := None; Cookie.secure := None;
       Cookie.session := Some true; Cookie.storeId := None;
       Cookie.url := None; Cookie.value := Some "1" |} in
  Cookie.hostOnly cookie = Some true
  /\ Cookie.session cookie = Some true
  /\ Cookie.domain (newCookie cookie) = Some "example.com"
  /\ Cookie.expirationDate (newCookie cookie)
     = Some (Num.Dec 1800000000 Num.D5 0)
  /\ Cookie.sameSite (newCookie cookie) = Some "lax"
  /\ Cookie.secure (newCookie cookie) = None
  /\ Cookie.httpOnly (newCookie cookie) = None
  /\ Cookie.path (newCookie cookie) = None
  /\ Cookie.domain (unencryptedDetails cookie) = Some "example.com"
  /\ setCalls
       (fst (fst (fst (restoreLoop (Samples.store []) [cookie] 0 0 0)%nat)))
     = [newCookie cookie]
  /\ setCalls
       (fst (fst (fst (restoreUnencryptedCookies (Samples.store []) true
                         [cookie] 0%nat))))
     = [unencryptedDetails cookie].
Proof. repeat split. Qed.

(** C10 (the defect).  On the unencrypted import path every callback of a
    cookie-set call increments the counter, whether the call failed or not,
    and the last callback calls [restoreSuccessAlert(imported)] with the
    counter equal to the number of records.  The function of that name in
    force takes the total as a second argument and calls [toLocaleString] on
    it: with the counter alone the call throws.  Whatever the cookie store
    answers, the trace is one cookie-set call per record and nothing else:
    no success alert is shown, no failure is reported, and for a list that
    is not empty a type error is left uncaught. *)
Theorem unencrypted_import_shows_no_alert :
  (forall (Browser : Type)
          (cookies_set : Browser -> Cookie.t -> Browser * option string)
          (cookies : list Cookie.t) (browser : Browser),
      let '(events, _, imported, uncaught) :=
        restoreUnencryptedCookies cookies_set true cookies browser in
      imported = List.length cookies
      /\ events = map (fun c => CookiesSet (unencryptedDetails c)) cookies
      /\ successAlerts events = []
      /\ unknownWarnings events = []
      /\ uncaught = match cookies with
                    | [] => []
                    | _ :: _ => [TypeError]
                    end)
  /\ (let kept := Samples.session_cookie "kept" "a.example" in
      let lost := Samples.session_cookie "lost" "b.example" in
      restoreUnencryptedCookies (Samples.store ["lost"]) true [kept; lost]
        0%nat
      = ([CookiesSet (unencryptedDetails kept);
          CookiesSet (unencryptedDetails lost)],
         2%nat, 2%nat, [TypeError])
      /\ snd (Samples.store ["lost"] 1%nat (unencryptedDetails lost))
         = Some "rejected"
      /\ restoreSuccessAlert 2 None = Throw TypeError
      /\ restoreSuccessAlert 2 (Some 2%nat)
         = Normal [RestoreSuccessAlert 2 (Some 2%nat)]).
Proof.
  split; [|repeat split].
  intros Browser cookies_set cookies browser.
  pose proof (unencrypted_trace cookies_set cookies browser) as H.
  destruct (restoreUnencryptedCookies cookies_set true cookies browser)
    as [[[events b] imported] uncaught].
  destruct H as (Himported & Hevents & Huncaught).
  repeat split; try assumption; subst events; clear;
    induction cookies as [|c rest IH]; simpl; auto.
Qed.

(** ** Cookie records and their texts *)

Module CookieFacts.
Import Cookie.

Lemma present_keys_incl fields k :
  In k (present_keys fields) -> In k (map fst fields).
Proof.
  induction fields as [|[k' [|]] fields IH]; simpl; intuition.
Qed.

Lemma present_keys_nodup fields :
  NoDup (map fst fields) -> NoDup (present_keys fields).
Proof.
  induction fields as [|[k [|]] fields IH]; simpl; intros H.
  - constructor.
  - inversion H; subst. constructor; auto.
    intros Hin. now apply present_keys_incl in Hin.
  - inversion H; subst. auto.
Qed.

Lemma present_keys_app l1 l2 :
  present_keys (l1 ++ l2) = (present_keys l1 ++ present_keys l2)%list.
Proof.
  induction l1 as [|[k [|]] l1 IH]; simpl; [reflexivity| |]; now rewrite ?IH.
Qed.

Lemma opt_member_keys {A} k (inj : A -> json) (o : option A) rest :
  map fst (opt_member k inj o ++ rest)
  = (present_keys [(k, is_some o)] ++ map fst rest)%list.
Proof. destruct o; reflexivity. Qed.

Lemma keys_of_toJson c :
  map fst (members_of c) = present_keys (fields_of c).
Proof.
  unfold members_of, toJson.
  rewrite <- (app_nil_r (opt_member "value" JStr (value c))).
  rewrite !opt_member_keys.
  change (fields_of c)
    with ([("domain", is_some (domain c))]
          ++ [("expirationDate", is_some (expirationDate c))]
          ++ [("hostOnly", is_some (hostOnly c))]
          ++ [("httpOnly", is_some (httpOnly c))]
          ++ [("name", is_some (name c))]
          ++ [("path", is_some (path c))]
          ++ [("sameSite", is_some (sameSite c))]
          ++ [("secure", is_some (secure c))]
          ++ [("session", is_some (session c))]
          ++ [("storeId", is_some (storeId c))]
          ++ [("url", is_some (url c))]
          ++ [("value", is_some (value c))] ++ [])%list.
  rewrite !present_keys_app. reflexivity.
Qed.

Lemma toJson_well_formed c : Json.WellFormed (toJson c).
Proof.
  pose proof (keys_of_toJson c) as Hkeys.
  unfold members_of in Hkeys. unfold toJson in *.
  constructor.
  - rewrite Hkeys. apply present_keys_nodup.
    cbn [fields_of map fst].
    repeat (constructor; [cbn [In]; intuition discriminate|]). constructor.
  - apply JsonFacts.ordered_plain. rewrite !Forall_app.
    repeat split;
      match goal with
      | |- Forall _ (opt_member _ _ ?o) =>
          destruct o; repeat constructor
      end.
  - rewrite !Forall_app.
    repeat split;
      match goal with
      | |- Forall _ (opt_member _ _ ?o) =>
          destruct o; repeat constructor
      end.
Qed.

Lemma set_members_app c l1 l2 :
  set_members c (l1 ++ l2)
  = match set_members c l1 with
    | Some c' => set_members c' l2
    | None => None
    end.
Proof.
  revert c. induction l1 as [|kv l1 IH]; intros c; cbn [app set_members].
  - reflexivity.
  - destruct (set_member c kv); [apply IH | reflexivity].
Qed.

Lemma ofJson_toJson c : ofJson (toJson c) = Some c.
Proof.
  destruct c as [d e ho ht n p ss se sn st u v].
  unfold ofJson, toJson, empty.
  cbn [domain expirationDate hostOnly httpOnly name path sameSite secure
       session storeId url value].
  rewrite set_members_app.
  replace (set_members (mk None None None None None None None None None None None None)
             (opt_member "domain" JStr d))
    with (Some (mk d None None None None None None None None None None None))
    by (destruct d; reflexivity).
  rewrite set_members_app.
  replace (set_members (mk d None None None None None None None None None None None)
             (opt_member "expirationDate" JNum e))
    with (Some (mk d e None None None None None None None None None None))
    by (destruct e; reflexivity).
  rewrite set_members_app.
  replace (set_members (mk d e None None None None None None None None None None)
             (opt_member "hostOnly" JBool ho))
    with (Some (mk d e ho None None None None None None None None None))
    by (destruct ho; reflexivity).
  rewrite set_members_app.
  replace (set_members (mk d e ho None None None None None None None None None)
             (opt_member "httpOnly" JBool ht))
    with (Some (mk d e ho ht None None None None None None None None))
    by (destruct ht; reflexivity).
  rewrite set_members_app.
  replace (set_members (mk d e ho ht None None None None None None None None)
             (opt_member "name" JStr n))
    with (Some (mk d e ho ht n None None None None None None None))
    by (destruct n; reflexivity).
  rewrite set_members_app.
  replace (set_members (mk d e ho ht n None None None None None None None)
             (opt_member "path" JStr p))
    with (Some (mk d e ho ht n p None None None None None None))
    by (destruct p; reflexivity).
  rewrite set_members_app.
  replace (set_members (mk d e ho ht n p None None None None None None)
             (opt_member "sameSite" JStr ss))
    with (Some (mk d e ho ht n p ss None None None None None))
    by (destruct ss; reflexivity).
  rewrite set_members_app.
  replace (set_members (mk d e ho ht n p ss None None None None None)
             (opt_member "secure" JBool se))
    with (Some (mk d e ho ht n p ss se None None None None))
    by (destruct se; reflexivity).
  rewrite set_members_app.
  replace (set_members (mk d e ho ht n p ss se None None None None)
             (opt_member "session" JBool sn))
    with (Some (mk d e ho ht n p ss se sn None None None))
    by (destruct sn; reflexivity).
  rewrite set_members_app.
  replace (set_members (mk d e ho ht n p ss se sn None None None)
             (opt_member "storeId" JStr st))
    with (Some (mk d e ho ht n p ss se sn st None None))
    by (destruct st; reflexivity).
  rewrite set_members_app.
  replace (set_members (mk d e ho ht n p ss se sn st None None)
             (opt_member "url" JStr u))
    with (Some (mk d e ho ht n p ss se sn st u None))
    by (destruct u; reflexivity).
  destruct v; reflexivity.
Qed.

Lemma listOfJson_toJson cookies :
  listOfJson (map toJson cookies) = Some cookies.
Proof.
  induction cookies as [|c cookies IH]; cbn [map listOfJson].
  - reflexivity.
  - now rewrite ofJson_toJson, IH.
Qed.

Lemma lookup_opt_member_other {A} k k' (inj : A -> json) o rest :
  k <> k' ->
  Json.lookup k (opt_member k' inj o ++ rest) = Json.lookup k rest.
Proof.
  intros Hne. destruct o; [|reflexivity].
  cbn [opt_member app Json.lookup].
  now destruct (String.eqb_spec k k').
Qed.

Lemma lookup_opt_member_same {A} k (inj : A -> json) a rest :
  Json.lookup k (opt_member k inj (Some a) ++ rest) = Some (inj a).
Proof. cbn [opt_member app Json.lookup]. now rewrite String.eqb_refl. Qed.

Lemma required_fields_present c :
  hasRequired c -> checkRequired (toJson c) requiredFields = Normal tt.
Proof.
  intros (Hn & Hv & Hd).
  destruct (name c) as [n|] eqn:En; [|now elim Hn].
  destruct (value c) as [v|] eqn:Ev; [|now elim Hv].
  destruct (domain c) as [d|] eqn:Ed; [|now elim Hd].
  unfold requiredFields, checkRequired, Json.hasOwnProperty, toJson.
  rewrite En, Ev, Ed.
  rewrite <- (app_nil_r (opt_member "value" JStr (Some v))).
  rewrite !(lookup_opt_member_other "name") by discriminate.
  rewrite lookup_opt_member_same. cbn [of_option bind].
  rewrite !(lookup_opt_member_other "value") by discriminate.
  rewrite lookup_opt_member_same. cbn [of_option bind].
  rewrite lookup_opt_member_same. reflexivity.
Qed.

End CookieFacts.

(** ** The envelope and the round trip *)

Module SampleFacts.
Import Samples.

Lemma strip_append p x : strip p (p ++ x) = Some x.
Proof.
  induction p as [|a p IH]; cbn [append strip]; [reflexivity|].
  now rewrite Ascii.eqb_refl.
Qed.

Lemma decrypt_encrypt r p x ks :
  sjcl_like_decrypt p (JStr (sjcl_like_encrypt r p x ks)) = Normal x.
Proof.
  unfold sjcl_like_decrypt, sjcl_like_encrypt.
  rewrite JsonFacts.parse_stringify.
  - cbn [Json.lookup String.eqb Ascii.eqb Bool.eqb]. cbn.
    now rewrite strip_append.
  - constructor.
    + cbn [map fst].
      repeat (constructor; [cbn [In]; intuition discriminate|]). constructor.
    + JsonFacts.plain_keys.
    + repeat constructor.
Qed.

Lemma encrypt_not_empty r p x ks :
  sjcl_like_encrypt r p x ks <> EmptyString.
Proof.
  unfold sjcl_like_encrypt, JSON_stringify. cbn [Json.stringify append].
  discriminate.
Qed.

End SampleFacts.

Lemma wrap_well_formed enhanced cipherText :
  Json.WellFormed (wrap enhanced cipherText).
Proof.
  unfold wrap. constructor.
  - cbn [map fst].
    repeat (constructor; [cbn [In]; intuition discriminate|]). constructor.
  - JsonFacts.plain_keys.
  - destruct enhanced; repeat constructor.
Qed.

Lemma parse_wrap enhanced cipherText :
  JSON_parse (JSON_stringify (wrap enhanced cipherText))
  = Some (wrap enhanced cipherText).
Proof. apply JsonFacts.parse_stringify, wrap_well_formed. Qed.

Lemma unwrap_unrecognised enhanced data :
  (forall members payload,
      ~ (JSON_parse data = Some (JObj members)
         /\ Json.lookup "v" members = Some (JNum 1)
         /\ Json.lookup "payload" members = Some payload
         /\ Json.truthy (Some payload) = true)) ->
  unwrap enhanced data = JStr data.
Proof.
  intros Hnot. unfold unwrap, unwrapTry.
  destruct (JSON_parse data) as [[| b | n | s | items | members]|] eqn:Hparse;
    try reflexivity.
  cbn [of_option bind Json.prop].
  destruct (Json.lookup "v" members) as [[| | n | | |]|] eqn:Hv;
    try reflexivity.
  cbn [Json.strict_eq_num].
  destruct (Num.eqb n (Num.Int 1)) eqn:Hn; [|reflexivity].
  apply NumFacts.eqb_eq in Hn. subst n.
  destruct (Json.lookup "payload" members) as [payload|] eqn:Hp;
    [|reflexivity].
  destruct (Json.truthy (Some payload)) eqn:Ht; [|reflexivity].
  elim (Hnot members payload). auto.
Qed.

Lemma unwrap_recognised enhanced data members payload :
  JSON_parse data = Some (JObj members) ->
  Json.lookup "v" members = Some (JNum 1) ->
  Json.lookup "payload" members = Some payload ->
  Json.truthy (Some payload) = true ->
  unwrapTry enhanced data
  = (if Json.truthy (Json.lookup "checksum" members) && enhanced then
       actualChecksum <- calculateChecksum_value payload ;;
       if Json.strict_neq_str actualChecksum (Json.lookup "checksum" members)
       then Throw (JsError "Checksum verification failed")
       else Normal payload
     else Normal payload).
Proof.
  intros Hparse Hv Hp Ht. unfold unwrapTry.
  rewrite Hparse. cbn [of_option bind Json.prop].
  rewrite Hv, Hp.
  change (Json.strict_eq_num (Some (JNum 1)) 1) with true. cbn [andb].
  rewrite Ht. reflexivity.
Qed.

Lemma unwrap_wrap enhanced enhanced' cipherText :
  cipherText <> EmptyString ->
  unwrap enhanced' (JSON_stringify (wrap enhanced cipherText)) = JStr cipherText.
Proof.
  intros Hne. unfold unwrap.
  rewrite (unwrap_recognised enhanced' _
             [("v", JNum 1); ("payload", JStr cipherText);
              ("checksum",
                if enhanced
                then JStr (EnhancedFeatures.calculateChecksum cipherText)
                else JNull)]
             (JStr cipherText)).
  - destruct enhanced.
    + change (Json.lookup "checksum" _)
        with (Some (JStr (EnhancedFeatures.calculateChecksum cipherText))).
      cbn [calculateChecksum_value bind Json.strict_neq_str].
      rewrite String.eqb_refl. cbn [negb].
      now destruct (Json.truthy _ && enhanced').
    + reflexivity.
  - apply parse_wrap.
  - reflexivity.
  - reflexivity.
  - cbn [Json.truthy]. apply negb_true_iff, String.eqb_neq, Hne.
Qed.


Lemma parse_serialize cookies :
  JSON_parse (serialize cookies) = Some (JArr (map Cookie.toJson cookies)).
Proof.
  apply JsonFacts.parse_stringify. constructor.
  induction cookies as [|c cookies IH]; constructor.
  - apply CookieFacts.toJson_well_formed.
  - exact IH.
Qed.

Section RoundTripFacts.

Context {Rand : Type}.
Variable sjcl_encrypt : Rand -> string -> string -> SjclParams -> string.
Variable sjcl_decrypt : string -> json -> completion string.

Hypothesis decrypt_encrypt :
  forall r password plaintext params,
    sjcl_decrypt password (JStr (sjcl_encrypt r password plaintext params))
    = Normal plaintext.

Lemma decode_own_ciphertext enhanced r password params cookies :
  Forall Cookie.hasRequired cookies ->
  decodeCiphertext sjcl_decrypt enhanced password
    (JStr (sjcl_encrypt r password (serialize cookies) params))
  = Normal (map Cookie.toJson cookies).
Proof.
  intros Hreq. unfold decodeCiphertext.
  rewrite decrypt_encrypt. cbn [bind].
  replace (if enhanced
           then EnhancedFeatures.decompressData (serialize cookies)
           else serialize cookies)
    with (serialize cookies) by now destruct enhanced.
  rewrite parse_serialize. cbn [of_option bind Json.isArray].
  destruct Hreq as [|c cookies Hc _]; [reflexivity|].
  cbn [map]. now rewrite CookieFacts.required_fields_present.
Qed.

End RoundTripFacts.

(** C1. Backup followed by restore gives back the snapshot.  For a cipher
    whose decryption undoes its encryption and whose cipher text is never
    empty, a password of at least four characters and a snapshot that is not
    empty and whose records carry a name, a value and a domain:
    [handleEncPasswdSubmit] writes the enveloped text; the restore consumer
    unwraps it to the cipher text, decrypts and parses it to the records of
    the snapshot, in the same order; and the replay runs on exactly the
    snapshot. *)
Theorem backup_restore_round_trip :
  forall (Rand : Type)
         (sjcl_encrypt : Rand -> string -> string -> SjclParams -> string)
         (sjcl_decrypt : string -> json -> completion string),
    (forall r password plaintext params,
        sjcl_decrypt password (JStr (sjcl_encrypt r password plaintext params))
        = Normal plaintext) ->
    (forall r password plaintext params,
        sjcl_encrypt r password plaintext params <> EmptyString) ->
    forall (req : BackupRequest) (snapshot : list Cookie.t) (enhanced : bool),
      alsoSendTelegram req && negb (telegramAvailable req) = false ->
      chromeCookies req = true ->
      (4 <= String.length (encPasswd req))%nat ->
      filter (cookieFilter (selectedDomainsForBackup req)) (allCookies req)
      = snapshot ->
      snapshot <> [] ->
      Forall Cookie.hasRequired snapshot ->
      let data := encryptedBackup sjcl_encrypt req snapshot in
      (exists filename,
          hd_error (handleEncPasswdSubmit sjcl_encrypt req)
          = Some (DownloadJson data filename))
      /\ unwrap enhanced data
         = JStr (sjcl_encrypt (salt req) (encPasswd req) (serialize snapshot)
                   (Some 256))
      /\ decodeBackup sjcl_decrypt enhanced (encPasswd req) data
         = Normal (map Cookie.toJson snapshot)
      /\ Cookie.listOfJson (map Cookie.toJson snapshot) = Some snapshot
      /\ (forall (Browser : Type)
                 (cookies_set : Browser -> Cookie.t -> Browser * option string)
                 (epoch : Num.t) (browser : Browser),
             handleDecPasswdSubmit sjcl_decrypt cookies_set enhanced
               (encPasswd req) data epoch browser
             = Some (fst (replay cookies_set epoch snapshot browser),
                     match snd (replay cookies_set epoch snapshot browser) with
                     | Finished b _ => b
                     | Aborted b _ => b
                     end)).
Proof.
  intros Rand sjcl_encrypt sjcl_decrypt Hdec Hne req snapshot enhanced
    Hgate Hchrome Hpass Hfilter Hsome Hreq data.
  assert (Hdata : data
                  = JSON_stringify
                      (wrap (enhancedFeatures req)
                         (sjcl_encrypt (salt req) (encPasswd req)
                            (serialize snapshot) (Some 256)))).
  { subst data. unfold encryptedBackup, EnhancedFeatures.compressData.
    now destruct (enhancedFeatures req). }
  assert (Hunwrap : unwrap enhanced data
                    = JStr (sjcl_encrypt (salt req) (encPasswd req)
                              (serialize snapshot) (Some 256))).
  { rewrite Hdata. apply unwrap_wrap. apply Hne. }
  assert (Hdecode : decodeBackup sjcl_decrypt enhanced (encPasswd req) data
                    = Normal (map Cookie.toJson snapshot)).
  { unfold decodeBackup. rewrite Hunwrap.
    now apply decode_own_ciphertext. }
  split; [|split; [exact Hunwrap|split; [exact Hdecode|split]]].
  - unfold handleEncPasswdSubmit. rewrite Hgate.
    replace (String.length (encPasswd req) <? 4)%nat with false
      by (symmetry; apply Nat.ltb_ge, Hpass).
    rewrite Hchrome, Hfilter. cbn [negb].
    destruct snapshot as [|c rest]; [now elim Hsome|].
    eexists. reflexivity.
  - apply CookieFacts.listOfJson_toJson.
  - intros Browser cookies_set epoch browser.
    unfold handleDecPasswdSubmit.
    replace (String.length (encPasswd req) <? 1)%nat with false
      by (symmetry; apply Nat.ltb_ge; lia).
    rewrite Hdecode, CookieFacts.listOfJson_toJson.
    now destruct (replay cookies_set epoch snapshot browser).
Qed.

Lemma backup_restore_round_trip_witness :
  let snapshot :=
    [Samples.session_cookie "sid" ".example.org";
     Samples.dated_cookie "theme" "shop.example"
       (Num.Dec 180000000012345 Num.D6 5)] in
  let req :=
    {| alsoSendTelegram := false; telegramAvailable := true;
       encPasswd := "hunter2"; chromeCookies := true;
       enhancedFeatures := true; selectedDomainsForBackup := None;
       allCookies := snapshot; profileInput := "work";
       localeDate := "01-11-2026"; localeTime := "10-00-00";
       sendToTelegram := false; salt := "c2FsdA==" |} in
  decodeBackup Samples.sjcl_like_decrypt true "hunter2"
    (encryptedBackup Samples.sjcl_like_encrypt req snapshot)
  = Normal (map Cookie.toJson snapshot).
Proof.
  intros snapshot req.
  refine (proj1 (proj2 (proj2
            (backup_restore_round_trip string Samples.sjcl_like_encrypt
               Samples.sjcl_like_decrypt SampleFacts.decrypt_encrypt
               SampleFacts.encrypt_not_empty req snapshot true
               eq_refl eq_refl _ eq_refl _ _)))).
  - cbn. lia.
  - discriminate.
  - repeat constructor; discriminate.
Defined.

(** What becomes of a checksum that does not match.  When the text parses
    to an envelope (a [v] equal to 1 and a payload that counts as true) whose
    checksum counts as true but is not the checksum of the payload, and the
    enhanced-features module is loaded, the verification raises the error
    [Checksum verification failed].  Nothing is logged.  The error is caught
    by the handler of the same step, which puts the raw text back in place
    of the payload: the restore goes on exactly as for a legacy file made of
    that raw text, and the payload is not what is decrypted. *)
Lemma checksum_mismatch_discards_payload :
  forall (data : string) (members : list (string * json))
         (payload expected : json) (actual : string),
    JSON_parse data = Some (JObj members) ->
    Json.lookup "v" members = Some (JNum 1) ->
    Json.lookup "payload" members = Some payload ->
    Json.truthy (Some payload) = true ->
    Json.lookup "checksum" members = Some expected ->
    Json.truthy (Some expected) = true ->
    calculateChecksum_value payload = Normal actual ->
    expected <> JStr actual ->
    unwrapTry true data = Throw (JsError "Checksum verification failed")
    /\ unwrap true data = JStr data
    /\ (forall (sjcl_decrypt : string -> json -> completion string)
               (pass : string),
           decodeBackup sjcl_decrypt true pass data
           = decodeCiphertext sjcl_decrypt true pass (JStr data)).
Proof.
  intros data members payload expected actual Hparse Hv Hp Ht Hc Hct Hsum Hne.
  assert (Htry : unwrapTry true data
                 = Throw (JsError "Checksum verification failed")).
  { rewrite (unwrap_recognised true data members payload Hparse Hv Hp Ht).
    rewrite Hc, Hct, Hsum. cbn [andb bind].
    replace (Json.strict_neq_str actual (Some expected)) with true;
      [reflexivity|].
    destruct expected as [| b | n | s | items | ms]; try reflexivity.
    cbn [Json.strict_neq_str]. symmetry. apply negb_true_iff, String.eqb_neq.
    intros ->. now elim Hne. }
  assert (Hun : unwrap true data = JStr data).
  { unfold unwrap. now rewrite Htry. }
  repeat split; try assumption.
  intros sjcl_decrypt pass. unfold decodeBackup. now rewrite Hun.
Qed.

(** C2 (the defect).  An envelope that carries a cipher text of the backup
    producer under a wrong checksum.  The verification throws the error
    [Checksum verification failed], for which the handler of the decryption
    keeps the notice of a failed integrity check; but the error is thrown
    inside the block that tries the envelope, whose own handler, written for
    a text that is no envelope, catches it and puts the raw text in place of
    the payload.  No warning is logged, the payload is not decrypted, and
    the restore does not go on: with the sample cipher it ends on the notice
    of an invalid file, although the payload alone restores under the same
    password. *)
Theorem checksum_mismatch_is_swallowed :
  let cipherText :=
    Samples.sjcl_like_encrypt "c2FsdA==" "hunter2"
      (serialize [Samples.session_cookie "sid" ".example.org"]) (Some 256) in
  let data :=
    JSON_stringify
      (JObj [("v", JNum 1); ("payload", JStr cipherText);
             ("checksum", JStr "0")]) in
  EnhancedFeatures.calculateChecksum cipherText <> "0"
  /\ unwrapTry true data = Throw (JsError "Checksum verification failed")
  /\ decryptionAlert (JsError "Checksum verification failed")
     = "File integrity check failed. The backup may be corrupted."
  /\ unwrap true data = JStr data
  /\ unwrap true data <> JStr cipherText
  /\ handleDecPasswdSubmit Samples.sjcl_like_decrypt (Samples.store []) true
       "hunter2" data 1700000000 0%nat
     = Some ([Alert "File is not a valid .ckz file!"], 0%nat)
  /\ decodeCiphertext Samples.sjcl_like_decrypt true "hunter2" (JStr cipherText)
     = Normal [Cookie.toJson (Samples.session_cookie "sid" ".example.org")].
Proof.
  vm_compute. repeat split; try reflexivity; discriminate.
Qed.

Lemma checksum_mismatch_discards_payload_witness :
  let data :=
    JSON_stringify
      (JObj [("v", JNum 1); ("payload", JStr "abc"); ("checksum", JStr "0")]) in
  unwrapTry true data = Throw (JsError "Checksum verification failed")
  /\ unwrap true data = JStr data.
Proof.
  intros data.
  pose proof (checksum_mismatch_discards_payload data
                [("v", JNum 1); ("payload", JStr "abc"); ("checksum", JStr "0")]
                (JStr "abc") (JStr "0") "17862"
                eq_refl eq_refl eq_refl eq_refl eq_refl eq_refl eq_refl
                ltac:(discriminate)) as (H1 & H2 & _).
  split; assumption.
Defined.

(** C3 (as amended).  The file written by an encrypted backup is the text of
    an object whose members are exactly [v] (the number 1), [payload] (the
    cipher text) and [checksum] (the checksum of the cipher text, or [null]
    without the enhanced-features module).  The restore consumer takes the
    payload of a text that parses to an object with [v] equal to 1 and a
    payload that counts as true, when the checksum is not verified (it
    counts as false, or the module is absent) or is the checksum of the
    payload.  A text that is no JSON, a value without [v] equal to 1 or
    without a payload that counts as true, and an envelope whose payload has
    no checksum that can be computed, are used whole, as a legacy cipher
    text.  The envelope whose verified checksum differs is left out. *)
Theorem envelope_format :
  (forall (Rand : Type)
          (sjcl_encrypt : Rand -> string -> string -> SjclParams -> string)
          (req : BackupRequest) (cookies : list Cookie.t),
      exists cipherText,
        cipherText
        = sjcl_encrypt (salt req) (encPasswd req) (serialize cookies) (Some 256)
        /\ JSON_parse (encryptedBackup sjcl_encrypt req cookies)
           = Some (JObj [("v", JNum 1);
                         ("payload", JStr cipherText);
                         ("checksum",
                           if enhancedFeatures req
                           then JStr (EnhancedFeatures.calculateChecksum
                                        cipherText)
                           else JNull)]))
  /\ (forall (enhanced : bool) (data : string)
             (members : list (string * json)) (payload : json),
         JSON_parse data = Some (JObj members) ->
         Json.lookup "v" members = Some (JNum 1) ->
         Json.lookup "payload" members = Some payload ->
         Json.truthy (Some payload) = true ->
         (Json.truthy (Json.lookup "checksum" members) && enhanced = false ->
          unwrap enhanced data = payload)
         /\ (forall checksum,
                Json.lookup "checksum" members = Some (JStr checksum) ->
                calculateChecksum_value payload = Normal checksum ->
                unwrap enhanced data = payload))
  /\ (forall (enhanced : bool) (data : string),
         (forall members payload,
             ~ (JSON_parse data = Some (JObj members)
                /\ Json.lookup "v" members = Some (JNum 1)
                /\ Json.lookup "payload" members = Some payload
                /\ Json.truthy (Some payload) = true)) ->
         unwrap enhanced data = JStr data)
  /\ (forall (data : string) (members : list (string * json))
             (payload : json) (error : exn),
         JSON_parse data = Some (JObj members) ->
         Json.lookup "v" members = Some (JNum 1) ->
         Json.lookup "payload" members = Some payload ->
         Json.truthy (Some payload) = true ->
         Json.truthy (Json.lookup "checksum" members) = true ->
         calculateChecksum_value payload = Throw error ->
         unwrap true data = JStr data).
Proof.
  split; [|split; [|split]].
  - intros Rand sjcl_encrypt req cookies. eexists. split; [reflexivity|].
    unfold encryptedBackup, EnhancedFeatures.compressData.
    replace (if enhancedFeatures req then serialize cookies
             else serialize cookies)
      with (serialize cookies) by now destruct (enhancedFeatures req).
    apply parse_wrap.
  - intros enhanced data members payload Hparse Hv Hp Ht. split.
    + intros Hskip. unfold unwrap.
      rewrite (unwrap_recognised enhanced data members payload Hparse Hv Hp Ht).
      now rewrite Hskip.
    + intros checksum Hc Hsum. unfold unwrap.
      rewrite (unwrap_recognised enhanced data members payload Hparse Hv Hp Ht).
      rewrite Hc, Hsum. cbn [bind Json.strict_neq_str].
      rewrite String.eqb_refl. cbn [negb].
      now destruct (Json.truthy (Some (JStr checksum)) && enhanced).
  - apply unwrap_unrecognised.
  - intros data members payload error Hparse Hv Hp Ht Hc Hsum. unfold unwrap.
    rewrite (unwrap_recognised true data members payload Hparse Hv Hp Ht).
    now rewrite Hc, Hsum.
Qed.

(** The claim C3 as it is worded fails on the name of the version member:
    the producer writes [v], not [version], and the consumer reads a text
    with the members [version], [payload] and [checksum] as a legacy cipher
    text. *)
Lemma envelope_format_counterexample :
  let written := wrap true "ct" in
  let data :=
    JSON_stringify
      (JObj [("version", JNum 1); ("payload", JStr "abc");
             ("checksum", JNull)]) in
  Json.prop written "version" = Some None
  /\ Json.prop written "v" = Some (Some (JNum 1))
  /\ JSON_parse data
     = Some (JObj [("version", JNum 1); ("payload", JStr "abc");
                   ("checksum", JNull)])
  /\ unwrap true data = JStr data
  /\ unwrap true data <> JStr "abc".
Proof.
  vm_compute. repeat split; try reflexivity; discriminate.
Qed.

Lemma envelope_format_witness :
  let data :=
    JSON_stringify
      (JObj [("v", JNum 1); ("payload", JStr "abc"); ("checksum", JStr "17862")]) in
  unwrap true data = JStr "abc"
  /\ unwrap true "not an envelope" = JStr "not an envelope".
Proof.
  intros data. split.
  - exact (proj2 (proj1 (proj2 envelope_format) true data
                    [("v", JNum 1); ("payload", JStr "abc");
                     ("checksum", JStr "17862")]
                    (JStr "abc") eq_refl eq_refl eq_refl eq_refl)
             "17862" eq_refl eq_refl).
  - apply (proj1 (proj2 (proj2 envelope_format)) true "not an envelope").
    intros members payload (Hparse & _). discriminate Hparse.
Defined.

(** ** What the producers write *)

Lemma emitted_app (l1 l2 : list Event) :
  emitted (l1 ++ l2) = (emitted l1 ++ emitted l2)%list.
Proof.
  induction l1 as [|e l1 IH]; [reflexivity|].
  destruct e; simpl; now rewrite ?IH.
Qed.

Lemma popup_emits_envelopes {Rand : Type}
    (sjcl_encrypt : Rand -> string -> string -> SjclParams -> string)
    (req : BackupRequest) (data : string) :
  In data (emitted (handleEncPasswdSubmit sjcl_encrypt req)) ->
  data
  = encryptedBackup sjcl_encrypt req
      (filter (cookieFilter (selectedDomainsForBackup req)) (allCookies req)).
Proof.
  unfold handleEncPasswdSubmit.
  destruct (alsoSendTelegram req && negb (telegramAvailable req));
    [intros []|].
  destruct (String.length (encPasswd req) <? 4)%nat; [intros []|].
  destruct (negb (chromeCookies req)); [intros []|].
  destruct (filter (cookieFilter (selectedDomainsForBackup req))
              (allCookies req)) as [|c cookies]; [intros []|].
  rewrite !emitted_app.
  destruct (sendToTelegram req), (enhancedFeatures req); simpl;
    intuition congruence.
Qed.

Lemma manual_emits_ciphertext {Rand : Type}
    (sjcl_encrypt : Rand -> string -> string -> SjclParams -> string)
    (req : ManualBackupRequest) (data : string) :
  In data (emitted (manualCookieBackup sjcl_encrypt req)) ->
  exists password,
    m_password req = Some password
    /\ data
       = sjcl_encrypt (m_salt req) password (serialize (m_cookies req)) None.
Proof.
  unfold manualCookieBackup, manualBackupData.
  destruct (m_password req) as [password|]; [|intros []].
  destruct (truthy_string (Some password)); [|intros []].
  destruct (m_cookies req) as [|c cookies] eqn:Hcookies; [intros []|].
  cbn [negb to_text].
  intros Hin. exists password. split; [reflexivity|].
  destruct (m_downloadError req), (m_alsoSendTelegram req); simpl in Hin;
    intuition congruence.
Qed.

(** C7 (as amended).  The legacy shape is accepted on read: a text that does
    not parse, or that parses to an object without a payload, is handed to
    the cipher whole.  On write, every text that [handleEncPasswdSubmit]
    saves to a file or pushes to the messaging collaborator is the enveloped
    text, whereas every text that [manualCookieBackup] saves or pushes is the
    bare cipher text of the serialized snapshot. *)
Theorem legacy_shape_read_and_written :
  (forall (sjcl_decrypt : string -> json -> completion string)
          (enhanced : bool) (pass data : string),
      (JSON_parse data = None
       \/ exists members,
           JSON_parse data = Some (JObj members)
           /\ Json.lookup "payload" members = None) ->
      unwrap enhanced data = JStr data
      /\ decodeBackup sjcl_decrypt enhanced pass data
         = decodeCiphertext sjcl_decrypt enhanced pass (JStr data))
  /\ (forall (Rand : Type)
             (sjcl_encrypt : Rand -> string -> string -> SjclParams -> string)
             (req : BackupRequest) (data : string),
         In data (emitted (handleEncPasswdSubmit sjcl_encrypt req)) ->
         exists cipherText,
           data = JSON_stringify (wrap (enhancedFeatures req) cipherText)
           /\ JSON_parse data = Some (wrap (enhancedFeatures req) cipherText))
  /\ (forall (Rand : Type)
             (sjcl_encrypt : Rand -> string -> string -> SjclParams -> string)
             (req : ManualBackupRequest) (data : string),
         In data (emitted (manualCookieBackup sjcl_encrypt req)) ->
         exists password,
           m_password req = Some password
           /\ data
              = sjcl_encrypt (m_salt req) password
                  (serialize (m_cookies req)) None).
Proof.
  split; [|split].
  - intros sjcl_decrypt enhanced pass data Hshape.
    assert (Hun : unwrap enhanced data = JStr data).
    { apply unwrap_unrecognised. intros members payload (Hp & _ & Hpl & _).
      destruct Hshape as [Hnone|(members' & Hp' & Hno)]; [congruence|].
      rewrite Hp in Hp'. injection Hp' as <-. congruence. }
    split; [exact Hun|]. unfold decodeBackup. now rewrite Hun.
  - intros Rand sjcl_encrypt req data Hin.
    apply popup_emits_envelopes in Hin. subst data.
    eexists. split.
    + unfold encryptedBackup. reflexivity.
    + apply parse_wrap.
  - intros Rand sjcl_encrypt req data.
    apply manual_emits_ciphertext.
Qed.

(** The claim C7 as it is worded fails on [manualCookieBackup]: with the
    sample cipher, the text that it saves and pushes is a bare cipher text,
    which is not the text of any envelope and which the restore consumer
    reads as a legacy file. *)
Lemma legacy_write_counterexample :
  let req :=
    {| m_profileName := "work"; m_password := Some "hunter2";
       m_cookies := [Samples.session_cookie "sid" ".example.org"];
       m_timestamp := "01-11-2026-10-00-00"; m_downloadError := None;
       m_alsoSendTelegram := true; m_salt := "c2FsdA==" |} in
  let data :=
    Samples.sjcl_like_encrypt "c2FsdA==" "hunter2"
      (serialize [Samples.session_cookie "sid" ".example.org"]) None in
  emitted (manualCookieBackup Samples.sjcl_like_encrypt req) = [data; data]
  /\ (forall enhanced cipherText,
         data <> JSON_stringify (wrap enhanced cipherText))
  /\ unwrap true data = JStr data.
Proof.
  intros req data. split; [reflexivity|split].
  - intros enhanced cipherText Heq.
    apply (f_equal JSON_parse) in Heq. rewrite parse_wrap in Heq.
    subst data. unfold Samples.sjcl_like_encrypt in Heq.
    rewrite JsonFacts.parse_stringify in Heq.
    + discriminate Heq.
    + constructor.
      * cbn [map fst].
        repeat (constructor; [cbn [In]; intuition discriminate|]). constructor.
      * JsonFacts.plain_keys.
      * repeat constructor.
  - vm_compute. reflexivity.
Qed.

Lemma legacy_shape_read_and_written_witness :
  let data :=
    Samples.sjcl_like_encrypt "c2FsdA==" "hunter2"
      (serialize [Samples.session_cookie "sid" ".example.org"]) None in
  unwrap true data = JStr data
  /\ decodeBackup Samples.sjcl_like_decrypt true "hunter2" data
     = decodeCiphertext Samples.sjcl_like_decrypt true "hunter2" (JStr data).
Proof.
  intros data.
  apply (proj1 legacy_shape_read_and_written).
  right. eexists. split; [vm_compute; reflexivity|reflexivity].
Defined.

Module ChecksumMore.
Import Int32Facts.

Lemma loop_app a b :
  forall hash,
    EnhancedFeatures.loop (a ++ b) hash
    = EnhancedFeatures.loop b (EnhancedFeatures.loop a hash).
Proof.
  induction a as [|c a IH]; intros hash; simpl; [reflexivity|apply IH].
Qed.

Lemma horner_mod units :
  forall x y,
    x mod 2 ^ 32 = y mod 2 ^ 32 ->
    (horner units x) mod 2 ^ 32 = (horner units y) mod 2 ^ 32.
Proof.
  unfold horner.
  induction units as [|c units IH]; intros x y H; simpl; [exact H|].
  apply IH.
  rewrite (Z.add_mod (31 * x)), (Z.add_mod (31 * y)) by lia.
  rewrite (Z.mul_mod 31 x), (Z.mul_mod 31 y), H by lia. reflexivity.
Qed.

Lemma loop_horner units :
  forall hash,
    Int32.toInt32 (EnhancedFeatures.loop units hash)
    = Int32.toInt32 (horner units hash).
Proof.
  induction units as [|c units IH]; intros hash; simpl; [reflexivity|].
  rewrite IH, ChecksumFacts.step_rolling.
  apply toInt32_eqm, horner_mod, toInt32_mod.
Qed.

Lemma digit_hex_value d :
  0 <= d <= 15 -> Json.hex_value (Radix16.digit d) = Some d.
Proof.
  intros H.
  assert (Hc : d = 0 \/ d = 1 \/ d = 2 \/ d = 3 \/ d = 4 \/ d = 5 \/ d = 6
               \/ d = 7 \/ d = 8 \/ d = 9 \/ d = 10 \/ d = 11 \/ d = 12
               \/ d = 13 \/ d = 14 \/ d = 15) by lia.
  repeat (destruct Hc as [->|Hc]; [reflexivity|]). now subst.
Qed.

Lemma read_hex_digits fuel :
  forall n acc,
    0 <= n < 16 ^ Z.of_nat (S fuel) ->
    read_hex (Radix16.digits fuel n acc) 0 = read_hex acc n.
Proof.
  induction fuel as [|fuel IH]; intros n acc Hn.
  - change (16 ^ Z.of_nat 1) with 16 in Hn.
    cbn [Radix16.digits read_hex]. rewrite Z.mod_small by lia.
    now rewrite digit_hex_value by lia.
  - cbn [Radix16.digits]. destruct (Z.ltb_spec n 16) as [Hlt|Hge].
    + cbn [read_hex]. now rewrite digit_hex_value by lia.
    + assert (Hpow : 16 ^ Z.of_nat (S (S fuel)) = 16 * 16 ^ Z.of_nat (S fuel)).
      { rewrite (Nat2Z.inj_succ (S fuel)), Z.pow_succ_r by lia. reflexivity. }
      rewrite IH.
      * cbn [read_hex].
        rewrite digit_hex_value
          by (pose proof (Z.mod_pos_bound n 16 ltac:(lia)); lia).
        f_equal. pose proof (Z.div_mod n 16 ltac:(lia)). lia.
      * split.
        -- apply Z.div_pos; lia.
        -- apply Z.div_lt_upper_bound; lia.
Qed.

Lemma read_hex_of_nonneg n :
  0 <= n -> read_hex (Radix16.of_nonneg n) 0 = Some n.
Proof.
  intros Hn. unfold Radix16.of_nonneg. rewrite read_hex_digits; [reflexivity|].
  split; [exact Hn|].
  destruct (Z.eq_dec n 0) as [->|Hnz]; [reflexivity|].
  pose proof (Z.log2_nonneg n) as Hl.
  rewrite Nat2Z.inj_succ, Z2Nat.id by assumption.
  pose proof (Z.log2_spec n ltac:(lia)) as [_ Hup].
  eapply Z.lt_le_trans; [exact Hup|].
  apply Z.pow_le_mono_l. lia.
Qed.

Lemma toString16_injective a b :
  Radix16.toString16 a = Radix16.toString16 b -> a = b.
Proof.
  unfold Radix16.toString16.
  destruct (Z.ltb_spec a 0) as [Ha|Ha], (Z.ltb_spec b 0) as [Hb|Hb]; intros H.
  - injection H as H. apply (f_equal (fun s => read_hex s 0)) in H.
    rewrite !read_hex_of_nonneg in H by lia. injection H as H. lia.
  - apply (f_equal (fun s => read_hex s 0)) in H.
    rewrite (read_hex_of_nonneg b) in H by lia. discriminate H.
  - apply (f_equal (fun s => read_hex s 0)) in H.
    rewrite (read_hex_of_nonneg a) in H by lia. discriminate H.
  - apply (f_equal (fun s => read_hex s 0)) in H.
    rewrite !read_hex_of_nonneg in H by lia. now injection H.
Qed.

End ChecksumMore.

(** X1. The checksum of [calculateChecksum] is the hexadecimal text of
    Horner's rule in base 31 over the code units, folded into a signed
    32-bit integer once at the end: the folding at every step of the loop
    changes nothing.  The text determines that integer: two inputs have the
    same checksum exactly when their base-31 sums agree modulo 2^32. *)
Theorem checksum_is_polynomial_hash :
  forall units : list Z,
    EnhancedFeatures.calculateChecksum_units units
    = Radix16.toString16 (Int32.toInt32 (horner units 0))
    /\ (forall units',
           EnhancedFeatures.calculateChecksum_units units
           = EnhancedFeatures.calculateChecksum_units units'
           <-> (horner units 0) mod 2 ^ 32 = (horner units' 0) mod 2 ^ 32).
Proof.
  intros units.
  assert (Hform : forall u,
             EnhancedFeatures.loop u 0 = Int32.toInt32 (horner u 0)).
  { intros u. rewrite <- ChecksumMore.loop_horner.
    symmetry. apply Int32Facts.toInt32_small.
    apply ChecksumFacts.loop_range. unfold Int32.in_range. lia. }
  split.
  - unfold EnhancedFeatures.calculateChecksum_units. now rewrite Hform.
  - intros units'. unfold EnhancedFeatures.calculateChecksum_units.
    rewrite !Hform. split.
    + intros H. apply ChecksumMore.toString16_injective in H.
      rewrite <- (Int32Facts.toInt32_mod (horner units 0)),
        <- (Int32Facts.toInt32_mod (horner units' 0)).
      now rewrite H.
    + intros H. f_equal. now apply Int32Facts.toInt32_eqm.
Qed.

(** Two adjacent code units can be traded for two others of the same
    weight without any effect on the checksum. *)
Lemma collision_on_units :
  forall (before after : list Z) (a b c d : Z),
    31 * a + b = 31 * c + d ->
    EnhancedFeatures.calculateChecksum_units (before ++ [a; b] ++ after)
    = EnhancedFeatures.calculateChecksum_units (before ++ [c; d] ++ after).
Proof.
  intros before after a b c d Heq.
  unfold EnhancedFeatures.calculateChecksum_units. f_equal.
  rewrite !ChecksumMore.loop_app. f_equal.
  cbn [EnhancedFeatures.loop]. rewrite !ChecksumFacts.step_rolling.
  apply Int32Facts.toInt32_eqm.
  rewrite (Z.add_mod (31 * _) b), (Z.add_mod (31 * _) d) by lia.
  rewrite (Z.mul_mod 31 (Int32.toInt32 _)) by lia.
  rewrite (Z.mul_mod 31 (Int32.toInt32 (31 * _ + c))) by lia.
  rewrite !Int32Facts.toInt32_mod.
  rewrite <- !Z.mul_mod, <- !Z.add_mod by lia.
  f_equal. lia.
Qed.

Lemma charCodes_app (a b : string) :
  charCodes (a ++ b) = (charCodes a ++ charCodes b)%list.
Proof.
  unfold charCodes. induction a as [|c a IH]; [reflexivity|].
  cbn [append list_ascii_of_string map app]. now rewrite IH.
Qed.

(** X2. The integrity check lets an altered payload through.  Two texts
    that differ in two adjacent characters, [a b] in one and [c d] in the
    other with 31 * a + b = 31 * c + d for their code units, have the same
    checksum, whatever comes before and after: [verifyChecksum] accepts the
    one for the other, and the restore consumer takes the altered payload of
    an envelope that still carries the checksum of the original. *)
Theorem checksum_collisions :
  forall (before after : string) (a b c d : ascii),
    31 * Json.code a + Json.code b = 31 * Json.code c + Json.code d ->
    let original := before ++ String a (String b after) in
    let altered := before ++ String c (String d after) in
    EnhancedFeatures.verifyChecksum altered
      (EnhancedFeatures.calculateChecksum original) = true
    /\ unwrap true
         (JSON_stringify
            (JObj [("v", JNum 1); ("payload", JStr altered);
                   ("checksum",
                     JStr (EnhancedFeatures.calculateChecksum original))]))
       = JStr altered.
Proof.
  intros before after a b c d Heq original altered.
  assert (Hsame : EnhancedFeatures.calculateChecksum altered
                  = EnhancedFeatures.calculateChecksum original).
  { subst original altered. unfold EnhancedFeatures.calculateChecksum.
    rewrite !charCodes_app.
    change (charCodes (String c (String d after)))
      with ([Json.code c; Json.code d] ++ charCodes after)%list.
    change (charCodes (String a (String b after)))
      with ([Json.code a; Json.code b] ++ charCodes after)%list.
    symmetry. now apply collision_on_units. }
  split.
  - unfold EnhancedFeatures.verifyChecksum. rewrite Hsame.
    apply String.eqb_refl.
  - unfold unwrap.
    rewrite (unwrap_recognised true _
               [("v", JNum 1); ("payload", JStr altered);
                ("checksum",
                  JStr (EnhancedFeatures.calculateChecksum original))]
               (JStr altered)).
    + change (Json.lookup "checksum" _)
        with (Some (JStr (EnhancedFeatures.calculateChecksum original))).
      cbn [calculateChecksum_value bind Json.strict_neq_str].
      rewrite Hsame, String.eqb_refl. cbn [negb].
      now destruct (Json.truthy _ && true).
    + apply JsonFacts.parse_stringify. constructor.
      * cbn [map fst].
        repeat (constructor; [cbn [In]; intuition discriminate|]).
        constructor.
      * JsonFacts.plain_keys.
      * repeat constructor.
    + reflexivity.
    + reflexivity.
    + cbn [Json.truthy]. apply negb_true_iff, String.eqb_neq.
      subst altered. destruct before; discriminate.
Qed.

Lemma checksum_collisions_witness :
  EnhancedFeatures.verifyChecksum "payload-BB-1"
    (EnhancedFeatures.calculateChecksum "payload-Aa-1") = true
  /\ unwrap true
       (JSON_stringify
          (JObj [("v", JNum 1); ("payload", JStr "payload-BB-1");
                 ("checksum",
                   JStr (EnhancedFeatures.calculateChecksum "payload-Aa-1"))]))
     = JStr "payload-BB-1".
Proof.
  exact (checksum_collisions "payload-" "-1" "A" "a" "B" "B" eq_refl).
Defined.

Section ProducerFacts.
Context {Rand : Type}.
Variable sjcl_encrypt : Rand -> string -> string -> SjclParams -> string.

Lemma producer_refuses (req : BackupRequest) :
  backupProceeds req = false ->
  handleEncPasswdSubmit sjcl_encrypt req = [ShowUpgradeModal]
  \/ exists message, handleEncPasswdSubmit sjcl_encrypt req = [Alert message].
Proof.
  unfold backupProceeds, handleEncPasswdSubmit.
  destruct (alsoSendTelegram req && negb (telegramAvailable req));
    [now left|].
  destruct (Nat.ltb_spec (String.length (encPasswd req)) 4) as [Hlt|Hge].
  { intros _. right. eexists. reflexivity. }
  replace (4 <=? String.length (encPasswd req))%nat with true
    by (symmetry; apply Nat.leb_le, Hge).
  destruct (chromeCookies req); cbn [negb andb].
  2: { intros _. right. eexists. reflexivity. }
  destruct (filter (cookieFilter (selectedDomainsForBackup req))
              (allCookies req)).
  - intros _. right. eexists. reflexivity.
  - discriminate.
Qed.

Lemma producer_runs (req : BackupRequest) :
  backupProceeds req = true ->
  let cookies :=
    filter (cookieFilter (selectedDomainsForBackup req)) (allCookies req) in
  let data := encryptedBackup sjcl_encrypt req cookies in
  let filename :=
    ckzFilename (sanitizeProfileName (profileInput req)) (localeDate req)
      (localeTime req) in
  handleEncPasswdSubmit sjcl_encrypt req
  = ([DownloadJson data filename]
     ++ (if sendToTelegram req then [SendBackupToTelegram data filename]
         else [])
     ++ [BackupSuccessAlert (List.length cookies)]
     ++ (if enhancedFeatures req then
           [AddToBackupHistory
              {| arg_type :=
                   Some (match selectedDomainsForBackup req with
                         | Some _ => "selective"
                         | None => "all"
                         end);
                 arg_cookieCount := Some (Z.of_nat (List.length cookies));
                 arg_size := Some (Z.of_nat (String.length data));
                 arg_filename := Some filename;
                 arg_encrypted := Some true |}]
         else []))%list.
Proof.
  unfold backupProceeds, handleEncPasswdSubmit.
  destruct (alsoSendTelegram req && negb (telegramAvailable req));
    [discriminate|].
  destruct (Nat.ltb_spec (String.length (encPasswd req)) 4) as [Hlt|Hge].
  { replace (4 <=? String.length (encPasswd req))%nat with false
      by (symmetry; apply Nat.leb_gt, Hlt). discriminate. }
  destruct (chromeCookies req); cbn [negb andb];
    [|rewrite andb_false_r; discriminate].
  destruct (filter (cookieFilter (selectedDomainsForBackup req))
              (allCookies req)) eqn:Hf.
  - rewrite andb_false_r. discriminate.
  - intros _. reflexivity.
Qed.

End ProducerFacts.

Lemma backupAlerts_app (l1 l2 : list Event) :
  backupAlerts (l1 ++ l2) = (backupAlerts l1 ++ backupAlerts l2)%list.
Proof.
  induction l1 as [|e l1 IH]; [reflexivity|].
  destruct e; simpl; now rewrite ?IH.
Qed.

Lemma historyArgs_app (l1 l2 : list Event) :
  historyArgs (l1 ++ l2) = (historyArgs l1 ++ historyArgs l2)%list.
Proof.
  induction l1 as [|e l1 IH]; [reflexivity|].
  destruct e; simpl; now rewrite ?IH.
Qed.

Lemma backupProceeds_spec {Rand : Type} (req : @BackupRequest Rand) :
  backupProceeds req = true
  <-> (alsoSendTelegram req && negb (telegramAvailable req) = false
       /\ (4 <= String.length (encPasswd req))%nat
       /\ chromeCookies req = true
       /\ filter (cookieFilter (selectedDomainsForBackup req)) (allCookies req)
          <> []).
Proof.
  unfold backupProceeds.
  rewrite !andb_true_iff, negb_true_iff, Nat.leb_le.
  destruct (filter (cookieFilter (selectedDomainsForBackup req))
              (allCookies req)); intuition congruence.
Qed.

(** X3. A backup is written exactly when the Telegram gate lets the
    request through, the password has at least four characters, the cookie
    interface exists and at least one cookie passes the selection.  In every
    other case the handler shows one notice and does nothing else: no file,
    no push, no success alert, no history entry. *)
Theorem backup_written_iff :
  forall (Rand : Type)
         (sjcl_encrypt : Rand -> string -> string -> SjclParams -> string)
         (req : BackupRequest),
    let trace := handleEncPasswdSubmit sjcl_encrypt req in
    (emitted trace <> []
     <-> (alsoSendTelegram req && negb (telegramAvailable req) = false
          /\ (4 <= String.length (encPasswd req))%nat
          /\ chromeCookies req = true
          /\ filter (cookieFilter (selectedDomainsForBackup req))
               (allCookies req) <> []))
    /\ (emitted trace = [] ->
        (trace = [ShowUpgradeModal] \/ exists message, trace = [Alert message])
        /\ backupAlerts trace = [] /\ historyArgs trace = []).
Proof.
  intros Rand sjcl_encrypt req trace.
  rewrite <- backupProceeds_spec.
  destruct (backupProceeds req) eqn:Hp.
  - pose proof (producer_runs sjcl_encrypt req Hp) as Hrun.
    cbv zeta in Hrun. subst trace. rewrite Hrun.
    split; [split; [reflexivity|discriminate]|].
    cbn [app emitted]. discriminate.
  - assert (Hshape : trace = [ShowUpgradeModal]
                     \/ exists message, trace = [Alert message])
      by (apply producer_refuses, Hp).
    split.
    + split; [|discriminate].
      intros Hne. exfalso. apply Hne.
      destruct Hshape as [->|[m ->]]; reflexivity.
    + intros _. split; [exact Hshape|].
      destruct Hshape as [->|[m ->]]; split; reflexivity.
Qed.

Lemma backup_written_iff_witness :
  let req :=
    {| alsoSendTelegram := false; telegramAvailable := true;
       encPasswd := "abc"; chromeCookies := true;
       enhancedFeatures := true; selectedDomainsForBackup := None;
       allCookies := [Samples.session_cookie "sid" ".example.org"];
       profileInput := "work";
       localeDate := "01-11-2026"; localeTime := "10-00-00";
       sendToTelegram := true; salt := "c2FsdA==" |} in
  let trace := handleEncPasswdSubmit Samples.sjcl_like_encrypt req in
  emitted trace = []
  /\ (trace = [ShowUpgradeModal] \/ exists message, trace = [Alert message])
  /\ backupAlerts trace = [] /\ historyArgs trace = [].
Proof.
  intros req trace. split; [reflexivity|].
  exact (proj2 (backup_written_iff string Samples.sjcl_like_encrypt req)
           eq_refl).
Defined.

(** X4. What a backup announces is what it wrote.  When the handler writes
    a file, the text pushed to Telegram (if any) is the text of the file, and
    for a cipher whose decryption undoes its encryption the number of the
    success alert, and the cookie count of the history entry, is the number
    of records that the restore consumer decodes from that file with the
    same password; the recorded size is the length of the text. *)
Theorem backup_count_matches_file :
  forall (Rand : Type)
         (sjcl_encrypt : Rand -> string -> string -> SjclParams -> string)
         (sjcl_decrypt : string -> json -> completion string),
    (forall r password plaintext params,
        sjcl_decrypt password (JStr (sjcl_encrypt r password plaintext params))
        = Normal plaintext) ->
    (forall r password plaintext params,
        sjcl_encrypt r password plaintext params <> EmptyString) ->
    forall (req : BackupRequest) (enhanced : bool) (data : string),
      Forall Cookie.hasRequired (allCookies req) ->
      let trace := handleEncPasswdSubmit sjcl_encrypt req in
      In data (emitted trace) ->
      exists items,
        decodeBackup sjcl_decrypt enhanced (encPasswd req) data = Normal items
        /\ (forall data', In data' (emitted trace) -> data' = data)
        /\ backupAlerts trace = [List.length items]
        /\ (forall entry,
               In entry (historyArgs trace) ->
               arg_cookieCount entry = Some (Z.of_nat (List.length items))
               /\ arg_size entry = Some (Z.of_nat (String.length data))).
Proof.
  intros Rand sjcl_encrypt sjcl_decrypt Hdec Hne req enhanced data Hreq trace
    Hin.
  destruct (backupProceeds req) eqn:Hp.
  2: { exfalso.
       destruct (producer_refuses sjcl_encrypt req Hp) as [H|[m H]];
         subst trace; rewrite H in Hin; exact Hin. }
  pose proof (producer_runs sjcl_encrypt req Hp) as Hrun. cbv zeta in Hrun.
  set (cookies := filter (cookieFilter (selectedDomainsForBackup req))
                    (allCookies req)) in *.
  set (text := encryptedBackup sjcl_encrypt req cookies) in *.
  assert (Hall : forall d, In d (emitted trace) -> d = text).
  { intros d Hd. subst trace. rewrite Hrun in Hd.
    destruct (sendToTelegram req), (enhancedFeatures req);
      cbn [app emitted In] in Hd; intuition congruence. }
  assert (Hdata : data = text) by auto.
  assert (Hreq' : Forall Cookie.hasRequired cookies).
  { apply Forall_forall. intros c Hc. apply filter_In in Hc.
    rewrite Forall_forall in Hreq. apply Hreq, Hc. }
  exists (map Cookie.toJson cookies). split; [|split; [|split]].
  - rewrite Hdata. unfold decodeBackup. subst text. unfold encryptedBackup.
    rewrite unwrap_wrap by apply Hne.
    replace (if enhancedFeatures req
             then EnhancedFeatures.compressData (serialize cookies)
             else serialize cookies)
      with (serialize cookies) by now destruct (enhancedFeatures req).
    now apply decode_own_ciphertext.
  - intros d Hd. rewrite Hdata. auto.
  - subst trace. rewrite Hrun, length_map.
    destruct (sendToTelegram req), (enhancedFeatures req); reflexivity.
  - intros entry He. subst trace. rewrite Hrun in He.
    rewrite length_map, Hdata.
    destruct (sendToTelegram req), (enhancedFeatures req);
      cbn [app historyArgs In] in He; try contradiction;
      destruct He as [<-|[]]; split; reflexivity.
Qed.

Lemma backup_count_matches_file_witness :
  let snapshot :=
    [Samples.session_cookie "sid" ".example.org";
     Samples.dated_cookie "theme" "shop.example"
       (Num.Dec 180000000012345 Num.D6 5)] in
  let req :=
    {| alsoSendTelegram := true; telegramAvailable := true;
       encPasswd := "hunter2"; chromeCookies := true;
       enhancedFeatures := true; selectedDomainsForBackup := None;
       allCookies := snapshot; profileInput := "work";
       localeDate := "01-11-2026"; localeTime := "10-00-00";
       sendToTelegram := true; salt := "c2FsdA==" |} in
  let data := encryptedBackup Samples.sjcl_like_encrypt req snapshot in
  let trace := handleEncPasswdSubmit Samples.sjcl_like_encrypt req in
  exists items,
    decodeBackup Samples.sjcl_like_decrypt true "hunter2" data = Normal items
    /\ (forall data', In data' (emitted trace) -> data' = data)
    /\ backupAlerts trace = [List.length items]
    /\ (forall entry,
           In entry (historyArgs trace) ->
           arg_cookieCount entry = Some (Z.of_nat (List.length items))
           /\ arg_size entry = Some (Z.of_nat (String.length data))).
Proof.
  intros snapshot req data trace.
  refine (backup_count_matches_file string Samples.sjcl_like_encrypt
            Samples.sjcl_like_decrypt SampleFacts.decrypt_encrypt
            SampleFacts.encrypt_not_empty req true data _ _).
  - repeat constructor; discriminate.
  - left. reflexivity.
Defined.

(** ** The profile name in the file name *)

Module ProfileNameFacts.

Lemma substring_prefix n :
  forall s, exists rest, s = substring 0 n s ++ rest.
Proof.
  induction n as [|n IH]; intros s.
  - exists s. now destruct s.
  - destruct s as [|c s]; [now exists EmptyString|].
    destruct (IH s) as [rest Hrest]. exists rest.
    cbn [substring append]. now rewrite <- Hrest.
Qed.

Lemma substring_length n :
  forall s, (String.length (substring 0 n s) <= n)%nat.
Proof.
  induction n as [|n IH]; intros s.
  - destruct s; simpl; lia.
  - destruct s as [|c s]; simpl; [lia|]. specialize (IH s). lia.
Qed.

Lemma substring_whole n :
  forall s, (String.length s <= n)%nat -> substring 0 n s = s.
Proof.
  induction n as [|n IH]; intros s Hs.
  - destruct s; [reflexivity|simpl in Hs; lia].
  - destruct s as [|c s]; [reflexivity|].
    simpl in *. rewrite IH by lia. reflexivity.
Qed.

Lemma substring_chars n :
  forall s c,
    In c (list_ascii_of_string (substring 0 n s)) ->
    In c (list_ascii_of_string s).
Proof.
  induction n as [|n IH]; intros s c Hin.
  - destruct s; simpl in Hin; contradiction.
  - destruct s as [|a s]; [exact Hin|].
    simpl in *. destruct Hin as [->|Hin]; auto.
Qed.

Lemma remove_chars_clean s c :
  In c (list_ascii_of_string (remove_chars s)) ->
  forbidden_in_profile c = false.
Proof.
  induction s as [|a s IH]; simpl; [contradiction|].
  destruct (forbidden_in_profile a) eqn:Ha; [exact IH|].
  simpl. intros [<-|Hin]; auto.
Qed.

Lemma remove_chars_fixed s :
  (forall c, In c (list_ascii_of_string s) -> forbidden_in_profile c = false) ->
  remove_chars s = s.
Proof.
  induction s as [|a s IH]; intros H; [reflexivity|].
  simpl. rewrite (H a) by (left; reflexivity).
  f_equal. apply IH. intros c Hc. apply H. now right.
Qed.

End ProfileNameFacts.

(** X5. The profile name that goes into the file name has at most 30
    characters and contains no angle bracket, no quote of either kind and
    no ampersand, whatever the user typed; cleaning a cleaned name changes nothing. *)
Theorem profile_name_is_clean :
  forall s : string,
    (String.length (sanitizeProfileName s) <= 30)%nat
    /\ (forall c,
           In c (list_ascii_of_string (sanitizeProfileName s)) ->
           forbidden_in_profile c = false)
    /\ sanitizeProfileName (sanitizeProfileName s) = sanitizeProfileName s.
Proof.
  intros s. unfold sanitizeProfileName.
  assert (Hclean : forall c,
             In c (list_ascii_of_string (substring 0 30 (remove_chars s))) ->
             forbidden_in_profile c = false).
  { intros c Hc. apply (ProfileNameFacts.remove_chars_clean s).
    now apply ProfileNameFacts.substring_chars in Hc. }
  split; [apply ProfileNameFacts.substring_length|split; [exact Hclean|]].
  rewrite (ProfileNameFacts.remove_chars_fixed _ Hclean).
  apply ProfileNameFacts.substring_whole, ProfileNameFacts.substring_length.
Qed.

(** ** More on the replay of [handleDecPasswdSubmit] *)





Lemma alerts_app (l1 l2 : list Event) :
  alerts (l1 ++ l2) = (alerts l1 ++ alerts l2)%list.
Proof.
  induction l1 as [|e l1 IH]; [reflexivity|].
  destruct e; simpl; now rewrite ?IH.
Qed.

Lemma removeCalls_app (l1 l2 : list Event) :
  removeCalls (l1 ++ l2) = (removeCalls l1 ++ removeCalls l2)%list.
Proof.
  induction l1 as [|e l1 IH]; [reflexivity|].
  destruct e; simpl; now rewrite ?IH.
Qed.

Section ReplayTally.

Context {Browser : Type}.
Variable cookies_set : Browser -> Cookie.t -> Browser * option string.


End ReplayTally.



(** ** The notices of a failed decryption *)

Lemma checkRequired_errors firstCookie fields error :
  checkRequired firstCookie fields = Throw error ->
  error = TypeError
  \/ exists field,
      error = JsError ("Invalid cookie data structure - missing required field: "
                       ++ field).
Proof.
  induction fields as [|field rest IH]; cbn [checkRequired];
    [discriminate|].
  destruct (Json.hasOwnProperty firstCookie field) as [[|]|];
    cbn [of_option bind].
  - exact IH.
  - intros [= <-]. right. now exists field.
  - intros [= <-]. now left.
Qed.

Section NoticeFacts.

Variable sjcl_decrypt : string -> json -> completion string.

Lemma decodeCiphertext_errors enhanced pass encryptedData error :
  decodeCiphertext sjcl_decrypt enhanced pass encryptedData = Throw error ->
  sjcl_decrypt pass encryptedData = Throw error
  \/ decryptionAlert error = "Unknown error during decryption!".
Proof.
  unfold decodeCiphertext.
  destruct (sjcl_decrypt pass encryptedData) as [decrypted|e];
    cbn [bind]; [|intros [= ->]; now left].
  intros H. right.
  destruct (JSON_parse _) as [cookies|]; cbn [of_option bind] in H.
  2: { injection H as <-. reflexivity. }
  destruct (Json.isArray cookies) as [[|firstCookie items]|].
  - discriminate H.
  - destruct (checkRequired firstCookie requiredFields) as [[]|e] eqn:Hc;
      cbn [bind] in H; [discriminate H|].
    injection H as <-.
    apply checkRequired_errors in Hc. destruct Hc as [->|[field ->]];
      reflexivity.
  - injection H as <-. reflexivity.
Qed.

End NoticeFacts.

(** X7. A restore that does not get to the replay shows exactly one
    notice and leaves the cookie store as it was.  As long as the cipher
    library raises nothing but its own two exceptions or a type error, the
    notice is the prompt for a password, the wrong-password notice, the
    invalid-file notice or the unknown-error notice: the notices about
    invalid cookies and about a failed integrity check are never shown,
    whatever the file holds. *)
Theorem restore_notices :
  forall (sjcl_decrypt : string -> json -> completion string)
         (Browser : Type)
         (cookies_set : Browser -> Cookie.t -> Browser * option string),
    (forall pass encryptedData message,
        sjcl_decrypt pass encryptedData <> Throw (JsError message)) ->
    forall (enhanced : bool) (pass data : string) (epoch : Num.t)
           (browser browser' : Browser) (events : list Event) (text : string),
      handleDecPasswdSubmit sjcl_decrypt cookies_set enhanced pass data epoch
        browser = Some (events, browser') ->
      In text (alerts events) ->
      events = [Alert text]
      /\ browser' = browser
      /\ In text ("Please enter a password to decrypt the backup."
                  :: decryptionNotices).
Proof.
  intros sjcl_decrypt Browser cookies_set Hsjcl enhanced pass data epoch
    browser browser' events text Hrun Hin.
  unfold handleDecPasswdSubmit in Hrun.
  destruct (String.length pass <? 1)%nat.
  { injection Hrun as <- <-. destruct Hin as [<-|[]].
    repeat split. now left. }
  destruct (decodeBackup sjcl_decrypt enhanced pass data) as [items|error]
    eqn:Hdecode.
  - exfalso.
    destruct (Cookie.listOfJson items) as [cookies|]; [|discriminate Hrun].
    destruct (replay cookies_set epoch cookies browser) as [ev ending] eqn:Hr.
    injection Hrun as <- _.
    unfold replay in Hr.
    assert (Hloop : forall cs b t,
               alerts (fst (replayLoop cookies_set epoch cs b t)) = []).
    { induction cs as [|c cs IH]; intros b t; [reflexivity|].
      simpl. destruct (replayUrl c) as [url|]; [|reflexivity].
      destruct (isExpired epoch c).
      - specialize (IH b t).
        destruct (replayLoop cookies_set epoch cs b t). exact IH.
      - destruct (cookies_set b (prepare c url)) as [b1 [m|]].
        + specialize (IH b1 t).
          destruct (replayLoop cookies_set epoch cs b1 t). exact IH.
        + specialize (IH b1 (S t)).
          destruct (replayLoop cookies_set epoch cs b1 (S t)). exact IH. }
    specialize (Hloop cookies browser 0%nat).
    destruct (replayLoop cookies_set epoch cookies browser 0) as [le en].
    cbn [fst] in Hloop.
    destruct en; injection Hr as <- _; cbn [alerts] in Hin.
    + rewrite alerts_app, Hloop in Hin. exact Hin.
    + rewrite Hloop in Hin. exact Hin.
  - injection Hrun as <- <-. destruct Hin as [<-|[]].
    repeat split. right.
    unfold decodeBackup in Hdecode.
    apply decodeCiphertext_errors in Hdecode.
    destruct Hdecode as [Hthrown | Hunknown]; [|rewrite Hunknown; cbn; auto].
    destruct error; cbn; auto.
    now elim (Hsjcl _ _ _ Hthrown).
Qed.

Lemma restore_notices_witness :
  let data := "this is not a backup" in
  let text := "File is not a valid .ckz file!" in
  handleDecPasswdSubmit Samples.sjcl_like_decrypt (Samples.store []) true
    "hunter2" data 1700000000 0%nat
  = Some ([Alert text], 0%nat)
  /\ In text ("Please enter a password to decrypt the backup."
              :: decryptionNotices).
Proof.
  intros data text.
  assert (Hsjcl : forall pass encryptedData message,
             Samples.sjcl_like_decrypt pass encryptedData
             <> Throw (JsError message)).
  { intros pass encryptedData message. unfold Samples.sjcl_like_decrypt.
    destruct encryptedData as [ | | n | ctext | | ]; try discriminate.
    destruct (JSON_parse ctext) as [v|]; [|discriminate].
    destruct v as [ | | | | | members]; try discriminate.
    destruct (Json.lookup "ct" members) as [v|]; [|discriminate].
    destruct v as [ | | | ct | | ]; try discriminate.
    destruct (Samples.strip pass ct); discriminate. }
  assert (Hrun : handleDecPasswdSubmit Samples.sjcl_like_decrypt
                   (Samples.store []) true "hunter2" data 1700000000 0%nat
                 = Some ([Alert text], 0%nat)) by reflexivity.
  split; [exact Hrun|].
  exact (proj2 (proj2
           (restore_notices Samples.sjcl_like_decrypt nat (Samples.store [])
              Hsjcl true "hunter2" data 1700000000 0%nat 0%nat [Alert text]
              text Hrun (or_introl eq_refl)))).
Defined.

(** ** Files written by [manualCookieBackup] *)

(** The restore handler of the popup on a file of [manualCookieBackup],
    once it holds the password of the backup. *)
Lemma manual_backup_restores_with_password :
  forall (Rand : Type)
         (sjcl_encrypt : Rand -> string -> string -> SjclParams -> string)
         (sjcl_decrypt : string -> json -> completion string),
    (forall r password plaintext params,
        sjcl_decrypt password (JStr (sjcl_encrypt r password plaintext params))
        = Normal plaintext) ->
    (forall r password plaintext params,
        JSON_parse (sjcl_encrypt r password plaintext params) = None
        \/ exists members,
            JSON_parse (sjcl_encrypt r password plaintext params)
            = Some (JObj members)
            /\ Json.lookup "payload" members = None) ->
    forall (req : ManualBackupRequest) (data : string),
      Forall Cookie.hasRequired (m_cookies req) ->
      In data (emitted (manualCookieBackup sjcl_encrypt req)) ->
      forall (Browser : Type)
             (cookies_set : Browser -> Cookie.t -> Browser * option string)
             (enhanced : bool) (epoch : Num.t) (browser : Browser),
        handleDecPasswdSubmit sjcl_decrypt cookies_set enhanced
          (to_text (m_password req)) data epoch browser
        = Some (fst (replay cookies_set epoch (m_cookies req) browser),
                match snd (replay cookies_set epoch (m_cookies req) browser)
                with
                | Finished b _ => b
                | Aborted b _ => b
                end).
Proof.
  intros Rand sjcl_encrypt sjcl_decrypt Hdec Hshape req data Hreq Hin
    Browser cookies_set enhanced epoch browser.
  destruct (manual_emits_ciphertext sjcl_encrypt req data Hin)
    as (password & Hpass & ->).
  assert (Hlen : (String.length password <? 1)%nat = false).
  { unfold manualCookieBackup in Hin. rewrite Hpass in Hin.
    destruct password; [destruct Hin|reflexivity]. }
  rewrite Hpass. cbn [to_text].
  unfold handleDecPasswdSubmit. rewrite Hlen.
  unfold decodeBackup. rewrite unwrap_unrecognised.
  - rewrite (decode_own_ciphertext sjcl_encrypt sjcl_decrypt Hdec) by exact Hreq.
    rewrite CookieFacts.listOfJson_toJson.
    now destruct (replay cookies_set epoch (m_cookies req) browser).
  - intros members payload (Hp & _ & Hpl & _).
    destruct (Hshape (m_salt req) password (serialize (m_cookies req)) None)
      as [Hnone|(members' & Hp' & Hno)]; [congruence|].
    rewrite Hp in Hp'. injection Hp' as <-. congruence.
Qed.

Lemma sample_cipher_text_is_no_envelope r password plaintext params :
  JSON_parse (Samples.sjcl_like_encrypt r password plaintext params) = None
  \/ exists members,
      JSON_parse (Samples.sjcl_like_encrypt r password plaintext params)
      = Some (JObj members)
      /\ Json.lookup "payload" members = None.
Proof.
  right. eexists. split.
  - unfold Samples.sjcl_like_encrypt. apply JsonFacts.parse_stringify.
    constructor.
    + cbn [map fst].
      repeat (constructor; [cbn [In]; intuition discriminate|]). constructor.
    + JsonFacts.plain_keys.
    + repeat constructor.
  - reflexivity.
Qed.

Module TrimFacts.

Lemma trimEnd_step c rest :
  trimEnd (String c rest)
  = match trimEnd rest with
    | EmptyString => if isSpace c then EmptyString else String c EmptyString
    | kept => String c kept
    end.
Proof. reflexivity. Qed.

Lemma trimEnd_idem s : trimEnd (trimEnd s) = trimEnd s.
Proof.
  induction s as [|c rest IH]; [reflexivity|].
  rewrite (trimEnd_step c rest).
  destruct (trimEnd rest) as [|k kept] eqn:Hrest.
  - destruct (isSpace c) eqn:Hc; [reflexivity|].
    rewrite trimEnd_step. cbn [trimEnd]. now rewrite Hc.
  - rewrite trimEnd_step, IH. reflexivity.
Qed.

(** A text that does not start with white space keeps its first character
    under [trimEnd]. *)
Lemma trimEnd_keeps_head c rest :
  isSpace c = false -> exists kept, trimEnd (String c rest) = String c kept.
Proof.
  intros Hc. rewrite trimEnd_step, Hc.
  destruct (trimEnd rest) as [|k kept]; eexists; reflexivity.
Qed.

Lemma trimStart_head s :
  trimStart s = EmptyString
  \/ exists c rest, trimStart s = String c rest /\ isSpace c = false.
Proof.
  induction s as [|c s IH]; [now left|].
  cbn [trimStart]. destruct (isSpace c) eqn:Hc; [exact IH|].
  right. now exists c, s.
Qed.

Lemma trim_idem s : trim (trim s) = trim s.
Proof.
  unfold trim. destruct (trimStart_head s) as [->|(c & rest & -> & Hc)].
  - reflexivity.
  - destruct (trimEnd_keeps_head c rest Hc) as [kept Hkept].
    rewrite Hkept. cbn [trimStart]. rewrite Hc, <- Hkept.
    apply trimEnd_idem.
Qed.

End TrimFacts.

(** X8. A file written by [manualCookieBackup] is restored by the restore
    handler of the popup when the password can be typed back.  The backup
    encrypts under the value of its password field as it is, and the restore
    handler reads its own field through [getDecPasswd], which drops the
    white space around the value.  For a cipher whose decryption undoes its
    encryption and whose cipher text is not itself shaped like an envelope,
    and a snapshot whose records carry a name, a value and a domain: when
    what [getDecPasswd] gives is the password of the backup, the handler
    replays exactly the snapshot, whether the enhanced-features module is
    loaded or not; and when the password of the backup starts or ends with
    white space, nothing that the user types makes [getDecPasswd] give
    it. *)
Theorem manual_backup_restores_in_popup :
  forall (Rand : Type)
         (sjcl_encrypt : Rand -> string -> string -> SjclParams -> string)
         (sjcl_decrypt : string -> json -> completion string),
    (forall r password plaintext params,
        sjcl_decrypt password (JStr (sjcl_encrypt r password plaintext params))
        = Normal plaintext) ->
    (forall r password plaintext params,
        JSON_parse (sjcl_encrypt r password plaintext params) = None
        \/ exists members,
            JSON_parse (sjcl_encrypt r password plaintext params)
            = Some (JObj members)
            /\ Json.lookup "payload" members = None) ->
    forall (req : ManualBackupRequest) (data : string),
      Forall Cookie.hasRequired (m_cookies req) ->
      In data (emitted (manualCookieBackup sjcl_encrypt req)) ->
      (forall typed : string,
          getDecPasswd (Some typed) = to_text (m_password req) ->
          forall (Browser : Type)
                 (cookies_set : Browser -> Cookie.t -> Browser * option string)
                 (enhanced : bool) (epoch : Num.t) (browser : Browser),
            handleDecPasswdSubmit sjcl_decrypt cookies_set enhanced
              (getDecPasswd (Some typed)) data epoch browser
            = Some (fst (replay cookies_set epoch (m_cookies req) browser),
                    match
                      snd (replay cookies_set epoch (m_cookies req) browser)
                    with
                    | Finished b _ => b
                    | Aborted b _ => b
                    end))
      /\ (trim (to_text (m_password req)) <> to_text (m_password req) ->
          forall input : option string,
            getDecPasswd input <> to_text (m_password req)).
Proof.
  intros Rand sjcl_encrypt sjcl_decrypt Hdec Hshape req data Hreq Hin.
  split.
  - intros typed Htyped Browser cookies_set enhanced epoch browser.
    rewrite Htyped.
    now apply (manual_backup_restores_with_password Rand sjcl_encrypt
                 sjcl_decrypt Hdec Hshape req data Hreq Hin).
  - intros Hblank [typed|] Heq; apply Hblank; rewrite <- Heq.
    + apply TrimFacts.trim_idem.
    + reflexivity.
Qed.

Lemma manual_backup_restores_in_popup_witness :
  let snapshot :=
    [Samples.session_cookie "sid" ".example.org";
     Samples.dated_cookie "theme" "shop.example"
       (Num.Dec 180000000012345 Num.D6 5)] in
  let req :=
    {| m_profileName := "work"; m_password := Some "hunter2";
       m_cookies := snapshot;
       m_timestamp := "01-11-2026-10-00-00"; m_downloadError := None;
       m_alsoSendTelegram := false; m_salt := "c2FsdA==" |} in
  handleDecPasswdSubmit Samples.sjcl_like_decrypt (Samples.store []) true
    (getDecPasswd (Some " hunter2 "))
    (manualBackupData Samples.sjcl_like_encrypt req "hunter2")
    1700000000 0%nat
  = Some (fst (replay (Samples.store []) 1700000000 snapshot 0%nat), 2%nat).
Proof.
  intros snapshot req.
  refine (proj1 (manual_backup_restores_in_popup string
                   Samples.sjcl_like_encrypt
                   Samples.sjcl_like_decrypt SampleFacts.decrypt_encrypt
                   sample_cipher_text_is_no_envelope req
                   (manualBackupData Samples.sjcl_like_encrypt req "hunter2")
                   _ _)
            " hunter2 " eq_refl nat (Samples.store []) true 1700000000 0%nat).
  - repeat constructor; discriminate.
  - left. reflexivity.
Defined.

(** A password that ends with a blank: the backup is made under it, and the
    restore handler cannot be given it. *)
Example password_with_blank_cannot_be_typed :
  forall input : option string, getDecPasswd input <> "hunter2 ".
Proof.
  intros [typed|] Heq.
  - assert (H : trim "hunter2 " = "hunter2 ").
    { rewrite <- Heq. apply TrimFacts.trim_idem. }
    discriminate H.
  - discriminate Heq.
Qed.

(** ** [restoreCookies] *)

Section RestoreCookiesFacts.

Context {Browser : Type}.
Variable cookies_set : Browser -> Cookie.t -> Browser * option string.
Variable cookies_remove :
  Browser -> string -> option string -> Browser * option string.

Lemma restoreLoop_trace cookies :
  forall browser successCount failCount,
    removeCalls
      (fst (fst (fst (restoreLoop cookies_set cookies browser successCount
                        failCount)))) = [].
Proof.
  induction cookies as [|cookie rest IH];
    intros browser successCount failCount; simpl; [reflexivity|].
  destruct (cookies_set browser (newCookie cookie)) as [browser1 [m|]].
  - specialize (IH browser1 successCount (S failCount)).
    destruct (restoreLoop cookies_set rest browser1 successCount
                (S failCount)) as [[[ev b] sc] fc]. exact IH.
  - specialize (IH browser1 (S successCount) failCount).
    destruct (restoreLoop cookies_set rest browser1 (S successCount)
                failCount) as [[[ev b] sc] fc]. exact IH.
Qed.


End RestoreCookiesFacts.

(** X9. A file written by [manualCookieBackup] goes back through
    [restoreCookies].  For a cipher whose decryption undoes its encryption,
    given the password of the backup and without clearing the store first,
    [restoreCookies] issues one cookie-set call per record of the snapshot,
    in the order of the snapshot, and returns counts of successes and
    failures that add up to the number of records. *)
Theorem manual_backup_round_trip :
  forall (Rand : Type)
         (sjcl_encrypt : Rand -> string -> string -> SjclParams -> string)
         (sjcl_decrypt : string -> json -> completion string),
    (forall r password plaintext params,
        sjcl_decrypt password (JStr (sjcl_encrypt r password plaintext params))
        = Normal plaintext) ->
    forall (req : ManualBackupRequest) (data : string),
      In data (emitted (manualCookieBackup sjcl_encrypt req)) ->
      forall (Browser : Type)
             (cookies_set : Browser -> Cookie.t -> Browser * option string)
             (cookies_getAll : Browser -> list Cookie.t)
             (cookies_remove :
                Browser -> string -> option string -> Browser * option string)
             (browser : Browser),
      exists events browser' successCount failCount,
        restoreCookies sjcl_decrypt cookies_set cookies_getAll cookies_remove
          data (m_password req) false browser
        = Some (events, browser', Normal (successCount, failCount))
        /\ setCalls events = map newCookie (m_cookies req)
        /\ removeCalls events = []
        /\ (successCount + failCount = List.length (m_cookies req))%nat.
Proof.
  intros Rand sjcl_encrypt sjcl_decrypt Hdec req data Hin Browser cookies_set
    cookies_getAll cookies_remove browser.
  destruct (manual_emits_ciphertext sjcl_encrypt req data Hin)
    as (password & Hpass & ->).
  assert (Htruthy : truthy_string (Some password) = true).
  { unfold manualCookieBackup in Hin. rewrite Hpass in Hin.
    destruct (truthy_string (Some password)); [reflexivity|destruct Hin]. }
  unfold restoreCookies, parseBackup. rewrite Hpass, Htruthy.
  cbn [to_text]. rewrite Hdec. cbn [bind]. rewrite parse_serialize.
  cbn [of_option bind Json.isArray]. rewrite CookieFacts.listOfJson_toJson.
  pose proof (restoreLoop_counts cookies_set (m_cookies req) browser 0%nat
                0%nat) as Hcount.
  pose proof (restoreLoop_trace cookies_set (m_cookies req) browser 0%nat
                0%nat) as Hrem.
  destruct (restoreLoop cookies_set (m_cookies req) browser 0 0)
    as [[[ev b] sc] fc].
  destruct Hcount as [Hcalls Hsum]. cbn [fst] in Hrem.
  exists (ev ++ [RestoreSummary sc fc])%list, b, sc, fc.
  split; [reflexivity|].
  rewrite setCalls_app, removeCalls_app, Hcalls, Hrem.
  cbn [setCalls removeCalls app]. rewrite app_nil_r. repeat split. lia.
Qed.

Lemma manual_backup_round_trip_witness :
  let snapshot :=
    [Samples.session_cookie "sid" ".example.org";
     Samples.dated_cookie "theme" "shop.example"
       (Num.Dec 180000000012345 Num.D6 5)] in
  let req :=
    {| m_profileName := EmptyString; m_password := Some "hunter2";
       m_cookies := snapshot;
       m_timestamp := "01-11-2026-10-00-00"; m_downloadError := None;
       m_alsoSendTelegram := true; m_salt := "c2FsdA==" |} in
  exists events browser' successCount failCount,
    restoreCookies Samples.sjcl_like_decrypt (Samples.store ["theme"])
      (fun _ => []) (fun b _ _ => (b, None))
      (manualBackupData Samples.sjcl_like_encrypt req "hunter2")
      (Some "hunter2") false 0%nat
    = Some (events, browser', Normal (successCount, failCount))
    /\ setCalls events = map newCookie snapshot
    /\ removeCalls events = []
    /\ (successCount + failCount = List.length snapshot)%nat.
Proof.
  intros snapshot req.
  refine (manual_backup_round_trip string Samples.sjcl_like_encrypt
            Samples.sjcl_like_decrypt SampleFacts.decrypt_encrypt req
            (manualBackupData Samples.sjcl_like_encrypt req "hunter2") _
            nat (Samples.store ["theme"]) (fun _ => [])
            (fun b _ _ => (b, None)) 0%nat).
  left. reflexivity.
Defined.



(** X11. With a password, [restoreCookies] does not tell a wrong password
    from a damaged file: whatever the cipher library or the parser raises,
    the error thrown is the one with the message about an invalid password
    or corrupted file; the only other error of the decoding is the one about
    the format, for a decoded value that is not an array.  Without a
    password the error of the parser comes through as it is. *)
Theorem restore_decoding_errors :
  forall (sjcl_decrypt : string -> json -> completion string)
         (cookieData : string) (password : option string) (error : exn),
    parseBackup sjcl_decrypt cookieData password = Throw error ->
    error = JsError "Invalid backup format"
    \/ (if truthy_string password
        then error = JsError "Invalid password or corrupted backup file"
        else error = SyntaxError /\ JSON_parse cookieData = None).
Proof.
  intros sjcl_decrypt cookieData password error. unfold parseBackup.
  destruct (truthy_string password).
  - destruct (sjcl_decrypt (to_text password) (JStr cookieData))
      as [decryptedData|e]; cbn [bind].
    + destruct (JSON_parse decryptedData) as [cookies|]; cbn [of_option bind].
      * destruct (Json.isArray cookies); [discriminate|].
        intros [= <-]. now left.
      * intros [= <-]. now right.
    + intros [= <-]. now right.
  - destruct (JSON_parse cookieData) as [cookies|]; cbn [of_option bind].
    + destruct (Json.isArray cookies); [discriminate|].
      intros [= <-]. now left.
    + intros [= <-]. right. now split.
Qed.

Lemma restore_decoding_errors_witness :
  let data :=
    Samples.sjcl_like_encrypt "c2FsdA==" "hunter2" (serialize []) None in
  let error := JsError "Invalid password or corrupted backup file" in
  parseBackup Samples.sjcl_like_decrypt data (Some "letmein") = Throw error
  /\ (error = JsError "Invalid backup format"
      \/ error = JsError "Invalid password or corrupted backup file").
Proof.
  intros data error.
  assert (H : parseBackup Samples.sjcl_like_decrypt data (Some "letmein")
              = Throw error) by (vm_compute; reflexivity).
  split; [exact H|].
  exact (restore_decoding_errors Samples.sjcl_like_decrypt data
           (Some "letmein") error H).
Defined.

Module ErrorReportsFacts.
Import ErrorReports.

Lemma store_spec {A} (limit : nat) (reports : list A) (report : A) :
  (0 < limit)%nat ->
  store limit reports report
  = skipn (S (List.length reports) - limit) (reports ++ [report]).
Proof.
  intros Hpos. unfold store.
  rewrite length_app. cbn [List.length].
  replace (List.length reports + 1)%nat with (S (List.length reports))
    by lia.
  destruct (Nat.ltb_spec limit (S (List.length reports))) as [Hlt|Hge].
  - unfold slice_last. destruct limit as [|n]; [lia|].
    rewrite length_app. cbn [List.length].
    f_equal. lia.
  - replace (S (List.length reports) - limit)%nat with 0%nat by lia.
    reflexivity.
Qed.

Lemma store_length {A} (limit : nat) (reports : list A) (report : A) :
  (0 < limit)%nat ->
  List.length (store limit reports report)
  = Nat.min limit (S (List.length reports)).
Proof.
  intros Hpos. rewrite store_spec by exact Hpos.
  rewrite length_skipn, length_app. cbn [List.length]. lia.
Qed.

Lemma store_last {A} (limit : nat) (reports : list A) (report : A) :
  (0 < limit)%nat ->
  exists kept,
    store limit reports report = (kept ++ [report])%list
    /\ kept = skipn (S (List.length reports) - limit) reports.
Proof.
  intros Hpos. rewrite store_spec by exact Hpos.
  eexists. split; [|reflexivity].
  rewrite skipn_app.
  replace (S (List.length reports) - limit - List.length reports)%nat
    with 0%nat by lia.
  reflexivity.
Qed.

End ErrorReportsFacts.

(** X12. The error log of the popup keeps the latest 50 reports.  A call
    of [reportError] with an error value appends its report and, when the
    log would exceed 50 entries, drops the oldest ones: the new report is
    always the last entry, the entries kept are the latest ones of the log
    in their order, and a log of at most 50 entries stays so.  The user is
    shown the error exactly when the severity is critical. *)
Theorem error_log_keeps_latest :
  forall (now : Z) (agent href : string)
         (errorReports : list ErrorReports.ErrorReport) (context : string)
         (error : ErrorReports.ErrorValue) (severity : string),
  exists report effects,
    ErrorReports.reportError now agent href errorReports context (Some error)
      severity
    = Normal
        ((skipn (List.length errorReports - 49) errorReports ++ [report])%list,
         effects)
    /\ ErrorReports.context report = context
    /\ ErrorReports.severity report = severity
    /\ ErrorReports.timestamp report = now
    /\ (List.length
          (skipn (List.length errorReports - 49) errorReports ++ [report])
        = Nat.min 50 (S (List.length errorReports)))%nat
    /\ (In (ErrorReports.ShowCriticalErrorToUser context) effects
        <-> severity = "critical").
Proof.
  intros now agent href errorReports context error severity.
  unfold ErrorReports.reportError.
  destruct (ErrorReportsFacts.store_last ErrorReports.maxErrorReports
              errorReports
              {| ErrorReports.timestamp := now;
                 ErrorReports.context := context;
                 ErrorReports.message :=
                   or_string (ErrorReports.error_message error)
                     (ErrorReports.error_text error);
                 ErrorReports.stack :=
                   or_string (ErrorReports.error_stack error)
                     "No stack available";
                 ErrorReports.severity := severity;
                 ErrorReports.userAgent := agent;
                 ErrorReports.url := href |})
    as (kept & Hstore & Hkept);
    [unfold ErrorReports.maxErrorReports; lia|].
  pose proof (ErrorReportsFacts.store_length ErrorReports.maxErrorReports
                errorReports
                {| ErrorReports.timestamp := now;
                   ErrorReports.context := context;
                   ErrorReports.message :=
                     or_string (ErrorReports.error_message error)
                       (ErrorReports.error_text error);
                   ErrorReports.stack :=
                     or_string (ErrorReports.error_stack error)
                       "No stack available";
                   ErrorReports.severity := severity;
                   ErrorReports.userAgent := agent;
                   ErrorReports.url := href |}) as Hlen.
  rewrite Hstore in *. subst kept.
  change (S (List.length errorReports) - ErrorReports.maxErrorReports)%nat
    with (List.length errorReports - 49)%nat in *.
  eexists _, _. split; [reflexivity|].
  repeat split; try reflexivity.
  - apply Hlen. unfold ErrorReports.maxErrorReports. lia.
  - unfold ErrorReports.logBySeverity.
    destruct (String.eqb_spec severity "critical") as [->|Hne].
    + reflexivity.
    + intros Hin. exfalso.
      destruct (String.eqb severity "error"); cbn [In app] in Hin;
        intuition discriminate.
  - intros ->. cbn. auto.
Qed.

(** X13. An error of the additional features is logged twice.
    [reportFeatureError], when [reportError] is loaded, puts its report last
    in the feature log, which keeps the latest 25, and also a report with
    the same message, stack and severity last in the main log, under the
    context prefixed with [additional_features_]; a critical one is shown to
    the user by both functions. *)
Theorem feature_error_is_logged_twice :
  forall (now now' : Z) (agent href : string)
         (additionalFeaturesErrors : list ErrorReports.FeatureReport)
         (errorReports : list ErrorReports.ErrorReport) (context : string)
         (error : ErrorReports.ErrorValue) (severity : string),
  exists featureReport mainReport effects,
    ErrorReports.reportFeatureError now now' agent href true
      additionalFeaturesErrors errorReports context (Some error) severity
    = Normal
        ((skipn (List.length additionalFeaturesErrors - 24)
            additionalFeaturesErrors ++ [featureReport])%list,
         (skipn (List.length errorReports - 49) errorReports
          ++ [mainReport])%list,
         effects)
    /\ ErrorReports.f_context featureReport = context
    /\ ErrorReports.context mainReport = "additional_features_" ++ context
    /\ ErrorReports.message mainReport = ErrorReports.f_message featureReport
    /\ ErrorReports.stack mainReport = ErrorReports.f_stack featureReport
    /\ ErrorReports.severity mainReport = severity
    /\ ErrorReports.f_severity featureReport = severity
    /\ (severity = "critical" ->
        In (ErrorReports.ShowCriticalErrorToUser
              ("additional_features_" ++ context)) effects
        /\ In (ErrorReports.ShowFeatureErrorToUser context) effects).
Proof.
  intros now now' agent href additionalFeaturesErrors errorReports context
    error severity.
  unfold ErrorReports.reportFeatureError, ErrorReports.reportError.
  cbn [bind].
  destruct (ErrorReportsFacts.store_last ErrorReports.maxErrorReports
              errorReports
              {| ErrorReports.timestamp := now';
                 ErrorReports.context := "additional_features_" ++ context;
                 ErrorReports.message :=
                   or_string (ErrorReports.error_message error)
                     (ErrorReports.error_text error);
                 ErrorReports.stack :=
                   or_string (ErrorReports.error_stack error)
                     "No stack available";
                 ErrorReports.severity := severity;
                 ErrorReports.userAgent := agent;
                 ErrorReports.url := href |})
    as (kept & Hstore & Hkept);
    [unfold ErrorReports.maxErrorReports; lia|].
  destruct (ErrorReportsFacts.store_last
              ErrorReports.MAX_FEATURE_ERROR_REPORTS additionalFeaturesErrors
              {| ErrorReports.f_timestamp := now;
                 ErrorReports.f_context := context;
                 ErrorReports.f_message :=
                   or_string (ErrorReports.error_message error)
                     (ErrorReports.error_text error);
                 ErrorReports.f_stack :=
                   or_string (ErrorReports.error_stack error)
                     "No stack available";
                 ErrorReports.f_severity := severity;
                 ErrorReports.f_module := "additional-features" |})
    as (fkept & Hfstore & Hfkept);
    [unfold ErrorReports.MAX_FEATURE_ERROR_REPORTS; lia|].
  rewrite Hstore, Hfstore. subst kept fkept.
  change (S (List.length errorReports) - ErrorReports.maxErrorReports)%nat
    with (List.length errorReports - 49)%nat.
  change (S (List.length additionalFeaturesErrors)
          - ErrorReports.MAX_FEATURE_ERROR_REPORTS)%nat
    with (List.length additionalFeaturesErrors - 24)%nat.
  eexists _, _, _. split; [reflexivity|].
  repeat split; try reflexivity.
  - subst severity. cbn. auto.
  - subst severity. cbn. auto.
Qed.

Lemma feature_error_is_logged_twice_witness :
  let error :=
    {| ErrorReports.error_message := Some "Network unreachable";
       ErrorReports.error_stack := None;
       ErrorReports.error_text := "Error: Network unreachable" |} in
  exists featureReport mainReport effects,
    ErrorReports.reportFeatureError 1700000000000 1700000000001 "agent"
      "chrome-extension://popup.html" true [] [] "telegram_send" (Some error)
      "critical"
    = Normal ([featureReport], [mainReport], effects)
    /\ In (ErrorReports.ShowCriticalErrorToUser
             "additional_features_telegram_send") effects
    /\ In (ErrorReports.ShowFeatureErrorToUser "telegram_send") effects.
Proof.
  intros error.
  destruct (feature_error_is_logged_twice 1700000000000 1700000000001 "agent"
              "chrome-extension://popup.html" [] [] "telegram_send" error
              "critical")
    as (featureReport & mainReport & effects & Hrun & _ & _ & _ & _ & _ & _
        & Hshown).
  exists featureReport, mainReport, effects.
  split; [exact Hrun|exact (Hshown eq_refl)].
Defined.

Section TrialFacts.

Context {Storage : Type}.
Variable get : Storage -> string -> completion (option json).
Variable set : Storage -> string -> json -> completion Storage.
Variable Date_getTime : option json -> option Z.

Lemma running_trial storage now nowISO trialStartDate subscriptionStatus start :
  get storage "trialStartDate" = Normal trialStartDate ->
  get storage "subscriptionStatus" = Normal subscriptionStatus ->
  Json.strict_neq_str "premium" subscriptionStatus = true ->
  Json.truthy trialStartDate = true ->
  Date_getTime trialStartDate = Some start ->
  Trial.getTrialStatus get set Date_getTime storage now nowISO
  = (storage,
     {| Trial.status :=
          if now - start <? 7 * Trial.millisecondsPerDay then "trial"
          else "expired";
        Trial.daysLeft :=
          Trial.DaysNumber
            (Z.max 0 (7 - (now - start) / Trial.millisecondsPerDay)) |}).
Proof.
  intros Hstart Hsub Hfree Htruthy Hdate. unfold Trial.getTrialStatus.
  rewrite Hstart, Hsub, Hfree, Htruthy, Hdate. cbn [negb].
  f_equal. f_equal.
  unfold Trial.millisecondsPerDay.
  change (1000 * 60 * 60 * 24) with 86400000.
  pose proof (Z.div_mod (now - start) 86400000 ltac:(lia)) as Hdm.
  pose proof (Z.mod_pos_bound (now - start) 86400000 ltac:(lia)) as Hb.
  destruct (Z.ltb_spec 0 (Z.max 0 (7 - (now - start) / 86400000))),
    (Z.ltb_spec (now - start) (7 * 86400000)); try reflexivity; lia.
Qed.

End TrialFacts.

(** X14. The trial lasts seven days to the millisecond.  When the storage
    answers, the subscription is not premium and the stored start date is a
    valid date, [getTrialStatus] reports a trial exactly while less than
    seven times 24 hours have passed since the start, and an expired trial
    from then on; the days left are never negative, are zero exactly when
    the trial has expired, and exceed seven when the clock is before the
    start date.  The storage is left as it was. *)
Theorem trial_lasts_seven_days :
  forall (Storage : Type)
         (get : Storage -> string -> completion (option json))
         (set : Storage -> string -> json -> completion Storage)
         (Date_getTime : option json -> option Z)
         (storage : Storage) (now : Z) (nowISO : string)
         (trialStartDate subscriptionStatus : option json) (start : Z),
    get storage "trialStartDate" = Normal trialStartDate ->
    get storage "subscriptionStatus" = Normal subscriptionStatus ->
    Json.strict_neq_str "premium" subscriptionStatus = true ->
    Json.truthy trialStartDate = true ->
    Date_getTime trialStartDate = Some start ->
    exists days,
      Trial.getTrialStatus get set Date_getTime storage now nowISO
      = (storage,
         {| Trial.status :=
              if now <? start + 7 * 86400000 then "trial" else "expired";
            Trial.daysLeft := Trial.DaysNumber days |})
      /\ 0 <= days
      /\ (days = 0 <-> start + 7 * 86400000 <= now)
      /\ (start <= now -> days <= 7)
      /\ (now < start -> 7 < days).
Proof.
  intros Storage get set Date_getTime storage now nowISO trialStartDate
    subscriptionStatus start Hstart Hsub Hfree Htruthy Hdate.
  rewrite (running_trial get set Date_getTime storage now nowISO _ _ _
             Hstart Hsub Hfree Htruthy Hdate).
  unfold Trial.millisecondsPerDay.
  change (1000 * 60 * 60 * 24) with 86400000.
  exists (Z.max 0 (7 - (now - start) / 86400000)).
  pose proof (Z.div_mod (now - start) 86400000 ltac:(lia)) as Hdm.
  pose proof (Z.mod_pos_bound (now - start) 86400000 ltac:(lia)) as Hb.
  split; [|repeat split; lia].
  f_equal. f_equal.
  destruct (Z.ltb_spec (now - start) (7 * 86400000)),
    (Z.ltb_spec now (start + 7 * 86400000)); try reflexivity; lia.
Qed.

Lemma trial_lasts_seven_days_witness :
  let storage :=
    [("trialStartDate", JNum 1700000000000);
     ("subscriptionStatus", JStr "trial")] in
  exists days,
    Trial.getTrialStatus TrialSamples.get TrialSamples.set
      TrialSamples.Date_getTime storage (1700000000000 + 7 * 86400000 - 1)
      "2023-11-21T22:13:19.999Z"
    = (storage,
       {| Trial.status := "trial"; Trial.daysLeft := Trial.DaysNumber days |})
    /\ 0 <= days
    /\ (days = 0
        <-> 1700000000000 + 7 * 86400000
            <= 1700000000000 + 7 * 86400000 - 1)
    /\ (1700000000000 <= 1700000000000 + 7 * 86400000 - 1 -> days <= 7)
    /\ (1700000000000 + 7 * 86400000 - 1 < 1700000000000 -> 7 < days).
Proof.
  intros storage.
  exact (trial_lasts_seven_days _ TrialSamples.get TrialSamples.set
           TrialSamples.Date_getTime storage
           (1700000000000 + 7 * 86400000 - 1) "2023-11-21T22:13:19.999Z"
           (Some (JNum 1700000000000)) (Some (JStr "trial")) 1700000000000
           eq_refl eq_refl eq_refl eq_refl eq_refl).
Defined.

(** X15. The Telegram gate of the backup.  Once the trial has expired,
    [isFeatureAvailable] refuses the Telegram backup, and a backup request
    with the Telegram box ticked then only shows the upgrade dialog: nothing
    is written, whatever the password and the cookies.  The same request with
    the box not ticked is not held back by the expired trial, although
    [encryption] is among the restricted features: the handler does not ask
    for it. *)
Theorem expired_trial_blocks_telegram_backup_only :
  forall (Storage : Type)
         (get : Storage -> string -> completion (option json))
         (set : Storage -> string -> json -> completion Storage)
         (Date_getTime : option json -> option Z)
         (storage : Storage) (now : Z) (nowISO : string)
         (trialStartDate subscriptionStatus : option json) (start : Z),
    get storage "trialStartDate" = Normal trialStartDate ->
    get storage "subscriptionStatus" = Normal subscriptionStatus ->
    Json.strict_neq_str "premium" subscriptionStatus = true ->
    Json.truthy trialStartDate = true ->
    Date_getTime trialStartDate = Some start ->
    start + 7 * 86400000 <= now ->
    let available feature :=
      snd (Trial.isFeatureAvailable get set Date_getTime (Some storage) now
             nowISO feature) in
    available "telegram_backup" = false
    /\ available "encryption" = false
    /\ forall (Rand : Type)
              (sjcl_encrypt : Rand -> string -> string -> SjclParams -> string)
              (req : BackupRequest),
        telegramAvailable req = available "telegram_backup" ->
        (alsoSendTelegram req = true ->
         handleEncPasswdSubmit sjcl_encrypt req = [ShowUpgradeModal])
        /\ (alsoSendTelegram req = false ->
            (4 <= String.length (encPasswd req))%nat ->
            chromeCookies req = true ->
            filter (cookieFilter (selectedDomainsForBackup req))
              (allCookies req) <> [] ->
            exists filename,
              hd_error (handleEncPasswdSubmit sjcl_encrypt req)
              = Some (DownloadJson
                        (encryptedBackup sjcl_encrypt req
                           (filter (cookieFilter (selectedDomainsForBackup req))
                              (allCookies req)))
                        filename)).
Proof.
  intros Storage get set Date_getTime storage now nowISO trialStartDate
    subscriptionStatus start Hstart Hsub Hfree Htruthy Hdate Hlate available.
  assert (Havail : forall feature,
             available feature
             = negb (existsb (String.eqb feature) Trial.restrictedFeatures)).
  { intros feature. subst available. unfold Trial.isFeatureAvailable.
    rewrite (running_trial get set Date_getTime storage now nowISO _ _ _
               Hstart Hsub Hfree Htruthy Hdate).
    unfold Trial.millisecondsPerDay.
    change (1000 * 60 * 60 * 24) with 86400000.
    replace (now - start <? 7 * 86400000) with false
      by (symmetry; apply Z.ltb_ge; lia).
    reflexivity. }
  split; [rewrite Havail; reflexivity|].
  split; [rewrite Havail; reflexivity|].
  intros Rand sjcl_encrypt req Hreq. rewrite Havail in Hreq.
  change (negb (existsb (String.eqb "telegram_backup")
                  Trial.restrictedFeatures)) with false in Hreq.
  split.
  - intros Hbox. unfold handleEncPasswdSubmit. now rewrite Hbox, Hreq.
  - intros Hbox Hpass Hchrome Hsome.
    assert (Hp : backupProceeds req = true).
    { apply backupProceeds_spec. rewrite Hbox. auto. }
    pose proof (producer_runs sjcl_encrypt req Hp) as Hrun.
    cbv zeta in Hrun. rewrite Hrun. eexists. reflexivity.
Qed.

Lemma expired_trial_blocks_telegram_backup_only_witness :
  let storage :=
    [("trialStartDate", JNum 1700000000000);
     ("subscriptionStatus", JStr "trial")] in
  let now := 1700000000000 + 7 * 86400000 in
  let req :=
    {| alsoSendTelegram := true; telegramAvailable := false;
       encPasswd := "hunter2"; chromeCookies := true;
       enhancedFeatures := true; selectedDomainsForBackup := None;
       allCookies := [Samples.session_cookie "sid" ".example.org"];
       profileInput := "work";
       localeDate := "21-11-2023"; localeTime := "22-13-20";
       sendToTelegram := true; salt := "c2FsdA==" |} in
  snd (Trial.isFeatureAvailable TrialSamples.get TrialSamples.set
         TrialSamples.Date_getTime (Some storage) now
         "2023-11-21T22:13:20.000Z" "telegram_backup") = false
  /\ handleEncPasswdSubmit Samples.sjcl_like_encrypt req = [ShowUpgradeModal].
Proof.
  intros storage now req.
  pose proof (expired_trial_blocks_telegram_backup_only _ TrialSamples.get
                TrialSamples.set TrialSamples.Date_getTime storage now
                "2023-11-21T22:13:20.000Z" (Some (JNum 1700000000000))
                (Some (JStr "trial")) 1700000000000
                eq_refl eq_refl eq_refl eq_refl eq_refl ltac:(subst now; lia))
    as (Hgate & _ & Hbackup).
  split; [exact Hgate|].
  exact (proj1 (Hbackup string Samples.sjcl_like_encrypt req eq_refl)
           eq_refl).
Defined.

(** X16. The feature gate fails open.  Every feature is available when
    the secure storage is missing, when one of the two reads of
    [getTrialStatus] is rejected, and on the first run, when no start date is
    stored yet, whether or not the two writes that start the trial go
    through; a rejected read leaves the storage as it was. *)
Theorem feature_gate_fails_open :
  forall (Storage : Type)
         (get : Storage -> string -> completion (option json))
         (set : Storage -> string -> json -> completion Storage)
         (Date_getTime : option json -> option Z)
         (now : Z) (nowISO feature : string),
    Trial.isFeatureAvailable get set Date_getTime None now nowISO feature
    = (None, true)
    /\ (forall storage,
           (exists error, get storage "trialStartDate" = Throw error)
           \/ (exists error, get storage "subscriptionStatus" = Throw error) ->
           Trial.isFeatureAvailable get set Date_getTime (Some storage) now
             nowISO feature
           = (Some storage, true))
    /\ (forall storage trialStartDate subscriptionStatus,
           get storage "trialStartDate" = Normal trialStartDate ->
           get storage "subscriptionStatus" = Normal subscriptionStatus ->
           Json.truthy trialStartDate = false ->
           snd (Trial.isFeatureAvailable get set Date_getTime (Some storage)
                  now nowISO feature) = true).
Proof.
  intros Storage get set Date_getTime now nowISO feature.
  split; [reflexivity|split].
  - intros storage Hfail.
    unfold Trial.isFeatureAvailable, Trial.getTrialStatus.
    destruct Hfail as [[error Hfail]|[error Hfail]].
    + rewrite Hfail. reflexivity.
    + rewrite Hfail. now destruct (get storage "trialStartDate").
  - intros storage trialStartDate subscriptionStatus Hstart Hsub Hfalsy.
    unfold Trial.isFeatureAvailable, Trial.getTrialStatus.
    rewrite Hstart, Hsub, Hfalsy.
    destruct (Json.strict_neq_str "premium" subscriptionStatus);
      cbn [negb]; [|reflexivity].
    unfold Trial.startTrial.
    destruct (set storage "trialStartDate" (JStr nowISO)) as [storage1|];
      [|reflexivity].
    now destruct (set storage1 "subscriptionStatus" (JStr "trial")).
Qed.

Lemma feature_gate_fails_open_witness :
  let get (storage : list (string * json)) (key : string)
        : completion (option json) :=
    Throw (JsError "SecureStorage not ready and no custom key provided") in
  Trial.isFeatureAvailable get TrialSamples.set TrialSamples.Date_getTime
    (Some [("subscriptionStatus", JStr "expired")]) 1700000000000
    "2023-11-14T22:13:20.000Z" "telegram_backup"
  = (Some [("subscriptionStatus", JStr "expired")], true).
Proof.
  intros get.
  apply (proj1 (proj2
           (feature_gate_fails_open _ get TrialSamples.set
              TrialSamples.Date_getTime 1700000000000
              "2023-11-14T22:13:20.000Z" "telegram_backup"))).
  left. eexists. reflexivity.
Defined.

Module FileImportFacts.
Import FileImport.

Lemma split_last sep (b : string) :
  includesUnit sep b = false ->
  forall a,
  exists first others,
    split sep (a ++ String sep b) = (first :: others ++ [b])%list.
Proof.
  intros Hb.
  assert (Hsingle : split sep b = [b]).
  { induction b as [|c b IH]; [reflexivity|].
    cbn [includesUnit] in Hb. apply orb_false_iff in Hb as [Hc Hrest].
    cbn [split]. rewrite Hc, (IH Hrest). reflexivity. }
  induction a as [|c a IH].
  - exists EmptyString, []. cbn [append split].
    now rewrite Ascii.eqb_refl, Hsingle.
  - destruct IH as (first & others & IH). cbn [append split]. rewrite IH.
    destruct (Ascii.eqb c sep).
    + exists EmptyString, (first :: others). reflexivity.
    + exists (String c first), others. reflexivity.
Qed.

Lemma pop_last (first : string) others b :
  pop (first :: others ++ [b]) = Some b.
Proof.
  unfold pop. f_equal. apply last_last.
Qed.

Lemma extension_of_suffix stem suffix :
  includesUnit "." suffix = false ->
  fileExtension (stem ++ String "." suffix) = "." ++ toLowerCase suffix.
Proof.
  intros Hs. unfold fileExtension.
  destruct (split_last "." suffix Hs stem) as (first & others & ->).
  now rewrite pop_last.
Qed.

Lemma append_assoc3 (a b c : string) : (a ++ b) ++ c = a ++ b ++ c.
Proof. apply JsonFacts.append_assoc. Qed.

Lemma ckzFilename_extension profileName date time :
  fileExtension (ckzFilename profileName date time) = ".ckz".
Proof.
  unfold ckzFilename.
  destruct (String.eqb profileName EmptyString).
  - replace ("cookies-" ++ date ++ "-" ++ time ++ ".ckz")
      with (("cookies-" ++ date ++ "-" ++ time) ++ String "." "ckz")
      by (rewrite !JsonFacts.append_assoc; reflexivity).
    now rewrite extension_of_suffix.
  - replace ("cookies-" ++ profileName ++ "-" ++ date ++ "-" ++ time ++ ".ckz")
      with (("cookies-" ++ profileName ++ "-" ++ date ++ "-" ++ time)
            ++ String "." "ckz")
      by (rewrite !JsonFacts.append_assoc; reflexivity).
    now rewrite extension_of_suffix.
Qed.

End FileImportFacts.

Lemma popup_file_name {Rand : Type}
    (sjcl_encrypt : Rand -> string -> string -> SjclParams -> string)
    (req : BackupRequest) data filename :
  In (DownloadJson data filename) (handleEncPasswdSubmit sjcl_encrypt req) ->
  filename
  = ckzFilename (sanitizeProfileName (profileInput req)) (localeDate req)
      (localeTime req).
Proof.
  intros Hin. destruct (backupProceeds req) eqn:Hp.
  - rewrite (producer_runs sjcl_encrypt req Hp) in Hin.
    destruct (sendToTelegram req), (enhancedFeatures req);
      cbn [app In] in Hin;
      repeat (destruct Hin as [Hin|Hin]; [congruence|]);
      contradiction.
  - destruct (producer_refuses sjcl_encrypt req Hp) as [H|[m H]];
      rewrite H in Hin; destruct Hin as [Hin|[]]; discriminate.
Qed.

Lemma manual_file_name {Rand : Type}
    (sjcl_encrypt : Rand -> string -> string -> SjclParams -> string)
    (req : ManualBackupRequest) data filename :
  In (DownloadBlob data filename) (manualCookieBackup sjcl_encrypt req) ->
  exists stem, filename = stem ++ ".ckz".
Proof.
  unfold manualCookieBackup.
  destruct (negb (truthy_string (m_password req))).
  { intros [H|[]]. discriminate. }
  destruct (m_cookies req).
  { intros [H|[]]. discriminate. }
  intros [H|Hin].
  - injection H as _ <-.
    destruct (String.eqb (m_profileName req) EmptyString).
    + exists ("cookies-" ++ m_timestamp req).
      now rewrite !JsonFacts.append_assoc.
    + exists ("cookies-" ++ m_profileName req ++ "-" ++ m_timestamp req).
      now rewrite !JsonFacts.append_assoc.
  - exfalso.
    destruct (m_downloadError req), (m_alsoSendTelegram req);
      cbn [app In] in Hin;
      repeat (destruct Hin as [Hin|Hin]; [discriminate|]);
      contradiction.
Qed.

(** X17. A backup file is routed to the decryption.  A file of at most
    10 MB that carries the name and the text of a file written by
    [handleEncPasswdSubmit] or by [manualCookieBackup] passes the checks of
    [handleFileSelect], is handed to [handleEncryptedFile] with its text and
    becomes the chosen file; the text that the restore then reads is the
    text of that file, whatever the text area holds. *)
Theorem written_backup_is_routed_to_decryption :
  forall (Rand : Type)
         (sjcl_encrypt : Rand -> string -> string -> SjclParams -> string)
         (req : BackupRequest) (manual : ManualBackupRequest)
         (data filename : string),
    In (DownloadJson data filename) (handleEncPasswdSubmit sjcl_encrypt req)
    \/ In (DownloadBlob data filename)
         (manualCookieBackup sjcl_encrypt manual) ->
    forall (backupCore : bool) (before : FileImport.Selection) (size : Z)
           (textarea : string),
      size <= FileImport.maxSize ->
      let file :=
        {| FileImport.name := filename; FileImport.size := size;
           FileImport.result := data |} in
      exists after,
        FileImport.handleFileSelect backupCore before (Some file)
        = Some {| FileImport.selection := after;
                  FileImport.inputReset := false;
                  FileImport.done :=
                    Normal (Some (FileImport.HandleEncrypted data)) |}
        /\ FileImport.window_cookieFile after = Some file
        /\ FileImport.getCkzFileDataAsText after textarea = data.
Proof.
  intros Rand sjcl_encrypt req manual data filename Hwritten backupCore
    before size textarea Hsize file.
  assert (Hext : FileImport.fileExtension filename = ".ckz").
  { destruct Hwritten as [Hin|Hin].
    - rewrite (popup_file_name sjcl_encrypt req data filename Hin).
      apply FileImportFacts.ckzFilename_extension.
    - destruct (manual_file_name sjcl_encrypt manual data filename Hin)
        as [stem ->].
      change (stem ++ ".ckz") with (stem ++ String "." "ckz").
      now rewrite FileImportFacts.extension_of_suffix. }
  unfold FileImport.handleFileSelect.
  destruct (FileImport.remember backupCore before (Some file))
    as [remembered status] eqn:Hrem.
  assert (Hstatus : status = Normal tt).
  { unfold FileImport.remember in Hrem.
    destruct backupCore; [now injection Hrem as _ <-|].
    destruct (FileImport.cookieFile before); now injection Hrem as _ <-. }
  subst status.
  replace (FileImport.maxSize <? FileImport.size file) with false
    by (symmetry; apply Z.ltb_ge; exact Hsize).
  cbn [FileImport.name file]. unfold file at 1. cbn [FileImport.name].
  rewrite Hext. cbn [FileImport.allowedTypes existsb String.eqb Ascii.eqb
                       Bool.eqb orb negb].
  eexists. split; [reflexivity|]. split; reflexivity.
Qed.

Lemma written_backup_is_routed_to_decryption_witness :
  let req :=
    {| alsoSendTelegram := false; telegramAvailable := true;
       encPasswd := "hunter2"; chromeCookies := true;
       enhancedFeatures := true; selectedDomainsForBackup := None;
       allCookies := [Samples.session_cookie "sid" ".example.org"];
       profileInput := "work";
       localeDate := "01-11-2026"; localeTime := "10-00-00";
       sendToTelegram := false; salt := "c2FsdA==" |} in
  let data := encryptedBackup Samples.sjcl_like_encrypt req (allCookies req) in
  let file :=
    {| FileImport.name := "cookies-work-01-11-2026-10-00-00.ckz";
       FileImport.size := 512; FileImport.result := data |} in
  exists after,
    FileImport.handleFileSelect false
      {| FileImport.window_cookieFile := None;
         FileImport.cookieFile := Some None |} (Some file)
    = Some {| FileImport.selection := after;
              FileImport.inputReset := false;
              FileImport.done :=
                Normal (Some (FileImport.HandleEncrypted data)) |}
    /\ FileImport.window_cookieFile after = Some file
    /\ FileImport.getCkzFileDataAsText after "stale text" = data.
Proof.
  intros req data file.
  refine (written_backup_is_routed_to_decryption string
            Samples.sjcl_like_encrypt req
            {| m_profileName := EmptyString; m_password := None;
               m_cookies := []; m_timestamp := EmptyString;
               m_downloadError := None; m_alsoSendTelegram := false;
               m_salt := EmptyString |}
            data "cookies-work-01-11-2026-10-00-00.ckz" _ false _ 512
            "stale text" _).
  - left. left. reflexivity.
  - unfold FileImport.maxSize. lia.
Defined.

(** X18. A refused file is remembered all the same.  [handleFileSelect]
    stores the chosen file before it checks it: when the file is refused for
    its size or for its extension, the user is alerted and the file input is
    reset, but if no file had been accepted before, the text that the
    restore reads next is the text of the refused file. *)
Theorem refused_file_is_still_remembered :
  forall (backupCore : bool) (before : FileImport.Selection)
         (file : FileImport.File) (textarea : string),
    FileImport.maxSize < FileImport.size file
    \/ ~ In (FileImport.fileExtension (FileImport.name file))
            FileImport.allowedTypes ->
    exists after message,
      FileImport.handleFileSelect backupCore before (Some file)
      = Some {| FileImport.selection := after;
                FileImport.inputReset := true;
                FileImport.done :=
                  Normal (Some (FileImport.ImportAlert message)) |}
      /\ (FileImport.window_cookieFile before = None ->
          FileImport.getCkzFileDataAsText after textarea
          = FileImport.result file).
Proof.
  intros backupCore before file textarea Hrefused.
  unfold FileImport.handleFileSelect.
  destruct (FileImport.remember backupCore before (Some file))
    as [remembered status] eqn:Hrem.
  assert (Hstatus : status = Normal tt
                    /\ (FileImport.window_cookieFile before = None ->
                        FileImport.getCkzFileDataAsText remembered textarea
                        = FileImport.result file)).
  { unfold FileImport.remember in Hrem.
    destruct backupCore.
    - injection Hrem as <- <-. split; [reflexivity|].
      intros Hnone. unfold FileImport.getCkzFileDataAsText.
      cbn. now rewrite Hnone.
    - destruct (FileImport.cookieFile before) eqn:Hc;
        injection Hrem as <- <-; (split; [reflexivity|]).
      + intros Hnone. unfold FileImport.getCkzFileDataAsText.
        cbn. now rewrite Hnone.
      + intros _. reflexivity. }
  destruct Hstatus as [-> Hread].
  destruct (Z.ltb_spec FileImport.maxSize (FileImport.size file))
    as [Hbig|Hsmall].
  - eexists _, _. split; [reflexivity|exact Hread].
  - destruct Hrefused as [Hbig|Hext]; [lia|].
    destruct (existsb (String.eqb (FileImport.fileExtension
                                     (FileImport.name file)))
                FileImport.allowedTypes) eqn:Hallowed.
    + exfalso. apply Hext. apply existsb_exists in Hallowed.
      destruct Hallowed as (x & Hin & Heq).
      apply String.eqb_eq in Heq. now subst x.
    + eexists _, _. split; [reflexivity|exact Hread].
Qed.

Lemma refused_file_is_still_remembered_witness :
  let file :=
    {| FileImport.name := "holiday.png"; FileImport.size := 2048;
       FileImport.result := "not a backup" |} in
  exists after message,
    FileImport.handleFileSelect false
      {| FileImport.window_cookieFile := None;
         FileImport.cookieFile := Some None |} (Some file)
    = Some {| FileImport.selection := after;
              FileImport.inputReset := true;
              FileImport.done :=
                Normal (Some (FileImport.ImportAlert message)) |}
    /\ FileImport.getCkzFileDataAsText after "pasted text" = "not a backup".
Proof.
  intros file.
  destruct (refused_file_is_still_remembered false
              {| FileImport.window_cookieFile := None;
                 FileImport.cookieFile := Some None |} file "pasted text")
    as (after & message & Hrun & Hread).
  - right. cbn. intuition discriminate.
  - exists after, message. split; [exact Hrun|exact (Hread eq_refl)].
Defined.

Module JsonImportFacts.
Import FileImport.

Lemma trimEnd_head c rest :
  isSpace c = false -> trimEnd (String c rest) <> EmptyString.
Proof.
  intros Hc. cbn [trimEnd]. rewrite Hc.
  destruct (trimEnd rest); discriminate.
Qed.

Lemma trim_head c rest :
  isSpace c = false -> trim (String c rest) <> EmptyString.
Proof.
  intros Hc. unfold trim. cbn [trimStart]. rewrite Hc.
  now apply trimEnd_head.
Qed.

(** A text that starts with a character other than white space passes the
    test for an empty file. *)
Lemma not_empty c rest :
  isSpace c = false ->
  String.eqb (String c rest) EmptyString
  || (String.length (trim (String c rest)) =? 0)%nat = false.
Proof.
  intros Hc. cbn [String.eqb orb].
  pose proof (trim_head c rest Hc) as Hne.
  destruct (trim (String c rest)); [now elim Hne|reflexivity].
Qed.

Lemma lookup_name c :
  Json.lookup "name" (Cookie.members_of c)
  = option_map JStr (Cookie.name c).
Proof.
  unfold Cookie.members_of, Cookie.toJson.
  rewrite !(CookieFacts.lookup_opt_member_other "name") by discriminate.
  destruct (Cookie.name c) as [n|].
  - now rewrite CookieFacts.lookup_opt_member_same.
  - cbn [Cookie.opt_member app].
    rewrite <- (app_nil_r (Cookie.opt_member "value" JStr (Cookie.value c))).
    rewrite !(CookieFacts.lookup_opt_member_other "name") by discriminate.
    reflexivity.
Qed.

Lemma lookup_domain c :
  Json.lookup "domain" (Cookie.members_of c)
  = option_map JStr (Cookie.domain c).
Proof.
  unfold Cookie.members_of, Cookie.toJson.
  destruct (Cookie.domain c) as [d|].
  - now rewrite CookieFacts.lookup_opt_member_same.
  - cbn [Cookie.opt_member app].
    rewrite <- (app_nil_r (Cookie.opt_member "value" JStr (Cookie.value c))).
    rewrite !(CookieFacts.lookup_opt_member_other "domain") by discriminate.
    reflexivity.
Qed.

Lemma truthy_text (a : option string) :
  Json.truthy (option_map JStr a) = truthy_string a.
Proof. now destruct a. Qed.

End JsonImportFacts.

(** X19. The import tells a plain snapshot from an encrypted backup.  The
    text that [JSON.stringify] gives for a snapshot whose first record has a
    name and a domain is handed, as a .json file and as a .txt or .xml file
    alike, to [restoreUnencryptedCookies] with exactly the records of the
    snapshot.  The enveloped text of an encrypted backup is handed to
    [handleEncryptedFile] as it is.  The text of the empty snapshot is taken
    for an encrypted file when it comes as .json and refused when it comes
    as .txt or .xml. *)
Theorem import_tells_plain_from_encrypted :
  (forall (first : Cookie.t) (others : list Cookie.t),
      truthy_string (Cookie.name first) = true ->
      truthy_string (Cookie.domain first) = true ->
      FileImport.handleJsonFile (serialize (first :: others))
      = Some (FileImport.RestoreUnencrypted (first :: others))
      /\ FileImport.handleTextFile (serialize (first :: others))
         = Some (FileImport.RestoreUnencrypted (first :: others)))
  /\ (forall (enhanced : bool) (cipherText : string),
         let data := JSON_stringify (wrap enhanced cipherText) in
         FileImport.handleJsonFile data
         = Some (FileImport.HandleEncrypted data)
         /\ FileImport.handleTextFile data
            = Some (FileImport.HandleEncrypted data))
  /\ FileImport.handleJsonFile (serialize [])
     = Some (FileImport.HandleEncrypted (serialize []))
  /\ FileImport.handleTextFile (serialize [])
     = Some (FileImport.ImportAlert
               "This doesn't appear to be a valid backup file format.").
Proof.
  split; [|split; [|split; reflexivity]].
  - intros first others Hname Hdomain.
    assert (Hshape : exists rest,
               serialize (first :: others) = String "[" (String "{" rest)).
    { unfold serialize, JSON_stringify.
      cbn [map Json.stringify Json.join_comma Cookie.toJson append].
      destruct (map Json.stringify (map Cookie.toJson others));
        eexists; reflexivity. }
    destruct Hshape as [rest Hshape].
    split.
    + unfold FileImport.handleJsonFile.
      rewrite Hshape, JsonImportFacts.not_empty by reflexivity.
      rewrite <- Hshape, parse_serialize.
      cbn [Json.truthy negb Json.isArray map Json.prop Cookie.toJson].
      change (Json.lookup "name" _)
        with (Json.lookup "name" (Cookie.members_of first)).
      change (Json.lookup "domain" _)
        with (Json.lookup "domain" (Cookie.members_of first)).
      rewrite JsonImportFacts.lookup_name, JsonImportFacts.lookup_domain,
        !JsonImportFacts.truthy_text, Hname, Hdomain.
      cbn [andb].
      change (Cookie.listOfJson _)
        with (Cookie.listOfJson (map Cookie.toJson (first :: others))).
      now rewrite CookieFacts.listOfJson_toJson.
    + unfold FileImport.handleTextFile.
      rewrite Hshape at 1. cbn [includesUnit Ascii.eqb Bool.eqb orb].
      rewrite parse_serialize. cbn [Json.isArray].
      now rewrite CookieFacts.listOfJson_toJson.
  - intros enhanced cipherText data.
    assert (Hshape : exists rest, data = String "{" rest).
    { subst data. unfold JSON_stringify, wrap.
      cbn [map Json.stringify Json.join_comma append].
      eexists. reflexivity. }
    destruct Hshape as [rest Hshape].
    assert (Hparse : JSON_parse data = Some (wrap enhanced cipherText))
      by apply parse_wrap.
    split.
    + unfold FileImport.handleJsonFile.
      rewrite Hshape, JsonImportFacts.not_empty by reflexivity.
      rewrite <- Hshape, Hparse. reflexivity.
    + unfold FileImport.handleTextFile.
      rewrite Hshape at 1. cbn [includesUnit Ascii.eqb Bool.eqb orb].
      rewrite Hparse. reflexivity.
Qed.

Lemma import_tells_plain_from_encrypted_witness :
  let snapshot :=
    [Samples.session_cookie "sid" ".example.org";
     Samples.dated_cookie "theme" "shop.example"
       (Num.Dec 180000000012345 Num.D6 5)] in
  FileImport.handleJsonFile (serialize snapshot)
  = Some (FileImport.RestoreUnencrypted snapshot)
  /\ FileImport.handleTextFile (serialize snapshot)
     = Some (FileImport.RestoreUnencrypted snapshot).
Proof.
  intros snapshot.
  exact (proj1 import_tells_plain_from_encrypted
           (Samples.session_cookie "sid" ".example.org")
           [Samples.dated_cookie "theme" "shop.example"
       (Num.Dec 180000000012345 Num.D6 5)]
           eq_refl eq_refl).
Defined.

Module CsvFacts.
Import FileImport.

Lemma includesUnit_app c a b :
  includesUnit c (a ++ b) = includesUnit c a || includesUnit c b.
Proof.
  induction a as [|x a IH]; [reflexivity|].
  cbn [append includesUnit]. now rewrite IH, orb_assoc.
Qed.

Lemma split_none sep s : includesUnit sep s = false -> split sep s = [s].
Proof.
  induction s as [|c s IH]; [reflexivity|].
  cbn [includesUnit]. intros H. apply orb_false_iff in H as [Hc Hs].
  cbn [split]. now rewrite Hc, (IH Hs).
Qed.

Lemma split_first sep a b :
  includesUnit sep a = false ->
  split sep (a ++ String sep b) = a :: split sep b.
Proof.
  induction a as [|c a IH]; intros H.
  - cbn [append split]. now rewrite Ascii.eqb_refl.
  - cbn [includesUnit] in H. apply orb_false_iff in H as [Hc Ha].
    cbn [append split]. now rewrite Hc, (IH Ha).
Qed.

Lemma trimStart_length s :
  (String.length (trimStart s) <= String.length s)%nat.
Proof.
  induction s as [|c s IH]; [reflexivity|].
  cbn [trimStart]. destruct (isSpace c); cbn [String.length]; lia.
Qed.

Lemma trimEnd_length s :
  (String.length (trimEnd s) <= String.length s)%nat.
Proof.
  induction s as [|c s IH]; [reflexivity|].
  cbn [trimEnd]. destruct (trimEnd s) as [|k kept].
  - destruct (isSpace c); cbn [String.length]; lia.
  - cbn [String.length] in *. lia.
Qed.

(** A field that [trim] leaves alone does not start with white space. *)
Lemma plain_head c rest : trim (String c rest) = String c rest -> isSpace c = false.
Proof.
  intros H. destruct (isSpace c) eqn:Hc; [|reflexivity]. exfalso.
  apply (f_equal String.length) in H. unfold trim in H.
  cbn [trimStart] in H. rewrite Hc in H.
  pose proof (trimEnd_length (trimStart rest)).
  pose proof (trimStart_length rest).
  cbn [String.length] in H. lia.
Qed.

Lemma cell_value s : trim s = s -> cellValue (Some s) = s.
Proof.
  intros H. unfold cellValue.
  destruct (String.eqb_spec s EmptyString); congruence.
Qed.

Lemma split_line row :
  plainRow row ->
  split "," (csvLine row)
  = [row_domain row; row_name row; row_value row; row_path row].
Proof.
  intros ((Hd & _) & (Hn & _) & (Hv & _) & (Hp & _) & _).
  unfold csvLine. cbn [append].
  rewrite (split_first "," (row_domain row)) by assumption.
  rewrite (split_first "," (row_name row)) by assumption.
  rewrite (split_first "," (row_value row)) by assumption.
  rewrite split_none by assumption. reflexivity.
Qed.

Lemma line_is_one_line row :
  plainRow row -> includesUnit newline (csvLine row) = false.
Proof.
  intros ((_ & Hd & _) & (_ & Hn & _) & (_ & Hv & _) & (_ & Hp & _) & _).
  unfold csvLine. rewrite !includesUnit_app, Hd, Hn, Hv, Hp. reflexivity.
Qed.

Lemma line_not_blank row :
  plainRow row -> String.eqb (trim (csvLine row)) EmptyString = false.
Proof.
  intros ((_ & _ & Hd) & _ & _ & _ & Hne & _).
  unfold csvLine. destruct (row_domain row) as [|c rest]; [now elim Hne|].
  cbn [append]. apply String.eqb_neq, JsonImportFacts.trim_head.
  now apply plain_head in Hd.
Qed.

Lemma assign_domain cookie cell :
  assignColumn cookie "domain" cell
  = Cookie.mk (Some (cellValue cell)) (Cookie.expirationDate cookie)
      (Cookie.hostOnly cookie) (Cookie.httpOnly cookie) (Cookie.name cookie)
      (Cookie.path cookie) (Cookie.sameSite cookie) (Cookie.secure cookie)
      (Cookie.session cookie) (Cookie.storeId cookie) (Cookie.url cookie)
      (Cookie.value cookie).
Proof. reflexivity. Qed.

Lemma assign_name cookie cell :
  assignColumn cookie "name" cell
  = Cookie.mk (Cookie.domain cookie) (Cookie.expirationDate cookie)
      (Cookie.hostOnly cookie) (Cookie.httpOnly cookie) (Some (cellValue cell))
      (Cookie.path cookie) (Cookie.sameSite cookie) (Cookie.secure cookie)
      (Cookie.session cookie) (Cookie.storeId cookie) (Cookie.url cookie)
      (Cookie.value cookie).
Proof. reflexivity. Qed.

Lemma assign_value cookie cell :
  assignColumn cookie "value" cell
  = Cookie.mk (Cookie.domain cookie) (Cookie.expirationDate cookie)
      (Cookie.hostOnly cookie) (Cookie.httpOnly cookie) (Cookie.name cookie)
      (Cookie.path cookie) (Cookie.sameSite cookie) (Cookie.secure cookie)
      (Cookie.session cookie) (Cookie.storeId cookie) (Cookie.url cookie)
      (Some (cellValue cell)).
Proof. reflexivity. Qed.

Lemma assign_path cookie cell :
  assignColumn cookie "path" cell
  = Cookie.mk (Cookie.domain cookie) (Cookie.expirationDate cookie)
      (Cookie.hostOnly cookie) (Cookie.httpOnly cookie) (Cookie.name cookie)
      (Some (if String.eqb (cellValue cell) EmptyString then "/"
             else cellValue cell))
      (Cookie.sameSite cookie) (Cookie.secure cookie)
      (Cookie.session cookie) (Cookie.storeId cookie) (Cookie.url cookie)
      (Cookie.value cookie).
Proof. reflexivity. Qed.

Lemma row_cookie row :
  plainRow row ->
  rowCookie ["domain"; "name"; "value"; "path"] (csvLine row) = csvCookie row.
Proof.
  intros Hrow. unfold rowCookie. rewrite (split_line row Hrow).
  destruct Hrow as ((_ & _ & Hd) & (_ & _ & Hn) & (_ & _ & Hv)
                    & (_ & _ & Hp) & _).
  cbn [assignColumns nth_error].
  rewrite assign_domain. unfold Cookie.empty.
  cbn [Cookie.domain Cookie.expirationDate Cookie.hostOnly Cookie.httpOnly
       Cookie.name Cookie.path Cookie.sameSite Cookie.secure Cookie.session
       Cookie.storeId Cookie.url Cookie.value].
  rewrite assign_name.
  cbn [Cookie.domain Cookie.expirationDate Cookie.hostOnly Cookie.httpOnly
       Cookie.name Cookie.path Cookie.sameSite Cookie.secure Cookie.session
       Cookie.storeId Cookie.url Cookie.value].
  rewrite assign_value.
  cbn [Cookie.domain Cookie.expirationDate Cookie.hostOnly Cookie.httpOnly
       Cookie.name Cookie.path Cookie.sameSite Cookie.secure Cookie.session
       Cookie.storeId Cookie.url Cookie.value].
  rewrite assign_path.
  cbn [Cookie.domain Cookie.expirationDate Cookie.hostOnly Cookie.httpOnly
       Cookie.name Cookie.path Cookie.sameSite Cookie.secure Cookie.session
       Cookie.storeId Cookie.url Cookie.value].
  rewrite !cell_value by assumption.
  reflexivity.
Qed.

Lemma rows_read rows :
  Forall plainRow rows ->
  split newline (csvLines rows) = EmptyString :: map csvLine rows
  /\ csvRows ["domain"; "name"; "value"; "path"] (map csvLine rows)
     = map csvCookie rows.
Proof.
  induction 1 as [|row rest Hrow _ [IHs IHr]]; [split; reflexivity|].
  split.
  - cbn [csvLines map split]. rewrite Ascii.eqb_refl.
    destruct rest as [|next rest'].
    + cbn [csvLines map]. rewrite JsonFacts.append_empty.
      now rewrite split_none by now apply line_is_one_line.
    + cbn [csvLines] in *.
      rewrite split_first by now apply line_is_one_line.
      cbn [split] in IHs. rewrite Ascii.eqb_refl in IHs.
      injection IHs as IHs. now rewrite IHs.
  - cbn [map csvRows]. rewrite (line_not_blank row Hrow).
    rewrite (row_cookie row Hrow), IHr.
    destruct Hrow as (_ & _ & _ & _ & Hd & Hn).
    unfold csvCookie at 1 2. cbn [Cookie.domain Cookie.name truthy_string].
    apply String.eqb_neq in Hd, Hn. now rewrite Hd, Hn.
Qed.

End CsvFacts.

(** X20. The CSV import reads back a plain table.  For a table with the
    header of the four known columns and at least one row, whose fields hold
    no comma, no line feed and no white space at either end and whose domain
    and name are not empty, [handleCsvFile] hands to
    [restoreUnencryptedCookies] one record per row, in the order of the
    rows, with the domain, the name and the value of the row and its path,
    or the root path when the path is empty, and no other field. *)
Theorem csv_import_reads_plain_table :
  forall (first : FileImport.Row) (others : list FileImport.Row),
    Forall FileImport.plainRow (first :: others) ->
    FileImport.handleCsvFile (FileImport.csvText (first :: others))
    = FileImport.RestoreUnencrypted
        (map FileImport.csvCookie (first :: others)).
Proof.
  intros first others Hrows.
  destruct (CsvFacts.rows_read (first :: others) Hrows) as [Hsplit Hread].
  unfold FileImport.handleCsvFile, FileImport.csvText.
  assert (Hlines : split FileImport.newline
                     ("domain,name,value,path"
                      ++ FileImport.csvLines (first :: others))
                   = "domain,name,value,path"
                     :: map FileImport.csvLine (first :: others)).
  { cbn [FileImport.csvLines] in *.
    rewrite CsvFacts.split_first by reflexivity.
    cbn [split] in Hsplit. rewrite Ascii.eqb_refl in Hsplit.
    injection Hsplit as Hsplit. now rewrite Hsplit. }
  rewrite Hlines. cbn [map] in *.
  change (map (fun h => toLowerCase (trim h))
            (split "," "domain,name,value,path"))
    with ["domain"; "name"; "value"; "path"].
  rewrite Hread. reflexivity.
Qed.

Lemma csv_import_reads_plain_table_witness :
  let first :=
    {| FileImport.row_domain := ".example.org";
       FileImport.row_name := "sid"; FileImport.row_value := "abc123";
       FileImport.row_path := EmptyString |} in
  let second :=
    {| FileImport.row_domain := "shop.example";
       FileImport.row_name := "theme"; FileImport.row_value := "dark";
       FileImport.row_path := "/account" |} in
  FileImport.handleCsvFile (FileImport.csvText [first; second])
  = FileImport.RestoreUnencrypted
      [FileImport.csvCookie first; FileImport.csvCookie second].
Proof.
  intros first second.
  apply (csv_import_reads_plain_table first [second]).
  repeat constructor; discriminate.
Defined.

Lemma assignColumn_keeps cookie header cell :
  FileImport.fourFieldsOnly cookie ->
  FileImport.fourFieldsOnly (FileImport.assignColumn cookie header cell).
Proof.
  intros H. unfold FileImport.assignColumn.
  destruct (String.eqb header "domain"); [exact H|].
  destruct (String.eqb header "name"); [exact H|].
  destruct (String.eqb header "value"); [exact H|].
  destruct (String.eqb header "path"); exact H.
Qed.

Lemma assignColumns_keeps headers values :
  forall cookie index,
    FileImport.fourFieldsOnly cookie ->
    FileImport.fourFieldsOnly
      (FileImport.assignColumns cookie headers values index).
Proof.
  induction headers as [|header rest IH]; intros cookie index H; [exact H|].
  cbn [FileImport.assignColumns]. apply IH. now apply assignColumn_keeps.
Qed.

Lemma csvRows_complete headers lines :
  Forall (fun cookie =>
            truthy_string (Cookie.domain cookie) = true
            /\ truthy_string (Cookie.name cookie) = true
            /\ FileImport.fourFieldsOnly cookie)
    (FileImport.csvRows headers lines)
  /\ (List.length (FileImport.csvRows headers lines) <= List.length lines)%nat.
Proof.
  induction lines as [|line rest [IH IHlen]]; [split; [constructor|reflexivity]|].
  cbn [FileImport.csvRows List.length].
  destruct (String.eqb (trim line) EmptyString); [split; [exact IH|lia]|].
  destruct (truthy_string (Cookie.domain (FileImport.rowCookie headers line))
            && truthy_string (Cookie.name (FileImport.rowCookie headers line)))
    eqn:Hok; [|split; [exact IH|lia]].
  apply andb_true_iff in Hok as [Hd Hn].
  split; [|cbn [List.length]; lia].
  constructor; [|exact IH].
  split; [exact Hd|split; [exact Hn|]].
  apply assignColumns_keeps. repeat split.
Qed.

(** X21. What the CSV import never passes on.  Whatever the file holds,
    the records that [handleCsvFile] hands to [restoreUnencryptedCookies]
    all have a domain and a name that are not empty, there is at least one
    of them and at most one per line after the header, and none carries an
    expiry date or a flag: rows without a domain or a name are dropped, and
    columns other than the four known ones are ignored. *)
Theorem csv_import_passes_four_fields :
  forall (content : string) (cookies : list Cookie.t),
    FileImport.handleCsvFile content = FileImport.RestoreUnencrypted cookies ->
    cookies <> []
    /\ (List.length cookies < List.length (split FileImport.newline content))%nat
    /\ Forall (fun cookie =>
                 truthy_string (Cookie.domain cookie) = true
                 /\ truthy_string (Cookie.name cookie) = true
                 /\ FileImport.fourFieldsOnly cookie) cookies.
Proof.
  intros content cookies. unfold FileImport.handleCsvFile.
  destruct (split FileImport.newline content) as [|first [|second lines]];
    try discriminate.
  set (headers := map (fun h => toLowerCase (trim h)) (split "," first)).
  destruct (csvRows_complete headers (second :: lines)) as [Hall Hlen].
  destruct (FileImport.csvRows headers (second :: lines)) as [|c cs];
    [discriminate|].
  intros [= <-]. split; [discriminate|]. split; [|exact Hall].
  cbn [List.length] in *. lia.
Qed.

Lemma csv_import_passes_four_fields_witness :
  let content :=
    "Name,Secure,Domain" ++ String FileImport.newline
      ("sid,true,.example.org" ++ String FileImport.newline "orphan,false,") in
  exists cookies,
    FileImport.handleCsvFile content = FileImport.RestoreUnencrypted cookies
    /\ List.length cookies = 1%nat
    /\ Forall (fun cookie =>
                 truthy_string (Cookie.domain cookie) = true
                 /\ truthy_string (Cookie.name cookie) = true
                 /\ FileImport.fourFieldsOnly cookie) cookies.
Proof.
  intros content.
  assert (Hrun : FileImport.handleCsvFile content
                 = FileImport.RestoreUnencrypted
                     [Cookie.mk (Some ".example.org") None None None
                        (Some "sid") None None None None None None None])
    by (vm_compute; reflexivity).
  eexists. split; [exact Hrun|]. split; [reflexivity|].
  exact (proj2 (proj2 (csv_import_passes_four_fields content _ Hrun))).
Defined.

Module SelectiveBackupFacts.
Import SelectiveBackup.

Lemma groupOf_push domain cookie grouped d :
  groupOf d (push domain cookie grouped)
  = if String.eqb d domain
    then option_map (fun g => (g ++ [cookie])%list) (groupOf d grouped)
    else groupOf d grouped.
Proof.
  induction grouped as [|[key cookies] rest IH]; cbn [push groupOf].
  - now destruct (String.eqb d domain).
  - destruct (String.eqb_spec domain key) as [Hdk|Hne]; cbn [groupOf].
    + subst key. now destruct (String.eqb d domain).
    + destruct (String.eqb_spec d key) as [Hd|Hd]; [|exact IH].
      subst key.
      destruct (String.eqb_spec d domain); [congruence|reflexivity].
Qed.

Lemma groupOf_app d (grouped : Groups) key cookies :
  groupOf d (grouped ++ [(key, cookies)])%list
  = match groupOf d grouped with
    | Some g => Some g
    | None => if String.eqb d key then Some cookies else None
    end.
Proof.
  induction grouped as [|[k g] rest IH]; cbn [app groupOf]; [reflexivity|].
  now destruct (String.eqb d k).
Qed.

Lemma groupLoop_groups cookies :
  forall grouped groups d,
    groupLoop cookies grouped = Normal groups ->
    groupOf d groups
    = match groupOf d grouped, members d cookies with
      | Some g, more => Some (g ++ more)%list
      | None, [] => None
      | None, more => Some more
      end.
Proof.
  induction cookies as [|cookie rest IH]; intros grouped groups d Hrun.
  - cbn in Hrun. injection Hrun as <-. cbn [members filter].
    destruct (groupOf d grouped); [now rewrite app_nil_r|reflexivity].
  - cbn [groupLoop] in Hrun. unfold groupStep in Hrun.
    destruct (groupOf (groupKey cookie) grouped) as [g0|] eqn:Hown.
    + cbn [bind] in Hrun. rewrite (IH _ _ d Hrun), groupOf_push.
      unfold members. cbn [filter].
      destruct (String.eqb_spec (groupKey cookie) d) as [Heq|Hne].
      * subst d. rewrite String.eqb_refl, Hown. cbn [option_map].
        now rewrite <- app_assoc.
      * destruct (String.eqb_spec d (groupKey cookie)); [congruence|].
        reflexivity.
    + destruct (existsb (String.eqb (groupKey cookie)) inheritedKeys);
        [discriminate Hrun|].
      cbn [bind] in Hrun. rewrite (IH _ _ d Hrun), groupOf_app.
      unfold members. cbn [filter].
      destruct (String.eqb_spec (groupKey cookie) d) as [Heq|Hne].
      * subst d. rewrite String.eqb_refl, Hown. reflexivity.
      * destruct (String.eqb_spec d (groupKey cookie)); [congruence|].
        now destruct (groupOf d grouped).
Qed.

End SelectiveBackupFacts.

Lemma groupKey_not_empty cookie : SelectiveBackup.groupKey cookie <> EmptyString.
Proof.
  unfold SelectiveBackup.groupKey, or_string.
  destruct (Cookie.domain cookie) as [d|]; [|discriminate].
  destruct (String.eqb_spec d EmptyString); [discriminate|assumption].
Qed.

Lemma groupKey_domain cookie d :
  Cookie.domain cookie = Some d -> d <> EmptyString ->
  SelectiveBackup.groupKey cookie = d.
Proof.
  intros Hd Hne. unfold SelectiveBackup.groupKey, or_string. rewrite Hd.
  destruct (String.eqb_spec d EmptyString); [contradiction|reflexivity].
Qed.

(** X22. The selection dialog files every cookie under one key.  Unless a
    cookie carries as its domain one of the names that every object
    inherits, in which case [groupCookiesByDomain] throws a type error,
    the group shown for a key holds exactly the cookies whose domain is that
    key, in the order of the cookie store, the cookies without a domain
    being filed under [unknown]; no group is empty. *)
Theorem groups_partition_cookies :
  forall cookies : list Cookie.t,
    ((forall cookie,
         In cookie cookies ->
         ~ In (SelectiveBackup.groupKey cookie) SelectiveBackup.inheritedKeys) ->
     exists groups,
       SelectiveBackup.groupCookiesByDomain cookies = Normal groups
       /\ forall d,
           SelectiveBackup.groupOf d groups
           = match SelectiveBackup.members d cookies with
             | [] => None
             | group => Some group
             end)
    /\ ((exists cookie,
            In cookie cookies
            /\ In (SelectiveBackup.groupKey cookie)
                 SelectiveBackup.inheritedKeys) ->
        SelectiveBackup.groupCookiesByDomain cookies = Throw TypeError).
Proof.
  intros cookies. unfold SelectiveBackup.groupCookiesByDomain.
  (* a key of its own is never an inherited name *)
  assert (Hinv : forall cs grouped,
             (forall d, SelectiveBackup.groupOf d grouped <> None ->
                        ~ In d SelectiveBackup.inheritedKeys) ->
             ((forall c, In c cs ->
                         ~ In (SelectiveBackup.groupKey c)
                              SelectiveBackup.inheritedKeys) ->
              exists groups,
                SelectiveBackup.groupLoop cs grouped = Normal groups)
             /\ ((exists c, In c cs
                            /\ In (SelectiveBackup.groupKey c)
                                 SelectiveBackup.inheritedKeys) ->
                 SelectiveBackup.groupLoop cs grouped = Throw TypeError)).
  { induction cs as [|c cs IH]; intros grouped Hgrouped.
    - split; [intros _; now eexists|intros (c & [] & _)].
    - cbn [SelectiveBackup.groupLoop]. unfold SelectiveBackup.groupStep.
      destruct (SelectiveBackup.groupOf (SelectiveBackup.groupKey c) grouped)
        as [g|] eqn:Hg.
      + cbn [bind].
        assert (Hnext : forall d,
                   SelectiveBackup.groupOf d
                     (SelectiveBackup.push (SelectiveBackup.groupKey c) c
                        grouped) <> None ->
                   ~ In d SelectiveBackup.inheritedKeys).
        { intros d. rewrite SelectiveBackupFacts.groupOf_push.
          destruct (String.eqb_spec d (SelectiveBackup.groupKey c)) as [->|_].
          - intros _. apply Hgrouped. now rewrite Hg.
          - apply Hgrouped. }
        destruct (IH _ Hnext) as [IHok IHbad]. split.
        * intros Hall. apply IHok. intros c' Hc'. apply Hall. now right.
        * intros (c' & [<-|Hin] & Hbad).
          -- exfalso. apply (Hgrouped (SelectiveBackup.groupKey c));
               [now rewrite Hg|exact Hbad].
          -- apply IHbad. now exists c'.
      + destruct (existsb (String.eqb (SelectiveBackup.groupKey c))
                    SelectiveBackup.inheritedKeys) eqn:Hinh.
        * split; [|reflexivity].
          intros Hall. exfalso. apply (Hall c); [now left|].
          apply existsb_exists in Hinh. destruct Hinh as (x & Hx & Heq).
          apply String.eqb_eq in Heq. now subst x.
        * cbn [bind].
          assert (Hnot : ~ In (SelectiveBackup.groupKey c)
                           SelectiveBackup.inheritedKeys).
          { intros Hin.
            assert (Ht : existsb (String.eqb (SelectiveBackup.groupKey c))
                           SelectiveBackup.inheritedKeys = true).
            { apply existsb_exists. eexists. split; [exact Hin|].
              apply String.eqb_refl. }
            congruence. }
          assert (Hnext : forall d,
                     SelectiveBackup.groupOf d
                       (grouped ++ [(SelectiveBackup.groupKey c, [c])])%list
                     <> None ->
                     ~ In d SelectiveBackup.inheritedKeys).
          { intros d. rewrite SelectiveBackupFacts.groupOf_app.
            destruct (SelectiveBackup.groupOf d grouped) eqn:Hd.
            - intros _. apply Hgrouped. now rewrite Hd.
            - destruct (String.eqb_spec d (SelectiveBackup.groupKey c))
                as [->|_]; [intros _; exact Hnot|intros H; now elim H]. }
          destruct (IH _ Hnext) as [IHok IHbad]. split.
          -- intros Hall. apply IHok. intros c' Hc'. apply Hall. now right.
          -- intros (c' & [<-|Hin] & Hbad); [contradiction|].
             apply IHbad. now exists c'. }
  destruct (Hinv cookies []) as [Hok Hbad].
  { intros d H. now elim H. }
  split; [|exact Hbad].
  intros Hall. destruct (Hok Hall) as [groups Hrun].
  exists groups. split; [exact Hrun|].
  intros d. rewrite (SelectiveBackupFacts.groupLoop_groups _ _ _ d Hrun).
  reflexivity.
Qed.

Lemma groups_partition_cookies_witness :
  let cookies :=
    [Samples.session_cookie "sid" ".example.org";
     Samples.session_cookie "cart" "shop.example";
     Samples.dated_cookie "theme" ".example.org" 1800000000] in
  exists groups,
    SelectiveBackup.groupCookiesByDomain cookies = Normal groups
    /\ forall d,
        SelectiveBackup.groupOf d groups
        = match SelectiveBackup.members d cookies with
          | [] => None
          | group => Some group
          end.
Proof.
  intros cookies.
  apply (proj1 (groups_partition_cookies cookies)).
  intros cookie Hin.
  repeat (destruct Hin as [<-|Hin]; [cbn; intuition discriminate|]).
  destruct Hin.
Defined.

Lemma no_empty_key cookies : SelectiveBackup.members EmptyString cookies = [].
Proof.
  unfold SelectiveBackup.members.
  induction cookies as [|c cs IH]; [reflexivity|].
  cbn [filter].
  destruct (String.eqb_spec (SelectiveBackup.groupKey c) EmptyString)
    as [Heq|_]; [now apply groupKey_not_empty in Heq|exact IH].
Qed.

(** X23. A selective backup holds the selected groups, less the cookies
    without a domain.  When the user ticks some of the groups that the
    dialog shows and confirms, [backupSelectedCookies] stores the ticked
    keys, and the cookies that [handleEncPasswdSubmit] then keeps are, in the
    order of the cookie store, the cookies of the ticked groups whose domain
    is present and not empty: a cookie shown under [unknown] for want of a
    domain is never part of the backup, even with that group ticked. *)
Theorem selection_backs_up_selected_groups :
  forall (cookies : list Cookie.t) (groups : SelectiveBackup.Groups)
         (selectedCookies : list string) (previous : option (list string)),
    SelectiveBackup.groupCookiesByDomain cookies = Normal groups ->
    selectedCookies <> [] ->
    (forall d, In d selectedCookies ->
               SelectiveBackup.groupOf d groups <> None) ->
    exists selection,
      SelectiveBackup.backupSelectedCookies selectedCookies previous
      = (None, selection)
      /\ filter (cookieFilter selection) cookies
         = filter (fun cookie =>
                     truthy_string (Cookie.domain cookie)
                     && existsb (String.eqb (SelectiveBackup.groupKey cookie))
                          selectedCookies)
             cookies.
Proof.
  intros cookies groups selectedCookies previous Hgroups Hsome Hshown.
  exists (Some selectedCookies). split.
  { destruct selectedCookies; [now elim Hsome|reflexivity]. }
  assert (Hkeys : forall d, In d selectedCookies -> d <> EmptyString).
  { intros d Hd Hempty. subst d. apply (Hshown EmptyString Hd).
    unfold SelectiveBackup.groupCookiesByDomain in Hgroups.
    rewrite (SelectiveBackupFacts.groupLoop_groups _ _ _ EmptyString Hgroups).
    cbn [SelectiveBackup.groupOf].
    now rewrite no_empty_key. }
  clear Hgroups Hshown.
  apply filter_ext. intros cookie.
  unfold cookieFilter. destruct selectedCookies as [|d ds]; [now elim Hsome|].
  destruct (Cookie.domain cookie) as [dom|] eqn:Hdom; [|reflexivity].
  cbn [truthy_string].
  destruct (String.eqb_spec dom EmptyString) as [->|Hne]; cbn [negb andb].
  - destruct (existsb (String.eqb EmptyString) (d :: ds)) eqn:Hex;
      [|reflexivity].
    apply existsb_exists in Hex. destruct Hex as (x & Hx & Heq).
    apply String.eqb_eq in Heq. subst x. now elim (Hkeys EmptyString Hx).
  - now rewrite (groupKey_domain cookie dom Hdom Hne).
Qed.

Lemma selection_backs_up_selected_groups_witness :
  let nameless :=
    Cookie.mk None None None None (Some "tracker") (Some "/") None None None
      None None (Some "1") in
  let cookies := [Samples.session_cookie "sid" ".example.org"; nameless] in
  exists groups selection,
    SelectiveBackup.groupCookiesByDomain cookies = Normal groups
    /\ SelectiveBackup.groupOf "unknown" groups = Some [nameless]
    /\ SelectiveBackup.backupSelectedCookies ["unknown"] None
       = (None, selection)
    /\ filter (cookieFilter selection) cookies = [].
Proof.
  intros nameless cookies.
  assert (Hgroups : SelectiveBackup.groupCookiesByDomain cookies
                    = Normal [(".example.org",
                               [Samples.session_cookie "sid" ".example.org"]);
                              ("unknown", [nameless])]) by reflexivity.
  destruct (selection_backs_up_selected_groups cookies _ ["unknown"] None
              Hgroups)
    as (selection & Hrun & Hkept).
  - discriminate.
  - intros d [<-|[]]. discriminate.
  - eexists _, selection. split; [exact Hgroups|].
    split; [reflexivity|]. split; [exact Hrun|].
    rewrite Hkept. reflexivity.
Defined.

Module ProfileBackupFacts.
Import ProfileBackup.

Lemma backupData_well_formed profile timestamp filteredCookies :
  Json.WellFormed (backupData profile timestamp filteredCookies).
Proof.
  unfold backupData. constructor.
  - cbn [map fst].
    repeat (constructor; [cbn [In]; intuition discriminate|]). constructor.
  - JsonFacts.plain_keys.
  - repeat constructor; cbn [snd].
    + destruct (id profile); cbn [Cookie.opt_member app map fst].
      * repeat (constructor; [cbn [In]; intuition discriminate|]).
        constructor.
      * repeat (constructor; [cbn [In]; intuition discriminate|]).
        constructor.
    + destruct (id profile); JsonFacts.plain_keys.
    + destruct (id profile); repeat constructor.
    + induction (domains profile); constructor; [constructor|assumption].
    + induction filteredCookies; constructor;
        [apply CookieFacts.toJson_well_formed|assumption].
Qed.

End ProfileBackupFacts.

(** X24. A backup made through a profile cannot be restored.  With the
    standard encryption of a profile, [backupWithProfile] encrypts an object
    that holds the cookies among other members, not the array of the cookies.
    For a cipher whose decryption undoes its encryption and whose cipher
    text is not shaped like an envelope, the restore handler of the popup,
    given the file and its password, stops at the notice of an unknown error
    and leaves the cookie store alone, and [restoreCookies] throws the error
    about the format before it removes or sets any cookie. *)
Theorem profile_backup_cannot_be_restored :
  forall (Rand : Type)
         (sjcl_encrypt : Rand -> string -> string -> SjclParams -> string)
         (encryptWithMaximumSecurity : Rand -> string -> string -> string)
         (sjcl_decrypt : string -> json -> completion string),
    (forall r password plaintext params,
        sjcl_decrypt password (JStr (sjcl_encrypt r password plaintext params))
        = Normal plaintext) ->
    (forall r password plaintext params,
        JSON_parse (sjcl_encrypt r password plaintext params) = None
        \/ exists members,
            JSON_parse (sjcl_encrypt r password plaintext params)
            = Some (JObj members)
            /\ Json.lookup "payload" members = None) ->
    forall (profile : ProfileBackup.Profile) (allCookies : list Cookie.t)
           (timestamp later : string) (password : option string) (salt : Rand)
           (effects : list ProfileBackup.Effect)
           (summary : ProfileBackup.Summary),
      ProfileBackup.encryption profile = "standard" ->
      ProfileBackup.backupWithProfile sjcl_encrypt encryptWithMaximumSecurity
        (Some profile) allCookies timestamp later password salt
      = (effects, Normal summary) ->
      exists text,
        In (ProfileBackup.Download text (ProfileBackup.filename summary))
          effects
        /\ (forall (Browser : Type)
                   (cookies_set :
                      Browser -> Cookie.t -> Browser * option string)
                   (enhanced : bool) (epoch : Num.t) (browser : Browser),
               handleDecPasswdSubmit sjcl_decrypt cookies_set enhanced
                 (to_text password) text epoch browser
               = Some ([Alert "Unknown error during decryption!"], browser))
        /\ (forall (Browser : Type)
                   (cookies_set :
                      Browser -> Cookie.t -> Browser * option string)
                   (cookies_getAll : Browser -> list Cookie.t)
                   (cookies_remove :
                      Browser -> string -> option string
                      -> Browser * option string)
                   (clearExisting : bool) (browser : Browser),
               restoreCookies sjcl_decrypt cookies_set cookies_getAll
                 cookies_remove text password clearExisting browser
               = Some ([ConsoleError "Restore failed:";
                        RestoreFailedWarning
                          (JsError "Invalid backup format")],
                       browser, Throw (JsError "Invalid backup format"))).
Proof.
  intros Rand sjcl_encrypt encryptWithMaximumSecurity sjcl_decrypt Hdec
    Hshape profile allCookies timestamp later password salt effects summary
    Hstandard Hrun.
  unfold ProfileBackup.backupWithProfile in Hrun.
  destruct (ProfileBackup.filterCookies profile allCookies)
    as [[|c filtered]|error]; cbn [bind] in Hrun;
    try (injection Hrun as _ Hrun; discriminate Hrun).
  unfold ProfileBackup.finalData in Hrun. rewrite Hstandard in Hrun.
  cbn [String.eqb Ascii.eqb Bool.eqb] in Hrun.
  destruct (truthy_string password) eqn:Hpass; cbn [bind] in Hrun;
    [|injection Hrun as _ Hrun; discriminate Hrun].
  injection Hrun as <- <-. cbn [ProfileBackup.filename].
  set (data := ProfileBackup.backupData profile timestamp (c :: filtered)).
  set (text := sjcl_encrypt salt (to_text password) (JSON_stringify data) None).
  assert (Hparse : JSON_parse (JSON_stringify data) = Some data)
    by apply JsonFacts.parse_stringify,
             ProfileBackupFacts.backupData_well_formed.
  exists text. split; [left; reflexivity|]. split.
  - intros Browser cookies_set enhanced epoch browser.
    unfold handleDecPasswdSubmit.
    replace (String.length (to_text password) <? 1)%nat with false.
    2: { destruct password as [[|x p]|]; try discriminate Hpass.
         reflexivity. }
    unfold decodeBackup. rewrite unwrap_unrecognised.
    + unfold decodeCiphertext. subst text. rewrite Hdec. cbn [bind].
      replace (if enhanced
               then EnhancedFeatures.decompressData (JSON_stringify data)
               else JSON_stringify data)
        with (JSON_stringify data) by now destruct enhanced.
      rewrite Hparse. reflexivity.
    + intros members payload (Hp & _ & Hpl & _).
      destruct (Hshape salt (to_text password) (JSON_stringify data) None)
        as [Hnone|(members' & Hp' & Hno)]; subst text; [congruence|].
      rewrite Hp in Hp'. injection Hp' as <-. congruence.
  - intros Browser cookies_set cookies_getAll cookies_remove clearExisting
      browser.
    unfold restoreCookies, parseBackup. rewrite Hpass. subst text.
    rewrite Hdec. cbn [bind]. rewrite Hparse. reflexivity.
Qed.

Lemma profile_backup_cannot_be_restored_witness :
  let profile :=
    {| ProfileBackup.id := Some "profile_1700000000000";
       ProfileBackup.name := "Work sites";
       ProfileBackup.domains := ["example.org"];
       ProfileBackup.encryption := "standard";
       ProfileBackup.lastUsed := None;
       ProfileBackup.backupCount := None |} in
  let allCookies :=
    [Samples.session_cookie "sid" ".example.org";
     Samples.session_cookie "cart" "shop.example"] in
  exists text,
    fst (ProfileBackup.backupWithProfile Samples.sjcl_like_encrypt
           (fun _ data _ => data) (Some profile) allCookies
           "2026-11-01T10:00:00.000Z" "2026-11-01T10:00:00.120Z"
           (Some "hunter2") "c2FsdA==")
    = [ProfileBackup.Download text "cookies-Work-sites-2026-11-01.ckz";
       ProfileBackup.SaveBackupProfile
         {| ProfileBackup.id := Some "profile_1700000000000";
            ProfileBackup.name := "Work sites";
            ProfileBackup.domains := ["example.org"];
            ProfileBackup.encryption := "standard";
            ProfileBackup.lastUsed := Some "2026-11-01T10:00:00.000Z";
            ProfileBackup.backupCount := Some 1 |}]
    /\ handleDecPasswdSubmit Samples.sjcl_like_decrypt (Samples.store []) true
         "hunter2" text 1800000000 0%nat
       = Some ([Alert "Unknown error during decryption!"], 0%nat).
Proof.
  intros profile allCookies.
  destruct (profile_backup_cannot_be_restored string Samples.sjcl_like_encrypt
              (fun _ data _ => data) Samples.sjcl_like_decrypt
              SampleFacts.decrypt_encrypt sample_cipher_text_is_no_envelope
              profile allCookies "2026-11-01T10:00:00.000Z"
              "2026-11-01T10:00:00.120Z" (Some "hunter2") "c2FsdA=="
              _ _ eq_refl eq_refl)
    as (text & Hin & Hpopup & _).
  exists text. split.
  - destruct Hin as [Hin|[Hin|[]]]; [|discriminate Hin].
    injection Hin as <-. reflexivity.
  - exact (Hpopup nat (Samples.store []) true 1800000000 0%nat).
Defined.

(** X25. The password of an automatic Telegram backup is the date.  The
    text that [automaticCookieBackup] sends is the whole cookie store,
    encrypted under the word [auto_backup_] followed by the day of the
    backup: for a cipher whose decryption undoes its encryption,
    [restoreCookies], given the text and that password, issues one
    cookie-set call for each cookie of the store, in order.  The copy kept
    in the local storage is not encrypted at all. *)
Theorem automatic_backup_password_is_the_date :
  forall (Rand : Type)
         (sjcl_encrypt : Rand -> string -> string -> SjclParams -> string)
         (sjcl_decrypt : string -> json -> completion string),
    (forall r password plaintext params,
        sjcl_decrypt password (JStr (sjcl_encrypt r password plaintext params))
        = Normal plaintext) ->
    forall (req : AutomaticBackup.Request) (all : list Cookie.t)
           (encryptedData filename : string),
      AutomaticBackup.cookies req = Normal all ->
      In (AutomaticBackup.SendBackupToTelegram encryptedData filename)
        (AutomaticBackup.automaticCookieBackup sjcl_encrypt req) ->
      (exists key timestamp profileName,
          In (AutomaticBackup.StorageSet key
                (JObj [("timestamp", timestamp); ("profileName", profileName);
                       ("cookieCount", JNum (Z.of_nat (List.length all)));
                       ("cookies", JArr (map Cookie.toJson all))]))
            (AutomaticBackup.automaticCookieBackup sjcl_encrypt req))
      /\ forall (Browser : Type)
                (cookies_set : Browser -> Cookie.t -> Browser * option string)
                (cookies_getAll : Browser -> list Cookie.t)
                (cookies_remove :
                   Browser -> string -> option string
                   -> Browser * option string)
                (browser : Browser),
          exists events browser' successCount failCount,
            restoreCookies sjcl_decrypt cookies_set cookies_getAll
              cookies_remove encryptedData
              (Some ("auto_backup_"
                     ++ datePart (AutomaticBackup.toISOString req)))
              false browser
            = Some (events, browser', Normal (successCount, failCount))
            /\ setCalls events = map newCookie all.
Proof.
  intros Rand sjcl_encrypt sjcl_decrypt Hdec req all encryptedData filename
    Hall Hin.
  unfold AutomaticBackup.automaticCookieBackup in *. rewrite Hall in *.
  destruct all as [|c cs]; [destruct Hin as [Hin|[]]; discriminate Hin|].
  destruct (AutomaticBackup.savedProfileName req) as [saved|];
    [|destruct Hin as [Hin|[]]; discriminate Hin].
  destruct (AutomaticBackup.setError req).
  { destruct Hin as [Hin|[Hin|[]]]; discriminate Hin. }
  destruct (AutomaticBackup.autoTelegramBackup req) as [[|]|].
  2: { destruct Hin as [Hin|[Hin|[Hin|[]]]]; discriminate Hin. }
  2: { destruct Hin as [Hin|[Hin|[]]]; discriminate Hin. }
  destruct Hin as [Hin|[Hin|[Hin|[Hin|[]]]]]; try discriminate Hin.
  injection Hin as <- _.
  split.
  { eexists _, _, _. left. reflexivity. }
  intros Browser cookies_set cookies_getAll cookies_remove browser.
  unfold restoreCookies, parseBackup, AutomaticBackup.simplePassword.
  cbn [truthy_string append String.eqb negb to_text].
  rewrite Hdec. cbn [bind]. rewrite parse_serialize.
  cbn [of_option bind Json.isArray]. rewrite CookieFacts.listOfJson_toJson.
  pose proof (restoreLoop_counts cookies_set (c :: cs) browser 0%nat 0%nat)
    as Hcount.
  destruct (restoreLoop cookies_set (c :: cs) browser 0 0)
    as [[[ev b] sc] fc].
  destruct Hcount as [Hcalls _].
  exists (ev ++ [RestoreSummary sc fc])%list, b, sc, fc.
  split; [reflexivity|].
  rewrite setCalls_app, Hcalls. cbn [setCalls]. now rewrite app_nil_r.
Qed.

Lemma automatic_backup_password_is_the_date_witness :
  let all :=
    [Samples.session_cookie "sid" ".example.org";
     Samples.dated_cookie "theme" "shop.example"
       (Num.Dec 180000000012345 Num.D6 5)] in
  let req :=
    {| AutomaticBackup.cookies := Normal all;
       AutomaticBackup.savedProfileName := Normal (Some "work");
       AutomaticBackup.date :=
         {| AutomaticBackup.getDate := 1; AutomaticBackup.getMonth := 10;
            AutomaticBackup.getFullYear := 2026;
            AutomaticBackup.getHours := 9; AutomaticBackup.getMinutes := 5;
            AutomaticBackup.getSeconds := 0 |};
       AutomaticBackup.toISOString := "2026-11-01T08:05:00.000Z";
       AutomaticBackup.now := 1793520300000;
       AutomaticBackup.setError := None;
       AutomaticBackup.autoTelegramBackup := Normal true;
       AutomaticBackup.salt := "c2FsdA==" |} in
  exists encryptedData events browser' successCount failCount,
    In (AutomaticBackup.SendBackupToTelegram encryptedData
          "cookies-auto-work-01-11-2026-09-05-00.ckz")
      (AutomaticBackup.automaticCookieBackup Samples.sjcl_like_encrypt req)
    /\ restoreCookies Samples.sjcl_like_decrypt (Samples.store [])
         (fun _ => []) (fun b _ _ => (b, None)) encryptedData
         (Some "auto_backup_2026-11-01") false 0%nat
       = Some (events, browser', Normal (successCount, failCount))
    /\ setCalls events = map newCookie all.
Proof.
  intros all req.
  assert (Hin : In (AutomaticBackup.SendBackupToTelegram
                      (Samples.sjcl_like_encrypt "c2FsdA=="
                         "auto_backup_2026-11-01" (serialize all) None)
                      "cookies-auto-work-01-11-2026-09-05-00.ckz")
                  (AutomaticBackup.automaticCookieBackup
                     Samples.sjcl_like_encrypt req))
    by (right; left; vm_compute; reflexivity).
  destruct (proj2 (automatic_backup_password_is_the_date string
                     Samples.sjcl_like_encrypt Samples.sjcl_like_decrypt
                     SampleFacts.decrypt_encrypt req all _ _ eq_refl Hin)
              nat (Samples.store []) (fun _ => []) (fun b _ _ => (b, None))
              0%nat)
    as (events & browser' & successCount & failCount & Hrun & Hcalls).
  eexists _, events, browser', successCount, failCount.
  split; [exact Hin|]. split; [exact Hrun|exact Hcalls].
Defined.

Module AutomaticBackupFacts.
Import AutomaticBackup.

Lemma no_dot_app a b :
  includesUnit "." (a ++ b) = includesUnit "." a || includesUnit "." b.
Proof.
  induction a as [|x a IH]; [reflexivity|].
  cbn [append includesUnit]. now rewrite IH, orb_assoc.
Qed.

Lemma dec_digit_no_dot d :
  0 <= d <= 9 -> Ascii.eqb (Json.dec_digit d) "." = false.
Proof.
  intros H.
  assert (Hc : d = 0 \/ d = 1 \/ d = 2 \/ d = 3 \/ d = 4 \/ d = 5 \/ d = 6
               \/ d = 7 \/ d = 8 \/ d = 9) by lia.
  repeat (destruct Hc as [->|Hc]; [reflexivity|]). now subst.
Qed.

Lemma dec_digits_no_dot fuel :
  forall n acc,
    0 <= n -> includesUnit "." acc = false ->
    includesUnit "." (Json.dec_digits fuel n acc) = false.
Proof.
  induction fuel as [|fuel IH]; intros n acc Hn Hacc; cbn [Json.dec_digits].
  - cbn [includesUnit]. rewrite Hacc, dec_digit_no_dot; [reflexivity|].
    pose proof (Z.mod_pos_bound n 10 ltac:(lia)). lia.
  - destruct (Z.ltb_spec n 10).
    + cbn [includesUnit]. rewrite Hacc, dec_digit_no_dot; [reflexivity|lia].
    + apply IH; [apply Z.div_pos; lia|].
      cbn [includesUnit]. rewrite Hacc, dec_digit_no_dot; [reflexivity|].
      pose proof (Z.mod_pos_bound n 10 ltac:(lia)). lia.
Qed.

Lemma number_no_dot n : includesUnit "." (Json.number_to_string n) = false.
Proof.
  unfold Json.number_to_string, Json.dec_nonneg.
  destruct (Z.ltb_spec n 0).
  - cbn [includesUnit Ascii.eqb Bool.eqb orb].
    apply dec_digits_no_dot; [lia|reflexivity].
  - apply dec_digits_no_dot; [lia|reflexivity].
Qed.

Lemma pad_no_dot n : includesUnit "." (pad n) = false.
Proof.
  unfold pad. destruct (String.length (Json.number_to_string n) <? 2)%nat.
  - cbn [append includesUnit Ascii.eqb Bool.eqb orb]. apply number_no_dot.
  - apply number_no_dot.
Qed.

Lemma formatDate_no_dot date : includesUnit "." (formatDate date) = false.
Proof.
  unfold formatDate.
  rewrite !no_dot_app, !pad_no_dot, number_no_dot. reflexivity.
Qed.

Lemma replace_first_dot stem rest :
  includesUnit "." stem = false ->
  replaceFirst ".json" ".ckz" (stem ++ ".json" ++ rest)
  = stem ++ ".ckz" ++ rest.
Proof.
  induction stem as [|c stem IH]; intros H; [now destruct rest|].
  cbn [includesUnit] in H. apply orb_false_iff in H as [Hc Hs].
  specialize (IH Hs). cbn [append] in IH |- *.
  cbn [replaceFirst String.prefix].
  destruct (Ascii.eqb_spec c "."); [subst c; discriminate Hc|].
  destruct (Ascii.ascii_dec "." c) as [Heq|_]; [now elim n|].
  now rewrite IH.
Qed.

Lemma replace_extension stem :
  includesUnit "." stem = false ->
  replaceFirst ".json" ".ckz" (stem ++ ".json") = stem ++ ".ckz".
Proof.
  intros H. pose proof (replace_first_dot stem EmptyString H) as Hr.
  now rewrite !JsonFacts.append_empty in Hr.
Qed.

End AutomaticBackupFacts.

(** X26. The name of the file sent to Telegram.  [automaticCookieBackup]
    turns the first [.json] of the file name into [.ckz].  When the saved
    profile name holds no dot, that is the extension: the file goes out
    under the name recorded in the history with [.ckz] in place of [.json].
    When the profile name itself holds [.json], it is the profile name that
    is changed, and the file goes out with the extension [.json]. *)
Theorem telegram_name_of_automatic_backup :
  forall (Rand : Type)
         (sjcl_encrypt : Rand -> string -> string -> SjclParams -> string)
         (req : AutomaticBackup.Request) (saved : option string)
         (encryptedData filename : string),
    AutomaticBackup.savedProfileName req = Normal saved ->
    In (AutomaticBackup.SendBackupToTelegram encryptedData filename)
      (AutomaticBackup.automaticCookieBackup sjcl_encrypt req) ->
    (includesUnit "." (or_string saved EmptyString) = false ->
     exists stem count,
       filename = stem ++ ".ckz"
       /\ In (AutomaticBackup.AddToBackupHistory "automatic"
                (stem ++ ".json") count)
            (AutomaticBackup.automaticCookieBackup sjcl_encrypt req))
    /\ (forall before after,
           saved = Some (before ++ ".json" ++ after) ->
           includesUnit "." before = false ->
           filename
           = "cookies-auto-" ++ before ++ ".ckz" ++ after ++ "-"
             ++ AutomaticBackup.formatDate (AutomaticBackup.date req)
             ++ ".json").
Proof.
  intros Rand sjcl_encrypt req saved encryptedData filename Hsaved Hin.
  unfold AutomaticBackup.automaticCookieBackup in *. rewrite Hsaved in *.
  destruct (AutomaticBackup.cookies req) as [[|c cs]|];
    try (destruct Hin as [Hin|[]]; discriminate Hin).
  destruct (AutomaticBackup.setError req).
  { destruct Hin as [Hin|[Hin|[]]]; discriminate Hin. }
  destruct (AutomaticBackup.autoTelegramBackup req) as [[|]|].
  2: { destruct Hin as [Hin|[Hin|[Hin|[]]]]; discriminate Hin. }
  2: { destruct Hin as [Hin|[Hin|[]]]; discriminate Hin. }
  destruct Hin as [Hin|[Hin|[Hin|[Hin|[]]]]]; try discriminate Hin.
  injection Hin as _ <-.
  set (timestamp := AutomaticBackup.formatDate (AutomaticBackup.date req)).
  assert (Hts : includesUnit "." timestamp = false)
    by apply AutomaticBackupFacts.formatDate_no_dot.
  split.
  - intros Hname.
    destruct (String.eqb (or_string saved EmptyString) EmptyString).
    + exists ("cookies-auto-" ++ timestamp), (List.length (c :: cs)).
      split.
      * change (replaceFirst ".json" ".ckz"
                  (("cookies-auto-" ++ timestamp) ++ ".json")
                = ("cookies-auto-" ++ timestamp) ++ ".ckz").
        apply AutomaticBackupFacts.replace_extension.
        now rewrite AutomaticBackupFacts.no_dot_app, Hts.
      * right. right. left. now rewrite !JsonFacts.append_assoc.
    + exists ("cookies-auto-" ++ or_string saved EmptyString ++ "-"
              ++ timestamp), (List.length (c :: cs)).
      split.
      * transitivity
          (replaceFirst ".json" ".ckz"
             (("cookies-auto-" ++ or_string saved EmptyString ++ "-"
               ++ timestamp) ++ ".json")).
        { f_equal. cbn [append]. rewrite ?JsonFacts.append_assoc. reflexivity. }
        apply AutomaticBackupFacts.replace_extension.
        rewrite !AutomaticBackupFacts.no_dot_app, Hname, Hts. reflexivity.
      * right. right. left. now rewrite !JsonFacts.append_assoc.
  - intros before after -> Hbefore.
    assert (Hor : or_string (Some (before ++ ".json" ++ after)) EmptyString
                  = before ++ ".json" ++ after).
    { unfold or_string.
      destruct (String.eqb_spec (before ++ ".json" ++ after) EmptyString)
        as [Heq|_]; [|reflexivity].
      destruct before; discriminate Heq. }
    rewrite Hor.
    replace (String.eqb (before ++ ".json" ++ after) EmptyString) with false
      by (symmetry; apply String.eqb_neq; destruct before; discriminate).
    transitivity
      (replaceFirst ".json" ".ckz"
         (("cookies-auto-" ++ before) ++ ".json"
          ++ (after ++ "-" ++ timestamp ++ ".json"))).
    { f_equal. cbn [append]. rewrite ?JsonFacts.append_assoc. reflexivity. }
    rewrite AutomaticBackupFacts.replace_first_dot
      by (rewrite AutomaticBackupFacts.no_dot_app, Hbefore; reflexivity).
    cbn [append]. rewrite ?JsonFacts.append_assoc. reflexivity.
Qed.

Lemma telegram_name_of_automatic_backup_witness :
  let req :=
    {| AutomaticBackup.cookies :=
         Normal [Samples.session_cookie "sid" ".example.org"];
       AutomaticBackup.savedProfileName := Normal (Some "old.json export");
       AutomaticBackup.date :=
         {| AutomaticBackup.getDate := 1; AutomaticBackup.getMonth := 10;
            AutomaticBackup.getFullYear := 2026;
            AutomaticBackup.getHours := 9; AutomaticBackup.getMinutes := 5;
            AutomaticBackup.getSeconds := 0 |};
       AutomaticBackup.toISOString := "2026-11-01T08:05:00.000Z";
       AutomaticBackup.now := 1793520300000;
       AutomaticBackup.setError := None;
       AutomaticBackup.autoTelegramBackup := Normal true;
       AutomaticBackup.salt := "c2FsdA==" |} in
  exists encryptedData filename,
    In (AutomaticBackup.SendBackupToTelegram encryptedData filename)
      (AutomaticBackup.automaticCookieBackup Samples.sjcl_like_encrypt req)
    /\ filename
       = "cookies-auto-" ++ "old" ++ ".ckz" ++ " export" ++ "-"
         ++ AutomaticBackup.formatDate (AutomaticBackup.date req) ++ ".json".
Proof.
  intros req.
  assert (Hin : In (AutomaticBackup.SendBackupToTelegram
                      (Samples.sjcl_like_encrypt "c2FsdA=="
                         "auto_backup_2026-11-01"
                         (serialize
                            [Samples.session_cookie "sid" ".example.org"])
                         None)
                      (replaceFirst ".json" ".ckz"
                         "cookies-auto-old.json export-01-11-2026-09-05-00.json"))
                  (AutomaticBackup.automaticCookieBackup
                     Samples.sjcl_like_encrypt req))
    by (right; left; vm_compute; reflexivity).
  eexists _, _. split; [exact Hin|].
  exact (proj2 (telegram_name_of_automatic_backup string
                  Samples.sjcl_like_encrypt req _ _ _ eq_refl Hin)
           "old" " export" eq_refl eq_refl).
Defined.

Module SettingsManagerFacts.
Import SettingsManager.

Lemma warning_only importData metadata effect :
  In effect (checksumWarning importData metadata) ->
  exists message, effect = ConsoleWarn message.
Proof.
  unfold checksumWarning.
  destruct (_ && _); [intros [<-|[]]; now eexists|intros []].
Qed.

Lemma basic_keys options importData :
  incl (map fst (basicItems options importData)) knownKeys.
Proof.
  unfold basicItems. destruct (givenOr (overwriteExisting options) true).
  - rewrite map_map. cbn [fst]. unfold knownKeys. apply incl_appl, incl_refl.
  - apply incl_nil_l.
Qed.

Lemma history_keys options importData items known :
  incl (map fst items) (known ++ ["backupProfiles"; "backupHistory"]) ->
  incl (map fst (withHistory options importData items))
    (known ++ ["backupProfiles"; "backupHistory"]).
Proof.
  intros Hl. unfold withHistory. destruct (_ && _); [|exact Hl].
  rewrite map_app. apply incl_app; [exact Hl|].
  intros k [<-|[]]. apply in_or_app. right. cbn. auto.
Qed.

Lemma format_checked importData metadata :
  Json.prop importData "metadata" = Some metadata ->
  negb (Json.truthy metadata)
  || Json.strict_neq_str "1.0" (metadataMember metadata "exportFormat")
  = false ->
  exists members metadata',
    importData = JObj members
    /\ Json.lookup "metadata" members = Some (JObj metadata')
    /\ Json.lookup "exportFormat" metadata' = Some (JStr "1.0").
Proof.
  intros Hmeta Hformat.
  apply orb_false_iff in Hformat as [Htruthy Hexport].
  destruct metadata as [m|]; [|discriminate Htruthy].
  unfold metadataMember, member in Hexport.
  destruct m as [| b | n | s | arr | mm]; try discriminate Hexport.
  cbn [Json.prop] in Hexport.
  destruct (Json.lookup "exportFormat" mm) as [[| | | t | |]|] eqn:Hl;
    try discriminate Hexport.
  cbn [Json.strict_neq_str] in Hexport.
  apply negb_false_iff, String.eqb_eq in Hexport. subst t.
  destruct importData as [| b | n | s | arr | members];
    try discriminate Hmeta.
  cbn [Json.prop] in Hmeta. injection Hmeta as Hmeta.
  now exists members, mm.
Qed.

(** What [prepareImport] leaves in [settingsToImport]: the basic settings
    when the import overwrites, then the profiles and the history, each
    when it is asked for and present. *)
Lemma prepared_items fileContent options existing effects items :
  prepareImport fileContent options existing = (effects, Normal items) ->
  exists importData,
    JSON_parse fileContent = Some importData
    /\ validFormat fileContent
    /\ incl (map fst items)
         (map fst (basicItems options importData)
          ++ ["backupProfiles"; "backupHistory"])
    /\ item "theme" items
       = (if givenOr (overwriteExisting options) true
          then member importData "theme" else None)
    /\ forall effect, In effect effects ->
         (exists message, effect = ConsoleWarn message)
         \/ effect = StorageGet "backupProfiles".
Proof.
  unfold prepareImport, validFormat.
  destruct (JSON_parse fileContent) as [importData|]; [|discriminate].
  destruct (Json.prop importData "metadata") as [metadata|] eqn:Hmeta;
    [|discriminate].
  destruct (negb (Json.truthy metadata)
            || Json.strict_neq_str "1.0"
                 (metadataMember metadata "exportFormat")) eqn:Hformat;
    [discriminate|].
  destruct (format_checked importData metadata Hmeta Hformat)
    as (members & mm & -> & H1 & H2).
  intros Hrun. exists (JObj members). split; [reflexivity|].
  split; [now exists members, mm|].
  assert (Htheme : forall extra,
             item "theme"
               (withHistory options (JObj members)
                  (basicItems options (JObj members) ++ extra))
             = (if givenOr (overwriteExisting options) true
                then member (JObj members) "theme"
                else item "theme" (withHistory options (JObj members) extra))).
  { intros extra. unfold withHistory, basicItems.
    destruct (givenOr (overwriteExisting options) true);
      destruct (givenOr (importHistory options) false && _); reflexivity. }
  destruct (givenOr (importProfiles options) true && _).
  - destruct existing as [existingProfiles|error]; [|discriminate Hrun].
    injection Hrun as <- <-. split; [|split].
    + apply history_keys. rewrite map_app.
      apply incl_app; [apply incl_appl, incl_refl|].
      intros k [<-|[]]. apply in_or_app. right. cbn. auto.
    + rewrite Htheme. unfold withHistory, profilesItem.
      destruct (givenOr (overwriteExisting options) true); [reflexivity|].
      destruct (givenOr (importHistory options) false && _); reflexivity.
    + intros effect Hin. apply in_app_or in Hin as [Hin|[<-|[]]];
        [left; now apply warning_only in Hin|now right].
  - injection Hrun as <- <-. split; [|split].
    + apply history_keys, incl_appl, incl_refl.
    + rewrite <- (app_nil_r (basicItems options (JObj members))), Htheme.
      unfold withHistory.
      destruct (givenOr (overwriteExisting options) true); [reflexivity|].
      destruct (givenOr (importHistory options) false && _); reflexivity.
    + intros effect Hin. left. now apply warning_only in Hin.
Qed.

Lemma prepared_errors fileContent options existing effects error :
  prepareImport fileContent options existing = (effects, Throw error) ->
  forall effect, In effect effects ->
    (exists message, effect = ConsoleWarn message)
    \/ effect = StorageGet "backupProfiles".
Proof.
  unfold prepareImport.
  destruct (JSON_parse fileContent) as [importData|];
    [|intros [= <- _] effect []].
  destruct (Json.prop importData "metadata") as [metadata|];
    [|intros [= <- _] effect []].
  destruct (negb (Json.truthy metadata) || _); [intros [= <- _] effect []|].
  destruct (givenOr (importProfiles options) true && _).
  - destruct existing; [discriminate|].
    intros [= <- _] effect Hin.
    apply in_app_or in Hin as [Hin|[<-|[]]];
      [left; now apply warning_only in Hin|now right].
  - discriminate.
Qed.

Lemma valid_prepares fileContent options existingProfiles :
  validFormat fileContent ->
  exists effects items,
    prepareImport fileContent options (Normal existingProfiles)
    = (effects, Normal items).
Proof.
  intros (members & metadata & Hparse & Hmeta & Hformat).
  unfold prepareImport. rewrite Hparse. cbn [Json.prop].
  rewrite Hmeta. unfold metadataMember, member. cbn [Json.truthy negb Json.prop orb].
  rewrite Hformat. cbn [Json.strict_neq_str String.eqb Ascii.eqb Bool.eqb negb].
  destruct (givenOr (importProfiles options) true && _);
    eexists _, _; reflexivity.
Qed.

(** The one write of [importSettings] hands over what [prepareImport]
    left in [settingsToImport]. *)
Lemma written_items fileContent options existing setError items :
  In (StorageSet items)
    (fst (importSettings fileContent options existing setError)) ->
  exists effects,
    prepareImport fileContent options existing = (effects, Normal items).
Proof.
  assert (Hno : forall effects,
             (forall effect, In effect effects ->
                (exists message, effect = ConsoleWarn message)
                \/ effect = StorageGet "backupProfiles") ->
             ~ In (StorageSet items) effects).
  { intros effects Hall Hin.
    destruct (Hall _ Hin) as [[m Hm]|Hm]; discriminate Hm. }
  unfold importSettings.
  destruct (prepareImport fileContent options existing)
    as [effects [settingsToImport|error]] eqn:Hprep.
  - destruct (prepared_items _ _ _ _ _ Hprep) as (_ & _ & _ & _ & _ & Heffects).
    assert (Hwritten : forall tail,
               (forall e, In e tail -> e <> StorageSet items) ->
               In (StorageSet items)
                 ((effects ++ [StorageSet settingsToImport]) ++ tail) ->
               items = settingsToImport).
    { intros tail Htail H. rewrite !in_app_iff in H. cbn [In] in H.
      destruct H as [[H|[H|[]]]|H].
      - now elim (Hno _ Heffects H).
      - now injection H.
      - now elim (Htail _ H). }
    intros Hin. exists effects.
    enough (items = settingsToImport) by now subst.
    destruct setError as [error|].
    + refine (Hwritten _ _ Hin); intros e He; cbn [In] in He;
             intuition (subst; discriminate).
    + destruct (themeToApply settingsToImport) as [theme|].
      * unfold applyTheme in Hin.
        destruct (toText theme) as [text|].
        -- destruct (hasTokenSpace (text ++ "-mode")).
           ++ refine (Hwritten _ _ Hin); intros e He; cbn [In] in He;
             intuition (subst; discriminate).
           ++ refine (Hwritten _ _ Hin); intros e He; cbn [In] in He;
             intuition (subst; discriminate).
        -- refine (Hwritten _ _ Hin); intros e He; cbn [In] in He;
             intuition (subst; discriminate).
      * refine (Hwritten _ _ Hin); intros e He; cbn [In] in He;
             intuition (subst; discriminate).
  - pose proof (prepared_errors _ _ _ _ _ Hprep) as Heffects.
    cbn [fst]. intros Hin. exfalso.
    apply in_app_or in Hin as [Hin|Hin]; [now elim (Hno _ Heffects Hin)|].
    destruct Hin as [Hin|[Hin|[]]]; discriminate Hin.
Qed.

End SettingsManagerFacts.

Lemma import_core (fileContent : string)
    (options : SettingsManager.ImportOptions)
    (existing : completion (option json)) (setError : option exn) :
  let run := SettingsManager.importSettings fileContent options existing
               setError in
  (forall items key,
      In (SettingsManager.StorageSet items) (fst run) ->
      In key (map fst items) ->
      In key SettingsManager.knownKeys
      /\ (SettingsManager.overwriteExisting options = Some false ->
          key = "backupProfiles" \/ key = "backupHistory"))
  /\ (snd run = true ->
      SettingsManager.validFormat fileContent /\ setError = None)
  /\ (SettingsManager.validFormat fileContent ->
      (exists existingProfiles, existing = Normal existingProfiles) ->
      setError = None ->
      SettingsManager.themeApplies fileContent ->
      snd run = true)
  /\ (~ SettingsManager.validFormat fileContent ->
      snd run = false
      /\ forall items, ~ In (SettingsManager.StorageSet items) (fst run)).
Proof.
  intros run. split; [|split; [|split]].
  - intros items key Hin Hkey.
    destruct (SettingsManagerFacts.written_items _ _ _ _ _ Hin)
      as [effects Hprep].
    destruct (SettingsManagerFacts.prepared_items _ _ _ _ _ Hprep)
      as (importData & _ & _ & Hkeys & _).
    specialize (Hkeys key Hkey). apply in_app_or in Hkeys. split.
    + destruct Hkeys as [Hbasic|Hother].
      * now apply (SettingsManagerFacts.basic_keys options importData).
      * unfold SettingsManager.knownKeys. apply in_or_app. now right.
    + intros Hfalse. destruct Hkeys as [Hbasic|Hother].
      * unfold SettingsManager.basicItems in Hbasic.
        rewrite Hfalse in Hbasic. destruct Hbasic.
      * cbn [In] in Hother. intuition.
  - subst run. unfold SettingsManager.importSettings.
    destruct (SettingsManager.prepareImport fileContent options existing)
      as [effects [settingsToImport|error]] eqn:Hprep; [|discriminate].
    destruct (SettingsManagerFacts.prepared_items _ _ _ _ _ Hprep)
      as (importData & _ & Hvalid & _).
    destruct setError; [discriminate|]. auto.
  - intros Hvalid [existingProfiles ->] -> Htheme.
    subst run. unfold SettingsManager.importSettings.
    destruct (SettingsManagerFacts.valid_prepares fileContent options
                existingProfiles Hvalid) as (effects & items & Hprep).
    rewrite Hprep.
    destruct (SettingsManagerFacts.prepared_items _ _ _ _ _ Hprep)
      as (importData & Hparse & _ & _ & Hitem & _).
    unfold SettingsManager.themeToApply. rewrite Hitem.
    destruct (SettingsManager.givenOr
                (SettingsManager.overwriteExisting options) true);
      [|reflexivity].
    destruct (SettingsManager.member importData "theme") as [theme|] eqn:Hm;
      [|reflexivity].
    destruct (Json.truthy (Some theme)) eqn:Ht; [|reflexivity].
    destruct (Htheme importData theme Hparse Hm Ht) as [applied ->].
    reflexivity.
  - intros Hinvalid.
    assert (Hprep : exists effects error,
               SettingsManager.prepareImport fileContent options existing
               = (effects, Throw error)).
    { destruct (SettingsManager.prepareImport fileContent options existing)
        as [effects [items|error]] eqn:Hprep; [|now eexists _, _].
      destruct (SettingsManagerFacts.prepared_items _ _ _ _ _ Hprep)
        as (_ & _ & Hvalid & _). now elim Hinvalid. }
    destruct Hprep as (effects & error & Hprep). split.
    + subst run. unfold SettingsManager.importSettings. now rewrite Hprep.
    + intros items Hin.
      destruct (SettingsManagerFacts.written_items _ _ _ _ _ Hin)
        as [effects' Hprep'].
      congruence.
Qed.

(** X27. What a settings import can and cannot do.  Whatever the file
    holds, the names that [importSettings] hands to the storage are among
    the eleven basic settings, the profiles and the history, so that the
    trial, the subscription and the Telegram credentials are out of reach;
    and when the caller says not to overwrite, the basic settings are left
    out.  The import succeeds only for a file in the export format whose
    write goes through, and it does succeed when moreover the read of the
    stored profiles goes through and the theme of the file can be applied:
    the checksum of the file plays no part, a mismatch only leaves a warning
    on the console.  For a file that is not in the export format the import
    fails and nothing is written.  The option to import the Telegram
    credentials changes nothing. *)
Theorem import_reaches_known_settings_only :
  forall (fileContent : string) (options : SettingsManager.ImportOptions)
         (existing : completion (option json)) (setError : option exn),
    let run := SettingsManager.importSettings fileContent options existing
                 setError in
    (forall items key,
        In (SettingsManager.StorageSet items) (fst run) ->
        In key (map fst items) ->
        In key SettingsManager.knownKeys
        /\ (SettingsManager.overwriteExisting options = Some false ->
            key = "backupProfiles" \/ key = "backupHistory"))
    /\ (snd run = true ->
        SettingsManager.validFormat fileContent /\ setError = None)
    /\ (SettingsManager.validFormat fileContent ->
        (exists existingProfiles, existing = Normal existingProfiles) ->
        setError = None ->
        SettingsManager.themeApplies fileContent ->
        snd run = true)
    /\ (~ SettingsManager.validFormat fileContent ->
        snd run = false
        /\ forall items, ~ In (SettingsManager.StorageSet items) (fst run))
    /\ (forall answer,
           SettingsManager.importSettings fileContent
             {| SettingsManager.overwriteExisting :=
                  SettingsManager.overwriteExisting options;
                SettingsManager.importProfiles :=
                  SettingsManager.importProfiles options;
                SettingsManager.importHistory :=
                  SettingsManager.importHistory options;
                SettingsManager.importTelegram := answer |}
             existing setError
           = run).
Proof.
  intros fileContent options existing setError run.
  destruct (import_core fileContent options existing setError)
    as (H1 & H2 & H3 & H4).
  split; [exact H1|split; [exact H2|split; [exact H3|split; [exact H4|]]]].
  intros answer. subst run. now destruct options.
Qed.

Lemma import_reaches_known_settings_only_witness :
  let fileContent :=
    JSON_stringify
      (JObj [("theme", JStr "dark");
             ("trialStartDate", JStr "2099-01-01T00:00:00.000Z");
             ("subscriptionStatus", JStr "premium");
             ("metadata",
               JObj [("exportFormat", JStr "1.0");
                     ("checksum", JStr "0")])]) in
  let options :=
    {| SettingsManager.overwriteExisting := None;
       SettingsManager.importProfiles := None;
       SettingsManager.importHistory := None;
       SettingsManager.importTelegram := Some true |} in
  exists items,
    SettingsManager.importSettings fileContent options (Normal None) None
    = ([SettingsManager.ConsoleWarn
          "Checksum mismatch - file may have been modified";
        SettingsManager.StorageSet items;
        SettingsManager.ApplyTheme (JStr "dark");
        SettingsManager.SuccessMessage], true)
    /\ SettingsManager.item "theme" items = Some (JStr "dark")
    /\ ~ In "trialStartDate" (map fst items)
    /\ ~ In "subscriptionStatus" (map fst items).
Proof.
  intros fileContent options.
  eexists.
  assert (Hrun : SettingsManager.importSettings fileContent options
                   (Normal None) None
                 = ([SettingsManager.ConsoleWarn
                       "Checksum mismatch - file may have been modified";
                     SettingsManager.StorageSet
                       (SettingsManager.basicItems options
                          (JObj [("theme", JStr "dark");
                                 ("trialStartDate",
                                   JStr "2099-01-01T00:00:00.000Z");
                                 ("subscriptionStatus", JStr "premium");
                                 ("metadata",
                                   JObj [("exportFormat", JStr "1.0");
                                         ("checksum", JStr "0")])]));
                     SettingsManager.ApplyTheme (JStr "dark");
                     SettingsManager.SuccessMessage], true))
    by (vm_compute; reflexivity).
  split; [exact Hrun|]. split; [reflexivity|].
  pose proof (proj1 (import_reaches_known_settings_only fileContent options
                       (Normal None) None)) as Hkeys.
  rewrite Hrun in Hkeys. cbn [fst] in Hkeys.
  split; intros Hin;
    destruct (Hkeys _ _ (or_intror (or_introl eq_refl)) Hin) as [Hknown _];
    cbn in Hknown; intuition discriminate.
Defined.

(** A caller that says not to overwrite, and a theme that cannot be
    applied.  With [overwriteExisting] false only the profiles are handed
    to the storage.  With a theme of two words the settings are written,
    [applyTheme] then throws, and the import answers false. *)
Example import_keeps_the_choice_of_the_caller :
  let file theme :=
    JSON_stringify
      (JObj [("theme", JStr theme);
             ("backupProfiles", JObj [("work", JStr "p")]);
             ("metadata", JObj [("exportFormat", JStr "1.0")])]) in
  let options overwrite :=
    {| SettingsManager.overwriteExisting := overwrite;
       SettingsManager.importProfiles := Some true;
       SettingsManager.importHistory := Some false;
       SettingsManager.importTelegram := Some false |} in
  SettingsManager.importSettings (file "dark") (options (Some false))
    (Normal (Some (JObj [("home", JStr "q")]))) None
  = ([SettingsManager.StorageGet "backupProfiles";
      SettingsManager.StorageSet
        [("backupProfiles",
           Some (JObj [("home", JStr "q"); ("work", JStr "p")]))];
      SettingsManager.SuccessMessage], true)
  /\ exists items,
      SettingsManager.importSettings (file "solar flare") (options None)
        (Normal None) None
      = ([SettingsManager.StorageGet "backupProfiles";
          SettingsManager.StorageSet items;
          SettingsManager.ConsoleError "Error importing settings:";
          SettingsManager.ImportFailed (DOMException "InvalidCharacterError")],
         false).
Proof. split; [vm_compute; reflexivity|eexists; vm_compute; reflexivity]. Qed.

Module ResetFacts.
Import SettingsManager.

Lemma lookup_assign key k v members :
  Json.lookup key (Json.assign k v members)
  = if String.eqb key k then Some v else Json.lookup key members.
Proof.
  induction members as [|[k' v'] rest IH]; cbn [Json.assign Json.lookup].
  - reflexivity.
  - destruct (String.eqb_spec k k') as [->|Hne]; cbn [Json.lookup].
    + now destruct (String.eqb key k').
    + destruct (String.eqb_spec key k') as [->|Hk].
      * destruct (String.eqb_spec k' k); [congruence|reflexivity].
      * exact IH.
Qed.

Lemma lookup_set key items :
  forall storage,
    Json.lookup key (set items storage)
    = match Json.lookup key (rev items) with
      | Some v => Some v
      | None => Json.lookup key storage
      end.
Proof.
  unfold set. induction items as [|[k v] rest IH]; intros storage;
    cbn [fold_left rev]; [reflexivity|].
  rewrite IH. cbn [fst snd].
  assert (Happ : forall l,
             Json.lookup key (l ++ [(k, v)])
             = match Json.lookup key l with
               | Some x => Some x
               | None => if String.eqb key k then Some v else None
               end).
  { induction l as [|[k' v'] l IHl]; cbn [app Json.lookup]; [reflexivity|].
    now destruct (String.eqb key k'). }
  rewrite Happ, lookup_assign.
  destruct (Json.lookup key (rev rest)); [reflexivity|].
  now destruct (String.eqb key k).
Qed.

Lemma lookup_remove key keys storage :
  Json.lookup key (remove keys storage)
  = if existsb (String.eqb key) keys then None else Json.lookup key storage.
Proof.
  unfold remove.
  induction storage as [|[k v] rest IH]; cbn [filter Json.lookup fst].
  - now destruct (existsb (String.eqb key) keys).
  - destruct (existsb (String.eqb k) keys) eqn:Hk; cbn [negb Json.lookup].
    + rewrite IH. destruct (String.eqb_spec key k) as [->|_]; [|reflexivity].
      now rewrite Hk.
    + rewrite IH. destruct (String.eqb_spec key k) as [->|_]; [|reflexivity].
      now rewrite Hk.
Qed.

Lemma lookup_present key (storage : Storage) :
  Json.lookup key storage <> None -> In key (map fst storage).
Proof.
  induction storage as [|[k v] rest IH]; cbn [Json.lookup map fst In].
  - intros H. now elim H.
  - destruct (String.eqb_spec key k) as [->|_]; [now left|].
    intros H. right. now apply IH.
Qed.

End ResetFacts.

(** X28. A reset spares the trial and the payments.  After a confirmed
    [resetSettings] whose read and removal go through, the four protected
    names (the start of the trial, the status and the expiry of the
    subscription, the payment history) hold what they held before, every
    other name is gone, and the five default settings are in place, unless
    the write of the defaults is rejected: then the settings stay cleared
    and the reset reports a failure.  A reset that is declined, or whose read
    or removal is rejected, leaves the storage as it was. *)
Theorem reset_spares_protected_keys :
  forall (setError : option exn) (storage : SettingsManager.Storage)
         (key : string),
    let run := SettingsManager.resetSettings true None None setError storage in
    snd run = match setError with None => true | Some _ => false end
    /\ Json.lookup key (fst run)
       = (if existsb (String.eqb key) SettingsManager.protectedKeys
          then Json.lookup key storage
          else match setError with
               | None => Json.lookup key SettingsManager.defaults
               | Some _ => None
               end)
    /\ (forall getError removeError setError',
           SettingsManager.resetSettings false getError removeError setError'
             storage = (storage, false))
    /\ (forall getError removeError setError',
           getError <> None \/ removeError <> None ->
           SettingsManager.resetSettings true getError removeError setError'
             storage = (storage, false)).
Proof.
  intros setError storage key run.
  assert (Hcleared :
            Json.lookup key
              (SettingsManager.remove
                 (filter
                    (fun k =>
                       negb (existsb (String.eqb k)
                               SettingsManager.protectedKeys))
                    (map fst storage)) storage)
            = if existsb (String.eqb key) SettingsManager.protectedKeys
              then Json.lookup key storage else None).
  { rewrite ResetFacts.lookup_remove.
    destruct (existsb (String.eqb key) SettingsManager.protectedKeys) eqn:Hp.
    - destruct (existsb (String.eqb key) (filter _ (map fst storage))) eqn:Hr;
        [|reflexivity].
      apply existsb_exists in Hr. destruct Hr as (x & Hx & Heq).
      apply String.eqb_eq in Heq. subst x.
      apply filter_In in Hx as [_ Hx]. rewrite Hp in Hx. discriminate Hx.
    - destruct (existsb (String.eqb key) (filter _ (map fst storage))) eqn:Hr;
        [reflexivity|].
      destruct (Json.lookup key storage) eqn:Hl; [|reflexivity].
      exfalso.
      assert (Hin : In key (map fst storage))
        by (apply ResetFacts.lookup_present; congruence).
      assert (Ht : existsb (String.eqb key)
                     (filter
                        (fun k =>
                           negb (existsb (String.eqb k)
                                   SettingsManager.protectedKeys))
                        (map fst storage)) = true).
      { apply existsb_exists. exists key. split; [|apply String.eqb_refl].
        apply filter_In. split; [exact Hin|now rewrite Hp]. }
      congruence. }
  subst run. unfold SettingsManager.resetSettings. cbn [negb].
  split; [now destruct setError|]. split.
  - destruct setError as [error|]; cbn [fst]; [exact Hcleared|].
    rewrite ResetFacts.lookup_set, Hcleared.
    destruct (existsb (String.eqb key) SettingsManager.protectedKeys) eqn:Hp.
    + destruct (Json.lookup key (rev SettingsManager.defaults)) eqn:Hd;
        [|reflexivity].
      exfalso. cbn in Hp, Hd.
      repeat match type of Hd with
             | (if String.eqb key ?k then _ else _) = _ =>
                 destruct (String.eqb_spec key k);
                   [subst key; discriminate Hp|]
             end.
      discriminate Hd.
    + cbn [SettingsManager.defaults rev app Json.lookup].
      repeat match goal with
             | |- context [String.eqb key ?k] =>
                 destruct (String.eqb_spec key k); [subst key; reflexivity|]
             end.
      reflexivity.
  - split.
    + reflexivity.
    + intros getError removeError setError' [H|H].
      * destruct getError; [reflexivity|now elim H].
      * destruct getError; [reflexivity|].
        destruct removeError; [reflexivity|now elim H].
Qed.

Lemma reset_spares_protected_keys_witness :
  let storage :=
    [("theme", JStr "dark"); ("trialStartDate", JNum 1700000000000);
     ("backupHistory", JArr []); ("subscriptionStatus", JStr "trial")] in
  let after :=
    fst (SettingsManager.resetSettings true None None None storage) in
  Json.lookup "trialStartDate" after = Some (JNum 1700000000000)
  /\ Json.lookup "backupHistory" after = None
  /\ Json.lookup "theme" after = Some (JStr "light").
Proof.
  intros storage after.
  split; [|split].
  - exact (proj1 (proj2 (reset_spares_protected_keys None storage
                           "trialStartDate"))).
  - exact (proj1 (proj2 (reset_spares_protected_keys None storage
                           "backupHistory"))).
  - exact (proj1 (proj2 (reset_spares_protected_keys None storage "theme"))).
Defined.

Module TelegramFacts.
Import Telegram.

Lemma secure_token_passes token :
  validateBotToken token = true ->
  botTokenRegex token = true
  /\ token <> EmptyString
  /\ (37 <= String.length token)%nat.
Proof.
  unfold validateBotToken, botTokenRegex, digitsThen.
  destruct token as [|c rest]; [discriminate|].
  intros H. apply andb_true_iff in H as [Hc H].
  rewrite Hc. cbn [andb].
  assert (Hlen : forall s, (String.length (afterDigits s) <= String.length s)%nat).
  { induction s as [|x s IH]; [reflexivity|].
    cbn [afterDigits]. destruct (isDigit x); cbn [String.length] in *; lia. }
  specialize (Hlen rest).
  destruct (afterDigits rest) as [|a hash]; [discriminate H|].
  destruct (Ascii.eqb_spec a ":") as [->|Hne].
  2: { exfalso. revert H.
       destruct a as [[] [] [] [] [] [] [] []]; try discriminate.
       now elim Hne. }
  apply andb_true_iff in H as [Hn Hall]. apply Nat.eqb_eq in Hn.
  split; [|split; [discriminate|]].
  - rewrite Hall, andb_true_r. apply negb_true_iff, String.eqb_neq.
    intros ->. discriminate Hn.
  - cbn [String.length] in *. lia.
Qed.

Lemma chat_not_empty chatId : validateChatId chatId = true -> chatId <> EmptyString.
Proof. intros H ->. discriminate H. Qed.

Lemma lookup_assign_same key v items :
  Json.lookup key (Json.assign key v items) = Some v.
Proof.
  induction items as [|[k x] rest IH]; cbn [Json.assign Json.lookup].
  - now rewrite String.eqb_refl.
  - destruct (String.eqb_spec key k) as [->|Hne]; cbn [Json.lookup].
    + now rewrite String.eqb_refl.
    + destruct (String.eqb_spec key k); [contradiction|exact IH].
Qed.

Lemma getItem_setItem key v items :
  getItem key (setItem key v items) = Some v.
Proof.
  induction items as [|[k x] rest IH]; cbn [setItem getItem].
  - now rewrite String.eqb_refl.
  - destruct (String.eqb_spec key k) as [->|Hne]; cbn [getItem].
    + now rewrite String.eqb_refl.
    + destruct (String.eqb_spec key k); [contradiction|exact IH].
Qed.

Lemma credentials_usable botToken chatId now :
  botToken <> EmptyString -> chatId <> EmptyString ->
  usable (Some (credentialsObject botToken chatId now))
  = Some (JStr botToken, JStr chatId).
Proof.
  intros Hb Hc. unfold usable, credentialsObject.
  cbn [Json.truthy Json.prop Json.lookup String.eqb Ascii.eqb Bool.eqb].
  apply String.eqb_neq in Hb, Hc. now rewrite Hb, Hc.
Qed.

Lemma credentials_text_not_empty botToken chatId now :
  String.eqb (JSON_stringify (credentialsObject botToken chatId now))
    EmptyString = false.
Proof. reflexivity. Qed.

Lemma credentials_parse botToken chatId now :
  JSON_parse (JSON_stringify (credentialsObject botToken chatId now))
  = Some (credentialsObject botToken chatId now).
Proof.
  apply JsonFacts.parse_stringify. constructor.
  - cbn [map fst].
    repeat (constructor; [cbn [In]; intuition discriminate|]). constructor.
  - JsonFacts.plain_keys.
  - repeat constructor.
Qed.

End TelegramFacts.

(** X29. Saved Telegram credentials come back as they were.  A bot token
    that the validator of the secure storage accepts, with a chat id made of
    digits after an optional minus sign, passes the checks of
    [saveTelegramCredentials]; unless the fallback store is full,
    [loadTelegramCredentials] then gives back the same token and chat id,
    from the extension storage and from the fallback store alike, and with
    the extension storage [sendBackupToTelegram] hands the backup to the
    background script with exactly these credentials.  A token or chat id
    that fails its pattern leaves both stores as they were. *)
Theorem telegram_credentials_round_trip :
  forall (botToken chatId : string) (now : Z) (stores : Telegram.Stores),
    (Telegram.validateBotToken botToken = true ->
     Telegram.validateChatId chatId = true ->
     let saved :=
       Telegram.saveTelegramCredentials botToken chatId now false stores in
     snd saved = true
     /\ Telegram.loadTelegramCredentials (fst (fst saved))
        = Some (JStr botToken, JStr chatId)
     /\ (Telegram.chromeStorage stores <> None ->
         forall backupData filename,
           Telegram.sendBackupToTelegram backupData filename (fst (fst saved))
           = [Telegram.SendMessage backupData (JStr botToken) (JStr chatId)
                filename]))
    /\ (Telegram.botTokenRegex botToken = false
        \/ Telegram.validateChatId chatId = false ->
        forall quota,
          Telegram.saveTelegramCredentials botToken chatId now quota stores
          = (stores,
             [if Telegram.botTokenRegex botToken
                 && negb (String.eqb botToken EmptyString)
              then Telegram.ChatIdWarning else Telegram.TokenFormatWarning],
             false)).
Proof.
  intros botToken chatId now stores. split.
  - intros Htoken Hchat saved.
    destruct (TelegramFacts.secure_token_passes botToken Htoken)
      as (Hregex & Hne & Hlen).
    pose proof (TelegramFacts.chat_not_empty chatId Hchat) as Hcne.
    subst saved. unfold Telegram.saveTelegramCredentials.
    rewrite Hregex, Hchat.
    replace (String.eqb botToken EmptyString) with false
      by (symmetry; now apply String.eqb_neq).
    replace (String.eqb chatId EmptyString) with false
      by (symmetry; now apply String.eqb_neq).
    cbn [negb orb].
    destruct (Telegram.chromeStorage stores) as [items|] eqn:Hchrome;
      cbn [fst snd].
    + split; [reflexivity|]. split.
      * unfold Telegram.loadTelegramCredentials. cbn [Telegram.chromeStorage].
        rewrite TelegramFacts.lookup_assign_same.
        now apply TelegramFacts.credentials_usable.
      * intros _ backupData filename.
        unfold Telegram.sendBackupToTelegram. cbn [Telegram.chromeStorage].
        rewrite TelegramFacts.lookup_assign_same.
        now rewrite TelegramFacts.credentials_usable.
    + split; [reflexivity|]. split; [|intros H; now elim H].
      unfold Telegram.loadTelegramCredentials.
      cbn [Telegram.chromeStorage Telegram.localStorage].
      rewrite TelegramFacts.getItem_setItem,
        TelegramFacts.credentials_text_not_empty,
        TelegramFacts.credentials_parse.
      now apply TelegramFacts.credentials_usable.
  - intros Hbad quota. unfold Telegram.saveTelegramCredentials.
    destruct (Telegram.botTokenRegex botToken) eqn:Hregex; cbn [negb andb].
    + destruct Hbad as [Hbad|Hbad]; [discriminate Hbad|].
      rewrite Hbad, orb_false_r. cbn [negb]. rewrite orb_true_r.
      now destruct (String.eqb botToken EmptyString).
    + now rewrite orb_true_r.
Qed.

Lemma telegram_credentials_round_trip_witness :
  let botToken := "123456789:ABCdefGHIjklMNOpqrSTUvwxYZ0123456_-" in
  let stores :=
    {| Telegram.chromeStorage := None; Telegram.localStorage := [] |} in
  Telegram.loadTelegramCredentials
    (fst (fst (Telegram.saveTelegramCredentials botToken "-1001234567890"
                 1700000000000 false stores)))
  = Some (JStr botToken, JStr "-1001234567890").
Proof.
  intros botToken stores.
  exact (proj1 (proj2
           (proj1 (telegram_credentials_round_trip botToken "-1001234567890"
                     1700000000000 stores) eq_refl eq_refl))).
Defined.

Module MaskFacts.

Lemma substring_exact_length s :
  forall n m,
    (n + m <= String.length s)%nat -> String.length (substring n m s) = m.
Proof.
  induction s as [|c s IH]; intros n m H; cbn [String.length] in H.
  - assert (n = 0%nat /\ m = 0%nat) as [-> ->] by lia. reflexivity.
  - destruct n as [|n].
    + destruct m as [|m]; [reflexivity|].
      cbn [substring String.length]. f_equal. apply (IH 0%nat). lia.
    + cbn [substring]. apply IH. lia.
Qed.

Lemma substring_cut s :
  forall n,
    (n <= String.length s)%nat ->
    substring 0 n s ++ substring n (String.length s - n) s = s.
Proof.
  induction s as [|c s IH]; intros n H; cbn [String.length] in H.
  - assert (n = 0%nat) as -> by lia. reflexivity.
  - destruct n as [|n].
    + cbn [substring append String.length Nat.sub]. f_equal.
      specialize (IH 0%nat ltac:(lia)).
      rewrite Nat.sub_0_r in IH.
      destruct s; [reflexivity|]. cbn [substring append] in IH |- *.
      exact IH.
    + cbn [substring append String.length Nat.sub]. f_equal. apply IH. lia.
Qed.

End MaskFacts.

(** X30. The mask shows eight characters of a token.  For a token of at
    least eight characters [maskBotToken] gives eleven characters: the first
    four of the token, three dots and its last four; every token that the
    validator of the secure storage accepts is masked in this way.  A token
    of fewer than eight characters is shown whole. *)
Theorem mask_shows_eight_characters :
  forall token : string,
    ((8 <= String.length token)%nat ->
     exists first last before after,
       Telegram.maskBotToken token = first ++ "..." ++ last
       /\ token = first ++ after /\ token = before ++ last
       /\ String.length first = 4%nat /\ String.length last = 4%nat
       /\ String.length (Telegram.maskBotToken token) = 11%nat)
    /\ ((String.length token < 8)%nat -> Telegram.maskBotToken token = token)
    /\ (Telegram.validateBotToken token = true ->
        String.length (Telegram.maskBotToken token) = 11%nat).
Proof.
  intros token.
  assert (Hlong : (8 <= String.length token)%nat ->
            exists first last before after,
              Telegram.maskBotToken token = first ++ "..." ++ last
              /\ token = first ++ after /\ token = before ++ last
              /\ String.length first = 4%nat /\ String.length last = 4%nat
              /\ String.length (Telegram.maskBotToken token) = 11%nat).
  { intros H. unfold Telegram.maskBotToken.
    replace (String.eqb token EmptyString) with false
      by (symmetry; apply String.eqb_neq; intros ->; cbn in H; lia).
    replace (String.length token <? 8)%nat with false
      by (symmetry; apply Nat.ltb_ge; exact H).
    cbn [orb].
    assert (Hf : String.length (substring 0 4 token) = 4%nat)
      by (apply MaskFacts.substring_exact_length; lia).
    assert (Hl : String.length
                   (substring (String.length token - 4) 4 token) = 4%nat)
      by (apply MaskFacts.substring_exact_length; lia).
    exists (substring 0 4 token),
      (substring (String.length token - 4) 4 token),
      (substring 0 (String.length token - 4) token),
      (substring 4 (String.length token - 4) token).
    split; [reflexivity|]. split; [|split; [|split; [exact Hf|split;
                                                      [exact Hl|]]]].
    - symmetry. apply MaskFacts.substring_cut. lia.
    - pose proof (MaskFacts.substring_cut token (String.length token - 4)
                    ltac:(lia)) as Hcut.
      replace (String.length token - (String.length token - 4))%nat
        with 4%nat in Hcut by lia.
      now symmetry.
    - rewrite !JsonFacts.length_append, Hf, Hl. reflexivity. }
  split; [exact Hlong|split].
  - intros H. unfold Telegram.maskBotToken.
    replace (String.length token <? 8)%nat with true
      by (symmetry; apply Nat.ltb_lt; exact H).
    now rewrite orb_true_r.
  - intros Hvalid.
    destruct (TelegramFacts.secure_token_passes token Hvalid)
      as (_ & _ & Hlen).
    destruct (Hlong ltac:(lia)) as (f & l & b & a & _ & _ & _ & _ & _ & H).
    exact H.
Qed.

Lemma mask_shows_eight_characters_witness :
  Telegram.maskBotToken "123456789:ABCdefGHIjklMNOpqrSTUvwxYZ0123456_-"
  = "1234...56_-"
  /\ String.length
       (Telegram.maskBotToken "123456789:ABCdefGHIjklMNOpqrSTUvwxYZ0123456_-")
     = 11%nat.
Proof.
  split; [reflexivity|].
  exact (proj2 (proj2 (mask_shows_eight_characters
                         "123456789:ABCdefGHIjklMNOpqrSTUvwxYZ0123456_-"))
           eq_refl).
Defined.
